(** * LenkCare Homes synthetic data generator: identifier and checksum subsystem,
    incident generator, bed allocation and activity scheduling.

  Shallow embedding of [src/datagen/config.py], [src/datagen/generators.py]
  and [src/datagen/generate.py]. *)

From Stdlib Require Import ZArith QArith Lia Ascii String.
From stdpp Require Import base option list strings pretty gmap.
From Equations Require Import Equations.

Local Open Scope Z_scope.

(** ** Python strings

  A Python [str] is a [string]; the methods the generator uses are written
  out on it.  Characters are ASCII: the identifiers are built from the
  36-symbol alphabet and the tables of [config.py] are ASCII text. *)

Module PyStr.

(** [len(s)]. *)
Definition len (s : string) : Z := Z.of_nat (String.length s).

(** [c.upper()] for one character.  The characters of the model are the
    256 characters with code points 0 to 255: for them Python maps [a-z] to
    [A-Z] and maps no other character to a text that occurs in the alphabet
    [0-9A-Z] of the incident numbers, which is all the code uses the result
    for.  (Four characters above 255, which the model does not hold, are
    mapped into the alphabet by Python.) *)
Definition upper_char (c : ascii) : ascii :=
  let n := nat_of_ascii c in
  if (97 <=? n)%nat && (n <=? 122)%nat then ascii_of_nat (n - 32) else c.

(** [s.upper()]. *)
Fixpoint upper (s : string) : string :=
  match s with
  | EmptyString => EmptyString
  | String c s' => String (upper_char c) (upper s')
  end.

(** [c.lower()] for one character, and [s.lower()]: the letters [A-Z]
    become [a-z], every other character is kept. *)
Definition lower_char (c : ascii) : ascii :=
  let n := nat_of_ascii c in
  if (65 <=? n)%nat && (n <=? 90)%nat then ascii_of_nat (n + 32) else c.
Fixpoint lower (s : string) : string :=
  match s with
  | EmptyString => EmptyString
  | String c s' => String (lower_char c) (lower s')
  end.

(** [s.split(sep)] for a one-character separator. *)
Fixpoint split (sep : ascii) (s : string) : list string :=
  match s with
  | EmptyString => [EmptyString]
  | String c s' =>
      if decide (c = sep) then EmptyString :: split sep s'
      else match split sep s' with
           | part :: parts => String c part :: parts
           | [] => [String c EmptyString]
           end
  end.

(** [int(s)] for a text of decimal digits, the only texts the code passes
    to it; [None] stands for the [ValueError] of a text that is not one. *)
Definition digit_value (c : ascii) : option Z :=
  let n := nat_of_ascii c in
  if (48 <=? n)%nat && (n <=? 57)%nat then Some (Z.of_nat n - 48) else None.
Fixpoint int_loop (s : string) (acc : Z) : option Z :=
  match s with
  | EmptyString => Some acc
  | String c s' =>
      match digit_value c with
      | Some d => int_loop s' (10 * acc + d)
      | None => None
      end
  end.
Definition int_of_digits (s : string) : option Z :=
  match s with
  | EmptyString => None
  | _ => int_loop s 0
  end.

(** [s.index(c)] for a one-character needle: the position of its first
    occurrence, [None] where Python raises [ValueError]. *)
Fixpoint index (s : string) (c : ascii) : option Z :=
  match s with
  | EmptyString => None
  | String c' s' =>
      if decide (c' = c) then Some 0 else Z.succ <$> index s' c
  end.

(** [s[i]] for [0 <= i < len(s)]; [None] where Python raises [IndexError]. *)
Definition at_ (s : string) (i : Z) : option ascii :=
  if decide (0 <= i) then String.get (Z.to_nat i) s else None.

(** ["0" * n]. *)
Fixpoint zeros (n : nat) : string :=
  match n with
  | O => EmptyString
  | S n' => String "0" (zeros n')
  end.

(** [s.zfill(width)]: zeros are added on the left up to [width]; a leading
    sign stays in front of them. *)
Definition zfill (s : string) (width : Z) : string :=
  let fill := zeros (Z.to_nat (width - len s)) in
  match s with
  | String c s' =>
      if decide (c = "+"%char \/ c = "-"%char)
      then String c (fill +:+ s')
      else fill +:+ s
  | EmptyString => fill
  end.

(** [sep.join(parts)]. *)
Fixpoint join (sep : string) (parts : list string) : string :=
  match parts with
  | [] => EmptyString
  | [p] => p
  | p :: rest => p +:+ sep +:+ join sep rest
  end.

(** [s[:n]]. *)
Definition prefix (s : string) (n : nat) : string := String.substring 0 n s.

(** [sub in s] for strings. *)
Fixpoint contains (sub s : string) : bool :=
  String.prefix sub s
  || match s with
     | EmptyString => false
     | String _ s' => contains sub s'
     end.

(** The string with the character at position [i] replaced by [c] (a
    one-character transcription error). *)
Fixpoint mutate (s : string) (i : nat) (c : ascii) : string :=
  match s, i with
  | EmptyString, _ => EmptyString
  | String _ s', O => String c s'
  | String c' s', S i' => String c' (mutate s' i' c)
  end.

End PyStr.

(** ** Identifier and checksum subsystem ([IncidentGenerator], static part) *)

Module IncidentNumber.

(** The alphabet both [_to_base36] and the checksum index into. *)
Definition chars : string := "0123456789ABCDEFGHIJKLMNOPQRSTUVWXYZ".

(** [_get_incident_type_code]: [type_map.get(incident_type, "O")]. *)
Definition _get_incident_type_code (incident_type : string) : string :=
  if decide (incident_type = "Fall") then "F"
  else if decide (incident_type = "Medication") then "M"
  else if decide (incident_type = "Behavioral") then "B"
  else if decide (incident_type = "Medical") then "X"
  else if decide (incident_type = "Injury") then "I"
  else if decide (incident_type = "Elopement") then "E"
  else if decide (incident_type = "Other") then "O"
  else "O".

(** The [while value > 0] loop of [_to_base36]; [result] is the list the
    loop inserts into at position 0. *)
Equations? to_base36_loop (value : Z) (result : string) : string
  by wf (Z.to_nat value) lt :=
  to_base36_loop value result with decide (value > 0) := {
    | left _ =>
        (* [value % 36] is a valid index of [chars]: no [IndexError] here *)
        match PyStr.at_ chars (value mod 36) with
        | Some c => to_base36_loop (value / 36) (String c result)
        | None => result
        end
    | right _ => result }.
Proof.
  assert (value / 36 < value) by (apply Z.div_lt; lia).
  assert (0 <= value / 36) by (apply Z.div_pos; lia).
  lia.
Qed.

(** [_to_base36]. *)
Definition _to_base36 (value : Z) : string :=
  if decide (value = 0) then "0" else to_base36_loop value "".

(** One iteration of the checksum loop: state [(sum_val, factor)]. *)
Definition luhn_step (st : Z * Z) (c : ascii) : option (Z * Z) :=
  let '(sum_val, factor) := st in
  code_point ← PyStr.index chars (PyStr.upper_char c);
  let addend := factor * code_point in
  let addend := addend / 36 + addend mod 36 in
  Some (sum_val + addend, if decide (factor = 2) then 1 else 2).

(** The loop [for i in range(len(input_str) - 1, -1, -1)], run over the
    characters from the rightmost one. *)
Fixpoint luhn_loop (rev_input : list ascii) (st : Z * Z) : option (Z * Z) :=
  match rev_input with
  | [] => Some st
  | c :: rest => st' ← luhn_step st c; luhn_loop rest st'
  end.

(** [_calculate_luhn_mod36_checksum]; [None] where [chars.index] raises. *)
Definition _calculate_luhn_mod36_checksum (input_str : string) : option ascii :=
  st ← luhn_loop (reverse (list_ascii_of_string input_str)) (0, 2);
  let remainder := st.1 mod 36 in
  let check_code_point := (36 - remainder) mod 36 in
  PyStr.at_ chars check_code_point.

End IncidentNumber.

Import IncidentNumber.

(** ** Runtime model: seeded generators, OS entropy, wall clock, exceptions *)

Module Py.

(** The exceptions of the modelled code.  [OutOfFuel] is not a Python
    exception: a loop of the model that is given a bound on its iterations
    raises it when the bound is reached. *)
Inductive exn := IndexError | ValueError | KeyError | OutOfFuel.

(** What a run reads from outside the program text.  [rand] is the sequence
    of raw outputs of the [random] module after [random.seed(42)], [fake]
    the sequence of texts the seeded [Faker] instance returns, [urandom]
    the operating-system entropy [uuid.uuid4()] reads, [clock] the
    successive readings of [datetime.now()].  The cursors say how much of
    each was consumed. *)
Record World := mkWorld {
  rand : nat → Z;
  rand_pos : nat;
  fake : nat → string;
  fake_pos : nat;
  urandom : nat → Z;
  urandom_pos : nat;
  clock : nat → Z;
  clock_pos : nat
}.

Inductive result (A : Type) :=
| Ok (a : A) (w : World)
| Raise (e : exn).
Arguments Ok {A} a w.
Arguments Raise {A} e.

Definition M (A : Type) : Type := World → result A.

#[export] Instance M_ret : MRet M := λ A a w, Ok a w.
#[export] Instance M_bind : MBind M := λ A B f m w,
  match m w with
  | Ok a w' => f a w'
  | Raise e => Raise e
  end.

Definition raise {A} (e : exn) : M A := λ _, Raise e.

(** The next raw output of the seeded [random] module. *)
Definition next_raw : M Z := λ w,
  Ok (rand w (rand_pos w))
     (mkWorld (rand w) (S (rand_pos w)) (fake w) (fake_pos w)
              (urandom w) (urandom_pos w) (clock w) (clock_pos w)).

(** The next text of the seeded [Faker] instance ([fake.first_name()],
    [fake.street_address()], ...). *)
Definition faker : M string := λ w,
  Ok (fake w (fake_pos w))
     (mkWorld (rand w) (rand_pos w) (fake w) (S (fake_pos w))
              (urandom w) (urandom_pos w) (clock w) (clock_pos w)).

(** [uuid.uuid4()]: read from the operating system, not from the seeded
    generators.  An identifier is the number its [str(...)] prints. *)
Definition uuid4 : M Z := λ w,
  Ok (urandom w (urandom_pos w))
     (mkWorld (rand w) (rand_pos w) (fake w) (fake_pos w)
              (urandom w) (S (urandom_pos w)) (clock w) (clock_pos w)).

(** [datetime.now()]. *)
Definition now : M Z := λ w,
  Ok (clock w (clock_pos w))
     (mkWorld (rand w) (rand_pos w) (fake w) (fake_pos w)
              (urandom w) (urandom_pos w) (clock w) (S (clock_pos w))).

(** [random._randbelow(n)] for [n > 0]. *)
Definition randbelow (n : Z) : M Z := r ← next_raw; mret (r mod n).

(** [random.randint(a, b)]: an integer of [a..b], both ends included. *)
Definition randint (a b : Z) : M Z :=
  if decide (b < a) then raise ValueError
  else r ← randbelow (b - a + 1); mret (a + r).

(** [random.random()]: [k / 2^53] for a 53-bit [k]; a float is the
    rational it denotes. *)
Definition random : M Q := r ← randbelow (2 ^ 53); mret (Qmake r (2 ^ 53)).

(** [random.choice(seq)]. *)
Definition choice {A} (seq : list A) : M A :=
  i ← (if decide (seq = []) then raise IndexError
       else randbelow (Z.of_nat (length seq)));
  match seq !! Z.to_nat i with
  | Some x => mret x
  | None => raise IndexError
  end.

(** The selection loop of [random.sample]: [live] entries of [pool] are
    still available; entry [j] is taken and the last live entry moves into
    its place. *)
Fixpoint sample_loop {A} (pool : list A) (live : nat) (k : nat) : M (list A) :=
  match k with
  | O => mret []
  | S k' =>
      j ← randbelow (Z.of_nat live);
      match pool !! Z.to_nat j, pool !! (live - 1)%nat with
      | Some x, Some y =>
          rest ← sample_loop (<[Z.to_nat j := y]> pool) (live - 1) k';
          mret (x :: rest)
      | _, _ => raise IndexError
      end
  end.

(** [random.sample(population, k)]: [k] entries chosen without
    replacement. *)
Definition sample {A} (population : list A) (k : Z) : M (list A) :=
  if decide (0 ≤ k ≤ Z.of_nat (length population))
  then sample_loop population (length population) (Z.to_nat k)
  else raise ValueError.

(** [itertools.accumulate(weights)]. *)
Fixpoint accumulate (acc : Q) (weights : list Q) : list Q :=
  match weights with
  | [] => []
  | x :: rest => (acc + x)%Q :: accumulate (acc + x)%Q rest
  end.

(** [bisect.bisect_right(a, x, 0, hi)] on the sorted list [a]. *)
Fixpoint bisect (a : list Q) (x : Q) (hi : nat) : nat :=
  match a, hi with
  | y :: rest, S hi' => if Qle_bool y x then S (bisect rest x hi') else O
  | _, _ => O
  end.

(** [random.choices(values, weights=weights, k=1)[0]]. *)
Definition choices1 {A} (values : list A) (weights : list Q) : M A :=
  let cum_weights := accumulate 0 weights in
  if decide (length cum_weights ≠ length values) then raise ValueError
  else
    match last cum_weights with
    | None => raise IndexError
    | Some total =>
        if Qle_bool total 0 then raise ValueError
        else
          u ← random;
          match values !! bisect cum_weights (u * total)%Q (length values - 1) with
          | Some x => mret x
          | None => raise IndexError
          end
    end.

(** [d.get(key, default)] for a dictionary literal [d]. *)
Fixpoint dict_get {A} (d : list (string * A)) (key : string) (default : A) : A :=
  match d with
  | [] => default
  | (k, v) :: rest => if decide (k = key) then v else dict_get rest key default
  end.

(** The truth value of an optional text: [None] and the empty text are
    false. *)
Definition truthy (o : option string) : bool :=
  match o with
  | Some (String _ _) => true
  | _ => false
  end.

(** A world given by finite prefixes of its three sequences. *)
Definition world_of (rs : list Z) (fs : list string) (us : list Z) (clk : Z) : World :=
  mkWorld (λ i, nth i rs 0) 0 (λ i, nth i fs ""%string) 0 (λ i, nth i us 0) 0
          (λ _, clk) 0.

End Py.

Import Py.

(** ** [datetime] and [timedelta]

  A naive [datetime] is its number of microseconds on the proleptic
  time line, a [date] its day number, a [timedelta] a number of
  microseconds.  An ISO-8601 text written by [isoformat()] is represented
  by the value it prints, which [fromisoformat] reads back. *)

Module DT.

Definition usec_per_second : Z := 1000000.
Definition usec_per_minute : Z := 60000000.
Definition usec_per_hour : Z := 3600000000.
Definition usec_per_day : Z := 86400000000.

(** [timedelta(days=d)], [timedelta(hours=h)], [timedelta(minutes=m)]. *)
Definition days (d : Z) : Z := d * usec_per_day.
Definition hours (h : Z) : Z := h * usec_per_hour.
Definition minutes (m : Z) : Z := m * usec_per_minute.
Definition seconds (s : Z) : Z := s * usec_per_second.

(** [dt.date()] as a day number, and [datetime.fromisoformat] of a date
    text: midnight of that day. *)
Definition date (dt : Z) : Z := dt / usec_per_day.
Definition of_date (d : Z) : Z := d * usec_per_day.

(** [(a - b).days]. *)
Definition delta_days (a b : Z) : Z := (a - b) / usec_per_day.

(** [dt.replace(hour=h, minute=m, second=0, microsecond=0)]. *)
Definition replace_hms (dt h m : Z) : Z :=
  of_date (date dt) + hours h + minutes m.

(** The minute of the day that [dt.strftime("%H:%M")] prints. *)
Definition minute_of_day (dt : Z) : Z := dt mod usec_per_day / usec_per_minute.

(** [dt.replace(hour=h, minute=m)]: seconds and microseconds are kept. *)
Definition replace_hm (dt h m : Z) : Z :=
  of_date (date dt) + hours h + minutes m + dt mod usec_per_minute.

End DT.

(** ** [config.py]: the tables and helpers the modelled generators draw from *)

Module City.
Record t := mk { city : string; state : string; zip_prefix : string }.
End City.

Module Medication.
Record t := mk { name : string; dosage : string; route : string }.
End Medication.

Module Physician.
Record t := mk { name : string; phone : string }.
End Physician.

Module Location.
Record t := mk { name : string; address : option string; phone : option string }.
End Location.

Module ActivityInfo.
Record t := mk { name : string; category : string; group : bool }.
End ActivityInfo.

Module Observation.
Record t := mk { category : string; text : string }.
End Observation.

Module Config.

(** [END_DATE = datetime.now()] is read once, when the module is loaded, and
    is an input of everything that follows; [START_DATE] lies 730 days
    before it. *)
Definition START_DATE (END_DATE : Z) : Z := END_DATE - DT.days 730.

Definition HOME_NAME_PREFIXES : list string :=
  ["Sunrise"; "Golden"; "Peaceful"; "Caring"; "Harmony"; "Comfort";
   "Heritage"; "Grace"; "Haven"; "Serenity"; "Evergreen"; "Mountain View";
   "Lakeside"; "Cedar"; "Oak"]%string.

Definition HOME_NAME_SUFFIXES : list string :=
  ["Adult Family Home"; "Care Home"; "Residential Care"; "Home Care";
   "Family Home"]%string.

Definition DIAGNOSES : list string :=
  ["Alzheimer's disease"; "Vascular dementia"; "Parkinson's disease";
   "Type 2 Diabetes"; "Hypertension"; "Congestive Heart Failure"; "COPD";
   "Osteoarthritis"; "Chronic Kidney Disease"; "Atrial Fibrillation";
   "Stroke history"; "Depression"; "Anxiety disorder"; "Osteoporosis";
   "Hypothyroidism"; "Anemia"; "GERD"; "Urinary Incontinence";
   "Hearing Loss"; "Macular Degeneration"]%string.

Definition ALLERGIES : list string :=
  ["Penicillin"; "Sulfa drugs"; "Aspirin"; "NSAIDs"; "Latex"; "Shellfish";
   "Peanuts"; "Tree nuts"; "Eggs"; "Milk"; "Soy"; "Wheat"; "Codeine";
   "Morphine"; "Contrast dye"; "Bee stings"]%string.

Definition RELATIONSHIPS : list string :=
  ["Son"; "Daughter"; "Spouse"; "Brother"; "Sister"; "Nephew"; "Niece";
   "Grandson"; "Granddaughter"; "Friend"; "Power of Attorney"; "Guardian"]%string.

Definition DISCHARGE_REASONS : list string :=
  ["Transferred to skilled nursing facility"; "Returned home with family";
   "Hospitalized - higher level of care needed";
   "Transferred to memory care facility"; "Deceased"; "Family relocation";
   "Transferred to another AFH"]%string.

Definition ROM_EXERCISES : list string :=
  ["Passive arm raises"; "Ankle circles"; "Knee flexion exercises";
   "Shoulder rotations"; "Wrist flexion and extension";
   "Hip abduction exercises"; "Elbow flexion exercises"; "Neck stretches";
   "Finger flexion exercises"; "Ankle pumps"; "Leg raises (supine)";
   "Seated leg extensions"; "Arm circles"; "Hand grip exercises"; "Toe curls"]%string.

Definition MEDICATION_TIMES : list string :=
  ["06:00"; "07:00"; "08:00"; "09:00"; "12:00"; "13:00"; "14:00"; "17:00";
   "18:00"; "19:00"; "21:00"; "22:00"]%string.

Definition WA_CITIES : list City.t :=
  [City.mk "Seattle" "WA" "981";
   City.mk "Tacoma" "WA" "984";
   City.mk "Spokane" "WA" "992";
   City.mk "Bellevue" "WA" "980";
   City.mk "Kent" "WA" "980";
   City.mk "Everett" "WA" "982";
   City.mk "Renton" "WA" "980";
   City.mk "Federal Way" "WA" "980";
   City.mk "Olympia" "WA" "985";
   City.mk "Bellingham" "WA" "982"]%string.

Definition MEDICATIONS : list Medication.t :=
  [Medication.mk "Lisinopril" "10mg" "Oral";
   Medication.mk "Lisinopril" "20mg" "Oral";
   Medication.mk "Metformin" "500mg" "Oral";
   Medication.mk "Metformin" "1000mg" "Oral";
   Medication.mk "Amlodipine" "5mg" "Oral";
   Medication.mk "Amlodipine" "10mg" "Oral";
   Medication.mk "Metoprolol" "25mg" "Oral";
   Medication.mk "Metoprolol" "50mg" "Oral";
   Medication.mk "Omeprazole" "20mg" "Oral";
   Medication.mk "Losartan" "50mg" "Oral";
   Medication.mk "Atorvastatin" "20mg" "Oral";
   Medication.mk "Atorvastatin" "40mg" "Oral";
   Medication.mk "Levothyroxine" "50mcg" "Oral";
   Medication.mk "Levothyroxine" "75mcg" "Oral";
   Medication.mk "Gabapentin" "300mg" "Oral";
   Medication.mk "Sertraline" "50mg" "Oral";
   Medication.mk "Donepezil" "5mg" "Oral";
   Medication.mk "Donepezil" "10mg" "Oral";
   Medication.mk "Memantine" "10mg" "Oral";
   Medication.mk "Carbidopa-Levodopa" "25-100mg" "Oral";
   Medication.mk "Furosemide" "20mg" "Oral";
   Medication.mk "Furosemide" "40mg" "Oral";
   Medication.mk "Warfarin" "5mg" "Oral";
   Medication.mk "Aspirin" "81mg" "Oral";
   Medication.mk "Vitamin D3" "1000 IU" "Oral";
   Medication.mk "Calcium Carbonate" "500mg" "Oral";
   Medication.mk "Insulin Glargine" "10 units" "Injection";
   Medication.mk "Insulin Glargine" "20 units" "Injection";
   Medication.mk "Albuterol" "2 puffs" "Inhalation";
   Medication.mk "Fluticasone" "2 puffs" "Inhalation";
   Medication.mk "Nitroglycerin" "0.4mg" "Sublingual";
   Medication.mk "Lorazepam" "0.5mg" "Oral";
   Medication.mk "Acetaminophen" "500mg" "Oral";
   Medication.mk "Bisacodyl" "10mg" "Oral";
   Medication.mk "Docusate" "100mg" "Oral";
   Medication.mk "Eye Drops (Artificial Tears)" "2 drops" "Ophthalmic"]%string.

Definition PHYSICIANS : list Physician.t :=
  [Physician.mk "Dr. Sarah Mitchell" "(206) 555-0101";
   Physician.mk "Dr. James Chen" "(206) 555-0102";
   Physician.mk "Dr. Maria Rodriguez" "(253) 555-0103";
   Physician.mk "Dr. Michael Thompson" "(206) 555-0104";
   Physician.mk "Dr. Emily Watson" "(425) 555-0105";
   Physician.mk "Dr. David Kim" "(206) 555-0106";
   Physician.mk "Dr. Jennifer Lee" "(253) 555-0107";
   Physician.mk "Dr. Robert Johnson" "(206) 555-0108";
   Physician.mk "Dr. Lisa Patel" "(425) 555-0109";
   Physician.mk "Dr. William Garcia" "(360) 555-0110"]%string.

Definition ACTIVITIES : list ActivityInfo.t :=
  [ActivityInfo.mk "Bingo Night" "Recreational" true;
   ActivityInfo.mk "Movie Afternoon" "Recreational" true;
   ActivityInfo.mk "Music Therapy Session" "Recreational" true;
   ActivityInfo.mk "Arts and Crafts" "Recreational" true;
   ActivityInfo.mk "Puzzle Time" "Recreational" false;
   ActivityInfo.mk "Reading Time" "Recreational" false;
   ActivityInfo.mk "Card Games" "Social" true;
   ActivityInfo.mk "Family Visit" "Social" false;
   ActivityInfo.mk "Birthday Celebration" "Social" true;
   ActivityInfo.mk "Holiday Party" "Social" true;
   ActivityInfo.mk "Group Exercise Class" "Exercise" true;
   ActivityInfo.mk "Walking Program" "Exercise" false;
   ActivityInfo.mk "Chair Yoga" "Exercise" true;
   ActivityInfo.mk "Balance Exercises" "Exercise" false;
   ActivityInfo.mk "Pet Therapy Visit" "Other" true;
   ActivityInfo.mk "Garden Activity" "Other" true;
   ActivityInfo.mk "Cooking Class" "Other" true;
   ActivityInfo.mk "Religious Service" "Other" true]%string.

Definition BEHAVIOR_OBSERVATIONS : list Observation.t :=
  [Observation.mk "Behavior"
     "Resident was cooperative during morning care routine.";
   Observation.mk "Behavior"
     "Resident showed signs of agitation, redirected successfully.";
   Observation.mk "Behavior"
     "Resident engaged well with other residents during group activity.";
   Observation.mk "Behavior"
     "Resident refused to participate in activity, respected preference.";
   Observation.mk "Behavior"
     "Resident wandered during evening hours, gently redirected to room.";
   Observation.mk "Mood"
     "Resident appeared cheerful and talkative today.";
   Observation.mk "Mood"
     "Resident seemed withdrawn, encouraged social interaction.";
   Observation.mk "Mood"
     "Resident expressed missing family, provided emotional support.";
   Observation.mk "Mood"
     "Resident slept well and woke in good spirits.";
   Observation.mk "Mood"
     "Resident anxious about upcoming doctor visit.";
   Observation.mk "General"
     "Resident ate well at all meals today.";
   Observation.mk "General"
     "Resident had good appetite at breakfast, less at dinner.";
   Observation.mk "General"
     "Resident enjoyed watching favorite TV show.";
   Observation.mk "General"
     "Resident participated in physical therapy exercises.";
   Observation.mk "General"
     "Family called to check on resident, relayed message."]%string.

Definition INCIDENT_LOCATIONS : list string :=
  ["Bedroom"; "Bathroom"; "Living Room"; "Dining Room";
   "Kitchen"; "Hallway"; "Front Entrance"; "Back Yard";
   "Common Area"; "Medication Room"]%string.

Definition INCIDENT_TYPES : list (string * Q) :=
  [("Fall", 0.35); ("Medication", 0.15); ("Behavioral", 0.15);
   ("Medical", 0.15); ("Injury", 0.10); ("Other", 0.08);
   ("Elopement", 0.02)]%string%Q.

Definition APPOINTMENT_TYPES : list (string * Q) :=
  [("GeneralPractice", 0.25); ("Dental", 0.1); ("Ophthalmology", 0.08);
   ("Podiatry", 0.08); ("PhysicalTherapy", 0.08);
   ("OccupationalTherapy", 0.05); ("Cardiology", 0.07); ("Neurology", 0.05);
   ("Dermatology", 0.04); ("Psychiatry", 0.04); ("LabWork", 0.06);
   ("Imaging", 0.03); ("Audiology", 0.03); ("SpeechTherapy", 0.02);
   ("SocialWorker", 0.01); ("FamilyVisit", 0.01)]%string%Q.

Definition APPOINTMENT_STATUSES : list (string * Q) :=
  [("Completed", 0.8); ("Cancelled", 0.12); ("NoShow", 0.05);
   ("Rescheduled", 0.03)]%string%Q.

Definition APPOINTMENT_LOCATIONS : list Location.t :=
  [Location.mk "Overlake Medical Center"
     (Some "1035 116th Ave NE, Bellevue") (Some "(425) 555-0200");
   Location.mk "Virginia Mason Medical Center"
     (Some "1100 9th Ave, Seattle") (Some "(206) 555-0201");
   Location.mk "Providence Regional Medical Center"
     (Some "1321 Colby Ave, Everett") (Some "(425) 555-0202");
   Location.mk "MultiCare Tacoma General"
     (Some "315 Martin Luther King Jr Way, Tacoma") (Some "(253) 555-0203");
   Location.mk "Puget Sound Dental Clinic"
     (Some "2500 3rd Ave, Seattle") (Some "(206) 555-0210");
   Location.mk "Northwest Eye Associates"
     (Some "4700 Pt Fosdick Dr, Gig Harbor") (Some "(253) 555-0211");
   Location.mk "Seattle Podiatry Center"
     (Some "1600 E Jefferson St, Seattle") (Some "(206) 555-0212");
   Location.mk "Evergreen Physical Therapy"
     (Some "12040 NE 128th St, Kirkland") (Some "(425) 555-0213");
   Location.mk "Sound Cardiology Associates"
     (Some "1600 116th Ave NE, Bellevue") (Some "(425) 555-0214");
   Location.mk "Pacific Audiology Center"
     (Some "1500 Metropolitan Park Dr, Tacoma") (Some "(253) 555-0215");
   Location.mk "Cascade Imaging Center"
     (Some "1145 Broadway, Tacoma") (Some "(253) 555-0216");
   Location.mk "Quest Diagnostics"
     (Some "3100 Northup Way, Bellevue") (Some "(425) 555-0217");
   Location.mk "LabCorp Patient Service Center"
     (Some "600 University St, Seattle") (Some "(206) 555-0218");
   Location.mk "Home Visit" None None]%string.

Definition TRANSPORTATION_OPTIONS : list (option string) :=
  [Some "Family member will provide transportation";
   Some "Medical transport arranged via Hopelink";
   Some "Wheelchair accessible van scheduled";
   Some "Staff member to accompany resident";
   Some "Telehealth - no transportation needed";
   Some "Home visit - provider coming to facility";
   None]%string.

(** [weighted_choice]: the pairs are unzipped and handed to
    [random.choices]. *)
Definition weighted_choice {A} (choices : list (A * Q)) : M A :=
  choices1 (fst <$> choices) (snd <$> choices).

(** [random_date_between]: [delta.days] is the whole number of days in
    [end - start], rounded down. *)
Definition random_date_between (start end_ : Z) : M Z :=
  let delta_days := DT.delta_days end_ start in
  random_days ← randint 0 delta_days;
  random_seconds ← randint 0 86400;
  mret (start + (DT.days random_days + DT.seconds random_seconds)).

(** [random_working_hour_time]. *)
Definition random_working_hour_time (base_date : Z) : M Z :=
  hour ← randint 6 22;
  minute ← randint 0 59;
  mret (DT.replace_hms base_date hour minute).

End Config.

Import Config.

(** ** [generators.py]: [IncidentGenerator] *)

Module Photo.
(** [blobPath] is ["incident-photos/{home_id}/{incident_id}/{photo_id}.png"],
    kept as its three identifiers. *)
Record t := mk {
  id : Z;
  incidentId : Z;
  blobPath : Z * Z * Z;
  fileName : string;
  contentType : string;
  fileSizeBytes : Z;
  displayOrder : Z;
  caption : option string;
  createdAt : Z;
  createdById : Z;
  _sourceFile : string
}.
End Photo.

Module Incident.
(** The incident dictionary.  A key the code adds only under a condition,
    or sets to [None], is an [option]. *)
Record t := mk {
  id : Z;
  incidentNumber : string;
  clientId : option Z;
  homeId : Z;
  incidentType : string;
  severity : Z;
  status : string;
  occurredAt : Z;
  location : string;
  description : string;
  actionsTaken : string;
  reportedById : Z;
  createdAt : Z;
  updatedAt : option Z;
  closedAt : option Z;
  closureNotes : option string;
  closedById : option Z;
  photos : list Photo.t
}.
End Incident.

Module IncidentGenerator.

(** The two dictionaries an [IncidentGenerator] object carries. *)
Record t := mk {
  incident_counter_by_home : gmap Z Z;
  home_sequence_map : gmap Z Z
}.

(** [IncidentGenerator()]. *)
Definition __init__ : t := mk ∅ ∅.

Definition INCIDENT_IMAGES : list string :=
  ["image-001.png"; "image-002.png"; "image-003.png"; "image-004.png";
   "image-005.png"; "image-006.png"; "image-007.png"]%string.

(** [_generate_incident_number]. *)
Definition _generate_incident_number
    (self : t) (home_id : Z) (incident_type : string) (incident_count : Z)
    : option string :=
  let type_code := _get_incident_type_code incident_type in
  let home_sequence := default 1 (home_sequence_map self !! home_id) in
  let home_code := PyStr.upper (PyStr.zfill (_to_base36 home_sequence) 2) in
  let sequence := PyStr.upper (PyStr.zfill (_to_base36 incident_count) 4) in
  let payload := home_code +:+ sequence in
  let full_payload := type_code +:+ "IR" +:+ payload in
  checksum ← _calculate_luhn_mod36_checksum full_payload;
  Some (type_code +:+ "IR" +:+ payload +:+ String checksum "").

(** [_generate_description]: every entry of the dictionary literal is
    built, so the three [random.choice] calls always run. *)
Definition _generate_description (incident_type location : string) : M string :=
  med_pass ← choice ["morning"; "evening"]%string;
  complaint ← choice ["chest discomfort"; "shortness of breath";
                      "dizziness"; "severe headache"]%string;
  injury ← choice ["skin tear"; "bruise"; "abrasion"]%string;
  mret (
    if decide (incident_type = "Fall") then
      "Resident found on floor in " +:+ location
        +:+ ". Stated they lost balance while attempting to stand."
    else if decide (incident_type = "Medication") then
      "Medication administration error discovered during " +:+ med_pass
        +:+ " med pass."
    else if decide (incident_type = "Behavioral") then
      "Resident exhibited agitated behavior in " +:+ location
        +:+ ". Verbal intervention attempted."
    else if decide (incident_type = "Medical") then
      "Resident complained of " +:+ complaint +:+ " in " +:+ location +:+ "."
    else if decide (incident_type = "Injury") then
      "Resident sustained minor " +:+ injury +:+ " in " +:+ location +:+ "."
    else if decide (incident_type = "Elopement") then
      "Resident found attempting to leave facility through main entrance."
    else if decide (incident_type = "Other") then
      "Incident occurred in " +:+ location +:+ ". See detailed notes."
    else "Incident occurred in " +:+ location +:+ ".")%string.

(** [_generate_actions]. *)
Definition _generate_actions (incident_type : string) : string :=
  (if decide (incident_type = "Fall") then
     "Assessed for injuries. Vitals checked. Family notified. Incident documented. Fall risk reassessed."
   else if decide (incident_type = "Medication") then
     "Physician notified. Medication reconciliation performed. Additional staff training scheduled."
   else if decide (incident_type = "Behavioral") then
     "De-escalation techniques applied. Care plan reviewed. Family notified of behavior changes."
   else if decide (incident_type = "Medical") then
     "Vitals monitored. Physician contacted. Emergency services notified. Family updated on condition."
   else if decide (incident_type = "Injury") then
     "First aid administered. Wound care provided. Physician informed. Incident documented."
   else if decide (incident_type = "Elopement") then
     "Resident safely returned. Security measures reviewed. Family and physician notified."
   else if decide (incident_type = "Other") then
     "Appropriate intervention provided. Supervisor notified. Incident documented per policy."
   else "Appropriate actions taken. Incident documented.")%string.

(** [severity_map.get(incident_type, [2, 3])]. *)
Definition severity_map (incident_type : string) : list Z :=
  if decide (incident_type = "Fall"%string) then [2; 3; 3; 4]
  else if decide (incident_type = "Medication"%string) then [2; 2; 3]
  else if decide (incident_type = "Behavioral"%string) then [1; 2; 2; 3]
  else if decide (incident_type = "Medical"%string) then [2; 3; 3; 4]
  else if decide (incident_type = "Injury"%string) then [2; 3; 3; 4]
  else if decide (incident_type = "Elopement"%string) then [4; 4; 5]
  else if decide (incident_type = "Other"%string) then [1; 2; 2]
  else [2; 3].

Definition status_weights : list (string * Q) :=
  [("Closed", 0.75); ("UnderReview", 0.15); ("Submitted", 0.08);
   ("Draft", 0.02)]%string%Q.

Definition captions : list (option string) :=
  [Some "Photo of incident location"; Some "Documentation of affected area";
   Some "Evidence of incident conditions"; None]%string.

(** The loop [for i, image_file in enumerate(selected_images)] of
    [_generate_photos]. *)
Fixpoint photos_loop (i : Z) (selected_images : list string)
    (incident_id home_id uploader_id occurred_at : Z) : M (list Photo.t) :=
  match selected_images with
  | [] => mret []
  | image_file :: rest =>
      photo_id ← uuid4;
      size ← randint 50000 500000;
      cap ← choice captions;
      let photo :=
        Photo.mk photo_id incident_id (home_id, incident_id, photo_id)
          image_file "image/png" size i cap occurred_at uploader_id image_file in
      photos ← photos_loop (i + 1) rest incident_id home_id uploader_id occurred_at;
      mret (photo :: photos)
  end.

(** [_generate_photos]. *)
Definition _generate_photos (incident_id home_id uploader_id occurred_at : Z)
    : M (list Photo.t) :=
  num_photos ← randint 1 3;
  selected_images ←
    sample INCIDENT_IMAGES (num_photos `min` Z.of_nat (length INCIDENT_IMAGES));
  photos_loop 0 selected_images incident_id home_id uploader_id occurred_at.

(** [generate]: the record and the generator object after the call. *)
Definition generate (self : t) (home_id : Z) (client_id : option Z)
    (reporter_id occurred_at : Z) (home_sequence : option Z)
    (admin_user_ids : option (list Z)) : M (Incident.t * t) :=
  (* Track incident count for this home *)
  let counter :=
    if decide (incident_counter_by_home self !! home_id = None)
    then <[home_id := 0]> (incident_counter_by_home self)
    else incident_counter_by_home self in
  let count := default 0 (counter !! home_id) + 1 in
  let counter := <[home_id := count]> counter in
  (* Track home sequence if provided *)
  let seqmap :=
    match home_sequence with
    | Some hs =>
        if decide (home_sequence_map self !! home_id = None)
        then <[home_id := hs]> (home_sequence_map self)
        else home_sequence_map self
    | None => home_sequence_map self
    end in
  let self := mk counter seqmap in
  incident_type ← weighted_choice INCIDENT_TYPES;
  sev ← choice (severity_map incident_type);
  loc ← choice INCIDENT_LOCATIONS;
  st ← weighted_choice status_weights;
  incident_id ← uuid4;
  incident_number ←
    match _generate_incident_number self home_id incident_type count with
    | Some n => mret n
    | None => raise ValueError
    end;
  descr ← _generate_description incident_type loc;
  let actions := _generate_actions incident_type in
  (* Non-draft incidents have been updated at least once (when submitted) *)
  updated_at ←
    (if decide (st ≠ "Draft"%string)
     then update_offset ← randint 1 24;
          mret (Some (occurred_at + DT.hours update_offset))
     else mret None);
  '(updated_at, closed_at, closure_notes, closed_by) ←
    (if decide (st = "Closed"%string)
     then d ← randint 1 7;
          let close_date := occurred_at + DT.days d in
          closer ←
            match admin_user_ids with
            | Some (a :: l) => choice (a :: l)
            | _ => mret reporter_id
            end;
          mret (Some close_date, Some close_date,
                Some "Investigation complete. Preventive measures implemented."%string,
                Some closer)
     else mret (updated_at, None, None, None));
  photos ← _generate_photos incident_id home_id reporter_id occurred_at;
  mret (Incident.mk incident_id incident_number client_id home_id incident_type
          sev st occurred_at loc descr actions reporter_id occurred_at
          updated_at closed_at closure_notes closed_by photos,
        self).

(** The arguments of one [generate] call. *)
Record call := mkCall {
  call_home_id : Z;
  call_client_id : option Z;
  call_reporter_id : Z;
  call_occurred_at : Z;
  call_home_sequence : option Z;
  call_admin_user_ids : option (list Z)
}.

(** Successive [generate] calls on one generator object, and the incidents
    they return, in call order. *)
Fixpoint generate_all (self : t) (calls : list call) : M (list Incident.t * t) :=
  match calls with
  | [] => mret ([], self)
  | c :: rest =>
      '(incident, self) ←
        generate self (call_home_id c) (call_client_id c) (call_reporter_id c)
          (call_occurred_at c) (call_home_sequence c) (call_admin_user_ids c);
      '(incidents, self) ← generate_all self rest;
      mret (incident :: incidents, self)
  end.

End IncidentGenerator.

(** ** [generators.py]: homes, beds, users, clients, activities *)

Module Home.
Record t := mk {
  id : Z;
  name : string;
  address : string;
  city : string;
  state : string;
  zipCode : string;
  phoneNumber : string;
  capacity : Z;
  isActive : bool;
  createdAt : Z;
  createdById : option Z
}.
End Home.

Module Bed.
Record t := mk {
  id : Z;
  homeId : Z;
  label : string;
  status : string;
  isActive : bool;
  createdAt : Z
}.
End Bed.

Module User.
Record t := mk {
  id : Z;
  email : string;
  firstName : string;
  lastName : string;
  isActive : bool;
  isMfaSetupComplete : bool;
  invitationAccepted : bool;
  roles : list string;
  createdAt : Z
}.
End User.

Module HomeGenerator.

(** The generator object: [used_names] grows with every call. *)
Record t := mk {
  start_date : Z;
  end_date : Z;
  used_names : gset string
}.

Definition __init__ (start_date end_date : Z) : t := mk start_date end_date ∅.

(** The [while True] loop of [generate] that draws names until an unused
    one comes up.  The loop has no bound of its own; [fuel] bounds its
    iterations in the model. *)
Fixpoint unique_name (fuel : nat) (used_names : gset string) : M string :=
  match fuel with
  | O => raise OutOfFuel
  | S fuel' =>
      prefix ← choice HOME_NAME_PREFIXES;
      suffix ← choice HOME_NAME_SUFFIXES;
      let name := prefix +:+ " " +:+ suffix in
      if decide (name ∉ used_names) then mret name
      else unique_name fuel' used_names
  end.

(** [generate]. *)
Definition generate (fuel : nat) (self : t) (open_date : Z) (created_by_id : option Z)
    : M (Home.t * t) :=
  name ← unique_name fuel (used_names self);
  let self := mk (start_date self) (end_date self) ({[name]} ∪ used_names self) in
  location ← choice WA_CITIES;
  capacity ← choice [4; 5; 6];
  home_id ← uuid4;
  address ← faker;
  zip_suffix ← randint 10 99;
  phone ← faker;
  mret (Home.mk home_id name address (City.city location) (City.state location)
          (City.zip_prefix location +:+ pretty zip_suffix)
          (PyStr.prefix phone 14) capacity true open_date created_by_id,
        self).

(** The loop [for i in range(home["capacity"])] of [generate_beds]. *)
Fixpoint beds_loop (home : Home.t) (i : Z) (n : nat) : M (list Bed.t) :=
  match n with
  | O => mret []
  | S n' =>
      bed_id ← uuid4;
      let bed := Bed.mk bed_id (Home.id home) ("Room " +:+ pretty (i + 1))
                   "Available" true (Home.createdAt home) in
      beds ← beds_loop home (i + 1) n';
      mret (bed :: beds)
  end.

(** [generate_beds]. *)
Definition generate_beds (home : Home.t) : M (list Bed.t) :=
  beds_loop home 0 (Z.to_nat (Home.capacity home)).

End HomeGenerator.

Module Client.
(** The client dictionary.  [admissionDate], [dateOfBirth] and
    [dischargeDate] are dates; [dischargeDate] and [dischargeReason] are
    keys the code adds on discharge. *)
Record t := mk {
  id : Z;
  firstName : string;
  lastName : string;
  dateOfBirth : Z;
  gender : string;
  admissionDate : Z;
  homeId : Z;
  bedId : Z;
  primaryPhysician : string;
  primaryPhysicianPhone : string;
  emergencyContactName : string;
  emergencyContactPhone : string;
  emergencyContactRelationship : string;
  allergies : option string;
  diagnoses : string;
  medicationList : string;
  isActive : bool;
  createdAt : Z;
  createdById : Z;
  dischargeDate : option Z;
  dischargeReason : option string;
  _medications : list Medication.t
}.

(** The three assignments of a discharge: [c["dischargeDate"] = ...],
    [c["dischargeReason"] = ...], [c["isActive"] = False]. *)
Definition discharge (c : t) (date : Z) (reason : string) : t :=
  mk (id c) (firstName c) (lastName c) (dateOfBirth c) (gender c)
     (admissionDate c) (homeId c) (bedId c) (primaryPhysician c)
     (primaryPhysicianPhone c) (emergencyContactName c)
     (emergencyContactPhone c) (emergencyContactRelationship c)
     (allergies c) (diagnoses c) (medicationList c) false (createdAt c)
     (createdById c) (Some date) (Some reason) (_medications c).
End Client.

Module ClientGenerator.

(** [generate]; the generator object carries a [used_names] set that
    [generate] never reads or writes. *)
Definition generate (home_id bed_id admission_date caregiver_id : Z)
    (discharged : bool) (discharge_date : option Z) : M Client.t :=
  gender ← choice ["Male"; "Female"]%string;
  first ← faker;
  last ← faker;
  (* Age 65-95 at admission *)
  age_at_admission ← randint 65 95;
  extra_days ← randint 0 364;
  let dob := admission_date - DT.days (age_at_admission * 365 + extra_days) in
  num_diagnoses ← randint 1 4;
  diagnoses ← sample DIAGNOSES num_diagnoses;
  num_allergies ← randint 0 3;
  allergies ← (if decide (num_allergies > 0) then sample ALLERGIES num_allergies
               else mret []);
  num_meds ← randint 3 8;
  meds ← sample MEDICATIONS num_meds;
  let med_list := (λ m, Medication.name m +:+ " " +:+ Medication.dosage m) <$> meds in
  physician ← choice PHYSICIANS;
  ec_first ← faker;
  u ← random;
  ec_last ← (if negb (Qle_bool u 0.3) then mret last else faker);
  client_id ← uuid4;
  ec_phone ← faker;
  relationship ← choice RELATIONSHIPS;
  let client :=
    Client.mk client_id first last (DT.date dob) gender (DT.date admission_date)
      home_id bed_id (Physician.name physician) (Physician.phone physician)
      (ec_first +:+ " " +:+ ec_last) (PyStr.prefix ec_phone 14) relationship
      (match allergies with [] => None | _ => Some (String.concat ", " allergies) end)
      (String.concat ", " diagnoses) (String.concat ", " med_list)
      (negb discharged) admission_date caregiver_id None None meds in
  match discharged, discharge_date with
  | true, Some d =>
      reason ← choice DISCHARGE_REASONS;
      mret (Client.discharge client (DT.date d) reason)
  | _, _ => mret client
  end.

End ClientGenerator.

Module Participant.
Record t := mk {
  id : Z;
  activityId : Z;
  clientId : Z;
  createdAt : Z
}.
End Participant.

Module Activity.
(** [date] is a date; [startTime] and [endTime], printed as [HH:MM], are
    minutes after midnight. *)
Record t := mk {
  id : Z;
  homeId : Z;
  activityName : string;
  description : string;
  date : Z;
  startTime : Z;
  endTime : Z;
  duration : Z;
  category : string;
  isGroupActivity : bool;
  createdById : Z;
  createdAt : Z;
  updatedAt : option Z;
  participants : list Participant.t
}.
End Activity.

Module ActivityGenerator.

(** The comprehension that builds one participant record per chosen
    client. *)
Fixpoint participant_records (activity_id created_at : Z) (participants : list Z)
    : M (list Participant.t) :=
  match participants with
  | [] => mret []
  | cid :: rest =>
      pid ← uuid4;
      records ← participant_records activity_id created_at rest;
      mret (Participant.mk pid activity_id cid created_at :: records)
  end.

(** [generate]; the [activity_counter] of the object is never used. *)
Definition generate (home_id caregiver_id activity_date : Z) (client_ids : list Z)
    : M Activity.t :=
  activity_info ← choice ACTIVITIES;
  participants ←
    (if ActivityInfo.group activity_info
     then (* Group activity - include 2-6 clients *)
          n ← randint 2 6;
          sample client_ids (Z.of_nat (length client_ids) `min` n)
     else (* Individual activity *)
          c ← choice client_ids; mret [c]);
  start_hour ← randint 9 16;
  duration_minutes ← choice [30; 45; 60; 90];
  let start_time := DT.replace_hm activity_date start_hour 0 in
  let end_time := start_time + DT.minutes duration_minutes in
  activity_id ← uuid4;
  let created_at := activity_date in
  records ← participant_records activity_id created_at participants;
  mret (Activity.mk activity_id home_id (ActivityInfo.name activity_info)
          (ActivityInfo.name activity_info +:+ " activity session")
          (DT.date activity_date) (DT.minute_of_day start_time)
          (DT.minute_of_day end_time) duration_minutes
          (ActivityInfo.category activity_info) (ActivityInfo.group activity_info)
          caregiver_id created_at None records).

End ActivityGenerator.

(** ** [generators.py]: [UserGenerator] *)

Module Assignment.
Record t := mk {
  id : Z;
  userId : Z;
  homeId : Z;
  assignedAt : Z;
  assignedById : option Z;
  isActive : bool
}.
End Assignment.

Module Caregiver.
(** The dictionary [generate_caregiver] returns: the keys of a user and
    the key [homeAssignments]. *)
Record t := mk {
  user : User.t;
  homeAssignments : list Assignment.t
}.
End Caregiver.

Module UserGenerator.

(** The generator object: [used_emails] grows with every call. *)
Record t := mk { used_emails : gset string }.

Definition __init__ : t := mk ∅.

(** [f"{first.lower()}.{last.lower()}{counter}@lenkcare.example.com"];
    the first address tried has no counter. *)
Definition address (first last : string) (counter : option Z) : string :=
  PyStr.lower first +:+ "." +:+ PyStr.lower last
    +:+ from_option pretty EmptyString counter +:+ "@lenkcare.example.com".

(** The loop [while email in self.used_emails] of [_unique_email]; [fuel]
    bounds its iterations in the model. *)
Fixpoint unique_email_loop (fuel : nat) (used_emails : gset string)
    (first last email : string) (counter : Z) : option string :=
  match fuel with
  | O => None
  | S fuel' =>
      if decide (email ∈ used_emails)
      then unique_email_loop fuel' used_emails first last
             (address first last (Some counter)) (counter + 1)
      else Some email
  end.

(** [_unique_email]. *)
Definition _unique_email (fuel : nat) (self : t) (first last : string)
    : M (string * t) :=
  let base := address first last None in
  match unique_email_loop fuel (used_emails self) first last base 1 with
  | Some email => mret (email, mk ({[email]} ∪ used_emails self))
  | None => raise OutOfFuel
  end.

(** [generate_admin] and [generate_sysadmin] differ in the role. *)
Definition generate_with_role (role : string) (fuel : nat) (self : t)
    (created_at : Z) : M (User.t * t) :=
  first ← faker;
  last ← faker;
  '(email, self) ← _unique_email fuel self first last;
  user_id ← uuid4;
  mret (User.mk user_id email first last true true true [role] created_at, self).
Definition generate_admin : nat → t → Z → M (User.t * t) :=
  generate_with_role "Admin".
Definition generate_sysadmin : nat → t → Z → M (User.t * t) :=
  generate_with_role "Sysadmin".

(** The loop [for home_id in home_ids] of [generate_caregiver]. *)
Fixpoint assignments_loop (user_id created_at : Z) (assigned_by_id : option Z)
    (home_ids : list Z) : M (list Assignment.t) :=
  match home_ids with
  | [] => mret []
  | home_id :: rest =>
      assignment_id ← uuid4;
      assignments ← assignments_loop user_id created_at assigned_by_id rest;
      mret (Assignment.mk assignment_id user_id home_id created_at
                          assigned_by_id true :: assignments)
  end.

(** [generate_caregiver]. *)
Definition generate_caregiver (fuel : nat) (self : t) (created_at : Z)
    (home_ids : list Z) (assigned_by_id : option Z) : M (Caregiver.t * t) :=
  first ← faker;
  last ← faker;
  '(email, self) ← _unique_email fuel self first last;
  user_id ← uuid4;
  let caregiver :=
    User.mk user_id email first last true true true ["Caregiver"%string]
            created_at in
  assignments ← assignments_loop user_id created_at assigned_by_id home_ids;
  mret (Caregiver.mk caregiver assignments, self).

End UserGenerator.

(** ** [generators.py]: the care-log generators *)

Module ADLLog.
Record t := mk {
  id : Z;
  clientId : Z;
  caregiverId : Z;
  timestamp : Z;
  bathing : string;
  dressing : string;
  toileting : string;
  transferring : string;
  continence : string;
  feeding : string;
  notes : option string;
  createdAt : Z
}.
End ADLLog.

Module ADLLogGenerator.

(** [_get_levels]: adjust levels based on overall independence. *)
Definition _get_levels (independence : string) : list string :=
  if decide (independence = "Independent"%string)
  then ["Independent"; "Independent"; "PartialAssist"]%string
  else if decide (independence = "PartialAssist"%string)
  then ["Independent"; "PartialAssist"; "PartialAssist"; "Dependent"]%string
  else ["PartialAssist"; "Dependent"; "Dependent"]%string.

Definition note_texts : list string :=
  ["Resident cooperative during care.";
   "Required extra assistance today.";
   "Good day overall.";
   "Resident fatigued this morning.";
   "Completed all tasks with minimal assistance."]%string.

(** [_generate_note]. *)
Definition _generate_note : M (option string) :=
  u ← random;
  if negb (Qle_bool u 0.7) then note ← choice note_texts; mret (Some note)
  else mret None.

(** [generate]. *)
Definition generate (client_id caregiver_id timestamp : Z)
    (independence_level : string) : M ADLLog.t :=
  let levels := _get_levels independence_level in
  log_id ← uuid4;
  bathing ← choice levels;
  dressing ← choice levels;
  toileting ← choice levels;
  transferring ← choice levels;
  continence ← choice levels;
  feeding ← choice levels;
  notes ← _generate_note;
  mret (ADLLog.mk log_id client_id caregiver_id timestamp bathing dressing
                  toileting transferring continence feeding notes timestamp).

End ADLLogGenerator.

Module VitalsLog.
(** [temperature] is [round(98.6 + random.uniform(-0.8, 1.2), 1)], computed
    in floating point from one draw of [random.random()]; the record keeps
    that draw, [temperature_draw], in its place. *)
Record t := mk {
  id : Z;
  clientId : Z;
  caregiverId : Z;
  timestamp : Z;
  systolicBP : Z;
  diastolicBP : Z;
  pulse : Z;
  temperature_draw : Q;
  temperatureUnit : string;
  oxygenSaturation : Z;
  notes : option string;
  createdAt : Z
}.
End VitalsLog.

Module VitalsLogGenerator.

(** [_generate_note]: notes for abnormal vitals. *)
Definition _generate_note (systolic o2 : Z) : option string :=
  let notes :=
    (if decide (systolic > 150) then ["Elevated BP noted, will monitor."%string]
     else [])
    ++ (if decide (o2 < 92)
        then ["O2 sat lower than usual, encouraged deep breathing."%string]
        else []) in
  match notes with
  | [] => None
  | _ => Some (PyStr.join " " notes)
  end.

(** [generate]; [has_diabetes] is a parameter the body never reads. *)
Definition generate (client_id caregiver_id timestamp : Z)
    (has_hypertension has_diabetes : bool) : M VitalsLog.t :=
  let systolic_base := if has_hypertension then 140 else 120 in
  r ← randint (-15) 20;
  let systolic := systolic_base + r in
  r ← randint (-10) 15;
  let diastolic := 80 + r in
  r ← randint (-12) 18;
  let pulse := 72 + r in
  temp ← random;
  r ← randint (-5) 3;
  let o2 := 100 `min` (88 `max` (97 + r)) in
  log_id ← uuid4;
  mret (VitalsLog.mk log_id client_id caregiver_id timestamp systolic diastolic
                     pulse temp "Fahrenheit" o2 (_generate_note systolic o2)
                     timestamp).

End VitalsLogGenerator.

Module MedicationLog.
Record t := mk {
  id : Z;
  clientId : Z;
  caregiverId : Z;
  timestamp : Z;
  medicationName : string;
  dosage : string;
  route : string;
  status : string;
  scheduledTime : Z;
  notes : option string;
  createdAt : Z
}.
End MedicationLog.

Module MedicationLogGenerator.

(** Most medications are administered successfully. *)
Definition status_weights : list (string * Q) :=
  [("Administered", 0.92); ("Refused", 0.04); ("GivenLate", 0.02);
   ("GivenEarly", 0.01); ("Held", 0.01)]%string%Q.

(** [_generate_note]: note for non-standard administration. *)
Definition _generate_note (status : string) : string :=
  if decide (status = "Refused"%string)
  then "Resident refused medication. Physician notified."
  else if decide (status = "Held"%string)
  then "Medication held per physician order."
  else if decide (status = "GivenLate"%string)
  then "Administered late due to schedule conflict."
  else if decide (status = "GivenEarly"%string)
  then "Given early per resident request."
  else "".

(** [hour, minute = map(int, scheduled_time_str.split(":"))] and
    [timestamp.replace(hour=hour, minute=minute, second=0, microsecond=0)]. *)
Definition scheduled_datetime (timestamp : Z) (scheduled_time_str : string) : M Z :=
  match PyStr.int_of_digits <$> PyStr.split ":" scheduled_time_str with
  | [Some hour; Some minute] =>
      if decide (0 ≤ hour ≤ 23 ∧ 0 ≤ minute ≤ 59)
      then mret (DT.replace_hms timestamp hour minute)
      else raise ValueError
  | _ => raise ValueError
  end.

(** [generate]. *)
Definition generate (client_id caregiver_id timestamp : Z)
    (medication : Medication.t) : M MedicationLog.t :=
  status ← weighted_choice status_weights;
  (* Pick a scheduled time and convert to full datetime *)
  scheduled_time_str ← choice MEDICATION_TIMES;
  scheduled ← scheduled_datetime timestamp scheduled_time_str;
  log_id ← uuid4;
  mret (MedicationLog.mk log_id client_id caregiver_id timestamp
          (Medication.name medication) (Medication.dosage medication)
          (Medication.route medication) status scheduled
          (if decide (status ≠ "Administered"%string)
           then Some (_generate_note status) else None)
          timestamp).

End MedicationLogGenerator.

Module ROMLog.
Record t := mk {
  id : Z;
  clientId : Z;
  caregiverId : Z;
  timestamp : Z;
  activityDescription : string;
  duration : Z;
  repetitions : option Z;
  notes : option string;
  createdAt : Z
}.
End ROMLog.

Module ROMLogGenerator.

Definition note_texts : list string :=
  ["Good range of motion maintained.";
   "Slight stiffness noted, gentle stretching performed.";
   "Resident tolerated exercises well.";
   "Modified exercises due to fatigue."]%string.

(** [_generate_note]. *)
Definition _generate_note : M (option string) :=
  u ← random;
  if negb (Qle_bool u 0.8) then note ← choice note_texts; mret (Some note)
  else mret None.

(** [generate]. *)
Definition generate (client_id caregiver_id timestamp : Z) : M ROMLog.t :=
  exercise ← choice ROM_EXERCISES;
  duration ← choice [5; 10; 15; 20];
  reps ← choice [None; Some 5; Some 10; Some 15; Some 20];
  log_id ← uuid4;
  notes ← _generate_note;
  mret (ROMLog.mk log_id client_id caregiver_id timestamp exercise duration reps
                  notes timestamp).

End ROMLogGenerator.

Module BehaviorNote.
Record t := mk {
  id : Z;
  clientId : Z;
  caregiverId : Z;
  timestamp : Z;
  category : string;
  noteText : string;
  severity : string;
  createdAt : Z
}.
End BehaviorNote.

Module BehaviorNoteGenerator.

Definition severity_weights : list (string * Q) :=
  [("Low", 0.70); ("Medium", 0.25); ("High", 0.05)]%string%Q.

(** [generate]. *)
Definition generate (client_id caregiver_id timestamp : Z) : M BehaviorNote.t :=
  observation ← choice BEHAVIOR_OBSERVATIONS;
  severity ← weighted_choice severity_weights;
  note_id ← uuid4;
  mret (BehaviorNote.mk note_id client_id caregiver_id timestamp
          (Observation.category observation) (Observation.text observation)
          severity timestamp).

End BehaviorNoteGenerator.

(** ** [generators.py]: [AppointmentGenerator] *)

Module Appointment.
(** The appointment dictionary; [completedAt], [completedById] and
    [outcomeNotes] are keys the code adds for past appointments. *)
Record t := mk {
  id : Z;
  clientId : Z;
  homeId : Z;
  appointmentType : string;
  status : string;
  title : string;
  scheduledAt : Z;
  durationMinutes : Z;
  location : string;
  providerName : option string;
  providerPhone : option string;
  notes : option string;
  transportationNotes : option string;
  reminderSent : bool;
  createdById : Z;
  createdAt : Z;
  completedAt : option Z;
  completedById : option Z;
  outcomeNotes : option string
}.
End Appointment.

Module AppointmentGenerator.

(** The class attributes and the dictionary literals of the methods. *)
Definition TITLE_TEMPLATES : list (string * list string) :=
  [("GeneralPractice",
    ["Primary care checkup"; "Follow-up visit"; "Annual physical";
      "Wellness visit"]);
   ("Dental",
    ["Dental checkup"; "Teeth cleaning"; "Dental exam";
      "Oral health screening"]);
   ("Ophthalmology",
    ["Eye exam"; "Vision screening"; "Ophthalmology follow-up";
      "Glaucoma check"]);
   ("Podiatry",
    ["Podiatry visit"; "Foot care appointment"; "Diabetic foot check";
      "Nail care"]);
   ("PhysicalTherapy",
    ["PT session"; "Physical therapy"; "Gait training";
      "Strength assessment"]);
   ("OccupationalTherapy",
    ["OT session"; "Occupational therapy"; "ADL assessment";
      "Home safety review"]);
   ("SpeechTherapy",
    ["Speech therapy session"; "Swallowing evaluation";
      "Communication therapy"]);
   ("Psychiatry",
    ["Psychiatry follow-up"; "Mental health check";
      "Medication review - Psych"]);
   ("Dermatology",
    ["Skin check"; "Dermatology appointment"; "Rash evaluation";
      "Skin cancer screening"]);
   ("Cardiology",
    ["Cardiology follow-up"; "Heart checkup"; "Cardiac evaluation";
      "Pacemaker check"]);
   ("Neurology",
    ["Neurology appointment"; "Cognitive assessment"; "Tremor evaluation";
      "Memory clinic"]);
   ("LabWork", ["Lab work - routine"; "Blood draw"; "Lab tests"; "Fasting lab work"]);
   ("Imaging", ["X-ray"; "CT scan"; "MRI"; "Ultrasound"; "Bone density scan"]);
   ("Audiology", ["Hearing test"; "Audiology check"; "Hearing aid adjustment"; "Ear exam"]);
   ("SocialWorker", ["Social services meeting"; "Care coordination"; "Benefits review"]);
   ("FamilyVisit", ["Family care conference"; "Family meeting"; "Care planning meeting"]);
   ("Other", ["Medical appointment"; "Specialist visit"; "Healthcare appointment"])]%string.

Definition OUTCOME_TEMPLATES : list (string * list string) :=
  [("Completed",
    ["Appointment completed as scheduled. No concerns noted.";
      "Visit went well. Follow-up scheduled in 3 months.";
      "Good outcome. Medication adjusted as needed.";
      "Resident tolerated appointment well. Results pending.";
      "Stable condition noted. Continue current care plan.";
      "Provider satisfied with progress. No changes to treatment."]);
   ("Cancelled",
    ["Cancelled due to resident illness.";
      "Cancelled - weather conditions.";
      "Cancelled by provider office - rescheduled.";
      "Family requested cancellation.";
      "Cancelled - transportation unavailable."]);
   ("NoShow",
    ["Resident refused to go to appointment.";
      "Missed appointment - scheduling error.";
      "Could not attend due to acute illness."]);
   ("Rescheduled",
    ["Rescheduled to better accommodate resident's needs.";
      "Provider requested reschedule.";
      "Rescheduled due to conflicting appointment."])]%string.

Definition duration_ranges : list (string * list Z) :=
  [("GeneralPractice", [30; 45; 60]);
   ("Dental", [30; 45; 60]);
   ("Ophthalmology", [30; 45]);
   ("Podiatry", [30; 45]);
   ("PhysicalTherapy", [45; 60]);
   ("OccupationalTherapy", [45; 60]);
   ("SpeechTherapy", [30; 45]);
   ("Psychiatry", [30; 45; 60]);
   ("Dermatology", [15; 30]);
   ("Cardiology", [30; 45; 60]);
   ("Neurology", [45; 60]);
   ("LabWork", [15; 30]);
   ("Imaging", [30; 60; 90]);
   ("Audiology", [30; 45; 60]);
   ("SocialWorker", [45; 60]);
   ("FamilyVisit", [60; 90; 120])]%string.

Definition specialties : list (string * list string) :=
  [("GeneralPractice", [EmptyString; EmptyString; EmptyString]);
   ("Dental", ["DDS"; "DMD"]);
   ("Ophthalmology", ["MD, Ophthalmology"; "OD"]);
   ("Podiatry", ["DPM"]);
   ("PhysicalTherapy", ["PT, DPT"]);
   ("OccupationalTherapy", ["OT, OTR/L"]);
   ("SpeechTherapy", ["SLP, CCC"]);
   ("Psychiatry", ["MD, Psychiatry"]);
   ("Cardiology", ["MD, Cardiology"]);
   ("Neurology", ["MD, Neurology"]);
   ("Dermatology", ["MD, Dermatology"]);
   ("Audiology", ["AuD"])]%string.

Definition notes_by_type : list (string * list string) :=
  [("GeneralPractice",
    ["Please bring current medication list.";
      "Fasting required if labs ordered."; "Bring insurance card and ID."]);
   ("Dental",
    ["No eating 30 minutes before appointment.";
      "Bring list of current medications."]);
   ("LabWork",
    ["Fasting required - nothing to eat or drink after midnight.";
      "Stay well hydrated before blood draw."]);
   ("Imaging",
    ["No metal objects - remove jewelry before appointment.";
      "Contrast dye may be used - notify of any allergies."]);
   ("Cardiology",
    ["Bring list of all heart medications.";
      "Wear comfortable loose clothing."]);
   ("PhysicalTherapy",
    ["Wear comfortable clothing and sturdy shoes.";
      "Bring walker/cane if used."])]%string.

(** [[loc for loc in APPOINTMENT_LOCATIONS if w1 in loc["name"] or w2 in
    loc["name"]]], for the words [words]. *)
Definition named (words : list string) : list Location.t :=
  filter (λ loc, existsb (λ word, PyStr.contains word (Location.name loc)) words
                 = true)
         APPOINTMENT_LOCATIONS.

(** One of the tests [if appointment_type == type: found = [...]; if found:
    return random.choice(found)]; [otherwise] is the rest of the function. *)
Definition for_type (appointment_type type : string) (words : list string)
    (otherwise : M Location.t) : M Location.t :=
  if decide (appointment_type = type) then
    match named words with
    | [] => otherwise
    | found => choice found
    end
  else otherwise.

(** [_get_location_for_type]. *)
Definition _get_location_for_type (appointment_type : string) : M Location.t :=
  (* 40% chance of home visit for therapy *)
  home_visit ←
    (if decide (appointment_type ∈ ["PhysicalTherapy"; "OccupationalTherapy";
                                    "SpeechTherapy"]%string)
     then u ← random; mret (negb (Qle_bool 0.4 u))
     else mret false);
  if home_visit : bool then mret (Location.mk "Home visit" None None)
  else
    for_type appointment_type "LabWork" ["Quest"; "LabCorp"] (
    for_type appointment_type "Imaging" ["Imaging"] (
    for_type appointment_type "Dental" ["Dental"] (
    for_type appointment_type "Ophthalmology" ["Eye"] (
    for_type appointment_type "Podiatry" ["Podiatry"] (
    for_type appointment_type "Audiology" ["Audiology"] (
    for_type appointment_type "Cardiology" ["Cardiology"] (
    (* Default: general medical centers *)
    match named ["Medical"; "MultiCare"] with
    | [] => choice APPOINTMENT_LOCATIONS
    | general => choice general
    end)))))))%string.

(** [_get_duration_for_type]. *)
Definition _get_duration_for_type (appointment_type : string) : M Z :=
  choice (dict_get duration_ranges appointment_type [30; 45; 60]).

(** [_get_provider_name]. *)
Definition _get_provider_name (appointment_type : string) : M string :=
  let suffix_list := dict_get specialties appointment_type [EmptyString] in
  suffix ← match suffix_list with
           | [] => mret EmptyString
           | _ => choice suffix_list
           end;
  first ← faker;
  last ← faker;
  mret (if decide (suffix = EmptyString)
        then "Dr. " +:+ first +:+ " " +:+ last
        else "Dr. " +:+ first +:+ " " +:+ last +:+ ", " +:+ suffix)%string.

(** [_generate_notes]. *)
Definition _generate_notes (appointment_type : string) : M (option string) :=
  u ← random;
  if negb (Qle_bool u 0.5) then mret None
  else
    note ← choice (dict_get notes_by_type appointment_type
                            ["No special instructions."%string]);
    mret (Some note).

(** [generate]; the [appointment_counter] of the object is incremented and
    never read. *)
Definition generate (client_id home_id created_by_id scheduled_at : Z)
    (is_past : bool) : M Appointment.t :=
  appointment_type ← weighted_choice APPOINTMENT_TYPES;
  (* Get title based on type *)
  let titles := dict_get TITLE_TEMPLATES appointment_type
                         (dict_get TITLE_TEMPLATES "Other" []) in
  title ← choice titles;
  location_info ← _get_location_for_type appointment_type;
  duration ← _get_duration_for_type appointment_type;
  transport ← choice TRANSPORTATION_OPTIONS;
  (* Provider from physicians list or location *)
  provider_phone ←
    (if truthy (Location.phone location_info)
     then mret (Location.phone location_info)
     else u ← random;
          if negb (Qle_bool u 0.3)
          then physician ← choice PHYSICIANS; mret (Some (Physician.phone physician))
          else mret None);
  u ← random;
  provider_name ← (if negb (Qle_bool u 0.3)
                   then name ← _get_provider_name appointment_type; mret (Some name)
                   else mret None);
  appointment_id ← uuid4;
  notes ← _generate_notes appointment_type;
  created_offset ← randint 3 21;
  let location := if truthy (Location.address location_info)
                  then Location.name location_info else "Home visit"%string in
  let appointment status completed_at completed_by outcome :=
    Appointment.mk appointment_id client_id home_id appointment_type status
      title scheduled_at duration location provider_name provider_phone notes
      transport is_past created_by_id (scheduled_at - DT.days created_offset)
      completed_at completed_by outcome in
  (* If past appointment, determine outcome *)
  if is_past then
    status ← weighted_choice APPOINTMENT_STATUSES;
    if decide (status = "Completed"%string) then
      let completed_at := scheduled_at + DT.minutes duration in
      note ← choice (dict_get OUTCOME_TEMPLATES "Completed" []);
      mret (appointment status (Some completed_at) (Some created_by_id) (Some note))
    else if decide (status ∈ ["Cancelled"; "NoShow"; "Rescheduled"]%string) then
      note ← choice (dict_get OUTCOME_TEMPLATES status []);
      mret (appointment status None None (Some note))
    else mret (appointment status None None None)
  else mret (appointment "Scheduled"%string None None None).

End AppointmentGenerator.

(** ** [generate.py]: the phases of [generate_synthetic_data]

    [END_DATE] is the module constant of [config.py].  The dictionaries
    [beds_by_home] and [caregivers_by_home] are read at keys Phase 1 and
    Phase 2 wrote; a missing key would raise [KeyError].  The list
    [clients_by_home[home_id]] holds the very dictionaries of [clients]
    whose [homeId] is [home_id], in the same order, so it is read off
    [clients]. *)

Module Generate.

Section Phases.

Variable END_DATE : Z.

(** One entry [(start, end, client_id)] of a bed's occupancy list. *)
Definition interval : Type := Z * option Z * Z.

(** [bed_occupancy]: bed id -> occupancy list, in insertion order. *)
Definition occupancy : Type := list (Z * list interval).

(** [home_open_dates] of Phase 1: the opening dates of the six homes. *)
Definition home_open_dates : M (list Z) :=
  let START_DATE := Config.START_DATE END_DATE in
  d2 ← randint 90 120;
  d3 ← randint 180 240;
  d4 ← randint 300 360;
  d5 ← randint 420 480;
  d6 ← randint 540 600;
  mret [START_DATE + DT.days 14; START_DATE + DT.days d2;
        START_DATE + DT.days d3; START_DATE + DT.days d4;
        START_DATE + DT.days d5; START_DATE + DT.days d6].

(** [{bed["id"]: [] for bed in home_beds}]. *)
Fixpoint dict_set (k : Z) (v : list interval) (d : occupancy) : occupancy :=
  match d with
  | [] => [(k, v)]
  | (k', v') :: rest =>
      if decide (k' = k) then (k, v) :: rest else (k', v') :: dict_set k v rest
  end.
Definition empty_occupancy (home_beds : list Bed.t) : occupancy :=
  fold_left (λ d bed, dict_set (Bed.id bed) [] d) home_beds [].

(** [start <= date <= (end or END_DATE)]. *)
Definition covers (date : Z) (iv : interval) : bool :=
  let '(start, end_, _) := iv in
  bool_decide (start ≤ date) && bool_decide (date ≤ default END_DATE end_).

(** [find_available_bed]. *)
Fixpoint find_available_bed (bed_occupancy : occupancy) (date : Z) : option Z :=
  match bed_occupancy with
  | [] => None
  | (bed_id, occ) :: rest =>
      if forallb (λ iv, negb (covers date iv)) occ then Some bed_id
      else find_available_bed rest date
  end.

(** [bed_occupancy[bed_id].append(iv)]; [bed_id] was returned by
    [find_available_bed], so it is a key. *)
Fixpoint occupancy_append (bed_id : Z) (iv : interval) (bed_occupancy : occupancy)
    : occupancy :=
  match bed_occupancy with
  | [] => []
  | (k, occ) :: rest =>
      if decide (k = bed_id) then (k, occ ++ [iv]) :: rest
      else (k, occ) :: occupancy_append bed_id iv rest
  end.

(** The loop [for _ in range(initial_clients)] of Phase 3. *)
Fixpoint admit_initial (n : nat) (home_id home_open : Z) (home_caregivers : list User.t)
    (clients : list Client.t) (bed_occupancy : occupancy)
    : M (list Client.t * occupancy) :=
  match n with
  | O => mret (clients, bed_occupancy)
  | S n' =>
      offset ← randint 0 30;
      let admit_date := home_open + DT.days offset in
      '(clients, bed_occupancy) ←
        match find_available_bed bed_occupancy admit_date with
        | Some bed_id =>
            caregiver ← choice home_caregivers;
            client ← ClientGenerator.generate home_id bed_id admit_date
                       (User.id caregiver) false None;
            mret (clients ++ [client],
                  occupancy_append bed_id (admit_date, None, Client.id client)
                                   bed_occupancy)
        | None => mret (clients, bed_occupancy)
        end;
      admit_initial n' home_id home_open home_caregivers clients bed_occupancy
  end.

(** The admission step of the [while] loop. *)
Definition admit_gradual (home_id current_date : Z) (home_beds : list Bed.t)
    (home_caregivers : list User.t) (clients : list Client.t)
    (bed_occupancy : occupancy) : M (list Client.t * occupancy) :=
  let occupied_beds :=
    length (filter (λ kv, existsb (covers current_date) kv.2 = true) bed_occupancy) in
  admits ← (if decide (occupied_beds < length home_beds)%nat
           then u ← random; mret (negb (Qle_bool u 0.7))
           else mret false);
  if admits : bool then
    match find_available_bed bed_occupancy current_date with
    | Some bed_id =>
        caregiver ← choice home_caregivers;
        (* Decide if this client will be discharged *)
        stay_duration ← randint 60 700;
        let discharge_date := current_date + DT.days stay_duration in
        is_discharged ← (if decide (discharge_date < END_DATE)
                         then u ← random; mret (negb (Qle_bool u 0.6))
                         else mret false);
        client ← ClientGenerator.generate home_id bed_id current_date
                   (User.id caregiver) is_discharged
                   (if is_discharged : bool then Some discharge_date else None);
        let end_date := if is_discharged : bool then Some discharge_date else None in
        mret (clients ++ [client],
              occupancy_append bed_id (current_date, end_date, Client.id client)
                               bed_occupancy)
    | None => mret (clients, bed_occupancy)
    end
  else mret (clients, bed_occupancy).

(** [for c in clients: if c["id"] == client_id: ...; break]. *)
Fixpoint discharge_first (client_id current_date : Z) (clients : list Client.t)
    : M (list Client.t) :=
  match clients with
  | [] => mret []
  | c :: rest =>
      if decide (Client.id c = client_id) then
        reason ← choice ["Transferred to skilled nursing facility";
                         "Returned home with family";
                         "Transferred to another AFH"]%string;
        mret (Client.discharge c (DT.date current_date) reason :: rest)
      else
        rest ← discharge_first client_id current_date rest;
        mret (c :: rest)
  end.

(** [for i, (start, end, client_id) in enumerate(occupancy)]: the random
    discharge of long-term residents, for the intervals of one bed. *)
Fixpoint hazard_bed (current_date : Z) (occ : list interval) (clients : list Client.t)
    : M (list interval * list Client.t) :=
  match occ with
  | [] => mret ([], clients)
  | (start, end_, client_id) :: rest =>
      '(iv, clients) ←
        match end_ with
        | None =>
            if decide (DT.delta_days current_date start > 180) then
              u ← random;
              if negb (Qle_bool u 0.98) then
                clients ← discharge_first client_id current_date clients;
                mret ((start, Some current_date, client_id), clients)
              else mret ((start, end_, client_id), clients)
            else mret ((start, end_, client_id), clients)
        | Some _ => mret ((start, end_, client_id), clients)
        end;
      '(rest, clients) ← hazard_bed current_date rest clients;
      mret (iv :: rest, clients)
  end.

(** [for bed_id, occupancy in bed_occupancy.items()]. *)
Fixpoint hazard_discharges (current_date : Z) (bed_occupancy : occupancy)
    (clients : list Client.t) : M (occupancy * list Client.t) :=
  match bed_occupancy with
  | [] => mret ([], clients)
  | (bed_id, occ) :: rest =>
      '(occ, clients) ← hazard_bed current_date occ clients;
      '(rest, clients) ← hazard_discharges current_date rest clients;
      mret ((bed_id, occ) :: rest, clients)
  end.

(** The loop [while current_date < END_DATE] of Phase 3; [fuel] bounds its
    iterations. *)
Fixpoint fill_loop (fuel : nat) (home_id current_date : Z) (home_beds : list Bed.t)
    (home_caregivers : list User.t) (clients : list Client.t)
    (bed_occupancy : occupancy) : M (list Client.t * occupancy) :=
  match fuel with
  | O => raise OutOfFuel
  | S fuel' =>
      if decide (current_date < END_DATE) then
        '(clients, bed_occupancy) ←
          admit_gradual home_id current_date home_beds home_caregivers
                        clients bed_occupancy;
        '(bed_occupancy, clients) ←
          hazard_discharges current_date bed_occupancy clients;
        step ← randint 7 21;
        fill_loop fuel' home_id (current_date + DT.days step) home_beds
                  home_caregivers clients bed_occupancy
      else mret (clients, bed_occupancy)
  end.

(** Iterations that always suffice for a loop that starts at [current_date]
    and advances by at least [step] days each time. *)
Definition iterations (current_date step : Z) : nat :=
  S (Z.to_nat ((END_DATE - current_date) / DT.days step + 1)).

(** The body of [for home in homes] of Phase 3: the clients so far, and the
    bed occupancy of this home when its loop ends. *)
Definition phase3_home (beds_by_home : gmap Z (list Bed.t))
    (caregivers_by_home : gmap Z (list User.t)) (home : Home.t)
    (clients : list Client.t) : M (list Client.t * occupancy) :=
  let home_id := Home.id home in
  let home_open := Home.createdAt home in
  home_beds ← match beds_by_home !! home_id with
              | Some beds => mret beds
              | None => raise KeyError
              end;
  home_caregivers ← match caregivers_by_home !! home_id with
                    | Some cs => mret cs
                    | None => raise KeyError
                    end;
  (* Initial occupancy: 1-2 clients within first month *)
  initial_clients ← randint 1 2;
  let bed_occupancy := empty_occupancy home_beds in
  '(clients, bed_occupancy) ←
    admit_initial (Z.to_nat initial_clients) home_id home_open home_caregivers
                  clients bed_occupancy;
  (* Gradual fill over time *)
  let current_date := home_open + DT.days 45 in
  fill_loop (iterations current_date 7) home_id current_date home_beds
            home_caregivers clients bed_occupancy.

(** Phase 3: [clients] at the end, and the bed occupancy each home ended
    with, in the order of [homes]. *)
Fixpoint phase3_loop (beds_by_home : gmap Z (list Bed.t))
    (caregivers_by_home : gmap Z (list User.t)) (homes : list Home.t)
    (clients : list Client.t) : M (list Client.t * list occupancy) :=
  match homes with
  | [] => mret (clients, [])
  | home :: rest =>
      '(clients, bed_occupancy) ←
        phase3_home beds_by_home caregivers_by_home home clients;
      '(clients, ledgers) ←
        phase3_loop beds_by_home caregivers_by_home rest clients;
      mret (clients, bed_occupancy :: ledgers)
  end.

Definition phase3 (beds_by_home : gmap Z (list Bed.t))
    (caregivers_by_home : gmap Z (list User.t)) (homes : list Home.t)
    : M (list Client.t * list occupancy) :=
  phase3_loop beds_by_home caregivers_by_home homes [].

(** [clients_by_home[home_id]]. *)
Definition clients_by_home (clients : list Client.t) (home_id : Z) : list Client.t :=
  filter (λ c, Client.homeId c = home_id) clients.

(** The condition of the comprehension [active_client_ids]:
    [admissionDate <= current_date and (not dischargeDate or
    dischargeDate > current_date)], both dates read back as midnights. *)
Definition active_on (current_date : Z) (c : Client.t) : bool :=
  bool_decide (DT.of_date (Client.admissionDate c) ≤ current_date)
  && match Client.dischargeDate c with
     | None => true
     | Some d => bool_decide (DT.of_date d > current_date)
     end.

(** The comprehension [active_client_ids] of Phases 5 and 6. *)
Definition active_client_ids (clients : list Client.t) (home_id current_date : Z)
    : list Z :=
  Client.id <$>
    filter (λ c, active_on current_date c = true) (clients_by_home clients home_id).

(** The loop [for _ in range(activities_this_week)] of Phase 5. *)
Fixpoint week_activities (n : nat) (home_id current_date : Z)
    (home_caregivers : list User.t) (active : list Z)
    : M (list Activity.t) :=
  match n with
  | O => mret []
  | S n' =>
      offset ← randint 0 6;
      let activity_date := current_date + DT.days offset in
      made ← (if decide (activity_date < END_DATE) then
                caregiver ← choice home_caregivers;
                activity ← ActivityGenerator.generate home_id (User.id caregiver)
                             activity_date active;
                mret [activity]
              else mret []);
      more ← week_activities n' home_id current_date home_caregivers active;
      mret (made ++ more)
  end.

(** The loop [while current_date < END_DATE] of Phase 5. *)
Fixpoint activity_loop (fuel : nat) (home_id current_date : Z)
    (home_caregivers : list User.t) (clients : list Client.t)
    : M (list Activity.t) :=
  match fuel with
  | O => raise OutOfFuel
  | S fuel' =>
      if decide (current_date < END_DATE) then
        (* Get active clients at this home on this date *)
        let active := active_client_ids clients home_id current_date in
        made ← (match active with
                | [] => mret []
                | _ =>
                    activities_this_week ← randint 2 5;
                    week_activities (Z.to_nat activities_this_week) home_id
                                    current_date home_caregivers active
                end);
        more ← activity_loop fuel' home_id (current_date + DT.days 7)
                             home_caregivers clients;
        mret (made ++ more)
      else mret []
  end.

(** The body of [for home in homes] of Phase 5. *)
Definition phase5_home (caregivers_by_home : gmap Z (list User.t))
    (clients : list Client.t) (home : Home.t) : M (list Activity.t) :=
  let home_id := Home.id home in
  let home_open := Home.createdAt home in
  home_caregivers ← match caregivers_by_home !! home_id with
                    | Some cs => mret cs
                    | None => raise KeyError
                    end;
  let current_date := home_open + DT.days 7 in
  activity_loop (iterations current_date 7) home_id current_date
                home_caregivers clients.

(** Phase 5: the activities, each still holding its participant records
    (the code moves them to [activityParticipants] as it goes). *)
Fixpoint phase5 (caregivers_by_home : gmap Z (list User.t))
    (clients : list Client.t) (homes : list Home.t) : M (list Activity.t) :=
  match homes with
  | [] => mret []
  | home :: rest =>
      made ← phase5_home caregivers_by_home clients home;
      more ← phase5 caregivers_by_home clients rest;
      mret (made ++ more)
  end.

(** The loop [while current_date < END_DATE] of Phase 6. *)
Fixpoint incident_loop (fuel : nat) (gen : IncidentGenerator.t)
    (home_id home_sequence current_date : Z) (home_caregivers : list User.t)
    (clients : list Client.t) (admin_user_ids : list Z)
    : M (list Incident.t * IncidentGenerator.t) :=
  match fuel with
  | O => raise OutOfFuel
  | S fuel' =>
      if decide (current_date < END_DATE) then
        let active := active_client_ids clients home_id current_date in
        happens ← (match active with
                   | [] => mret false
                   | _ => u ← random; mret (negb (Qle_bool u 0.6))
                   end);
        '(made, gen) ←
          (if happens : bool then
             (* Most incidents involve a specific client *)
             u ← random;
             client_id ← (if negb (Qle_bool u 0.1)
                          then c ← choice active; mret (Some c)
                          else mret None);
             reporter ← choice home_caregivers;
             '(incident, gen) ←
               IncidentGenerator.generate gen home_id client_id (User.id reporter)
                 current_date (Some home_sequence) (Some admin_user_ids);
             mret ([incident], gen)
           else mret ([], gen));
        step ← randint 10 30;
        '(more, gen) ←
          incident_loop fuel' gen home_id home_sequence
                        (current_date + DT.days step) home_caregivers clients
                        admin_user_ids;
        mret (made ++ more, gen)
      else mret ([], gen)
  end.

(** The loop [for home_index, home in enumerate(homes)] of Phase 6. *)
Fixpoint phase6_loop (gen : IncidentGenerator.t) (home_index : Z)
    (caregivers_by_home : gmap Z (list User.t)) (clients : list Client.t)
    (admin_user_ids : list Z) (homes : list Home.t)
    : M (list Incident.t * IncidentGenerator.t) :=
  match homes with
  | [] => mret ([], gen)
  | home :: rest =>
      let home_id := Home.id home in
      let home_open := Home.createdAt home in
      home_caregivers ← match caregivers_by_home !! home_id with
                        | Some cs => mret cs
                        | None => raise KeyError
                        end;
      let home_sequence := home_index + 1 in
      offset ← randint 14 45;
      let current_date := home_open + DT.days offset in
      '(made, gen) ←
        incident_loop (iterations current_date 10) gen home_id home_sequence
                      current_date home_caregivers clients admin_user_ids;
      '(more, gen) ←
        phase6_loop gen (home_index + 1) caregivers_by_home clients
                    admin_user_ids rest;
      mret (made ++ more, gen)
  end.

(** Phase 6, on the fresh generator [create_generators] made. *)
Definition phase6 (caregivers_by_home : gmap Z (list User.t))
    (clients : list Client.t) (admin_user_ids : list Z) (homes : list Home.t)
    : M (list Incident.t) :=
  '(incidents, _) ←
    phase6_loop IncidentGenerator.__init__ 0 caregivers_by_home clients
                admin_user_ids homes;
  mret incidents.

End Phases.

Section Staffing.

Variable END_DATE : Z.

(** The output of the first loop of Phase 2: [all_data["users"]] and
    [all_data["caregiverHomeAssignments"]] as far as the loop extends
    them, and [caregivers_by_home]. *)
Record staff := mkStaff {
  users : list Caregiver.t;
  caregiverHomeAssignments : list Assignment.t;
  caregivers_by_home : gmap Z (list Caregiver.t)
}.

(** The loop [for i in range(num_caregivers)] for one home. *)
Fixpoint hire_loop (n fuel : nat) (gen : UserGenerator.t) (home : Home.t)
    (admin_id : Z) (so_far : staff) : M (staff * UserGenerator.t) :=
  match n with
  | O => mret (so_far, gen)
  | S n' =>
      let home_open := Home.createdAt home in
      (* Hire caregivers within 2 weeks before/after home opening *)
      hire_offset ← randint (-14) 14;
      let hire_date := home_open + DT.days hire_offset in
      (* Can't hire before company start *)
      let hire_date := hire_date `max` Config.START_DATE END_DATE in
      '(caregiver, gen) ←
        UserGenerator.generate_caregiver fuel gen hire_date [Home.id home]
                                         (Some admin_id);
      hired ← match caregivers_by_home so_far !! Home.id home with
              | Some cs => mret (cs ++ [caregiver])
              | None => raise KeyError
              end;
      hire_loop n' fuel gen home admin_id
        (mkStaff (users so_far ++ [caregiver])
                 (caregiverHomeAssignments so_far
                    ++ Caregiver.homeAssignments caregiver)
                 (<[Home.id home := hired]> (caregivers_by_home so_far)))
  end.

(** The first loop [for home in homes] of Phase 2. *)
Fixpoint hire_caregivers (fuel : nat) (gen : UserGenerator.t) (homes : list Home.t)
    (admin_id : Z) (so_far : staff) : M (staff * UserGenerator.t) :=
  match homes with
  | [] => mret (so_far, gen)
  | home :: rest =>
      num_caregivers ← randint 2 3;
      let so_far := mkStaff (users so_far) (caregiverHomeAssignments so_far)
                            (<[Home.id home := []]> (caregivers_by_home so_far)) in
      '(so_far, gen) ←
        hire_loop (Z.to_nat num_caregivers) fuel gen home admin_id so_far;
      hire_caregivers fuel gen rest admin_id so_far
  end.

End Staffing.

Section Appointments.

Variable END_DATE : Z.

(** [datetime.fromisoformat(client["dischargeDate"]) if
    client.get("dischargeDate") else END_DATE]. *)
Definition discharge_or_end (client : Client.t) : Z :=
  match Client.dischargeDate client with
  | Some d => DT.of_date d
  | None => END_DATE
  end.

(** The loop [while current_date < discharge] of Phase 7; [fuel] bounds its
    iterations. *)
Fixpoint appointment_loop (fuel : nat) (client_id home_id current_date discharge : Z)
    (home_caregivers : list User.t) : M (list Appointment.t) :=
  match fuel with
  | O => raise OutOfFuel
  | S fuel' =>
      if decide (current_date < discharge) then
        caregiver ← choice home_caregivers;
        (* Generate appointment at a reasonable hour (8 AM - 5 PM) *)
        hour ← randint 8 17;
        minute ← choice [0; 15; 30; 45];
        let appointment_time := DT.replace_hms current_date hour minute in
        clock ← now;
        let is_past := bool_decide (appointment_time < clock) in
        appointment ← AppointmentGenerator.generate client_id home_id
                        (User.id caregiver) appointment_time is_past;
        (* Next appointment in 2-6 weeks *)
        step ← randint 14 42;
        more ← appointment_loop fuel' client_id home_id
                 (current_date + DT.days step) discharge home_caregivers;
        mret (appointment :: more)
      else mret []
  end.

(** The body of the first [for client in clients] of Phase 7. *)
Definition client_appointments (caregivers_by_home : gmap Z (list User.t))
    (client : Client.t) : M (list Appointment.t) :=
  let home_id := Client.homeId client in
  let client_id := Client.id client in
  home_caregivers ← match caregivers_by_home !! home_id with
                    | Some cs => mret cs
                    | None => raise KeyError
                    end;
  let admission := DT.of_date (Client.admissionDate client) in
  let discharge := discharge_or_end client in
  (* First appointment after admission *)
  offset ← randint 7 30;
  let current_date := admission + DT.days offset in
  appointment_loop (iterations discharge current_date 14) client_id home_id
                   current_date discharge home_caregivers.

Fixpoint past_appointments (caregivers_by_home : gmap Z (list User.t))
    (clients : list Client.t) : M (list Appointment.t) :=
  match clients with
  | [] => mret []
  | client :: rest =>
      made ← client_appointments caregivers_by_home client;
      more ← past_appointments caregivers_by_home rest;
      mret (made ++ more)
  end.

(** The loop [for _ in range(num_upcoming)]. *)
Fixpoint upcoming_loop (n : nat) (client_id home_id : Z)
    (home_caregivers : list User.t) : M (list Appointment.t) :=
  match n with
  | O => mret []
  | S n' =>
      caregiver ← choice home_caregivers;
      days_ahead ← randint 1 30;
      hour ← randint 8 17;
      minute ← choice [0; 15; 30; 45];
      clock ← now;
      let appointment_time :=
        DT.replace_hms (clock + DT.days days_ahead) hour minute in
      appointment ← AppointmentGenerator.generate client_id home_id
                      (User.id caregiver) appointment_time false;
      more ← upcoming_loop n' client_id home_id home_caregivers;
      mret (appointment :: more)
  end.

(** The second [for client in clients] of Phase 7: some upcoming
    appointments for active clients (next 30 days). *)
Fixpoint upcoming_appointments (caregivers_by_home : gmap Z (list User.t))
    (clients : list Client.t) : M (list Appointment.t) :=
  match clients with
  | [] => mret []
  | client :: rest =>
      made ← (if Client.isActive client then
                let home_id := Client.homeId client in
                let client_id := Client.id client in
                home_caregivers ← match caregivers_by_home !! home_id with
                                  | Some cs => mret cs
                                  | None => raise KeyError
                                  end;
                (* 0-2 upcoming appointments per active client *)
                num_upcoming ← randint 0 2;
                upcoming_loop (Z.to_nat num_upcoming) client_id home_id
                              home_caregivers
              else mret []);
      more ← upcoming_appointments caregivers_by_home rest;
      mret (made ++ more)
  end.


End Appointments.

Section CareLogs.

Variable END_DATE : Z.

(** The five lists of [all_data] that Phase 4 extends. *)
Record care_logs := mkLogs {
  adlLogs : list ADLLog.t;
  vitalsLogs : list VitalsLog.t;
  medicationLogs : list MedicationLog.t;
  romLogs : list ROMLog.t;
  behaviorNotes : list BehaviorNote.t
}.

(** The appends of one stretch of the run followed by those of the next. *)
Definition logs_app (a b : care_logs) : care_logs :=
  mkLogs (adlLogs a ++ adlLogs b) (vitalsLogs a ++ vitalsLogs b)
         (medicationLogs a ++ medicationLogs b) (romLogs a ++ romLogs b)
         (behaviorNotes a ++ behaviorNotes b).

(** [for _ in range(random.randint(1, 2))] around an ADL log. *)
Fixpoint adl_loop (n : nat) (client_id caregiver_id current_date : Z)
    (base_independence : string) : M (list ADLLog.t) :=
  match n with
  | O => mret []
  | S n' =>
      adl_time ← random_working_hour_time current_date;
      adl ← ADLLogGenerator.generate client_id caregiver_id adl_time
              base_independence;
      more ← adl_loop n' client_id caregiver_id current_date base_independence;
      mret (adl :: more)
  end.

(** [for _ in range(random.randint(1, 2))] around a vitals log. *)
Fixpoint vitals_loop (n : nat) (client_id caregiver_id current_date : Z)
    (has_hypertension has_diabetes : bool) : M (list VitalsLog.t) :=
  match n with
  | O => mret []
  | S n' =>
      vitals_time ← random_working_hour_time current_date;
      vitals ← VitalsLogGenerator.generate client_id caregiver_id vitals_time
                 has_hypertension has_diabetes;
      more ← vitals_loop n' client_id caregiver_id current_date
               has_hypertension has_diabetes;
      mret (vitals :: more)
  end.

(** [for med in meds]. *)
Fixpoint medication_loop (meds : list Medication.t)
    (client_id caregiver_id current_date : Z) : M (list MedicationLog.t) :=
  match meds with
  | [] => mret []
  | med :: rest =>
      u ← random;
      made ← (if negb (Qle_bool u 0.02) then  (* 98% compliance *)
                med_time ← random_working_hour_time current_date;
                med_log ← MedicationLogGenerator.generate client_id caregiver_id
                            med_time med;
                mret [med_log]
              else mret []);
      more ← medication_loop rest client_id caregiver_id current_date;
      mret (made ++ more)
  end.

(** The body of [while current_date < discharge] up to the step of the
    date. *)
Definition day_logs (client : Client.t) (home_caregivers : list User.t)
    (base_independence : string) (has_hypertension has_diabetes has_dementia : bool)
    (current_date : Z) : M care_logs :=
  let client_id := Client.id client in
  caregiver ← choice home_caregivers;
  (* Daily ADL log (1-2 per day) *)
  u ← random;
  adls ← (if negb (Qle_bool u 0.1) then
            n ← randint 1 2;
            adl_loop (Z.to_nat n) client_id (User.id caregiver) current_date
                     base_independence
          else mret []);
  (* Vitals (1-2 times per day) *)
  u ← random;
  vitals ← (if negb (Qle_bool u 0.15) then
              n ← randint 1 2;
              vitals_loop (Z.to_nat n) client_id (User.id caregiver) current_date
                          has_hypertension has_diabetes
            else mret []);
  (* Medications (based on client's medication list) *)
  med_logs ← medication_loop (Client._medications client) client_id
               (User.id caregiver) current_date;
  (* ROM exercises (every 2-3 days) *)
  u ← random;
  roms ← (if negb (Qle_bool u 0.6) then
            rom_time ← random_working_hour_time current_date;
            rom ← ROMLogGenerator.generate client_id (User.id caregiver) rom_time;
            mret [rom]
          else mret []);
  (* Behavior notes (varies, more frequent for dementia) *)
  let note_probability := (if has_dementia then 0.3 else 0.15)%Q in
  u ← random;
  notes ← (if negb (Qle_bool note_probability u) then
             note_time ← random_working_hour_time current_date;
             note ← BehaviorNoteGenerator.generate client_id (User.id caregiver)
                      note_time;
             mret [note]
           else mret []);
  mret (mkLogs adls vitals med_logs roms notes).

(** The loop [while current_date < discharge] of Phase 4; [fuel] bounds its
    iterations. *)
Fixpoint care_loop (fuel : nat) (client : Client.t) (home_caregivers : list User.t)
    (base_independence : string) (has_hypertension has_diabetes has_dementia : bool)
    (current_date discharge : Z) : M care_logs :=
  match fuel with
  | O => raise OutOfFuel
  | S fuel' =>
      if decide (current_date < discharge) then
        today ← day_logs client home_caregivers base_independence
                  has_hypertension has_diabetes has_dementia current_date;
        more ← care_loop fuel' client home_caregivers base_independence
                 has_hypertension has_diabetes has_dementia
                 (current_date + DT.days 1) discharge;
        mret (logs_app today more)
      else mret (mkLogs [] [] [] [] [])
  end.

(** The body of [for client in clients] of Phase 4. *)
Definition client_care_logs (caregivers_by_home : gmap Z (list User.t))
    (client : Client.t) : M care_logs :=
  let home_id := Client.homeId client in
  home_caregivers ← match caregivers_by_home !! home_id with
                    | Some cs => mret cs
                    | None => raise KeyError
                    end;
  let admission := DT.of_date (Client.admissionDate client) in
  let discharge := discharge_or_end END_DATE client in
  (* Determine client's overall condition *)
  let diagnoses := Client.diagnoses client in
  let has_hypertension := PyStr.contains "Hypertension" diagnoses in
  let has_diabetes := PyStr.contains "Diabetes" diagnoses in
  let has_dementia := PyStr.contains "dementia" (PyStr.lower diagnoses)
                      || PyStr.contains "Alzheimer" diagnoses in
  (* Independence level *)
  base_independence ← choice ["Independent"; "PartialAssist"; "Dependent"]%string;
  care_loop (iterations discharge admission 1) client home_caregivers
            base_independence has_hypertension has_diabetes has_dementia
            admission discharge.

(** Phase 4. *)
Fixpoint phase4 (caregivers_by_home : gmap Z (list User.t))
    (clients : list Client.t) : M care_logs :=
  match clients with
  | [] => mret (mkLogs [] [] [] [] [])
  | client :: rest =>
      made ← client_care_logs caregivers_by_home client;
      more ← phase4 caregivers_by_home rest;
      mret (logs_app made more)
  end.

End CareLogs.

Section Housing.

Variable END_DATE : Z.

(** What the loop of Phase 1 builds: [homes], [beds_by_home] and
    [all_data["beds"]]. *)
Record housing := mkHousing {
  homes : list Home.t;
  beds_by_home : gmap Z (list Bed.t);
  beds : list Bed.t
}.

(** The loop [for open_date in home_open_dates] of Phase 1; [fuel] bounds
    the loop of each call of [HomeGenerator.generate]. *)
Fixpoint homes_loop (fuel : nat) (gen : HomeGenerator.t) (open_dates : list Z)
    (admin_id : Z) (so_far : housing) : M (housing * HomeGenerator.t) :=
  match open_dates with
  | [] => mret (so_far, gen)
  | open_date :: rest =>
      '(home, gen) ← HomeGenerator.generate fuel gen open_date (Some admin_id);
      home_beds ← HomeGenerator.generate_beds home;
      homes_loop fuel gen rest admin_id
        (mkHousing (homes so_far ++ [home])
                   (<[Home.id home := home_beds]> (beds_by_home so_far))
                   (beds so_far ++ home_beds))
  end.

(** Phase 1: the admin and the sysadmin, then the six homes.  The result
    holds the two users, [admin_user_ids], the homes and beds, and the two
    generator objects. *)
Definition phase1 (fuel : nat) (user_gen : UserGenerator.t) (home_gen : HomeGenerator.t)
    : M (User.t * User.t * list Z * housing * UserGenerator.t * HomeGenerator.t) :=
  '(admin_user, user_gen) ←
    UserGenerator.generate_admin fuel user_gen (Config.START_DATE END_DATE);
  '(sysadmin_user, user_gen) ←
    UserGenerator.generate_sysadmin fuel user_gen (Config.START_DATE END_DATE);
  (* Track admin user IDs for incident closure *)
  let admin_user_ids := [User.id admin_user] in
  open_dates ← home_open_dates END_DATE;
  '(built, home_gen) ←
    homes_loop fuel home_gen open_dates (User.id admin_user) (mkHousing [] ∅ []);
  mret (admin_user, sysadmin_user, admin_user_ids, built, user_gen, home_gen).

End Housing.

End Generate.

(** ** Concrete runs

    A home that opens 130 days before the end of the horizon, as the last
    home of a run may, with four beds and two caregivers; [END_DATE] is
    10:00 on day 730 and [START_DATE] 10:00 on day 0. *)

Module Scenario.

Definition END_DATE : Z := DT.days 730 + DT.hours 10.
Definition home_open : Z := END_DATE - DT.days 130.

Definition home : Home.t :=
  Home.mk 100 "Sunrise Care Home" "12 Main Street" "Seattle" "WA" "98110"
          "(206) 555-0100" 4 true home_open (Some 1).

Definition beds : list Bed.t :=
  [Bed.mk 201 100 "Room 1" "Available" true home_open;
   Bed.mk 202 100 "Room 2" "Available" true home_open;
   Bed.mk 203 100 "Room 3" "Available" true home_open;
   Bed.mk 204 100 "Room 4" "Available" true home_open].

Definition caregivers : list User.t :=
  [User.mk 301 "ann.lee@lenkcare.example.com" "Ann" "Lee" true true true
           ["Caregiver"%string] home_open;
   User.mk 302 "bob.ray@lenkcare.example.com" "Bob" "Ray" true true true
           ["Caregiver"%string] home_open].

Definition beds_by_home : gmap Z (list Bed.t) := {[100 := beds]}.
Definition caregivers_by_home : gmap Z (list User.t) := {[100 := caregivers]}.

(** A [HomeGenerator] that has given out every name it can build. *)
Definition every_home_name : gset string :=
  list_to_set (prefix ← HOME_NAME_PREFIXES;
               suffix ← HOME_NAME_SUFFIXES;
               [prefix +:+ " " +:+ suffix]).
Definition exhausted : HomeGenerator.t :=
  HomeGenerator.mk (Config.START_DATE END_DATE) END_DATE every_home_name.

(** A client in residence: admitted to Room 1 of the home 5 days after it
    opened, never discharged. *)
Definition resident : Client.t :=
  Client.mk 1000 "Ada" "Moore" (DT.date (home_open - DT.days 29000)) "Female"
            (DT.date (home_open + DT.days 5)) 100 201 "Dr. Sarah Mitchell"
            "(206) 555-0101" "Eve Moore" "(206) 555-0199" "Daughter" None
            "Hypertension" "Lisinopril 10mg" true (home_open + DT.days 5) 301
            None None [].

(** A world whose seeded generator returns [raws] and then zeros, whose
    Faker returns one text, whose identifiers count up from [first_id] and
    whose clock is read a microsecond later each time, from just after
    [END_DATE] on. *)
Definition world (raws : list Z) (first_id : Z) : World :=
  mkWorld (λ i, nth i raws 0) 0 (λ _, "Text"%string) 0
          (λ i, first_id + Z.of_nat i) 0 (λ i, END_DATE + 1 + Z.of_nat i) 0.

(** The largest raw output: [random.random()] is then just below 1. *)
Definition top : Z := 2 ^ 53 - 1.

(** Phase 3 admits two initial clients, the first 20 days after the
    opening, the second 5 days after it. *)
Definition two_initial_clients : World :=
  world ([1; 20] ++ repeat 0 14 ++ [5]) 1000.

(** Phase 3 admits one initial client on the opening day and, at the first
    step of the loop, a second client with a stay of 61 days that ends in a
    scheduled discharge. *)
Definition scheduled_discharge : World :=
  world (repeat 0 16 ++ [top; 0; 1; top]) 1000.

(** Phase 6 looks at the home 14 days after its opening, then 15 days
    later, then every 10 days, and finds no incident until the day before
    [END_DATE]; every draw from the incident of that day on returns 6. *)
Definition late_incident : World :=
  world ([0; 0; 5] ++ repeat 0 20 ++ [top] ++ repeat 6 17) 5000.

(** The loop of Phase 1 builds a home of five beds and one of four, with
    different names. *)
Definition two_homes : World := world [0; 0; 0; 1; 5; 1; 2; 3; 0; 7] 1000.

(** Phase 1 draws the opening dates of the homes 2 to 6 and then, for
    each of the six homes, a name that is free, a city, a capacity and the
    end of a zip code. *)
Definition six_homes : World :=
  world ([0; 10; 20; 30; 40] ++ [0; 0; 0; 1; 5] ++ [1; 1; 1; 2; 6]
         ++ [2; 2; 2; 0; 7] ++ [3; 3; 3; 1; 8] ++ [4; 4; 4; 2; 9]
         ++ [5; 0; 5; 0; 10]) 1000.

(** A world whose seeded generator returns the largest raw output at every
    draw: [random.random()] is just below 1, [randint(0, 2)] and
    [randint(1, 2)] return 1 and 2. *)
Definition all_top : World :=
  mkWorld (λ _, top) 0 (λ _, "Text"%string) 0 (λ i, 5000 + Z.of_nat i) 0
          (λ i, END_DATE + 1 + Z.of_nat i) 0.

(** A world whose seeded generator returns 3 at every draw. *)
Definition all_threes : World :=
  mkWorld (λ _, 3) 0 (λ _, "Text"%string) 0 (λ i, 5000 + Z.of_nat i) 0
          (λ i, END_DATE + 1 + Z.of_nat i) 0.

End Scenario.

(** ** Vocabulary of the properties *)

Module Props.

(** A string over the 36-symbol alphabet. *)
Definition alnum36 (s : string) : Prop :=
  Forall (λ c, is_Some (PyStr.index chars c)) (list_ascii_of_string s).

(** The character is a digit or an unaccented letter of either case: one of
    [0-9], [A-Z], [a-z]. *)
Definition ascii_alnum (c : ascii) : bool :=
  let n := nat_of_ascii c in
  ((48 <=? n)%nat && (n <=? 57)%nat)
  || ((65 <=? n)%nat && (n <=? 90)%nat)
  || ((97 <=? n)%nat && (n <=? 122)%nat).

(** The number a base-36 numeral denotes. *)
Definition base36_value (s : string) : Z :=
  fold_left (λ acc c, acc * 36 + default 0 (PyStr.index chars c))
            (list_ascii_of_string s) 0.

(** The addend of one character in the checksum loop: [factor * code_point],
    its two base-36 digits summed; and the factor of the next character. *)
Definition addend (factor code_point : Z) : Z :=
  factor * code_point / 36 + (factor * code_point) mod 36.
Definition flip (factor : Z) : Z := if decide (factor = 2) then 1 else 2.

(** Checksum verification of a 10-character number: the checksum
    recomputed over its first 9 characters is its 10th character. *)
Definition checksum_verifies (number : string) : Prop :=
  ∃ chk, String.get 9 number = Some chk
         ∧ _calculate_luhn_mod36_checksum (PyStr.prefix number 9) = Some chk.

(** The [Sequence] field of a 10-character incident number: characters
    5 to 8. *)
Definition sequence_field (number : string) : string := String.substring 5 4 number.

(** [m] run in world [w] returns (raises nothing), and its result and the
    world it leaves satisfy [Q]. *)
Definition returns {A} (m : M A) (w : World) (Q : A → World → Prop) : Prop :=
  match m w with
  | Ok a w' => Q a w'
  | Raise _ => False
  end.

(** [m] run in world [w] either returns a result that satisfies [Q], or
    stops because a loop of the model ran out of fuel (where the code would
    go on looping); it raises no exception of the code. *)
Definition returns_or_loops {A} (m : M A) (w : World) (Q : A → World → Prop)
    : Prop :=
  match m w with
  | Ok a w' => Q a w'
  | Raise e => e = OutOfFuel
  end.

(** The world after [n] more draws of the seeded [random] module, [n] more
    Faker texts, [n] more identifiers, [n] more readings of the clock. *)
Definition drawn (n : nat) (w : World) : World :=
  mkWorld (rand w) (n + rand_pos w) (fake w) (fake_pos w)
          (urandom w) (urandom_pos w) (clock w) (clock_pos w).
Definition faked (n : nat) (w : World) : World :=
  mkWorld (rand w) (rand_pos w) (fake w) (n + fake_pos w)
          (urandom w) (urandom_pos w) (clock w) (clock_pos w).
Definition minted (n : nat) (w : World) : World :=
  mkWorld (rand w) (rand_pos w) (fake w) (fake_pos w)
          (urandom w) (n + urandom_pos w) (clock w) (clock_pos w).
Definition timed (n : nat) (w : World) : World :=
  mkWorld (rand w) (rand_pos w) (fake w) (fake_pos w)
          (urandom w) (urandom_pos w) (clock w) (n + clock_pos w).

(** [w'] is a later state of the run that started in [w]: the same four
    sequences, cursors further on. *)
Record later (w w' : World) : Prop := mkLater {
  later_rand : rand w' = rand w;
  later_fake : fake w' = fake w;
  later_urandom : urandom w' = urandom w;
  later_clock : clock w' = clock w;
  later_rand_pos : (rand_pos w ≤ rand_pos w')%nat;
  later_fake_pos : (fake_pos w ≤ fake_pos w')%nat;
  later_urandom_pos : (urandom_pos w ≤ urandom_pos w')%nat;
  later_clock_pos : (clock_pos w ≤ clock_pos w')%nat
}.

(** Position [n] of the alphabet holds an upper-case character whose
    index is [n]. *)
Definition code_point_ok (n : nat) : bool :=
  match PyStr.at_ chars (Z.of_nat n) with
  | Some c => bool_decide (PyStr.index chars c = Some (Z.of_nat n))
              && bool_decide (PyStr.upper_char c = c)
  | None => false
  end.

(** What every photo of one incident carries. *)
Definition photo_of (incident_id home_id uploader_id occurred_at : Z) (p : Photo.t) : Prop :=
  Photo.incidentId p = incident_id
  ∧ Photo.blobPath p = (home_id, incident_id, Photo.id p)
  ∧ Photo.createdAt p = occurred_at
  ∧ Photo.createdById p = uploader_id
  ∧ Photo._sourceFile p = Photo.fileName p
  ∧ 50000 ≤ Photo.fileSizeBytes p ≤ 500000.

(** The status-dependent fields of an incident, by case on the status. *)
Definition status_fields (reporter_id occurred_at : Z)
    (admin_user_ids : option (list Z)) (st : string)
    (updated_at closed_at : option Z) (closure_notes : option string)
    (closed_by : option Z) : Prop :=
  (st = "Draft"%string
   ∧ updated_at = None ∧ closed_at = None
   ∧ closure_notes = None ∧ closed_by = None)
  ∨ (st ≠ "Draft"%string ∧ st ≠ "Closed"%string
     ∧ (∃ h, 1 ≤ h ≤ 24 ∧ updated_at = Some (occurred_at + DT.hours h))
     ∧ closed_at = None ∧ closure_notes = None ∧ closed_by = None)
  ∨ (st = "Closed"%string
     ∧ (∃ d, 1 ≤ d ≤ 7
          ∧ closed_at = Some (occurred_at + DT.days d)
          ∧ updated_at = Some (occurred_at + DT.days d))
     ∧ is_Some closure_notes
     ∧ ∃ closer, closed_by = Some closer
          ∧ match admin_user_ids with
            | Some (a :: l) => closer ∈ a :: l
            | _ => closer = reporter_id
            end).

(** The decoded [Sequence] field of an incident. *)
Definition sequence_value (inc : Incident.t) : Z :=
  base36_value (sequence_field (Incident.incidentNumber inc)).

(** The world [w] with the operating-system entropy replaced: the seeded
    sequences, their cursors and the clock are those of [w]. *)
Definition with_entropy (u : nat → Z) (pos : nat) (w : World) : World :=
  mkWorld (rand w) (rand_pos w) (fake w) (fake_pos w) u pos
          (clock w) (clock_pos w).

(** [m] reads the seeded generators and the clock only: run on other
    entropy it returns the same result, and leaves that entropy untouched. *)
Definition seeded_only {A} (m : M A) : Prop :=
  ∀ u pos w,
    m (with_entropy u pos w)
    = match m w with
      | Ok a w' => Ok a (with_entropy u pos w')
      | Raise e => Raise e
      end.

(** A home record but for its [id]. *)
Definition home_fields (h : Home.t) :=
  (Home.name h, Home.address h, Home.city h, Home.state h, Home.zipCode h,
   Home.phoneNumber h, Home.capacity h, Home.isActive h, Home.createdAt h,
   Home.createdById h).

(** ** The ledger of Phase 3 *)

(** [isActive] is true exactly when [dischargeDate] is absent. *)
Definition flag_consistent (c : Client.t) : Prop :=
  Client.isActive c = true ↔ Client.dischargeDate c = None.

(** The occupancy interval [iv] is the one opened at the admission of
    client [c], and its end agrees with the client's discharge fields: open
    exactly when the client is active, and closed on the instant whose date
    is [dischargeDate]. *)
Definition coherent (c : Client.t) (iv : Generate.interval) : Prop :=
  iv.2 = Client.id c
  ∧ iv.1.1 = Client.createdAt c
  ∧ (iv.1.2 = None ↔ Client.isActive c = true)
  ∧ (∀ e, iv.1.2 = Some e → Client.dischargeDate c = Some (DT.date e)).

(** The intervals of a [bed_occupancy] dictionary, each with its bed. *)
Definition flat (d : Generate.occupancy) : list (Z * Generate.interval) :=
  d ≫= (λ kv, (λ iv, (kv.1, iv)) <$> kv.2).

(** Every identifier of [clients] was read from the entropy before the
    cursor of [w]. *)
Definition minted_before (w : World) (clients : list Client.t) : Prop :=
  ∀ c, c ∈ clients → ∃ i, (i < urandom_pos w)%nat ∧ Client.id c = urandom w i.

(** The invariant of the Phase 3 loops of one home: [old] are the clients
    of the homes done before, [new] those of this home, [L] the intervals
    of its [bed_occupancy]. *)
Record ledger_inv (home_id : Z) (w : World) (old new : list Client.t)
    (L : list (Z * Generate.interval)) : Prop := mkLedgerInv {
  inv_nodup : NoDup (Client.id <$> (old ++ new));
  inv_minted : minted_before w (old ++ new);
  inv_flags : Forall flag_consistent new;
  inv_tracked : ∀ bed iv, (bed, iv) ∈ L →
    ∃ c, c ∈ new ∧ Client.homeId c = home_id ∧ Client.bedId c = bed ∧ coherent c iv;
  inv_covered : ∀ c, c ∈ new → ∃ bed iv, (bed, iv) ∈ L ∧ iv.2 = Client.id c;
  inv_ids : NoDup ((λ x : Z * Generate.interval, x.2.2) <$> L)
}.
(** [clients'] is [clients] after the loop that discharges, on [date], the
    first client whose identifier is [client_id]. *)
Definition first_discharged (client_id date : Z) (clients clients' : list Client.t)
    : Prop :=
  ((client_id ∉ Client.id <$> clients) ∧ clients' = clients)
  ∨ ∃ A c B reason,
      clients = A ++ c :: B ∧ Client.id c = client_id
      ∧ (client_id ∉ Client.id <$> A)
      ∧ clients' = A ++ Client.discharge c date reason :: B.

(** Fuel that suffices for a loop at [current_date] that runs while
    [current_date < END_DATE] and advances by at least [k] days each time. *)
Definition fuel_suffices (END_DATE k : Z) (fuel : nat) (current_date : Z) : Prop :=
  (0 < fuel)%nat
  ∧ (current_date < END_DATE →
     (END_DATE - current_date) / DT.days k + 1 < Z.of_nat fuel).

(** What Phase 3 has established when it has run over [homes], starting
    with the clients [old] of the homes before them. *)
Definition phase3_post (old : list Client.t) (homes : list Home.t)
    (clients : list Client.t) (ledgers : list Generate.occupancy) (w : World) : Prop :=
  ∃ new,
    clients = old ++ new
    ∧ NoDup (Client.id <$> clients)
    ∧ minted_before w clients
    ∧ Forall flag_consistent new
    ∧ Forall2 (λ home ledger, ∀ bed iv, (bed, iv) ∈ flat ledger →
                 ∃ c, c ∈ new ∧ Client.homeId c = Home.id home
                      ∧ Client.bedId c = bed ∧ coherent c iv) homes ledgers
    ∧ ∀ c, c ∈ new →
        ∃ k ledger bed iv, ledgers !! k = Some ledger
                           ∧ (bed, iv) ∈ flat ledger ∧ iv.2 = Client.id c.


(** ** The checksum and transpositions *)

(** Swapping two adjacent characters of code points [x] and [y] leaves the
    sum of the checksum loop unchanged modulo 36. *)
Definition swap_unseen (x y : Z) : bool :=
  bool_decide ((addend 1 x + addend 2 y) mod 36 = (addend 1 y + addend 2 x) mod 36).

(** ** Bed allocation *)

(** The interval [iv] covers [date]: [start <= date <= (end or END_DATE)]. *)
Definition covering (END_DATE date : Z) (iv : Generate.interval) : Prop :=
  iv.1.1 ≤ date ≤ default END_DATE iv.1.2.

(** ** The simulation horizon *)

(** The instant [t] lies in the horizon [[START_DATE, END_DATE)]. *)
Definition in_horizon (END_DATE t : Z) : Prop :=
  Config.START_DATE END_DATE ≤ t < END_DATE.


(** A home that opens in the horizon, at least 30 days before its end. *)
Definition opens_in_horizon (END_DATE : Z) (home : Home.t) : Prop :=
  Config.START_DATE END_DATE ≤ Home.createdAt home
  ∧ Home.createdAt home + DT.days 30 < END_DATE.

(** The timestamps of a client: created at the admission, in the horizon;
    the discharge date, when present, is the date of an instant of the
    horizon. *)
Definition client_in_horizon (END_DATE : Z) (c : Client.t) : Prop :=
  in_horizon END_DATE (Client.createdAt c)
  ∧ Client.admissionDate c = DT.date (Client.createdAt c)
  ∧ ∀ d, Client.dischargeDate c = Some d →
         ∃ t, in_horizon END_DATE t ∧ d = DT.date t.

(** A client of one of the homes [ids], with its timestamps in the
    horizon. *)
Definition generated_client (END_DATE : Z) (ids : list Z) (c : Client.t) : Prop :=
  Client.homeId c ∈ ids ∧ client_in_horizon END_DATE c.

(** ** Activities, incidents and appointments *)

(** An activity of home [home_id] made in the week that starts at
    [week_start]: dated in that week and before [END_DATE]; its
    participants, between 1 and 6, are taken without repetition from the
    clients that were active when the week started. *)
Definition activity_of_week (END_DATE : Z) (clients : list Client.t)
    (home_id week_start : Z) (a : Activity.t) : Prop :=
  Activity.homeId a = home_id
  ∧ week_start ≤ Activity.createdAt a < week_start + DT.days 7
  ∧ Activity.createdAt a < END_DATE
  ∧ Activity.date a = DT.date (Activity.createdAt a)
  ∧ Activity.updatedAt a = None
  ∧ Forall (λ p, Participant.activityId p = Activity.id a
                 ∧ Participant.createdAt p = Activity.createdAt a)
           (Activity.participants a)
  ∧ (Participant.clientId <$> Activity.participants a)
      ⊆+ Generate.active_client_ids clients home_id week_start
  ∧ (1 ≤ length (Activity.participants a) ≤ 6)%nat
  ∧ (if Activity.isGroupActivity a
     then (2 ≤ length (Activity.participants a))%nat
          ∨ length (Activity.participants a)
            = length (Generate.active_client_ids clients home_id week_start)
     else length (Activity.participants a) = 1%nat).

(** The client [c] is in residence at the instant [t]: admitted on or
    before it and not discharged by then, dates read as midnights. *)
Definition in_residence (t : Z) (c : Client.t) : Prop :=
  DT.of_date (Client.admissionDate c) ≤ t
  ∧ ∀ d, Client.dischargeDate c = Some d → t < DT.of_date d.

(** An incident of home [home_id] that occurs at [t]: who is involved. *)
Definition incident_people (clients : list Client.t) (home_caregivers : list User.t)
    (admin_user_ids : list Z) (home_id t : Z) (inc : Incident.t) : Prop :=
  Incident.homeId inc = home_id
  ∧ Incident.occurredAt inc = t
  ∧ (∃ c, c ∈ clients ∧ Client.homeId c = home_id ∧ in_residence t c)
  ∧ (∀ cid, Incident.clientId inc = Some cid →
       ∃ c, c ∈ clients ∧ Client.id c = cid ∧ Client.homeId c = home_id
            ∧ in_residence t c)
  ∧ Incident.reportedById inc ∈ User.id <$> home_caregivers
  ∧ (∀ who, Incident.closedById inc = Some who →
       match admin_user_ids with
       | [] => who = Incident.reportedById inc
       | _ => who ∈ admin_user_ids
       end).

(** The timestamps of an incident that occurs at [occurredAt]: it is
    created, with its photos, at that instant; an update follows it by 1
    hour to 7 days, a closure by 1 to 7 days. *)
Definition incident_times (inc : Incident.t) : Prop :=
  Incident.createdAt inc = Incident.occurredAt inc
  ∧ (∀ u, Incident.updatedAt inc = Some u →
          Incident.occurredAt inc + DT.hours 1 ≤ u
          ≤ Incident.occurredAt inc + DT.days 7)
  ∧ (∀ t, Incident.closedAt inc = Some t →
          Incident.occurredAt inc + DT.days 1 ≤ t
          ≤ Incident.occurredAt inc + DT.days 7)
  ∧ Forall (λ p, Photo.createdAt p = Incident.occurredAt inc)
           (Incident.photos inc).

(** Where the appointments of a type take place: the names of the
    locations [_get_location_for_type] chooses from, the home visit of the
    three therapies apart. *)
Definition location_names (appointment_type : string) : list string :=
  (if decide (appointment_type = "LabWork")
   then ["Quest Diagnostics"; "LabCorp Patient Service Center"]
   else if decide (appointment_type = "Imaging") then ["Cascade Imaging Center"]
   else if decide (appointment_type = "Dental") then ["Puget Sound Dental Clinic"]
   else if decide (appointment_type = "Ophthalmology")
   then ["Northwest Eye Associates"]
   else if decide (appointment_type = "Podiatry") then ["Seattle Podiatry Center"]
   else if decide (appointment_type = "Audiology")
   then ["Pacific Audiology Center"]
   else if decide (appointment_type = "Cardiology")
   then ["Sound Cardiology Associates"]
   else ["Overlake Medical Center"; "Virginia Mason Medical Center";
         "Providence Regional Medical Center"; "MultiCare Tacoma General"]
  )%string.

(** The location of an appointment of type [appointment_type]: a home
    visit, for the three therapies only, or an entry of
    [APPOINTMENT_LOCATIONS] that has an address and a telephone number and
    is one of those of the type. *)
Definition location_allowed (appointment_type : string) (loc : Location.t) : Prop :=
  (loc = Location.mk "Home visit" None None
   ∧ appointment_type ∈ ["PhysicalTherapy"; "OccupationalTherapy";
                         "SpeechTherapy"]%string)
  ∨ (loc ∈ APPOINTMENT_LOCATIONS
     ∧ Location.name loc ∈ location_names appointment_type
     ∧ is_Some (Location.address loc)
     ∧ is_Some (Location.phone loc)).

(** The timestamps of an appointment: it is created 3 to 21 days before
    the instant it is scheduled at, lasts 15 to 120 minutes, and its
    completion, when present, follows the scheduled instant by its
    duration. *)
Definition appointment_times (a : Appointment.t) : Prop :=
  (∃ d, 3 ≤ d ≤ 21
        ∧ Appointment.createdAt a = Appointment.scheduledAt a - DT.days d)
  ∧ 15 ≤ Appointment.durationMinutes a ≤ 120
  ∧ ∀ t, Appointment.completedAt a = Some t →
         t = Appointment.scheduledAt a + DT.minutes (Appointment.durationMinutes a).

(** The status-dependent fields of an appointment, by case on [is_past]. *)
Definition appointment_outcome (is_past : bool) (a : Appointment.t) : Prop :=
  Appointment.reminderSent a = is_past
  ∧ if is_past
    then Appointment.status a ∈ ["Completed"; "Cancelled"; "NoShow";
                                  "Rescheduled"]%string
         ∧ (is_Some (Appointment.completedAt a)
            ↔ Appointment.status a = "Completed"%string)
         ∧ (Appointment.completedById a
            = if decide (Appointment.status a = "Completed"%string)
              then Some (Appointment.createdById a) else None)
         ∧ is_Some (Appointment.outcomeNotes a)
    else Appointment.status a = "Scheduled"%string
         ∧ Appointment.completedAt a = None
         ∧ Appointment.completedById a = None
         ∧ Appointment.outcomeNotes a = None.

(** An appointment of the first loop of Phase 7, for the client [c]: on a
    day from the 7th after the admission to the day before the discharge
    or, for a client without discharge date, to the last day that starts
    before [END_DATE]; between 08:00 and 17:45. *)
Definition past_appointment_of (END_DATE : Z) (c : Client.t) (a : Appointment.t)
    : Prop :=
  Appointment.clientId a = Client.id c
  ∧ Appointment.homeId a = Client.homeId c
  ∧ ∃ day, Client.admissionDate c + 7 ≤ day
           ∧ DT.of_date day < Generate.discharge_or_end END_DATE c
           ∧ DT.of_date day + DT.hours 8 ≤ Appointment.scheduledAt a
             ≤ DT.of_date day + DT.hours 17 + DT.minutes 45.


(** A caregiver hired for [home] in Phase 2: the hire date is the opening
    of the home moved by at most 14 days, and not before [START_DATE]; the
    one home assignment is to that home, dated like the hire, made by the
    admin. *)
Definition hired_for (END_DATE admin_id : Z) (home : Home.t) (c : Caregiver.t)
    : Prop :=
  let u := Caregiver.user c in
  User.roles u = ["Caregiver"%string] ∧ User.isActive u = true ∧
  (∃ hire_offset, -14 ≤ hire_offset ≤ 14 ∧
     User.createdAt u
     = (Home.createdAt home + DT.days hire_offset) `max` Config.START_DATE END_DATE) ∧
  ∃ a, Caregiver.homeAssignments c = [a] ∧
    Assignment.userId a = User.id u ∧
    Assignment.homeId a = Home.id home ∧
    Assignment.assignedAt a = User.createdAt u ∧
    Assignment.assignedById a = Some admin_id ∧
    Assignment.isActive a = true.

(** The entry of [caregivers_by_home] for the home identifier [home_id]:
    two or three caregivers, each in the list of users and hired for a home
    of [homes] with this identifier. *)
Definition staffed_home (END_DATE admin_id : Z) (homes : list Home.t)
    (s : Generate.staff) (home_id : Z) : Prop :=
  ∃ cs, Generate.caregivers_by_home s !! home_id = Some cs ∧
    (2 ≤ length cs ≤ 3)%nat ∧
    Forall (λ c, c ∈ Generate.users s ∧
                 ∃ home, home ∈ homes ∧ Home.id home = home_id ∧
                         hired_for END_DATE admin_id home c) cs.

(** The addresses of the users the loop produced. *)
Definition emails (s : Generate.staff) : list string :=
  (λ c, User.email (Caregiver.user c)) <$> Generate.users s.

(** What the first loop of Phase 2 has produced when it has gone through
    [homes], starting with the addresses [used] taken. *)
Record staffed (END_DATE admin_id : Z) (used : gset string) (homes : list Home.t)
    (s : Generate.staff) (gen : UserGenerator.t) : Prop := mkStaffed {
  staffed_users :
    Forall (λ c, ∃ home, home ∈ homes ∧ hired_for END_DATE admin_id home c)
           (Generate.users s);
  staffed_assignments :
    Generate.caregiverHomeAssignments s
    = mjoin (Caregiver.homeAssignments <$> Generate.users s);
  staffed_homes :
    ∀ home, home ∈ homes →
      staffed_home END_DATE admin_id homes s (Home.id home);
  staffed_distinct : NoDup (emails s);
  staffed_fresh : ∀ e, e ∈ emails s → e ∉ used;
  staffed_recorded :
    UserGenerator.used_emails gen = list_to_set (emails s) ∪ used
}.

(** The instant [t] lies between 06:00 and 22:59 of its day, on a whole
    minute. *)
Definition working_hours (t : Z) : Prop :=
  DT.hours 6 ≤ t - DT.of_date (DT.date t) ≤ DT.hours 22 + DT.minutes 59
  ∧ t mod DT.usec_per_minute = 0.

(** The keys that the care logs of all five kinds have. *)
Record entry := mkEntry {
  entry_client : Z;
  entry_caregiver : Z;
  entry_timestamp : Z;
  entry_created : Z
}.

Definition entries (logs : Generate.care_logs) : list entry :=
  ((λ l, mkEntry (ADLLog.clientId l) (ADLLog.caregiverId l)
                 (ADLLog.timestamp l) (ADLLog.createdAt l))
     <$> Generate.adlLogs logs)
  ++ ((λ l, mkEntry (VitalsLog.clientId l) (VitalsLog.caregiverId l)
                    (VitalsLog.timestamp l) (VitalsLog.createdAt l))
        <$> Generate.vitalsLogs logs)
  ++ ((λ l, mkEntry (MedicationLog.clientId l) (MedicationLog.caregiverId l)
                    (MedicationLog.timestamp l) (MedicationLog.createdAt l))
        <$> Generate.medicationLogs logs)
  ++ ((λ l, mkEntry (ROMLog.clientId l) (ROMLog.caregiverId l)
                    (ROMLog.timestamp l) (ROMLog.createdAt l))
        <$> Generate.romLogs logs)
  ++ ((λ l, mkEntry (BehaviorNote.clientId l) (BehaviorNote.caregiverId l)
                    (BehaviorNote.timestamp l) (BehaviorNote.createdAt l))
        <$> Generate.behaviorNotes logs).

(** A care log of the client [c]: written by a caregiver of the client's
    home, on a day that starts on or after the admission and before the
    discharge (or before [END_DATE], for a client who has none), within
    the working hours of that day. *)
Definition care_entry_of (END_DATE : Z) (caregivers_by_home : gmap Z (list User.t))
    (c : Client.t) (e : entry) : Prop :=
  entry_client e = Client.id c
  ∧ (∃ cs caregiver, caregivers_by_home !! Client.homeId c = Some cs
                     ∧ caregiver ∈ cs ∧ entry_caregiver e = User.id caregiver)
  ∧ entry_created e = entry_timestamp e
  ∧ DT.of_date (Client.admissionDate c) ≤ DT.of_date (DT.date (entry_timestamp e))
  ∧ DT.of_date (DT.date (entry_timestamp e)) < Generate.discharge_or_end END_DATE c
  ∧ working_hours (entry_timestamp e).

(** A care log that the loop of Phase 4 writes for the client [client_id]
    in the round of the day [current_date], in which it has picked the
    caregiver [caregiver_id]. *)
Definition day_entry (client_id caregiver_id current_date : Z) (e : entry) : Prop :=
  entry_client e = client_id
  ∧ entry_caregiver e = caregiver_id
  ∧ entry_created e = entry_timestamp e
  ∧ DT.date (entry_timestamp e) = DT.date current_date
  ∧ working_hours (entry_timestamp e).

(** The six levels of an ADL log. *)
Definition adl_levels (l : ADLLog.t) : list string :=
  [ADLLog.bathing l; ADLLog.dressing l; ADLLog.toileting l;
   ADLLog.transferring l; ADLLog.continence l; ADLLog.feeding l].

(** The sum of the capacities of [homes]. *)
Definition total_capacity (homes : list Home.t) : Z :=
  foldr (λ home acc, Z.of_nat (Z.to_nat (Home.capacity home)) + acc) 0 homes.

(** What the loop of Phase 1 has built once it has gone through
    [open_dates], the names [used] being taken before: one home per date,
    in order, created by the admin, with a name of its own; for each home
    an entry of [beds_by_home] whose beds carry the identifier of the home
    and number 4 to 6; as many beds in all as the capacities add up to. *)
Record housed (admin_id : Z) (used : gset string) (open_dates : list Z)
    (h : Generate.housing) (gen : HomeGenerator.t) : Prop := mkHoused {
  housed_dates : Home.createdAt <$> Generate.homes h = open_dates;
  housed_admin :
    Forall (λ home, Home.createdById home = Some admin_id) (Generate.homes h);
  housed_names : NoDup (Home.name <$> Generate.homes h);
  housed_fresh : ∀ name, name ∈ Home.name <$> Generate.homes h → name ∉ used;
  housed_recorded :
    HomeGenerator.used_names gen
    = list_to_set (Home.name <$> Generate.homes h) ∪ used;
  housed_beds :
    ∀ home, home ∈ Generate.homes h →
      ∃ home_beds, Generate.beds_by_home h !! Home.id home = Some home_beds
        ∧ (4 ≤ length home_beds ≤ 6)%nat
        ∧ Forall (λ bed, Bed.homeId bed = Home.id home) home_beds
        ∧ home_beds ⊆ Generate.beds h;
  housed_total :
    Z.of_nat (length (Generate.beds h)) = total_capacity (Generate.homes h)
}.

End Props.

Import Props.
(** * Proofs *)

(** ** Strings as character lists *)

Section StringFacts.

Lemma chars_of_app (a b : string) :
  list_ascii_of_string (a +:+ b) = list_ascii_of_string a ++ list_ascii_of_string b.
Proof. induction a as [|c a IH]; simpl; [done | by rewrite IH]. Qed.

Lemma chars_of_length (s : string) :
  length (list_ascii_of_string s) = String.length s.
Proof. induction s; simpl; congruence. Qed.

Lemma chars_of_get (s : string) (i : nat) :
  String.get i s = list_ascii_of_string s !! i.
Proof.
  revert i; induction s as [|c s IH]; intros [|i]; simpl; auto.
Qed.

Lemma chars_of_prefix (s : string) (n : nat) :
  list_ascii_of_string (PyStr.prefix s n) = take n (list_ascii_of_string s).
Proof.
  unfold PyStr.prefix. revert n; induction s as [|c s IH]; intros [|n]; simpl; auto.
  by rewrite IH.
Qed.

Lemma chars_of_mutate (s : string) (i : nat) (c : ascii) :
  list_ascii_of_string (PyStr.mutate s i c) = <[i := c]> (list_ascii_of_string s).
Proof.
  revert i; induction s as [|c' s IH]; intros [|i]; simpl; auto.
  by rewrite IH.
Qed.

Lemma chars_of_inj (a b : string) :
  list_ascii_of_string a = list_ascii_of_string b → a = b.
Proof.
  intros H. rewrite <- (string_of_list_ascii_of_string a),
    <- (string_of_list_ascii_of_string b). by rewrite H.
Qed.

Lemma length_app_string (a b : string) :
  String.length (a +:+ b) = (String.length a + String.length b)%nat.
Proof. rewrite <- !chars_of_length, chars_of_app, length_app. done. Qed.

End StringFacts.

(** ** The Luhn mod-36 sum *)

Section Luhn.

#[local] Arguments luhn_step : simpl never.

Lemma index_Some (s : string) (c : ascii) (d : Z) :
  PyStr.index s c = Some d →
  0 ≤ d < PyStr.len s ∧ PyStr.at_ s d = Some c.
Proof.
  revert d; induction s as [|c' s IH]; intros d; simpl; [done|].
  unfold PyStr.len in *; simpl String.length.
  case_decide as Hc.
  - intros [= <-]. subst. split; [lia | done].
  - destruct (PyStr.index s c) as [d'|] eqn:E; simpl; [|done].
    intros [= <-]. destruct (IH d' eq_refl) as [Hr Hat]. split; [lia|].
    unfold PyStr.at_ in *. case_decide; [|lia]. case_decide; [|lia].
    replace (Z.to_nat (Z.succ d')) with (S (Z.to_nat d')) by lia. done.
Qed.

Lemma code_points_ok : forallb code_point_ok (seq 0 36) = true.
Proof. by vm_compute. Qed.

Lemma at_index_chars (d : Z) :
  0 ≤ d < 36 →
  ∃ c, PyStr.at_ chars d = Some c ∧ PyStr.index chars c = Some d
       ∧ PyStr.upper_char c = c.
Proof.
  intros Hd. pose proof code_points_ok as Hall.
  rewrite forallb_forall in Hall.
  assert (In (Z.to_nat d) (seq 0 36)) as Hin by (apply in_seq; lia).
  specialize (Hall _ Hin).
  unfold code_point_ok in Hall. rewrite Z2Nat.id in Hall by lia.
  destruct (PyStr.at_ chars d) as [c|]; [|done].
  exists c. split; [done|].
  apply andb_prop in Hall as [H1 H2].
  by apply bool_decide_eq_true in H1, H2.
Qed.

Lemma index_chars_upper (c : ascii) (d : Z) :
  PyStr.index chars c = Some d → PyStr.upper_char c = c.
Proof.
  intros H. destruct (index_Some _ _ _ H) as [Hr Hat].
  destruct (at_index_chars d Hr) as (c' & Hat' & _ & Hup). congruence.
Qed.

Lemma addend_range f d : f = 1 ∨ f = 2 → 0 ≤ d < 36 → 0 ≤ addend f d < 36.
Proof. unfold addend. intros [-> | ->] Hd; Z.div_mod_to_equations; lia. Qed.

Lemma addend_inj f d d' :
  f = 1 ∨ f = 2 → 0 ≤ d < 36 → 0 ≤ d' < 36 →
  addend f d = addend f d' → d = d'.
Proof. unfold addend. intros [-> | ->] Hd Hd'; Z.div_mod_to_equations; lia. Qed.

Lemma flip_12 f : f = 1 ∨ f = 2 → flip f = 1 ∨ flip f = 2.
Proof. unfold flip. case_decide; auto. Qed.

Lemma luhn_step_eq s f c :
  luhn_step (s, f) c =
  (λ d, (s + addend f d, flip f)) <$> PyStr.index chars (PyStr.upper_char c).
Proof. unfold luhn_step. by destruct (PyStr.index _ _). Qed.

Lemma luhn_loop_app l1 l2 st :
  luhn_loop (l1 ++ l2) st = luhn_loop l1 st ≫= luhn_loop l2.
Proof.
  revert st; induction l1 as [|c l1 IH]; intros st; simpl; [done|].
  destruct (luhn_step st c); simpl; [apply IH | done].
Qed.

(** The sum is additive in its start value. *)
Lemma luhn_loop_shift l s f :
  luhn_loop l (s, f) = (λ st, (s + st.1, st.2)) <$> luhn_loop l (0, f).
Proof.
  revert s f; induction l as [|c l IH]; intros s f; simpl.
  - f_equal. f_equal. lia.
  - rewrite !luhn_step_eq. destruct (PyStr.index _ _) as [d|]; simpl; [|done].
    rewrite (IH (s + addend f d)), (IH (0 + addend f d)).
    destruct (luhn_loop l (0, flip f)) as [[s' f']|]; simpl; [|done].
    do 2 f_equal. lia.
Qed.

Lemma luhn_loop_factor l s f s' f' :
  f = 1 ∨ f = 2 → luhn_loop l (s, f) = Some (s', f') → f' = 1 ∨ f' = 2.
Proof.
  revert s f; induction l as [|c l IH]; intros s f Hf; simpl.
  - by intros [= <- <-].
  - rewrite luhn_step_eq. destruct (PyStr.index _ _) as [d|]; simpl; [|done].
    apply IH. by apply flip_12.
Qed.

(** Replacing one character by one with another code point changes the sum
    modulo 36; replacing it by one outside the alphabet makes the loop
    fail. *)
Lemma luhn_loop_mutation l1 c c' l2 s f0 :
  f0 = 1 ∨ f0 = 2 →
  luhn_loop (l1 ++ c :: l2) (0, f0) = Some (s, 1) ∨
  luhn_loop (l1 ++ c :: l2) (0, f0) = Some (s, 2) →
  PyStr.index chars (PyStr.upper_char c) ≠ PyStr.index chars (PyStr.upper_char c') →
  match luhn_loop (l1 ++ c' :: l2) (0, f0) with
  | Some (s', _) => s' mod 36 ≠ s mod 36
  | None => True
  end.
Proof.
  intros Hf0 Hrun Hne.
  assert (∃ f, luhn_loop (l1 ++ c :: l2) (0, f0) = Some (s, f)) as [fe Hrun'].
  { destruct Hrun; eauto. }
  clear Hrun. revert Hrun'. rewrite !luhn_loop_app.
  destruct (luhn_loop l1 (0, f0)) as [[s1 f1]|] eqn:E1; simpl; [|done].
  pose proof (luhn_loop_factor _ _ _ _ _ Hf0 E1) as Hf1.
  rewrite !luhn_step_eq.
  destruct (PyStr.index chars (PyStr.upper_char c)) as [d|] eqn:Ed;
    destruct (PyStr.index chars (PyStr.upper_char c')) as [d'|] eqn:Ed';
    cbn [fmap option_fmap option_map mbind option_bind]; try done.
  rewrite (luhn_loop_shift l2 (s1 + addend f1 d)), (luhn_loop_shift l2 (s1 + addend f1 d')).
  destruct (luhn_loop l2 (0, flip f1)) as [[s2 f2]|];
    cbn [fmap option_fmap option_map fst snd]; [|done].
  intros [= <- <-].
  apply index_Some in Ed as [Hd _], Ed' as [Hd' _].
  change (PyStr.len chars) with 36 in *.
  pose proof (addend_range f1 d Hf1 Hd).
  pose proof (addend_range f1 d' Hf1 Hd').
  assert (addend f1 d ≠ addend f1 d') as Hadd.
  { intros Heq. apply (addend_inj f1 d d' Hf1 Hd Hd') in Heq. congruence. }
  intros Hmod.
  assert ((addend f1 d' - addend f1 d) mod 36 = 0) as Hz.
  { replace (addend f1 d' - addend f1 d)
      with ((s1 + addend f1 d' + s2) - (s1 + addend f1 d + s2)) by lia.
    rewrite Zminus_mod, Hmod, Z.sub_diag. done. }
  apply Z.mod_divide in Hz; [|lia]. destruct Hz as [k Hk]. lia.
Qed.

End Luhn.

(** ** Base-36 numerals *)

Section Base36.

#[local] Arguments luhn_step : simpl never.
#[local] Arguments PyStr.index : simpl never.

Lemma alnum36_app a b : alnum36 a → alnum36 b → alnum36 (a +:+ b).
Proof. unfold alnum36. rewrite chars_of_app. apply Forall_app_2. Qed.

Lemma base36_value_snoc pre c :
  base36_value (pre +:+ String c "") =
  base36_value pre * 36 + default 0 (PyStr.index chars c).
Proof. unfold base36_value. by rewrite chars_of_app, fold_left_app. Qed.

Lemma append_assoc (a b c : string) : (a +:+ b) +:+ c = a +:+ (b +:+ c).
Proof. apply chars_of_inj. by rewrite !chars_of_app, app_assoc. Qed.

Lemma to_base36_loop_spec value result :
  ∃ pre, to_base36_loop value result = pre +:+ result ∧ alnum36 pre
    ∧ (0 ≤ value → base36_value pre = value)
    ∧ (∀ w, (0 < w)%nat → value < 36 ^ Z.of_nat w → (String.length pre ≤ w)%nat).
Proof.
  funelim (to_base36_loop value result).
  all: clear Heq Heqcall.
  - assert (0 ≤ value `mod` 36 < 36) as Hm by (apply Z.mod_pos_bound; lia).
    destruct (at_index_chars _ Hm) as (c & Hat & Hidx & _).
    rewrite Hat.
    destruct (H c) as (pre & Hrun & Hal & Hval & Hlen); clear H.
    exists (pre +:+ String c ""). split; [|split; [|split]].
    + rewrite Hrun. by rewrite append_assoc.
    + apply alnum36_app; [done|]. repeat constructor. by rewrite Hidx.
    + intros _. rewrite base36_value_snoc, Hidx, Hval; simpl.
      * pose proof (Z.div_mod value 36). lia.
      * apply Z.div_pos; lia.
    + intros w Hw Hv. rewrite length_app_string; simpl.
      destruct w as [|[|w]]; [lia| |].
      * assert (value / 36 = 0) as Hz by (apply Z.div_small; lia).
        rewrite Hz in *.
        rewrite to_base36_loop_equation_1 in Hrun. simpl in Hrun.
        assert (String.length (pre +:+ String c result0) = String.length (String c result0))
          as Hl by (by rewrite <- Hrun).
        rewrite length_app_string in Hl. simpl in Hl. lia.
      * assert (String.length pre ≤ S w)%nat; [|lia].
        apply Hlen; [lia|].
        apply Z.div_lt_upper_bound; [lia|].
        replace (Z.of_nat (S (S w))) with (1 + Z.of_nat (S w)) in Hv by lia.
        rewrite Z.pow_add_r in Hv by lia. lia.
  - exists ""%string. split; [done|]. split; [constructor|].
    split; [intros; unfold base36_value; simpl; lia|]. simpl; lia.
Qed.

Lemma append_nil_r (s : string) : s +:+ "" = s.
Proof. apply chars_of_inj. by rewrite chars_of_app, app_nil_r. Qed.

Lemma zeros_length n : String.length (PyStr.zeros n) = n.
Proof. induction n; simpl; congruence. Qed.

Lemma zeros_alnum36 n : alnum36 (PyStr.zeros n).
Proof.
  unfold alnum36. induction n; simpl; [constructor|].
  constructor; [by exists 0 | done].
Qed.

Lemma base36_value_zeros n s : base36_value (PyStr.zeros n +:+ s) = base36_value s.
Proof.
  unfold base36_value. rewrite chars_of_app, fold_left_app. f_equal.
  induction n; simpl; [done|]. exact IHn.
Qed.

Lemma upper_alnum36 s : alnum36 s → PyStr.upper s = s.
Proof.
  unfold alnum36. induction s as [|c s IH]; simpl; [done|].
  intros [[d Hd] Hs]%Forall_cons. rewrite IH by done.
  by rewrite (index_chars_upper c d).
Qed.

Lemma zfill_alnum36 s width :
  alnum36 s → PyStr.zfill s width = PyStr.zeros (Z.to_nat (width - PyStr.len s)) +:+ s.
Proof.
  unfold PyStr.zfill. destruct s as [|c s]; [by rewrite append_nil_r|].
  intros [[d Hd] _]%Forall_cons. case_decide as Hsign; [|done].
  destruct Hsign as [-> | ->]; by vm_compute in Hd.
Qed.

(** A zero-padded base-36 field of the incident number. *)
Lemma base36_field (v : Z) (w : nat) :
  (0 < w)%nat →
  let s := PyStr.upper (PyStr.zfill (_to_base36 v) (Z.of_nat w)) in
  alnum36 s ∧ (0 ≤ v → base36_value s = v)
  ∧ (v < 36 ^ Z.of_nat w → String.length s = w).
Proof.
  intros Hw.
  assert (∃ t, _to_base36 v = t ∧ alnum36 t ∧ (0 ≤ v → base36_value t = v)
               ∧ (v < 36 ^ Z.of_nat w → (String.length t ≤ w)%nat))
    as (t & -> & Hal & Hval & Hlen).
  { unfold _to_base36. case_decide as Hv.
    - subst v. eexists; split; [done|]. split; [|split].
      + repeat constructor. by exists 0.
      + done.
      + simpl. lia.
    - destruct (to_base36_loop_spec v "") as (pre & Hrun & ? & ? & Hl).
      rewrite append_nil_r in Hrun. exists pre. repeat split; auto. }
  intros s. subst s. rewrite zfill_alnum36 by done.
  set (fill := PyStr.zeros _).
  assert (alnum36 (fill +:+ t)) as Hal'
    by (apply alnum36_app; [apply zeros_alnum36 | done]).
  rewrite upper_alnum36 by done.
  split; [done|]. split.
  - intros Hv. unfold fill. by rewrite base36_value_zeros, Hval.
  - intros Hv. specialize (Hlen Hv). rewrite length_app_string.
    unfold fill. rewrite zeros_length. unfold PyStr.len. lia.
Qed.

Lemma base36_field_Z (v width : Z) :
  0 < width →
  let s := PyStr.upper (PyStr.zfill (_to_base36 v) width) in
  alnum36 s ∧ (0 ≤ v → base36_value s = v)
  ∧ (v < 36 ^ width → String.length s = Z.to_nat width).
Proof.
  intros Hw. pose proof (base36_field v (Z.to_nat width)) as H.
  rewrite Z2Nat.id in H by lia. apply H. lia.
Qed.

Lemma luhn_loop_alnum36 l st :
  Forall (λ c, is_Some (PyStr.index chars c)) l → is_Some (luhn_loop l st).
Proof.
  revert st; induction l as [|c l IH]; intros [s f]; simpl; [by eauto|].
  intros [[d Hd] Hl]%Forall_cons. rewrite luhn_step_eq.
  rewrite (index_chars_upper c d Hd), Hd. simpl. by apply IH.
Qed.

Lemma checksum_alnum36 payload :
  alnum36 payload →
  ∃ chk, _calculate_luhn_mod36_checksum payload = Some chk
         ∧ is_Some (PyStr.index chars chk).
Proof.
  intros Hal. unfold _calculate_luhn_mod36_checksum.
  destruct (luhn_loop_alnum36 (reverse (list_ascii_of_string payload)) (0, 2))
    as [st Hst].
  { by apply Forall_reverse. }
  rewrite Hst. simpl.
  assert (0 ≤ (36 - st.1 `mod` 36) `mod` 36 < 36) as Hr
    by (apply Z.mod_pos_bound; lia).
  destruct (at_index_chars _ Hr) as (c & Hat & Hidx & _). eauto.
Qed.

End Base36.

(** ** Incident numbers *)

Section IncidentNumbers.

#[local] Arguments PyStr.index : simpl never.
#[local] Arguments luhn_step : simpl never.

Lemma type_code_shape (incident_type : string) :
  alnum36 (_get_incident_type_code incident_type)
  ∧ String.length (_get_incident_type_code incident_type) = 1%nat.
Proof.
  unfold _get_incident_type_code.
  repeat case_decide; (split; [repeat constructor; by vm_compute; eexists | done]).
Qed.

Lemma at_chars_inj d1 d2 c :
  0 ≤ d1 < 36 → 0 ≤ d2 < 36 →
  PyStr.at_ chars d1 = Some c → PyStr.at_ chars d2 = Some c → d1 = d2.
Proof.
  intros H1 H2 E1 E2.
  destruct (at_index_chars d1 H1) as (c1 & ? & ? & _).
  destruct (at_index_chars d2 H2) as (c2 & ? & ? & _).
  congruence.
Qed.

(** The check character moves whenever the sum moves modulo 36. *)
Lemma check_code_point_inj s s' c :
  PyStr.at_ chars ((36 - s `mod` 36) `mod` 36) = Some c →
  PyStr.at_ chars ((36 - s' `mod` 36) `mod` 36) = Some c →
  s' `mod` 36 = s `mod` 36.
Proof.
  intros E E'.
  assert (0 ≤ s `mod` 36 < 36) by (apply Z.mod_pos_bound; lia).
  assert (0 ≤ s' `mod` 36 < 36) by (apply Z.mod_pos_bound; lia).
  assert ((36 - s `mod` 36) `mod` 36 = (36 - s' `mod` 36) `mod` 36) as Heq.
  { eapply at_chars_inj; eauto; apply Z.mod_pos_bound; lia. }
  revert Heq. generalize (s `mod` 36) (s' `mod` 36) H H0. clear.
  intros a b Ha Hb. Z.div_mod_to_equations. lia.
Qed.

(** A payload mutation that changes a code point changes the check
    character (or makes the computation raise). *)
Lemma checksum_payload_mutation (P1 P2 : list ascii) (c0 c chk : ascii) :
  _calculate_luhn_mod36_checksum (string_of_list_ascii (P1 ++ c0 :: P2)) = Some chk →
  PyStr.index chars (PyStr.upper_char c0) ≠ PyStr.index chars (PyStr.upper_char c) →
  _calculate_luhn_mod36_checksum (string_of_list_ascii (P1 ++ c :: P2)) ≠ Some chk.
Proof.
  unfold _calculate_luhn_mod36_checksum.
  rewrite !list_ascii_of_string_of_list_ascii, !reverse_app, !reverse_cons, <- !app_assoc.
  simpl.
  destruct (luhn_loop (reverse P2 ++ c0 :: reverse P1) (0, 2)) as [[s f]|] eqn:E;
    simpl; [|done].
  intros Hchk Hne.
  assert (f = 1 ∨ f = 2) as Hf by (eapply luhn_loop_factor; [|exact E]; auto).
  pose proof (luhn_loop_mutation (reverse P2) c0 c (reverse P1) s 2) as Hmut.
  destruct (luhn_loop (reverse P2 ++ c :: reverse P1) (0, 2)) as [[s' f']|];
    simpl; [|done].
  intros Hchk'. apply Hmut; auto.
  - destruct Hf as [-> | ->]; auto.
  - eapply check_code_point_inj; eauto.
Qed.

(** What [_generate_incident_number] returns: the payload
    [<TypeCode>IR<HomeCode><Sequence>] over the alphabet, followed by its
    check character. *)
Lemma incident_number_shape self home_id incident_type incident_count :
  let home_sequence := default 1 (IncidentGenerator.home_sequence_map self !! home_id) in
  let type_code := _get_incident_type_code incident_type in
  let home_code := PyStr.upper (PyStr.zfill (_to_base36 home_sequence) 2) in
  let sequence := PyStr.upper (PyStr.zfill (_to_base36 incident_count) 4) in
  let payload := type_code +:+ "IR" +:+ home_code +:+ sequence in
  ∃ chk,
    IncidentGenerator._generate_incident_number self home_id incident_type incident_count
      = Some (payload +:+ String chk "")
    ∧ _calculate_luhn_mod36_checksum payload = Some chk
    ∧ alnum36 payload.
Proof.
  intros home_sequence type_code home_code sequence payload.
  assert (alnum36 payload) as Hal.
  { unfold payload. apply alnum36_app; [apply type_code_shape|].
    apply alnum36_app; [repeat constructor; by vm_compute; eexists|].
    apply alnum36_app.
    - by apply (base36_field_Z home_sequence 2).
    - by apply (base36_field_Z incident_count 4). }
  destruct (checksum_alnum36 payload Hal) as (chk & Hchk & _).
  exists chk. split; [|done].
  unfold IncidentGenerator._generate_incident_number.
  fold home_sequence type_code home_code sequence.
  change (type_code +:+ "IR" +:+ home_code +:+ sequence) with payload.
  rewrite Hchk. simpl. f_equal. unfold payload.
  by rewrite !append_assoc.
Qed.

Lemma incident_number_length self home_id incident_type incident_count payload :
  default 1 (IncidentGenerator.home_sequence_map self !! home_id) < 36 ^ 2 →
  incident_count < 36 ^ 4 →
  payload = _get_incident_type_code incident_type +:+ "IR"
    +:+ PyStr.upper (PyStr.zfill (_to_base36
          (default 1 (IncidentGenerator.home_sequence_map self !! home_id))) 2)
    +:+ PyStr.upper (PyStr.zfill (_to_base36 incident_count) 4) →
  String.length payload = 9%nat.
Proof.
  intros Hh Hc ->. rewrite !length_app_string.
  destruct (type_code_shape incident_type) as [_ ->].
  pose proof (base36_field_Z
    (default 1 (IncidentGenerator.home_sequence_map self !! home_id)) 2 eq_refl)
    as (_ & _ & Hl2).
  pose proof (base36_field_Z incident_count 4 eq_refl) as (_ & _ & Hl4).
  rewrite Hl2, Hl4 by done. done.
Qed.

End IncidentNumbers.

Section ChecksumClaim.

#[local] Arguments PyStr.index : simpl never.
#[local] Arguments luhn_step : simpl never.

Lemma luhn_loop_upper l1 c c' l2 st :
  PyStr.upper_char c = PyStr.upper_char c' →
  luhn_loop (l1 ++ c :: l2) st = luhn_loop (l1 ++ c' :: l2) st.
Proof.
  intros Hup. rewrite !luhn_loop_app.
  destruct (luhn_loop l1 st) as [[s f]|]; simpl; [|done].
  by rewrite !luhn_step_eq, Hup.
Qed.

Lemma string_of_chars_prefix (P : list ascii) (rest : list ascii) :
  PyStr.prefix (string_of_list_ascii (P ++ rest)) (length P) = string_of_list_ascii P.
Proof.
  apply chars_of_inj.
  rewrite chars_of_prefix, !list_ascii_of_string_of_list_ascii.
  by rewrite take_app_length.
Qed.

Lemma verifies_payload_check (P : list ascii) (chk : ascii) :
  length P = 9%nat →
  checksum_verifies (string_of_list_ascii (P ++ [chk])) ↔
  _calculate_luhn_mod36_checksum (string_of_list_ascii P) = Some chk.
Proof.
  intros HP. unfold checksum_verifies.
  replace (PyStr.prefix (string_of_list_ascii (P ++ [chk])) 9)
    with (string_of_list_ascii P)
    by (rewrite <- HP; symmetry; apply string_of_chars_prefix).
  rewrite chars_of_get, list_ascii_of_string_of_list_ascii.
  rewrite lookup_app_r by lia. rewrite HP. simpl.
  split.
  - intros (c & [= <-] & H). done.
  - intros H. eauto.
Qed.

Lemma mutation_cases (number : string) (P : list ascii) (chk : ascii)
    (i : nat) (c0 c : ascii) :
  list_ascii_of_string number = P ++ [chk] →
  String.get i number = Some c0 →
  (i = length P ∧ c0 = chk
   ∧ PyStr.mutate number i c = string_of_list_ascii (P ++ [c]))
  ∨ (∃ P1 P2, P = P1 ++ c0 :: P2 ∧ length P1 = i
     ∧ PyStr.mutate number i c = string_of_list_ascii ((P1 ++ c :: P2) ++ [chk])).
Proof.
  intros HL Hget. rewrite chars_of_get, HL in Hget.
  destruct (decide (i < length P)%nat) as [Hi|Hi].
  - right. rewrite lookup_app_l in Hget by done.
    apply list_elem_of_split_length in Hget as (P1 & P2 & -> & ->).
    exists P1, P2. split; [done|]. split; [done|].
    apply chars_of_inj.
    rewrite chars_of_mutate, HL, list_ascii_of_string_of_list_ascii.
    rewrite insert_app_l by (rewrite length_app; simpl; lia).
    f_equal. rewrite insert_app_r_alt by lia.
    by replace (length P1 - length P1)%nat with 0%nat by lia.
  - left. rewrite lookup_app_r in Hget by lia.
    destruct (i - length P)%nat as [|k] eqn:Ek; simpl in Hget; [|done].
    injection Hget as <-. split; [lia|]. split; [done|].
    apply chars_of_inj.
    rewrite chars_of_mutate, HL, list_ascii_of_string_of_list_ascii.
    rewrite insert_app_r_alt by lia. by rewrite Ek.
Qed.

(** An incident number whose home sequence and incident count fit their
    fields has 10 characters and verifies; a one-character mutation of it
    still verifies exactly when it replaces one of the first 9 characters
    by a character with the same upper-case form (the code upper-cases
    before it looks a character up). *)
Lemma incident_number_mutation_verdict
    (self : IncidentGenerator.t) (home_id : Z) (incident_type : string)
    (incident_count : Z) :
  default 1 (IncidentGenerator.home_sequence_map self !! home_id) < 36 ^ 2 →
  incident_count < 36 ^ 4 →
  ∃ number,
    IncidentGenerator._generate_incident_number self home_id incident_type incident_count
      = Some number
    ∧ String.length number = 10%nat
    ∧ checksum_verifies number
    ∧ ∀ (i : nat) (c0 c : ascii),
        String.get i number = Some c0 → c ≠ c0 →
        (checksum_verifies (PyStr.mutate number i c)
         ↔ (i < 9)%nat ∧ PyStr.upper_char c = c0).
Proof.
  intros Hhome Hcount.
  destruct (incident_number_shape self home_id incident_type incident_count)
    as (chk & Hnum & Hchk & Hal).
  set (payload := _ +:+ "IR" +:+ _ +:+ _) in *.
  pose proof (incident_number_length self home_id incident_type incident_count
                payload Hhome Hcount eq_refl) as Hlen.
  set (P := list_ascii_of_string payload).
  assert (length P = 9%nat) as HP by (unfold P; by rewrite chars_of_length).
  assert (string_of_list_ascii P = payload) as HPs
    by apply string_of_list_ascii_of_string.
  assert (list_ascii_of_string (payload +:+ String chk "") = P ++ [chk]) as HL
    by (by rewrite chars_of_app).
  assert (payload +:+ String chk "" = string_of_list_ascii (P ++ [chk])) as Hstr.
  { apply chars_of_inj. by rewrite HL, list_ascii_of_string_of_list_ascii. }
  exists (payload +:+ String chk ""). split; [done|]. split.
  { rewrite length_app_string, Hlen. done. }
  split.
  { rewrite Hstr. apply verifies_payload_check; [done|]. by rewrite HPs. }
  intros i c0 c Hget Hne.
  destruct (mutation_cases _ P chk i c0 c HL Hget)
    as [(Hi & -> & ->) | (P1 & P2 & HPeq & Hi & ->)].
  - rewrite verifies_payload_check by done. rewrite HPs, Hchk. split.
    + intros [= ->]. done.
    + intros [? _]. lia.
  - assert (length (P1 ++ c :: P2) = 9%nat) as HP'.
    { rewrite <- HP, HPeq, !length_app. done. }
    rewrite verifies_payload_check by done.
    assert (PyStr.upper_char c0 = c0) as Hup0.
    { assert (is_Some (PyStr.index chars c0)) as [d Hd].
      { unfold alnum36 in Hal. fold P in Hal. rewrite HPeq in Hal.
        apply Forall_app in Hal as [_ Hal]. by apply Forall_cons in Hal as [? _]. }
      by apply index_chars_upper in Hd. }
    assert (i < 9)%nat as Hi9.
    { rewrite <- HP, HPeq, length_app. simpl. lia. }
    rewrite <- HPs, HPeq in Hchk. split.
    + intros Hver. split; [done|].
      destruct (decide (PyStr.upper_char c = c0)) as [|Hc]; [done|]. exfalso.
      revert Hver. apply (checksum_payload_mutation P1 P2 c0 c chk Hchk).
      rewrite Hup0. intros Hidx.
      assert (is_Some (PyStr.index chars c0)) as [d Hd].
      { unfold alnum36 in Hal. fold P in Hal. rewrite HPeq in Hal.
        apply Forall_app in Hal as [_ Hal]. by apply Forall_cons in Hal as [? _]. }
      rewrite Hd in Hidx. symmetry in Hidx.
      apply index_Some in Hd as [_ Hd], Hidx as [_ Hidx]. congruence.
    + intros [_ Hup]. rewrite <- Hchk.
      unfold _calculate_luhn_mod36_checksum.
      rewrite !list_ascii_of_string_of_list_ascii, !reverse_app, !reverse_cons,
        <- !app_assoc. simpl.
      rewrite (luhn_loop_upper (reverse P2) c c0); [done|]. congruence.
Qed.

(** C3: an incident number whose home sequence and incident count fit
    their fields has 10 characters, and recomputing the Luhn mod-36
    checksum over its first 9 characters reproduces the 10th; replacing
    any one of its 10 characters by a different symbol of the alphabet
    [0-9A-Z] makes the verification fail. *)
Theorem incident_number_checksum_detects_mutation
    (self : IncidentGenerator.t) (home_id : Z) (incident_type : string)
    (incident_count : Z) :
  default 1 (IncidentGenerator.home_sequence_map self !! home_id) < 36 ^ 2 →
  incident_count < 36 ^ 4 →
  ∃ number,
    IncidentGenerator._generate_incident_number self home_id incident_type incident_count
      = Some number
    ∧ String.length number = 10%nat
    ∧ checksum_verifies number
    ∧ ∀ (i : nat) (c0 c : ascii),
        String.get i number = Some c0 →
        is_Some (PyStr.index chars c) → c ≠ c0 →
        ¬ checksum_verifies (PyStr.mutate number i c).
Proof.
  intros Hhome Hcount.
  destruct (incident_number_mutation_verdict self home_id incident_type
              incident_count Hhome Hcount)
    as (number & Hnumber & Hlen & Hverifies & Hmutation).
  exists number. split; [done|]. split; [done|]. split; [done|].
  intros i c0 c Hget [d Hd] Hne Hver.
  apply (Hmutation i c0 c Hget Hne) in Hver as [_ Hup].
  apply index_chars_upper in Hd. congruence.
Qed.

Lemma incident_number_checksum_detects_mutation_witness :
  default 1 (IncidentGenerator.home_sequence_map IncidentGenerator.__init__ !! 7)
    < 36 ^ 2
  ∧ 3 < 36 ^ 4
  ∧ ∃ number,
      IncidentGenerator._generate_incident_number
        IncidentGenerator.__init__ 7 "Fall" 3 = Some number
      ∧ String.length number = 10%nat
      ∧ checksum_verifies number
      ∧ ∀ (i : nat) (c0 c : ascii),
          String.get i number = Some c0 →
          is_Some (PyStr.index chars c) → c ≠ c0 →
          ¬ checksum_verifies (PyStr.mutate number i c).
Proof.
  assert (default 1 (IncidentGenerator.home_sequence_map
                       IncidentGenerator.__init__ !! 7) < 36 ^ 2) as Hhome
    by reflexivity.
  assert (3 < 36 ^ 4) as Hcount by reflexivity.
  split; [exact Hhome|]. split; [exact Hcount|].
  exact (incident_number_checksum_detects_mutation
           IncidentGenerator.__init__ 7 "Fall" 3 Hhome Hcount).
Defined.

(** A character that is not a symbol of the alphabet: the code upper-cases
    each character before it looks it up, so it reads the lower-case [f]
    as [F], and [fIR010003X] passes the check that [FIR010003X] passes. *)
Example lowercase_letter_read_as_upper_case :
  IncidentGenerator._generate_incident_number
    IncidentGenerator.__init__ 7 "Fall" 3 = Some "FIR010003X"
  ∧ PyStr.mutate "FIR010003X" 0 "f" = "fIR010003X"
  ∧ PyStr.index chars "f" = None
  ∧ checksum_verifies (PyStr.mutate "FIR010003X" 0 "f").
Proof.
  split; [by vm_compute|]. split; [done|]. split; [by vm_compute|].
  exists "X"%char. split; by vm_compute.
Qed.

End ChecksumClaim.

(** ** Reasoning about runs *)

Section Returns.

Context {A B : Type}.

Lemma returns_ret (a : A) w (Q : A → World → Prop) : Q a w → returns (mret a) w Q.
Proof. done. Qed.

Lemma returns_bind (m : M A) (f : A → M B) w (Q : B → World → Prop) :
  returns m w (λ a w', returns (f a) w' Q) → returns (m ≫= f) w Q.
Proof. unfold returns, mbind, M_bind. by destruct (m w). Qed.

Lemma returns_mono (m : M A) w (Q Q' : A → World → Prop) :
  returns m w Q → (∀ a w', Q a w' → Q' a w') → returns m w Q'.
Proof. unfold returns. destruct (m w); auto. Qed.

Lemma returns_elim (m : M A) w (Q : A → World → Prop) :
  returns m w Q → ∃ a w', m w = Ok a w' ∧ Q a w'.
Proof. unfold returns. destruct (m w); [eauto | done]. Qed.

Lemma returns_intro (m : M A) w a w' (Q : A → World → Prop) :
  m w = Ok a w' → Q a w' → returns m w Q.
Proof. unfold returns. by intros ->. Qed.

Lemma returns_conj (m : M A) w (Q Q' : A → World → Prop) :
  returns m w Q → returns m w Q' → returns m w (λ a w', Q a w' ∧ Q' a w').
Proof. unfold returns. destruct (m w); auto. Qed.

End Returns.

Section Worlds.

Lemma drawn_drawn a b w : drawn a (drawn b w) = drawn (a + b) w.
Proof. unfold drawn; simpl. f_equal. lia. Qed.

#[global] Instance later_preorder : PreOrder later.
Proof.
  split.
  - intros w. by split.
  - intros w1 w2 w3 [] []. split; try congruence; lia.
Qed.

Lemma later_drawn n w : later w (drawn n w).
Proof. split; simpl; auto; lia. Qed.
Lemma later_faked n w : later w (faked n w).
Proof. split; simpl; auto; lia. Qed.
Lemma later_minted n w : later w (minted n w).
Proof. split; simpl; auto; lia. Qed.
Lemma later_timed n w : later w (timed n w).
Proof. split; simpl; auto; lia. Qed.

End Worlds.

Ltac solve_later :=
lazymatch goal with
| |- later ?w ?w => reflexivity
| H : later ?w ?w' |- later ?w ?w' => exact H
| |- later ?w (drawn _ ?w') => transitivity w'; [solve_later | apply later_drawn]
| |- later ?w (minted _ ?w') => transitivity w'; [solve_later | apply later_minted]
| |- later ?w (faked _ ?w') => transitivity w'; [solve_later | apply later_faked]
| |- later ?w (timed _ ?w') => transitivity w'; [solve_later | apply later_timed]
| H : later ?w1 ?w' |- later ?w ?w' => transitivity w1; [solve_later | exact H]
end.

Section Primitives.

Lemma returns_randbelow n w (Q : Z → World → Prop) :
  0 < n → (∀ r, 0 ≤ r < n → Q r (drawn 1 w)) → returns (randbelow n) w Q.
Proof.
  intros Hn HQ. unfold returns, randbelow; simpl.
  apply HQ. apply Z.mod_pos_bound. lia.
Qed.

Lemma returns_randint a b w (Q : Z → World → Prop) :
  a ≤ b → (∀ r, a ≤ r ≤ b → Q r (drawn 1 w)) → returns (randint a b) w Q.
Proof.
  intros Hab HQ. unfold randint. case_decide; [lia|].
  apply returns_bind, returns_randbelow; [lia|]. intros r Hr.
  apply returns_ret, HQ. lia.
Qed.

Lemma returns_random w (Q : Q → World → Prop) :
  (∀ q, Q q (drawn 1 w)) → returns random w Q.
Proof.
  intros HQ. unfold random. apply returns_bind, returns_randbelow; [done|].
  intros r _. apply returns_ret, HQ.
Qed.

Lemma returns_choice {A} (seq : list A) w (Q : A → World → Prop) :
  seq ≠ [] → (∀ x, x ∈ seq → Q x (drawn 1 w)) → returns (choice seq) w Q.
Proof.
  intros Hne HQ. unfold choice. case_decide; [done|].
  apply returns_bind, returns_randbelow.
  { destruct seq; [done|]. simpl; lia. }
  intros r Hr.
  destruct (seq !! Z.to_nat r) as [x|] eqn:E.
  - apply returns_ret, HQ. by eapply list_elem_of_lookup_2.
  - apply lookup_ge_None in E. lia.
Qed.

Lemma returns_uuid4 w (Q : Z → World → Prop) :
  Q (urandom w (urandom_pos w)) (minted 1 w) → returns uuid4 w Q.
Proof. done. Qed.

Lemma returns_faker w (Q : string → World → Prop) :
  (∀ s, Q s (faked 1 w)) → returns faker w Q.
Proof. intros HQ. apply HQ. Qed.

Lemma returns_now w (Q : Z → World → Prop) :
  Q (clock w (clock_pos w)) (timed 1 w) → returns now w Q.
Proof. done. Qed.

Lemma bisect_le a x hi : (bisect a x hi ≤ hi)%nat.
Proof.
  revert hi; induction a as [|y a IH]; intros [|hi]; simpl; try lia.
  destruct (Qle_bool y x); [|lia]. specialize (IH hi). lia.
Qed.

Lemma accumulate_length acc ws : length (accumulate acc ws) = length ws.
Proof. revert acc; induction ws; intros; simpl; auto. Qed.

Lemma returns_weighted_choice {A} (choices : list (A * Q)) w (Q : A → World → Prop) :
  (∃ total, last (accumulate 0 (snd <$> choices)) = Some total
            ∧ Qle_bool total 0 = false) →
  (∀ x, x ∈ (fst <$> choices) → Q x (drawn 1 w)) →
  returns (weighted_choice choices) w Q.
Proof.
  intros (total & Htot & Hpos) HQ. unfold weighted_choice, choices1.
  rewrite accumulate_length, !length_fmap. case_decide; [done|].
  rewrite Htot, Hpos.
  apply returns_bind, returns_random. intros u.
  match goal with |- context [bisect ?a ?x ?hi] =>
    pose proof (bisect_le a x hi) as Hb; set (i := bisect a x hi) in * end.
  assert (length choices ≠ 0)%nat as Hlen.
  { destruct choices; [done|]. simpl; lia. }
  destruct ((fst <$> choices) !! i) as [x|] eqn:E.
  - apply returns_ret, HQ. by eapply list_elem_of_lookup_2.
  - apply lookup_ge_None in E. rewrite length_fmap in E. lia.
Qed.

(** The selection loop takes its results, without replacement, from the
    live part of the pool. *)
Lemma returns_sample_loop {A} (pool : list A) (live k : nat) w
    (Q : list A → World → Prop) :
  (k ≤ live ≤ length pool)%nat →
  (∀ l, length l = k → l ⊆+ take live pool → Q l (drawn k w)) →
  returns (sample_loop pool live k) w Q.
Proof.
  revert pool live w Q; induction k as [|k IH]; intros pool live w Q Hk HQ; simpl.
  - apply returns_ret. replace w with (drawn 0 w) by (by destruct w).
    apply HQ; [done|]. apply submseteq_nil_l.
  - apply returns_bind, returns_randbelow; [lia|]. intros j Hj.
    destruct (pool !! Z.to_nat j) as [x|] eqn:Ex; cycle 1.
    { apply lookup_ge_None in Ex. lia. }
    destruct (pool !! (live - 1)%nat) as [y|] eqn:Ey; cycle 1.
    { apply lookup_ge_None in Ey. lia. }
    apply returns_bind, IH; [rewrite length_insert; lia|].
    intros rest Hlen Hsub. apply returns_ret.
    rewrite drawn_drawn. replace (k + 1)%nat with (S k) by lia.
    apply HQ; [simpl; lia|].
    assert (take live pool = take (live - 1) pool ++ [y]) as Hsplit.
    { replace live with (S (live - 1)) at 1 by lia.
      by erewrite take_S_r. }
    rewrite Hsplit.
    destruct (decide (Z.to_nat j = live - 1)%nat) as [Hlast|Hmid].
    + rewrite Hlast in *. assert (x = y) as -> by congruence.
      rewrite take_insert_ge in Hsub by lia.
      rewrite <- Permutation_cons_append. by constructor.
    + assert (take (live - 1) pool !! Z.to_nat j = Some x) as Hx.
      { rewrite lookup_take_lt by lia. done. }
      apply list_elem_of_split_length in Hx as (P1 & P2 & HP & Hj').
      assert (take (live - 1) (<[Z.to_nat j := y]> pool) = P1 ++ y :: P2) as Hins.
      { rewrite take_insert_lt by lia. rewrite HP, Hj'.
        rewrite insert_app_r_alt by lia.
        by replace (length P1 - length P1)%nat with 0%nat by lia. }
      rewrite Hins in Hsub. rewrite HP.
      transitivity (x :: P1 ++ y :: P2); [by constructor|].
      apply Permutation_submseteq.
      rewrite <- app_assoc. simpl.
      rewrite <- !Permutation_middle. constructor.
      by rewrite app_nil_r.
Qed.

Lemma returns_sample {A} (population : list A) (k : Z) w
    (Q : list A → World → Prop) :
  0 ≤ k ≤ Z.of_nat (length population) →
  (∀ l, Z.of_nat (length l) = k → l ⊆+ population → Q l (drawn (Z.to_nat k) w)) →
  returns (sample population k) w Q.
Proof.
  intros Hk HQ. unfold sample. case_decide; [|lia].
  apply returns_sample_loop; [lia|]. intros l Hl Hsub.
  apply HQ; [lia|]. by rewrite firstn_all in Hsub.
Qed.

Lemma later_returns_drawn n w w0 : later w0 w → later w0 (drawn n w).
Proof. intros H. etransitivity; [exact H | apply later_drawn]. Qed.

End Primitives.

(** ** [IncidentGenerator.generate] *)

Section IncidentGeneratorSpec.

Import IncidentGenerator.

#[local] Arguments PyStr.index : simpl never.
#[local] Arguments luhn_step : simpl never.

Lemma INCIDENT_TYPES_weights :
  ∃ total, last (accumulate 0 (snd <$> INCIDENT_TYPES)) = Some total
           ∧ Qle_bool total 0 = false.
Proof. eexists. split; by vm_compute. Qed.

Lemma status_weights_weights :
  ∃ total, last (accumulate 0 (snd <$> status_weights)) = Some total
           ∧ Qle_bool total 0 = false.
Proof. eexists. split; by vm_compute. Qed.

Lemma severity_map_nonempty incident_type : severity_map incident_type ≠ [].
Proof. unfold severity_map. repeat case_decide; done. Qed.

Lemma returns_photos_loop i selected incident_id home_id uploader_id occurred_at w
    (Q : list Photo.t → World → Prop) :
  (∀ photos w',
      Photo.fileName <$> photos = selected →
      Photo.displayOrder <$> photos = seqZ i (Z.of_nat (length selected)) →
      Forall (photo_of incident_id home_id uploader_id occurred_at) photos →
      later w w' → Q photos w') →
  returns (photos_loop i selected incident_id home_id uploader_id occurred_at) w Q.
Proof.
  revert i w Q; induction selected as [|image_file rest IH]; intros i w Q HQ; simpl.
  - apply returns_ret. apply HQ; done || reflexivity.
  - apply returns_bind, returns_uuid4.
    apply returns_bind, returns_randint; [done|]. intros size Hsize.
    apply returns_bind, returns_choice; [done|]. intros cap _.
    apply returns_bind, IH. intros photos w' Hnames Horder Hall Hlater.
    apply returns_ret, HQ.
    + by rewrite fmap_cons, Hnames.
    + rewrite fmap_cons, Horder. cbn [length Photo.displayOrder].
      rewrite (seqZ_cons i) by lia. f_equal. f_equal; lia.
    + constructor; [|done]. repeat split; simpl; lia.
    + solve_later.
Qed.

Lemma returns_generate_photos incident_id home_id uploader_id occurred_at w
    (Q : list Photo.t → World → Prop) :
  (∀ photos w',
      (1 ≤ length photos ≤ 3)%nat →
      Photo.displayOrder <$> photos = seqZ 0 (Z.of_nat (length photos)) →
      Photo.fileName <$> photos ⊆+ INCIDENT_IMAGES →
      Forall (photo_of incident_id home_id uploader_id occurred_at) photos →
      later w w' → Q photos w') →
  returns (_generate_photos incident_id home_id uploader_id occurred_at) w Q.
Proof.
  intros HQ. unfold _generate_photos.
  apply returns_bind, returns_randint; [done|]. intros num_photos Hnum.
  apply returns_bind, returns_sample.
  { simpl length. lia. }
  intros selected Hlen Hsub.
  apply returns_photos_loop. intros photos w' Hnames Horder Hall Hlater.
  assert (length photos = length selected) as Hl
    by (by rewrite <- Hnames, length_fmap).
  apply HQ; try done.
  - simpl length in Hlen. lia.
  - by rewrite Hl.
  - by rewrite Hnames.
  - solve_later.
Qed.

Lemma returns_generate_description incident_type location w
    (Q : string → World → Prop) :
  (∀ d, Q d (drawn 3 w)) →
  returns (_generate_description incident_type location) w Q.
Proof.
  intros HQ. unfold _generate_description.
  apply returns_bind, returns_choice; [done|]. intros ? _.
  apply returns_bind, returns_choice; [done|]. intros ? _.
  apply returns_bind, returns_choice; [done|]. intros ? _.
  apply returns_ret. rewrite !drawn_drawn. apply HQ.
Qed.

Lemma counter_update (counter : gmap Z Z) (home_id : Z) :
  let counter0 :=
    if decide (counter !! home_id = None) then <[home_id := 0]> counter else counter in
  default 0 (counter0 !! home_id) + 1 = default 0 (counter !! home_id) + 1
  ∧ <[home_id := default 0 (counter0 !! home_id) + 1]> counter0
    = <[home_id := default 0 (counter !! home_id) + 1]> counter.
Proof.
  intros counter0. unfold counter0. destruct (decide (counter !! home_id = None)) as [Hc|Hc].
  - rewrite lookup_insert_eq, Hc. split; [done|]. apply insert_insert_eq.
  - done.
Qed.

Lemma returns_generate self home_id client_id reporter_id occurred_at
    home_sequence admin_user_ids w (Q : Incident.t * t → World → Prop) :
  (∀ inc self' w',
      incident_counter_by_home self'
        = <[home_id := default 0 (incident_counter_by_home self !! home_id) + 1]>
            (incident_counter_by_home self) →
      home_sequence_map self'
        = match home_sequence with
          | Some hs =>
              if decide (home_sequence_map self !! home_id = None)
              then <[home_id := hs]> (home_sequence_map self)
              else home_sequence_map self
          | None => home_sequence_map self
          end →
      _generate_incident_number self' home_id (Incident.incidentType inc)
          (default 0 (incident_counter_by_home self !! home_id) + 1)
        = Some (Incident.incidentNumber inc) →
      Incident.homeId inc = home_id →
      Incident.clientId inc = client_id →
      Incident.reportedById inc = reporter_id →
      Incident.occurredAt inc = occurred_at →
      Incident.createdAt inc = occurred_at →
      Incident.id inc = urandom w (urandom_pos w) →
      status_fields reporter_id occurred_at admin_user_ids (Incident.status inc)
        (Incident.updatedAt inc) (Incident.closedAt inc)
        (Incident.closureNotes inc) (Incident.closedById inc) →
      (1 ≤ length (Incident.photos inc) ≤ 3)%nat →
      Photo.displayOrder <$> Incident.photos inc
        = seqZ 0 (Z.of_nat (length (Incident.photos inc))) →
      Photo.fileName <$> Incident.photos inc ⊆+ INCIDENT_IMAGES →
      Forall (photo_of (Incident.id inc) home_id reporter_id occurred_at)
             (Incident.photos inc) →
      later w w' →
      Q (inc, self') w') →
  returns (generate self home_id client_id reporter_id occurred_at
             home_sequence admin_user_ids) w Q.
Proof.
  intros HQ. unfold generate.
  destruct (counter_update (incident_counter_by_home self) home_id) as [Hcount Hcounter].
  cbv zeta in Hcount, Hcounter. rewrite Hcounter, Hcount. clear Hcount Hcounter.
  set (count := default 0 (incident_counter_by_home self !! home_id) + 1) in *.
  set (seqmap := match home_sequence with Some _ => _ | None => _ end) in *.
  set (self' := mk _ seqmap).
  apply returns_bind, returns_weighted_choice; [apply INCIDENT_TYPES_weights|].
  intros incident_type _.
  apply returns_bind, returns_choice; [apply severity_map_nonempty|]. intros sev _.
  apply returns_bind, returns_choice; [done|]. intros loc _.
  apply returns_bind, returns_weighted_choice; [apply status_weights_weights|].
  intros st Hst.
  apply returns_bind, returns_uuid4.
  set (uid := urandom _ _).
  assert (uid = urandom w (urandom_pos w)) as Huid by done. clearbody uid.
  destruct (incident_number_shape self' home_id incident_type count)
    as (chk & Hnum & _ & _).
  rewrite Hnum. apply returns_bind, returns_ret.
  apply returns_bind, returns_generate_description. intros descr.
  assert (∀ (upd : option Z) w1 (Q1 : _ → World → Prop),
    later w w1 →
    (st = "Draft"%string → upd = None) →
    (st ≠ "Draft"%string → ∃ h, 1 ≤ h ≤ 24 ∧ upd = Some (occurred_at + DT.hours h)) →
    (∀ u cl notes closer w2, later w w2 →
       status_fields reporter_id occurred_at admin_user_ids st u cl notes closer →
       Q1 (u, cl, notes, closer) w2) →
    returns
      (if decide (st = "Closed"%string)
       then d ← randint 1 7;
            let close_date := occurred_at + DT.days d in
            closer ← match admin_user_ids with
                     | Some (a :: l) => choice (a :: l)
                     | _ => mret reporter_id
                     end;
            mret (Some close_date, Some close_date,
                  Some "Investigation complete. Preventive measures implemented."%string,
                  Some closer)
       else mret (upd, None, None, None)) w1 Q1) as Hclose.
  { intros upd w1 Q1 Hl1 Hdraft Hnodraft HQ1.
    case_decide as Hcl.
    - apply returns_bind, returns_randint; [done|]. intros d Hd.
      assert (∀ closer w2, later w w2 →
                match admin_user_ids with
                | Some (a :: l) => closer ∈ a :: l
                | _ => closer = reporter_id
                end →
                Q1 (Some (occurred_at + DT.days d), Some (occurred_at + DT.days d),
                    Some "Investigation complete. Preventive measures implemented."%string,
                    Some closer) w2) as Hfin.
      { intros closer w2 Hl2 Hcloser. apply HQ1; [done|].
        right; right. split; [done|]. split; [eauto|]. split; eauto. }
      destruct admin_user_ids as [[|a l]|].
      + apply returns_bind, returns_ret, returns_ret, Hfin; [solve_later | done].
      + apply returns_bind, returns_choice; [done|]. intros closer Hcloser.
        apply returns_ret, Hfin; [solve_later | done].
      + apply returns_bind, returns_ret, returns_ret, Hfin; [solve_later | done].
    - apply returns_ret, HQ1; [done|].
      destruct (decide (st = "Draft"%string)) as [Hd|Hd].
      + left. by rewrite (Hdraft Hd).
      + right; left. destruct (Hnodraft Hd) as (h & Hh & ->). eauto 10. }
  assert (∀ (upd : option Z) w1,
    later w w1 →
    (st = "Draft"%string → upd = None) →
    (st ≠ "Draft"%string → ∃ h, 1 ≤ h ≤ 24 ∧ upd = Some (occurred_at + DT.hours h)) →
    returns (mret upd) w1 (λ updated_at w2, returns
      ('(updated_at, closed_at, closure_notes, closed_by) ←
         (if decide (st = "Closed"%string)
          then d ← randint 1 7;
               let close_date := occurred_at + DT.days d in
               closer ← match admin_user_ids with
                        | Some (a :: l) => choice (a :: l)
                        | _ => mret reporter_id
                        end;
               mret (Some close_date, Some close_date,
                     Some "Investigation complete. Preventive measures implemented."%string,
                     Some closer)
          else mret (updated_at, None, None, None));
       photos ← _generate_photos uid home_id reporter_id occurred_at;
       mret (Incident.mk uid
               ((_get_incident_type_code incident_type +:+ "IR"
                +:+ PyStr.upper (PyStr.zfill (_to_base36
                      (default 1 (home_sequence_map self' !! home_id))) 2)
                +:+ PyStr.upper (PyStr.zfill (_to_base36 count) 4))
                +:+ String chk "")
               client_id home_id incident_type sev st occurred_at loc descr
               (_generate_actions incident_type) reporter_id occurred_at
               updated_at closed_at closure_notes closed_by photos, self'))
      w2 Q)) as Hrest.
  { intros upd w1 Hl1 Hdraft Hnodraft. apply returns_ret.
    apply returns_bind, (Hclose upd); try done.
    intros u cl notes closer w2 Hl2 Hfields.
    apply returns_bind, returns_generate_photos.
    intros photos w3 Hlen Horder Hnames Hall Hl3.
    apply returns_ret, HQ; simpl; try done.
    solve_later. }
  cbv beta. apply returns_bind.
  destruct (decide (st ≠ "Draft"%string)) as [Hdraft|Hdraft].
  - apply returns_bind, returns_randint; [done|]. intros h Hh.
    apply Hrest; [solve_later | done | eauto].
  - apply Hrest; [solve_later | done | by intros ?].
Qed.

End IncidentGeneratorSpec.

Section IncidentClaims.

Import IncidentGenerator.

#[local] Arguments PyStr.index : simpl never.
#[local] Arguments luhn_step : simpl never.

Lemma chars_of_substring (n m : nat) (s : string) :
  list_ascii_of_string (String.substring n m s) = take m (drop n (list_ascii_of_string s)).
Proof.
  revert n m; induction s as [|c s IH]; intros [|n] [|m]; simpl; auto;
    by rewrite IH.
Qed.

(** The [Sequence] field of a generated number decodes to the incident
    count it was generated for. *)
Lemma sequence_field_value self home_id incident_type incident_count number :
  default 1 (home_sequence_map self !! home_id) < 36 ^ 2 →
  0 ≤ incident_count < 36 ^ 4 →
  _generate_incident_number self home_id incident_type incident_count = Some number →
  base36_value (sequence_field number) = incident_count.
Proof.
  intros Hh Hc Hnum.
  destruct (incident_number_shape self home_id incident_type incident_count)
    as (chk & Hnum' & _ & _).
  rewrite Hnum in Hnum'. injection Hnum' as ->.
  destruct (type_code_shape incident_type) as [_ Ht].
  pose proof (base36_field_Z (default 1 (home_sequence_map self !! home_id)) 2 eq_refl)
    as (_ & _ & Hl2).
  pose proof (base36_field_Z incident_count 4 eq_refl) as (_ & Hv4 & Hl4).
  cbv zeta in *. specialize (Hl2 Hh). specialize (Hl4 (proj2 Hc)).
  set (tc := _get_incident_type_code incident_type) in *.
  set (hc := PyStr.upper (PyStr.zfill _ 2)) in *.
  set (sq := PyStr.upper (PyStr.zfill _ 4)) in *.
  assert (sequence_field ((tc +:+ "IR" +:+ hc +:+ sq) +:+ String chk "") = sq) as ->.
  { apply chars_of_inj. unfold sequence_field.
    rewrite chars_of_substring, !chars_of_app.
    rewrite <- !chars_of_length in *.
    destruct (list_ascii_of_string tc) as [|t0 [|]]; try done.
    destruct (list_ascii_of_string hc) as [|h0 [|h1 [|]]]; try done.
    simpl. rewrite drop_0, take_app_length'; [done|]. by rewrite Hl4. }
  apply Hv4. lia.
Qed.

(** C6: status field coherence of every generated incident.  [updatedAt]
    is present exactly for a non-Draft status, 1 to 24 hours after the
    occurrence until a closure overwrites it; [closedAt], [closedById] and
    [closureNotes] are present exactly for status Closed, [closedAt] 1 to
    7 days after the occurrence and [updatedAt] equal to it; without an
    admin pool the closer is the reporter, and the call raises nothing. *)
Theorem incident_status_fields_coherent
    (self : t) (home_id : Z) (client_id : option Z) (reporter_id occurred_at : Z)
    (home_sequence : option Z) (admin_user_ids : option (list Z)) (w : World) :
  returns (generate self home_id client_id reporter_id occurred_at
             home_sequence admin_user_ids) w
    (λ '(inc, _) _,
       let st := Incident.status inc in
       (is_Some (Incident.updatedAt inc) ↔ st ≠ "Draft"%string)
       ∧ (st ≠ "Draft"%string → st ≠ "Closed"%string →
          ∃ h, 1 ≤ h ≤ 24
               ∧ Incident.updatedAt inc = Some (Incident.occurredAt inc + DT.hours h))
       ∧ (is_Some (Incident.closedAt inc) ↔ st = "Closed"%string)
       ∧ (is_Some (Incident.closedById inc) ↔ st = "Closed"%string)
       ∧ (is_Some (Incident.closureNotes inc) ↔ st = "Closed"%string)
       ∧ (st = "Closed"%string →
          ∃ d, 1 ≤ d ≤ 7
               ∧ Incident.closedAt inc = Some (Incident.occurredAt inc + DT.days d)
               ∧ Incident.updatedAt inc = Incident.closedAt inc)
       ∧ (st = "Closed"%string →
          admin_user_ids = None ∨ admin_user_ids = Some [] →
          Incident.closedById inc = Some reporter_id)
       ∧ (st = "Closed"%string →
          ∀ pool, admin_user_ids = Some pool → pool ≠ [] →
          ∃ closer, Incident.closedById inc = Some closer ∧ closer ∈ pool)).
Proof.
  apply returns_generate.
  intros inc self' w' _ _ _ _ _ _ Hocc _ _ Hfields _ _ _ _ _. cbv zeta.
  rewrite Hocc. unfold status_fields in Hfields.
  destruct Hfields as
    [(Hst & Hu & Hc & Hn & Hb)
    |[(Hnd & Hnc & (h & Hh & Hu) & Hc & Hn & Hb)
     |(Hst & (d & Hd & Hc & Hu) & Hn & closer & Hb & Hcloser)]];
    rewrite ?Hu, ?Hc, ?Hb, ?Hst; rewrite ?Hn.
  - repeat split; try done; try (by intros [? ?]); try (by intros ?).
  - repeat split; try done; try (by intros [? ?]); eauto.
  - repeat split; try done; eauto.
    + intros _ [-> | ->]; by subst.
    + intros _ pool -> Hpool. destruct pool; [done|]. eauto.
Qed.

Lemma submseteq_NoDup {A} (l k : list A) : l ⊆+ k → NoDup k → NoDup l.
Proof.
  intros [k' Hk]%submseteq_Permutation Hnd. rewrite Hk in Hnd.
  by apply NoDup_app in Hnd as [? _].
Qed.

Lemma INCIDENT_IMAGES_NoDup : NoDup INCIDENT_IMAGES.
Proof. apply (bool_decide_unpack _). by vm_compute. Qed.

(** C10: every generated incident carries 1 to 3 photos, their
    [displayOrder] values are 0, 1, ..., k-1 in list order, and their
    source files are pairwise distinct members of the fixed pool of 7
    images. *)
Theorem incident_photos_ordered_and_distinct
    (self : t) (home_id : Z) (client_id : option Z) (reporter_id occurred_at : Z)
    (home_sequence : option Z) (admin_user_ids : option (list Z)) (w : World) :
  returns (generate self home_id client_id reporter_id occurred_at
             home_sequence admin_user_ids) w
    (λ '(inc, _) _,
       let photos := Incident.photos inc in
       (1 ≤ length photos ≤ 3)%nat
       ∧ Photo.displayOrder <$> photos = seqZ 0 (Z.of_nat (length photos))
       ∧ NoDup (Photo._sourceFile <$> photos)
       ∧ (∀ p, p ∈ photos →
            Photo._sourceFile p ∈ INCIDENT_IMAGES
            ∧ Photo.fileName p = Photo._sourceFile p)
       ∧ length INCIDENT_IMAGES = 7%nat).
Proof.
  apply returns_generate.
  intros inc self' w' _ _ _ _ _ _ _ _ _ _ Hlen Horder Hsub Hall _. cbv zeta.
  assert (Photo._sourceFile <$> Incident.photos inc
          = Photo.fileName <$> Incident.photos inc) as Hsrc.
  { apply Forall_fmap_ext_1. eapply Forall_impl; [exact Hall|].
    by intros p (_ & _ & _ & _ & ? & _). }
  split; [done|]. split; [done|]. split; [|split; [|done]].
  - rewrite Hsrc. eapply submseteq_NoDup; [done | apply INCIDENT_IMAGES_NoDup].
  - intros p Hp. rewrite Forall_forall in Hall.
    destruct (Hall p Hp) as (_ & _ & _ & _ & Hs & _). split; [|done].
    rewrite Hs. eapply elem_of_submseteq; [|exact Hsub].
    by apply list_elem_of_fmap_2.
Qed.

Lemma generate_all_sequence (calls : list call) :
  ∀ (self : t) (w : World) (home_id : Z),
    0 ≤ default 0 (incident_counter_by_home self !! home_id) →
    default 0 (incident_counter_by_home self !! home_id)
      + Z.of_nat (length calls) < 36 ^ 4 →
    (∀ hs, home_sequence_map self !! home_id = Some hs → hs < 36 ^ 2) →
    Forall (λ c, ∀ hs, call_home_sequence c = Some hs → hs < 36 ^ 2) calls →
    returns (generate_all self calls) w
      (λ '(incidents, _) _,
         let mine := filter (λ inc, Incident.homeId inc = home_id) incidents in
         sequence_value <$> mine
           = seqZ (default 0 (incident_counter_by_home self !! home_id) + 1)
                  (Z.of_nat (length mine))
         ∧ (length mine ≤ length calls)%nat).
Proof.
  induction calls as [|c calls IH]; intros self w home_id Hn0 Hfit Hmap Hcalls.
  - simpl. done.
  - cbn [generate_all]. apply Forall_cons in Hcalls as [Hc Hcalls].
    apply returns_bind, returns_generate.
    intros inc self1 w1 Hcounter Hseqmap Hnum Hhome _ _ _ _ _ _ _ _ _ _ _.
    assert (∀ hs, home_sequence_map self1 !! home_id = Some hs → hs < 36 ^ 2) as Hmap1.
    { intros hs. rewrite Hseqmap. destruct (call_home_sequence c) as [hs'|]; [|apply Hmap].
      case_decide; [|apply Hmap].
      destruct (decide (call_home_id c = home_id)) as [->|Hne].
      - rewrite lookup_insert_eq. intros [= <-]. by apply Hc.
      - rewrite lookup_insert_ne by done. apply Hmap. }
    set (n0 := default 0 (incident_counter_by_home self !! home_id)) in *.
    cbn [length] in Hfit.
    destruct (decide (call_home_id c = home_id)) as [Heq|Hne].
    + rewrite Heq in *.
      assert (default 0 (incident_counter_by_home self1 !! home_id) = n0 + 1) as Hn1.
      { by rewrite Hcounter, lookup_insert_eq. }
      apply returns_bind.
      eapply returns_mono; [apply (IH self1 w1 home_id); try done; rewrite ?Hn1; lia|].
      intros [incidents self2] w2 [Hseq Hlen]. apply returns_ret.
      cbv zeta in *. rewrite filter_cons_True by done.
      split; [|simpl; lia].
      rewrite fmap_cons. cbn [length]. rewrite (seqZ_cons (n0 + 1)) by lia.
      f_equal.
      * unfold sequence_value. eapply sequence_field_value; [| |exact Hnum].
        -- destruct (home_sequence_map self1 !! home_id) as [hs|] eqn:E; simpl; [|done].
           by apply Hmap1.
        -- fold n0. lia.
      * rewrite Hseq, Hn1. f_equal; lia.
    + assert (default 0 (incident_counter_by_home self1 !! home_id) = n0) as Hn1.
      { by rewrite Hcounter, lookup_insert_ne. }
      apply returns_bind.
      eapply returns_mono; [apply (IH self1 w1 home_id); try done; rewrite ?Hn1; lia|].
      intros [incidents self2] w2 [Hseq Hlen]. apply returns_ret.
      cbv zeta in *. rewrite filter_cons_False by congruence.
      split; [|simpl; lia]. by rewrite Hseq, Hn1.
Qed.

(** C9: within one home the [Sequence] field of successive incident
    numbers counts 1, 2, 3, ... in the order the incidents were generated
    (so it strictly increases), whatever calls for other homes come in
    between; the calls are made on a fresh generator and their number fits
    the 4 base-36 digits of the field. *)
Theorem incident_sequence_strictly_increases
    (calls : list call) (home_id : Z) (w : World) :
  Z.of_nat (length calls) < 36 ^ 4 →
  Forall (λ c, ∀ hs, call_home_sequence c = Some hs → hs < 36 ^ 2) calls →
  returns (generate_all __init__ calls) w
    (λ '(incidents, _) _,
       let mine := filter (λ inc, Incident.homeId inc = home_id) incidents in
       sequence_value <$> mine = seqZ 1 (Z.of_nat (length mine))
       ∧ ∀ (i j : nat) (a b : Incident.t),
           mine !! i = Some a → mine !! j = Some b → (i < j)%nat →
           sequence_value a < sequence_value b).
Proof.
  intros Hfit Hcalls.
  eapply returns_mono.
  { apply (generate_all_sequence calls __init__ w home_id); try done. }
  intros [incidents self'] w' [Hseq _]. cbv zeta in *. split; [exact Hseq|].
  intros i j a b Ha Hb Hij.
  assert ((sequence_value <$> filter (λ inc, Incident.homeId inc = home_id) incidents) !! i
          = Some (sequence_value a)) as Hai by (by rewrite list_lookup_fmap, Ha).
  assert ((sequence_value <$> filter (λ inc, Incident.homeId inc = home_id) incidents) !! j
          = Some (sequence_value b)) as Hbj by (by rewrite list_lookup_fmap, Hb).
  rewrite Hseq in Hai, Hbj.
  apply lookup_seqZ in Hai as [-> _], Hbj as [-> _]. lia.
Qed.

Lemma incident_sequence_strictly_increases_witness :
  let calls := [mkCall 7 (Some 1) 2 1000 (Some 1) None;
                mkCall 8 None 3 2000 (Some 2) (Some [5]);
                mkCall 7 (Some 4) 2 3000 (Some 1) None] in
  Z.of_nat (length calls) < 36 ^ 4
  ∧ Forall (λ c, ∀ hs, call_home_sequence c = Some hs → hs < 36 ^ 2) calls
  ∧ returns (generate_all __init__ calls) (world_of [] [] [] 0)
      (λ '(incidents, _) _,
         let mine := filter (λ inc, Incident.homeId inc = 7) incidents in
         sequence_value <$> mine = seqZ 1 (Z.of_nat (length mine))
         ∧ ∀ (i j : nat) (a b : Incident.t),
             mine !! i = Some a → mine !! j = Some b → (i < j)%nat →
             sequence_value a < sequence_value b).
Proof.
  intros calls.
  assert (Z.of_nat (length calls) < 36 ^ 4) as H1 by reflexivity.
  assert (Forall (λ c, ∀ hs, call_home_sequence c = Some hs → hs < 36 ^ 2) calls) as H2.
  { repeat constructor; simpl; intros hs [= <-]; reflexivity. }
  split; [exact H1|]. split; [exact H2|].
  exact (incident_sequence_strictly_increases calls 7 (world_of [] [] [] 0) H1 H2).
Defined.

(** C8: on a fresh generator, the third incident generated for a home of
    sequence 1, when its type is Fall, gets the number [FIR010003X]:
    type code [F], home code [01], sequence [0003], and [X] the Luhn
    mod-36 checksum of the payload [FIR010003]; a run in which the third
    incident is a Fall exists. *)
Theorem third_fall_incident_number
    (home_id : Z) (cl1 cl2 cl3 : option Z) (r1 r2 r3 t1 t2 t3 : Z)
    (a1 a2 a3 : option (list Z)) (w : World) :
  returns (generate_all __init__
             [mkCall home_id cl1 r1 t1 (Some 1) a1;
              mkCall home_id cl2 r2 t2 (Some 1) a2;
              mkCall home_id cl3 r3 t3 (Some 1) a3]) w
    (λ '(incidents, _) _,
       ∃ i1 i2 i3, incidents = [i1; i2; i3]
         ∧ (Incident.incidentType i3 = "Fall"%string →
            Incident.incidentNumber i3 = "FIR010003X"%string))
  ∧ _get_incident_type_code "Fall" = "F"%string
  ∧ PyStr.upper (PyStr.zfill (_to_base36 1) 2) = "01"%string
  ∧ PyStr.upper (PyStr.zfill (_to_base36 3) 4) = "0003"%string
  ∧ _calculate_luhn_mod36_checksum "FIR010003" = Some "X"%char
  ∧ returns (generate_all __init__
               [mkCall 7 None 2 1000 (Some 1) None;
                mkCall 7 None 2 2000 (Some 1) None;
                mkCall 7 None 2 3000 (Some 1) None]) (world_of [] [] [] 0)
      (λ '(incidents, _) _,
         (Incident.incidentType <$> incidents !! 2%nat) = Some "Fall"%string
         ∧ (Incident.incidentNumber <$> incidents !! 2%nat) = Some "FIR010003X"%string).
Proof.
  split; [|do 4 (split; [by vm_compute|]); vm_compute; by split].
  cbn [generate_all call_home_id call_client_id call_reporter_id call_occurred_at
       call_home_sequence call_admin_user_ids].
  apply returns_bind, returns_generate.
  intros i1 s1 w1 Hc1 Hm1 _ _ _ _ _ _ _ _ _ _ _ _ _.
  apply returns_bind, returns_bind, returns_generate.
  intros i2 s2 w2 Hc2 Hm2 _ _ _ _ _ _ _ _ _ _ _ _ _.
  apply returns_bind, returns_bind, returns_generate.
  intros i3 s3 w3 Hc3 Hm3 Hnum _ _ _ _ _ _ _ _ _ _ _ _.
  apply returns_bind, returns_ret, returns_ret, returns_ret.
  exists i1, i2, i3. split; [done|]. intros Hfall.
  rewrite Hfall in Hnum.
  assert (incident_counter_by_home s2 !! home_id = Some 2) as Hcount2.
  { rewrite Hc2, lookup_insert_eq, Hc1, lookup_insert_eq. done. }
  assert (home_sequence_map s3 !! home_id = Some 1) as Hseq3.
  { assert (home_sequence_map s1 !! home_id = Some 1) as Hs1.
    { rewrite Hm1. destruct (decide _) as [|E]; [by rewrite lookup_insert_eq|].
      exfalso. apply E. apply lookup_empty. }
    assert (home_sequence_map s2 !! home_id = Some 1) as Hs2.
    { rewrite Hm2. cbv beta iota.
      destruct (decide (home_sequence_map s1 !! home_id = None));
        [by rewrite lookup_insert_eq | done]. }
    rewrite Hm3. cbv beta iota.
    destruct (decide (home_sequence_map s2 !! home_id = None));
      [by rewrite lookup_insert_eq | done]. }
  rewrite Hcount2 in Hnum. change (default 0 (Some 2) + 1) with 3 in Hnum.
  assert (_generate_incident_number s3 home_id "Fall" 3 = Some "FIR010003X"%string)
    as Hval.
  { unfold _generate_incident_number. rewrite Hseq3. by vm_compute. }
  congruence.
Qed.

End IncidentClaims.

(** ** Bed allocation, activities, reproducibility *)

Section BedAllocation.

Import Generate Scenario.

(** C1, at a run the code allows: the home's two initial clients are
    admitted 20 days and then 5 days after the opening.  Room 1 holds the
    first client's open interval from day 620; [find_available_bed] on day
    605 sees no interval covering that day and returns Room 1 again, so the
    bed ends with two open intervals, of two clients who are both active. *)
Theorem initial_admissions_double_book_a_bed :
  returns (phase3 END_DATE beds_by_home caregivers_by_home [home]) two_initial_clients
    (λ '(clients, ledgers) _,
       ledgers = [[(201, [(home_open + DT.days 20, None, 1000);
                          (home_open + DT.days 5, None, 1001)]);
                   (202, []); (203, []); (204, [])]]
       ∧ Client.id <$> clients = [1000; 1001]
       ∧ Client.bedId <$> clients = [201; 201]
       ∧ Client.isActive <$> clients = [true; true]
       ∧ Client.dischargeDate <$> clients = [None; None]).
Proof. vm_compute. repeat split; reflexivity. Qed.

End BedAllocation.

Section Activities.

Import Generate Scenario.

(** C5, at a run the code allows: client 1001 is admitted on day 645 with a
    discharge scheduled for day 706.  The week of activities that starts on
    day 705 takes its participants from the clients active on day 705, and
    its activities, three days later, are dated day 708: the discharged
    client is recorded as a participant two days after the discharge. *)
Theorem activity_participant_after_discharge :
  returns (phase3 END_DATE beds_by_home caregivers_by_home [home]) scheduled_discharge
    (λ '(clients, _) _,
       Client.id <$> clients = [1000; 1001]
       ∧ Client.homeId <$> clients = [100; 100]
       ∧ Client.admissionDate <$> clients = [600; 645]
       ∧ Client.dischargeDate <$> clients = [None; Some 706]
       ∧ returns (phase5 END_DATE caregivers_by_home clients [home]) all_threes
           (λ activities _,
              existsb (λ a, bool_decide (Activity.homeId a = 100)
                            && bool_decide (Activity.date a = 708)
                            && bool_decide
                                 (1001 ∈ Participant.clientId <$> Activity.participants a))
                      activities = true)).
Proof. vm_compute. repeat split; reflexivity. Qed.

End Activities.

Section Determinism.

Lemma seeded_only_ret {A} (a : A) : seeded_only (mret a).
Proof. by intros u pos w. Qed.

Lemma seeded_only_raise {A} (e : exn) : seeded_only (raise e : M A).
Proof. by intros u pos w. Qed.

Lemma seeded_only_bind {A B} (m : M A) (f : A → M B) :
  seeded_only m → (∀ a, seeded_only (f a)) → seeded_only (m ≫= f).
Proof.
  intros Hm Hf u pos w. unfold mbind, M_bind. rewrite Hm.
  destruct (m w) as [a w'|e]; [apply Hf | done].
Qed.

Lemma seeded_only_next_raw : seeded_only next_raw.
Proof. by intros u pos w. Qed.

Lemma seeded_only_faker : seeded_only faker.
Proof. by intros u pos w. Qed.

Lemma seeded_only_randbelow n : seeded_only (randbelow n).
Proof. apply seeded_only_bind; [apply seeded_only_next_raw|]. intros; apply seeded_only_ret. Qed.

Lemma seeded_only_randint a b : seeded_only (randint a b).
Proof.
  unfold randint. case_decide; [apply seeded_only_raise|].
  apply seeded_only_bind; [apply seeded_only_randbelow|]. intros; apply seeded_only_ret.
Qed.

Lemma seeded_only_choice {A} (seq : list A) : seeded_only (choice seq).
Proof.
  unfold choice. apply seeded_only_bind.
  - case_decide; [apply seeded_only_raise | apply seeded_only_randbelow].
  - intros i. destruct (seq !! Z.to_nat i); [apply seeded_only_ret | apply seeded_only_raise].
Qed.

Lemma seeded_only_unique_name fuel used : seeded_only (HomeGenerator.unique_name fuel used).
Proof.
  induction fuel as [|fuel IH]; simpl; [apply seeded_only_raise|].
  apply seeded_only_bind; [apply seeded_only_choice|]. intros prefix.
  apply seeded_only_bind; [apply seeded_only_choice|]. intros suffix.
  case_decide; [apply seeded_only_ret | apply IH].
Qed.

Lemma seeded_only_entropy {A} (m : M A) w a w' :
  seeded_only m → m w = Ok a w' →
  urandom w' = urandom w ∧ urandom_pos w' = urandom_pos w.
Proof.
  intros Hm Hrun. specialize (Hm (urandom w) (urandom_pos w) w).
  assert (with_entropy (urandom w) (urandom_pos w) w = w) as Hw by (by destruct w).
  rewrite Hw, Hrun in Hm. injection Hm as Hm. rewrite Hm. done.
Qed.

(** C4, where it fails: two runs of [HomeGenerator.generate] on the same
    seeded sequences and the same clock, which differ in the
    operating-system entropy only.  Both raise the same exception, or both
    return; then the generator objects and every field of the two homes but
    [id] agree, and the two [id]s are the first identifiers of the two
    entropy sources, so the homes differ as soon as those do.  The second
    part evaluates two such runs: the identifiers are 1000 and 2000. *)
Theorem home_identifiers_not_fixed_by_the_seed
    (fuel : nat) (self : HomeGenerator.t) (open_date : Z) (created_by_id : option Z)
    (w : World) (u : nat → Z) (pos : nat) :
  match HomeGenerator.generate fuel self open_date created_by_id w,
        HomeGenerator.generate fuel self open_date created_by_id (with_entropy u pos w)
  with
  | Ok (h1, self1) _, Ok (h2, self2) _ =>
      self1 = self2
      ∧ home_fields h1 = home_fields h2
      ∧ Home.id h1 = urandom w (urandom_pos w)
      ∧ Home.id h2 = u pos
      ∧ (u pos ≠ urandom w (urandom_pos w) → h1 ≠ h2)
  | Raise e1, Raise e2 => e1 = e2
  | _, _ => False
  end
  ∧ returns (HomeGenerator.generate 1 (HomeGenerator.__init__ 0 Scenario.END_DATE)
               Scenario.home_open (Some 1)) (Scenario.world [] 1000)
      (λ '(h1, _) _,
         returns (HomeGenerator.generate 1 (HomeGenerator.__init__ 0 Scenario.END_DATE)
                    Scenario.home_open (Some 1)) (Scenario.world [] 2000)
           (λ '(h2, _) _,
              Home.id h1 = 1000 ∧ Home.id h2 = 2000
              ∧ home_fields h1 = home_fields h2)).
Proof.
  split; [|by vm_compute].
  cbv [HomeGenerator.generate mbind M_bind mret M_ret].
  rewrite seeded_only_unique_name.
  destruct (HomeGenerator.unique_name fuel (HomeGenerator.used_names self) w)
    as [name w1|e] eqn:E1; [|done].
  rewrite seeded_only_choice.
  destruct (choice WA_CITIES w1) as [location w2|e] eqn:E2; [|done].
  rewrite seeded_only_choice.
  destruct (choice [4; 5; 6] w2) as [capacity w3|e] eqn:E3; [|done].
  cbn [uuid4 with_entropy rand rand_pos fake fake_pos urandom urandom_pos clock
       clock_pos].
  change (mkWorld (rand w3) (rand_pos w3) (fake w3) (fake_pos w3) u (S pos)
                  (clock w3) (clock_pos w3))
    with (with_entropy u (S pos) (minted 1 w3)).
  change (mkWorld (rand w3) (rand_pos w3) (fake w3) (fake_pos w3) (urandom w3)
                  (S (urandom_pos w3)) (clock w3) (clock_pos w3))
    with (minted 1 w3).
  rewrite seeded_only_faker.
  destruct (faker (minted 1 w3)) as [address w4|e]; [|done].
  rewrite seeded_only_randint.
  destruct (randint 10 99 w4) as [zip_suffix w5|e]; [|done].
  rewrite seeded_only_faker.
  destruct (faker w5) as [phone w6|e]; [|done].
  assert (urandom w3 (urandom_pos w3) = urandom w (urandom_pos w)) as Hid.
  { apply seeded_only_entropy in E1 as [Hu1 Hp1]; [|apply seeded_only_unique_name].
    apply seeded_only_entropy in E2 as [Hu2 Hp2]; [|apply seeded_only_choice].
    apply seeded_only_entropy in E3 as [Hu3 Hp3]; [|apply seeded_only_choice].
    congruence. }
  repeat split; try done.
  intros Hne Heq. apply Hne. injection Heq. congruence.
Qed.



End Determinism.

(** ** Phase 3: clients and bed occupancy *)


Section ClientSpec.

Lemma returns_client_generate home_id bed_id admission_date caregiver_id
    discharged discharge_date w (Q : Client.t → World → Prop) :
  (∀ c w',
      Client.id c = urandom w (urandom_pos w) →
      Client.homeId c = home_id →
      Client.bedId c = bed_id →
      Client.createdAt c = admission_date →
      Client.admissionDate c = DT.date admission_date →
      match discharged, discharge_date with
      | true, Some d => Client.isActive c = false
                        ∧ Client.dischargeDate c = Some (DT.date d)
      | true, None => Client.isActive c = false ∧ Client.dischargeDate c = None
      | false, _ => Client.isActive c = true ∧ Client.dischargeDate c = None
      end →
      later w w' → urandom_pos w' = S (urandom_pos w) →
      Q c w') →
  returns (ClientGenerator.generate home_id bed_id admission_date caregiver_id
             discharged discharge_date) w Q.
Proof.
  intros HQ. unfold ClientGenerator.generate.
  apply returns_bind, returns_choice; [done|]. intros gender _.
  apply returns_bind, returns_faker. intros first.
  apply returns_bind, returns_faker. intros last.
  apply returns_bind, returns_randint; [done|]. intros age _.
  apply returns_bind, returns_randint; [done|]. intros extra _.
  apply returns_bind, returns_randint; [done|]. intros nd Hnd.
  apply returns_bind, returns_sample; [simpl length; lia|]. intros diagnoses _ _.
  apply returns_bind, returns_randint; [done|]. intros na Hna.
  apply returns_bind.
  assert (∀ w1, later w w1 → urandom_pos w1 = urandom_pos w →
    returns (if decide (na > 0) then sample ALLERGIES na else mret []) w1
      (λ allergies w2, later w w2 ∧ urandom_pos w2 = urandom_pos w)) as Hall.
  { intros w1 Hl1 Hp1. case_decide.
    - apply returns_sample; [simpl length; lia|]. intros l _ _. split; [solve_later | done].
    - by apply returns_ret. }
  eapply returns_mono; [apply Hall; [solve_later | done]|].
  intros allergies w2 [Hl2 Hp2]. cbv beta.
  apply returns_bind, returns_randint; [done|]. intros nm Hnm.
  apply returns_bind, returns_sample; [simpl length; lia|]. intros meds _ _.
  apply returns_bind, returns_choice; [done|]. intros physician _.
  apply returns_bind, returns_faker. intros ec_first.
  apply returns_bind, returns_random. intros u.
  apply returns_bind.
  assert (∀ w3, later w w3 → urandom_pos w3 = urandom_pos w →
    returns (if negb (Qle_bool u 0.3) then mret last else faker) w3
      (λ ec_last w4, later w w4 ∧ urandom_pos w4 = urandom_pos w)) as Hec.
  { intros w3 Hl3 Hp3. destruct (negb _).
    - by apply returns_ret.
    - apply returns_faker. intros s. split; [solve_later | done]. }
  eapply returns_mono; [apply Hec; [solve_later | done]|].
  intros ec_last w4 [Hl4 Hp4]. cbv beta.
  apply returns_bind, returns_uuid4.
  apply returns_bind, returns_faker. intros ec_phone.
  apply returns_bind, returns_choice; [done|]. intros relationship _.
  assert (urandom w4 (urandom_pos w4) = urandom w (urandom_pos w)) as Hid.
  { rewrite Hp4. by rewrite (later_urandom _ _ Hl4). }
  destruct discharged, discharge_date as [d|].
  - apply returns_bind, returns_choice; [done|]. intros reason _.
    apply returns_ret, HQ; simpl; try done; [solve_later | lia].
  - apply returns_ret, HQ; simpl; try done; [solve_later | lia].
  - apply returns_ret, HQ; simpl; try done; [solve_later | lia].
  - apply returns_ret, HQ; simpl; try done; [solve_later | lia].
Qed.

End ClientSpec.

Section Ledger.

Import Generate.

Variable END_DATE : Z.

Lemma find_available_bed_key (d : occupancy) date bed :
  find_available_bed END_DATE d date = Some bed → bed ∈ d.*1.
Proof.
  induction d as [|[k occ] d IH]; csimpl; [done|].
  destruct (forallb _ occ).
  - intros [= ->]. apply list_elem_of_here.
  - intros H. apply list_elem_of_further. by apply IH.
Qed.

Lemma flat_cons k occ (d : occupancy) :
  flat ((k, occ) :: d) = ((λ iv, (k, iv)) <$> occ) ++ flat d.
Proof. done. Qed.

Lemma occupancy_append_keys bed iv (d : occupancy) :
  (occupancy_append bed iv d).*1 = d.*1.
Proof.
  induction d as [|[k occ] d IH]; csimpl; [done|].
  case_decide; csimpl; [done | by rewrite IH].
Qed.

Lemma flat_occupancy_append bed iv (d : occupancy) :
  bed ∈ d.*1 → flat (occupancy_append bed iv d) ≡ₚ (bed, iv) :: flat d.
Proof.
  induction d as [|[k occ] d IH]; csimpl; [by intros ?%elem_of_nil|].
  intros Hin. case_decide as Hk.
  - subst k. rewrite !flat_cons, fmap_app. simpl.
    rewrite <- app_assoc. simpl. by rewrite <- Permutation_middle.
  - apply elem_of_cons in Hin as [->|Hin]; [done|].
    rewrite !flat_cons, (IH Hin). by rewrite <- Permutation_middle.
Qed.

Lemma dict_set_values k (d : occupancy) :
  Forall (λ kv, kv.2 = []) d → Forall (λ kv, kv.2 = []) (dict_set k [] d).
Proof.
  induction d as [|[k' occ] d IH]; simpl; intros H.
  - by repeat constructor.
  - apply Forall_cons in H as [H1 H2]. case_decide; constructor; auto.
Qed.

Lemma flat_empty_occupancy (home_beds : list Bed.t) :
  flat (empty_occupancy home_beds) = [].
Proof.
  assert (∀ d : occupancy, Forall (λ kv, kv.2 = []) d → flat d = []) as Hflat.
  { induction d as [|[k occ] d IH]; [done|]. intros [H1 H2]%Forall_cons.
    simpl in H1. subst occ. rewrite flat_cons. simpl. by apply IH. }
  apply Hflat. unfold empty_occupancy.
  assert (∀ d : occupancy, Forall (λ kv, kv.2 = []) d →
            Forall (λ kv, kv.2 = [])
                   (fold_left (λ d bed, dict_set (Bed.id bed) [] d) home_beds d)) as H.
  { induction home_beds as [|b bs IH]; simpl; [done|].
    intros d Hd. apply IH. by apply dict_set_values. }
  by apply H.
Qed.

End Ledger.

Section Invariant.

Lemma minted_before_later w w' clients :
  later w w' → minted_before w clients → minted_before w' clients.
Proof.
  intros Hl H c Hc. destruct (H c Hc) as (i & Hi & Hid).
  exists i. rewrite (later_urandom _ _ Hl). split; [|done].
  pose proof (later_urandom_pos _ _ Hl). lia.
Qed.

Lemma ledger_inv_later h w w' old new L :
  later w w' → ledger_inv h w old new L → ledger_inv h w' old new L.
Proof.
  intros Hl []. split; try done. by eapply minted_before_later.
Qed.

Lemma ledger_inv_perm h w old new L L' :
  L ≡ₚ L' → ledger_inv h w old new L → ledger_inv h w old new L'.
Proof.
  intros HL []. split; try done.
  - intros bed iv Hin. apply inv_tracked0. by rewrite HL.
  - intros c Hc. destruct (inv_covered0 c Hc) as (bed & iv & Hin & Hid).
    exists bed, iv. by rewrite <- HL.
  - by rewrite <- HL.
Qed.

(** With distinct identifiers, a client is determined by its identifier. *)
Lemma client_by_id (clients : list Client.t) c c' :
  NoDup (Client.id <$> clients) → c ∈ clients → c' ∈ clients →
  Client.id c = Client.id c' → c = c'.
Proof.
  induction clients as [|x xs IH]; simpl; [by intros _ ?%elem_of_nil|].
  intros [Hx Hnd]%NoDup_cons Hc Hc' Hid.
  apply elem_of_cons in Hc as [->|Hc], Hc' as [->|Hc']; try done.
  - exfalso. apply Hx. rewrite Hid. by apply list_elem_of_fmap_2.
  - exfalso. apply Hx. rewrite <- Hid. by apply list_elem_of_fmap_2.
  - by apply IH.
Qed.

(** Admission of a client with a fresh identifier. *)
Lemma ledger_inv_admit h w w' old new L c bed iv i :
  Inj (=) (=) (urandom w) →
  ledger_inv h w old new L →
  later w w' →
  (urandom_pos w ≤ i < urandom_pos w')%nat → Client.id c = urandom w i →
  Client.homeId c = h → Client.bedId c = bed → coherent c iv → flag_consistent c →
  ledger_inv h w' old (new ++ [c]) ((bed, iv) :: L).
Proof.
  intros Hinj [] Hl Hi Hid Hh Hb Hcoh Hflag.
  assert (∀ x, x ∈ old ++ new → Client.id x ≠ Client.id c) as Hfresh.
  { intros x Hx Heq. destruct (inv_minted0 x Hx) as (j & Hj & Hxj).
    rewrite Hid, Hxj in Heq. apply Hinj in Heq. lia. }
  split.
  - rewrite app_assoc, fmap_app. simpl. apply NoDup_app. split; [done|]. split.
    + intros y Hy [->|?%elem_of_nil]%elem_of_cons; [|done].
      apply list_elem_of_fmap in Hy as (x & Hx1 & Hx2). by apply (Hfresh x).
    + apply NoDup_singleton.
  - intros x Hx. rewrite app_assoc in Hx. apply elem_of_app in Hx as [Hx|Hx].
    + by apply (minted_before_later w w' (old ++ new) Hl inv_minted0).
    + apply list_elem_of_singleton in Hx as ->. exists i.
      rewrite (later_urandom _ _ Hl). split; [lia | done].
  - apply Forall_app. split; [done|]. by constructor.
  - intros b iv' [[= -> ->]|Hin]%elem_of_cons.
    + exists c. split; [|done]. apply elem_of_app. right. apply list_elem_of_here.
    + destruct (inv_tracked0 b iv' Hin) as (x & Hx & ?). exists x.
      split; [|done]. apply elem_of_app. by left.
  - intros x [Hx|Hx]%elem_of_app.
    + destruct (inv_covered0 x Hx) as (b & iv' & Hin & Hid').
      exists b, iv'. split; [by apply list_elem_of_further | done].
    + apply list_elem_of_singleton in Hx as ->. exists bed, iv.
      split; [apply list_elem_of_here | apply Hcoh].
  - rewrite fmap_cons. apply NoDup_cons. split; [|done]. simpl.
    intros Hin. apply list_elem_of_fmap in Hin as ([b iv'] & Heq & Hin). simpl in Heq.
    destruct (inv_tracked0 b iv' Hin) as (x & Hx & _ & _ & Hcoh').
    apply (Hfresh x); [apply elem_of_app; by right|].
    destruct Hcoh as [<- _], Hcoh' as [<- _]. done.
Qed.

End Invariant.

Section Discharge.

Import Generate.

Lemma returns_discharge_first client_id current_date clients w
    (Q : list Client.t → World → Prop) :
  (∀ clients' w',
      first_discharged client_id (DT.date current_date) clients clients' →
      later w w' → urandom_pos w' = urandom_pos w → Q clients' w') →
  returns (discharge_first client_id current_date clients) w Q.
Proof.
  revert w Q; induction clients as [|c rest IH]; intros w Q HQ; simpl.
  - apply returns_ret, HQ; [|done..]. left. split; [|done]. apply not_elem_of_nil.
  - case_decide as Hc.
    + apply returns_bind, returns_choice; [done|]. intros reason _.
      apply returns_ret, HQ; [|solve_later|done].
      right. exists [], c, rest, reason. repeat split; try done. apply not_elem_of_nil.
    + apply returns_bind, IH. intros rest' w' Hrel Hl Hp.
      apply returns_ret, HQ; [|done..].
      destruct Hrel as [[Hnot ->]|(A & x & B & reason & -> & Hx & HA & ->)].
      * left. split; [|done]. rewrite fmap_cons. by apply not_elem_of_cons.
      * right. exists (c :: A), x, B, reason. repeat split; try done.
        rewrite fmap_cons. by apply not_elem_of_cons.
Qed.

(** The place of an element that does not occur before it is unique. *)
Lemma first_split_unique {A} (f : A → Z) (l1 l2 r1 r2 : list A) (x y : A) :
  l1 ++ x :: r1 = l2 ++ y :: r2 →
  f x = f y → f x ∉ f <$> l1 → f y ∉ f <$> l2 →
  l1 = l2 ∧ x = y ∧ r1 = r2.
Proof.
  revert l2; induction l1 as [|a l1 IH]; intros [|b l2]; csimpl.
  - by intros [= -> ->].
  - intros [= -> _] Hf _ Hy. exfalso. apply Hy. rewrite Hf.
    apply list_elem_of_here.
  - intros [= -> _] Hf Hx _. exfalso. apply Hx. rewrite Hf.
    apply list_elem_of_here.
  - intros [= -> Heq] Hf Hx Hy.
    apply not_elem_of_cons in Hx as [_ Hx], Hy as [_ Hy].
    destruct (IH l2 Heq Hf Hx Hy) as (-> & -> & ->). done.
Qed.

(** A random discharge: the open interval of [client_id] is closed at
    [d] and the first client with that identifier is discharged. *)
Lemma ledger_inv_discharge h w old new L1 L2 bed s client_id d clients' :
  ledger_inv h w old new (L1 ++ (bed, (s, None, client_id)) :: L2) →
  first_discharged client_id (DT.date d) (old ++ new) clients' →
  ∃ new', clients' = old ++ new'
          ∧ ledger_inv h w old new' (L1 ++ (bed, (s, Some d, client_id)) :: L2).
Proof.
  intros [Hnd Hminted Hflags Htracked Hcovered Hids] Hrel.
  destruct (Htracked bed (s, None, client_id)) as (c & Hc & Hch & Hcb & Hcoh).
  { apply elem_of_app. right. apply list_elem_of_here. }
  destruct Hcoh as (Hcid & Hcs & Hca & _). simpl in Hcid, Hcs, Hca.
  apply list_elem_of_split in Hc as (N1 & N2 & ->).
  assert (client_id ∉ Client.id <$> (old ++ N1)) as Hbefore.
  { rewrite app_assoc, fmap_app, fmap_cons in Hnd.
    apply NoDup_app in Hnd as (_ & Hnd & _). intros Hin.
    apply (Hnd _ Hin). rewrite Hcid. apply list_elem_of_here. }
  destruct Hrel as [[Hnot _]|(A & c0 & B & reason & Heq & Hc0 & HA & ->)].
  { exfalso. apply Hnot. rewrite !fmap_app, fmap_cons, <- Hcid.
    apply elem_of_app. right. apply elem_of_app. right. apply list_elem_of_here. }
  rewrite app_assoc in Heq. symmetry in Heq.
  destruct (first_split_unique Client.id _ _ _ _ _ _ Heq) as (-> & -> & ->);
    [congruence | by rewrite Hc0 | by rewrite <- Hcid |].
  set (c' := Client.discharge c (DT.date d) reason).
  exists (N1 ++ c' :: N2). split; [by rewrite app_assoc|].
  assert (Client.id <$> (old ++ N1 ++ c' :: N2) = Client.id <$> (old ++ N1 ++ c :: N2))
    as Hsame by (by rewrite !fmap_app, !fmap_cons).
  assert (∀ x, x ∈ N1 ++ N2 → Client.id x ≠ client_id) as Hothers.
  { intros x Hx Hxid. rewrite !fmap_app, fmap_cons in Hnd.
    apply NoDup_app in Hnd as (_ & _ & Hnd).
    apply NoDup_app in Hnd as (_ & Hn1 & Hn2).
    apply NoDup_cons in Hn2 as [Hn2 _].
    apply elem_of_app in Hx as [Hx|Hx].
    - apply (Hn1 (Client.id x)); [by apply list_elem_of_fmap_2|].
      rewrite Hxid, Hcid. apply list_elem_of_here.
    - apply Hn2. rewrite <- Hcid, <- Hxid. by apply list_elem_of_fmap_2. }
  assert (∀ b iv, (b, iv) ∈ L1 ++ L2 → iv.2 ≠ client_id) as Hrest.
  { intros b iv Hin Hiv. rewrite fmap_app, fmap_cons in Hids. simpl in Hids.
    apply NoDup_app in Hids as (_ & Hi1 & Hi2).
    apply NoDup_cons in Hi2 as [Hi2 _].
    apply elem_of_app in Hin as [Hin|Hin].
    - apply (Hi1 iv.2); [by apply (list_elem_of_fmap_2 (λ x : Z * interval, x.2.2) _ (b, iv))|].
      rewrite Hiv. apply list_elem_of_here.
    - apply Hi2. rewrite <- Hiv.
      by apply (list_elem_of_fmap_2 (λ x : Z * interval, x.2.2) _ (b, iv)). }
  split.
  - by rewrite Hsame.
  - intros x Hx.
    assert (∃ y, y ∈ old ++ N1 ++ c :: N2 ∧ Client.id y = Client.id x) as (y & Hy & Hyx).
    { rewrite !elem_of_app, elem_of_cons in Hx.
      destruct Hx as [Hx|[Hx|[->|Hx]]].
      - exists x. split; [|done]. apply elem_of_app. by left.
      - exists x. split; [|done]. rewrite !elem_of_app. right. by left.
      - exists c. split; [|done]. rewrite !elem_of_app, elem_of_cons. right. right. by left.
      - exists x. split; [|done]. rewrite !elem_of_app, elem_of_cons. right. right. by right. }
    destruct (Hminted y Hy) as (i & Hi & Hyi). exists i. split; [done | congruence].
  - apply Forall_app in Hflags as [F1 F2]. apply Forall_cons in F2 as [_ F2].
    apply Forall_app. split; [done|]. constructor; [|done].
    unfold flag_consistent, c'. simpl. split; intros; discriminate.
  - intros b iv Hin.
    rewrite elem_of_app, elem_of_cons in Hin.
    assert ((b, iv) = (bed, (s, Some d, client_id)) ∨ (b, iv) ∈ L1 ++ L2) as [[= -> ->]|Hin'].
    { rewrite elem_of_app. tauto. }
    + exists c'. split; [|split; [done|split; [done|]]].
      * rewrite elem_of_app, elem_of_cons. right. by left.
      * unfold coherent, c'. simpl.
        split; [done|]. split; [done|]. split; [by split|]. by intros e [= ->].
    + destruct (Htracked b iv) as (x & Hx & Hxh & Hxb & Hxc).
      { rewrite elem_of_app, elem_of_cons. rewrite elem_of_app in Hin'. tauto. }
      assert (x ∈ N1 ++ N2) as Hx'.
      { rewrite elem_of_app, elem_of_cons in Hx. rewrite elem_of_app.
        destruct Hx as [?|[->|?]]; [tauto| |tauto].
        exfalso. apply (Hrest b iv Hin'). destruct Hxc as [-> _]. done. }
      exists x. split; [|done]. rewrite elem_of_app, elem_of_cons.
      rewrite elem_of_app in Hx'. tauto.
  - intros x Hx. rewrite elem_of_app, elem_of_cons in Hx.
    assert (x = c' ∨ x ∈ N1 ++ N2) as [->|Hx'] by (rewrite elem_of_app; tauto).
    + exists bed, (s, Some d, client_id). split; [|done].
      rewrite elem_of_app, elem_of_cons. right. by left.
    + destruct (Hcovered x) as (b & iv & Hin & Hiv).
      { rewrite elem_of_app, elem_of_cons. rewrite elem_of_app in Hx'. tauto. }
      exists b, iv. split; [|done].
      rewrite elem_of_app, elem_of_cons in Hin. rewrite elem_of_app, elem_of_cons.
      destruct Hin as [?|[[= -> ->]|?]]; [tauto| |tauto].
      exfalso. apply (Hothers x Hx'). done.
  - by rewrite fmap_app, fmap_cons in *.
Qed.

End Discharge.

Section Hazard.

Import Generate.

Lemma inj_later w w' :
  later w w' → Inj (=) (=) (urandom w) → Inj (=) (=) (urandom w').
Proof. intros Hl Hinj. by rewrite (later_urandom _ _ Hl). Qed.

Lemma returns_hazard_bed h current_date bed occ :
  ∀ Lpre Lpost old new w (Q : list interval * list Client.t → World → Prop),
  ledger_inv h w old new (Lpre ++ ((λ iv, (bed, iv)) <$> occ) ++ Lpost) →
  (∀ occ' new' w',
      ledger_inv h w' old new' (Lpre ++ ((λ iv, (bed, iv)) <$> occ') ++ Lpost) →
      later w w' → Q (occ', old ++ new') w') →
  returns (hazard_bed current_date occ (old ++ new)) w Q.
Proof.
  induction occ as [|[[start end_] client_id] rest IH];
    intros Lpre Lpost old new w Q Hinv HQ; csimpl.
  - apply returns_ret, HQ; [done | solve_later].
  - apply returns_bind.
    assert (∀ e new1 w1, later w w1 →
      ledger_inv h w1 old new1
        (Lpre ++ (bed, (start, e, client_id)) :: ((λ iv, (bed, iv)) <$> rest) ++ Lpost) →
      returns
        ('(rest0, clients) ← hazard_bed current_date rest (old ++ new1);
         mret ((start, e, client_id) :: rest0, clients)) w1 Q) as Hnext.
    { intros e new1 w1 Hl1 Hinv1. apply returns_bind.
      apply (IH (Lpre ++ [(bed, (start, e, client_id))]) Lpost).
      - by rewrite <- app_assoc.
      - intros occ' new' w' Hinv' Hl'. apply returns_ret, HQ; [|solve_later].
        by rewrite <- app_assoc in Hinv'. }
    csimpl in Hinv.
    destruct end_ as [e|].
    + apply returns_ret. apply Hnext; [solve_later | done].
    + case_decide.
      * apply returns_bind, returns_random. intros u.
        destruct (negb (Qle_bool u 0.98)).
        -- apply returns_bind, returns_discharge_first.
           intros clients' w' Hrel Hl Hp.
           destruct (ledger_inv_discharge h w' old new Lpre
                       (((λ iv, (bed, iv)) <$> rest) ++ Lpost) bed start client_id
                       current_date clients') as (new' & -> & Hinv');
             [by apply (ledger_inv_later h w w'); [solve_later|] | done |].
           apply returns_ret. apply Hnext; [solve_later | done].
        -- apply returns_ret. apply Hnext; [solve_later|].
           apply (ledger_inv_later h w); [solve_later | done].
      * apply returns_ret. apply Hnext; [solve_later | done].
Qed.

Lemma returns_hazard_discharges h current_date (d : occupancy) :
  ∀ Lpre old new w (Q : occupancy * list Client.t → World → Prop),
  ledger_inv h w old new (Lpre ++ flat d) →
  (∀ d' new' w',
      ledger_inv h w' old new' (Lpre ++ flat d') → later w w' →
      Q (d', old ++ new') w') →
  returns (hazard_discharges current_date d (old ++ new)) w Q.
Proof.
  induction d as [|[bed occ] rest IH]; intros Lpre old new w Q Hinv HQ; csimpl.
  - apply returns_ret, HQ; [done | solve_later].
  - apply returns_bind. rewrite flat_cons in Hinv.
    apply (returns_hazard_bed h current_date bed occ Lpre (flat rest) old new w);
      [done|].
    intros occ' new' w' Hinv' Hl'. apply returns_bind.
    apply (IH (Lpre ++ ((λ iv, (bed, iv)) <$> occ'))).
    + by rewrite <- app_assoc.
    + intros d' new'' w'' Hinv'' Hl''. apply returns_ret, HQ; [|solve_later].
      rewrite flat_cons. by rewrite <- app_assoc in Hinv''.
Qed.

End Hazard.

Section Admission.

Import Generate.

Variable END_DATE : Z.

(** The bookkeeping of one admission: the client is appended and its
    interval is appended to the occupancy list of its bed. *)
Lemma ledger_inv_append h w w1 w' old new (d : occupancy) c bed s e :
  Inj (=) (=) (urandom w) →
  ledger_inv h w old new (flat d) →
  later w w1 → later w1 w' →
  bed ∈ d.*1 →
  Client.id c = urandom w1 (urandom_pos w1) →
  urandom_pos w' = S (urandom_pos w1) →
  Client.homeId c = h → Client.bedId c = bed → Client.createdAt c = s →
  match e with
  | Some x => Client.isActive c = false ∧ Client.dischargeDate c = Some (DT.date x)
  | None => Client.isActive c = true ∧ Client.dischargeDate c = None
  end →
  ledger_inv h w' old (new ++ [c])
             (flat (occupancy_append bed (s, e, Client.id c) d)).
Proof.
  intros Hinj Hinv Hl1 Hl' Hbed Hid Hpos Hh Hb Hs He.
  apply (ledger_inv_perm h w' old (new ++ [c])
           ((bed, (s, e, Client.id c)) :: flat d));
    [symmetry; by apply flat_occupancy_append|].
  apply (ledger_inv_admit h w1 w' old new (flat d) c bed (s, e, Client.id c)
           (urandom_pos w1)); try done.
  - by apply (inj_later w).
  - by apply (ledger_inv_later h w).
  - lia.
  - unfold coherent; simpl. destruct e as [x|], He as [Ha Hd].
    + rewrite Ha, Hd. split; [done|]. split; [done|]. split; [by split|].
      by intros ? [= ->].
    + rewrite Ha. split; [done|]. split; [done|]. split; [by split|]. done.
  - unfold flag_consistent. destruct e as [x|], He as [-> ->]; by split.
Qed.

Lemma returns_admit_initial n h home_open home_caregivers old :
  home_caregivers ≠ [] →
  ∀ new (d : occupancy) w (Q : list Client.t * occupancy → World → Prop),
  Inj (=) (=) (urandom w) →
  ledger_inv h w old new (flat d) →
  (∀ new' d' w', ledger_inv h w' old new' (flat d') → later w w' →
                 Q (old ++ new', d') w') →
  returns (admit_initial END_DATE n h home_open home_caregivers (old ++ new) d) w Q.
Proof.
  intros Hcg. induction n as [|n IH]; intros new d w Q Hinj Hinv HQ; csimpl.
  - apply returns_ret, HQ; [done | solve_later].
  - apply returns_bind, returns_randint; [done|]. intros offset _.
    apply returns_bind.
    destruct (find_available_bed END_DATE d (home_open + DT.days offset))
      as [bed|] eqn:Hfind.
    + apply returns_bind, returns_choice; [done|]. intros caregiver _.
      apply returns_bind, returns_client_generate.
      intros c w' Hid Hh Hb Hs _ Hflag Hl Hpos.
      apply returns_ret. rewrite <- app_assoc.
      apply IH.
      * apply (inj_later w); [solve_later | done].
      * apply (ledger_inv_append h w (drawn 1 (drawn 1 w)) w'); try done.
        -- solve_later.
        -- by apply find_available_bed_key in Hfind.
      * intros new' d' w'' Hinv' Hl'. apply HQ; [done | solve_later].
    + apply returns_ret. apply IH.
      * done.
      * apply (ledger_inv_later h w); [solve_later | done].
      * intros new' d' w'' Hinv' Hl'. apply HQ; [done | solve_later].
Qed.

Lemma returns_admit_gradual h current_date home_beds home_caregivers old new
    (d : occupancy) w (Q : list Client.t * occupancy → World → Prop) :
  home_caregivers ≠ [] →
  Inj (=) (=) (urandom w) →
  ledger_inv h w old new (flat d) →
  (∀ new' d' w', ledger_inv h w' old new' (flat d') → later w w' →
                 Q (old ++ new', d') w') →
  returns (admit_gradual END_DATE h current_date home_beds home_caregivers
             (old ++ new) d) w Q.
Proof.
  intros Hcg Hinj Hinv HQ. unfold admit_gradual. cbv zeta.
  apply returns_bind.
  apply (returns_mono _ _ (λ _ w1, later w w1)).
  { case_decide.
    - apply returns_bind, returns_random. intros u. apply returns_ret. solve_later.
    - apply returns_ret. solve_later. }
  intros [|] w1 Hl1.
  - destruct (find_available_bed END_DATE d current_date) as [bed|] eqn:Hfind.
    + apply returns_bind, returns_choice; [done|]. intros caregiver _.
      apply returns_bind, returns_randint; [done|]. intros stay _.
      apply returns_bind.
      apply (returns_mono _ _ (λ _ w2, later w w2)).
      { case_decide.
        - apply returns_bind, returns_random. intros u. apply returns_ret. solve_later.
        - apply returns_ret. solve_later. }
      intros is_discharged w2 Hl2.
      apply returns_bind, returns_client_generate.
      intros c w' Hid Hh Hb Hs _ Hflag Hl Hpos.
      apply returns_ret. rewrite <- app_assoc. apply HQ; [|solve_later].
      apply (ledger_inv_append h w w2 w'); try done.
      * by apply find_available_bed_key in Hfind.
      * by destruct is_discharged.
    + apply returns_ret, HQ; [|done]. by apply (ledger_inv_later h w).
  - apply returns_ret, HQ; [|done]. by apply (ledger_inv_later h w).
Qed.

Lemma fuel_suffices_iterations k current_date :
  0 < k → fuel_suffices END_DATE k (iterations END_DATE current_date k) current_date.
Proof.
  intros Hk. unfold fuel_suffices, iterations. split; [lia|]. intros Hlt.
  assert (0 ≤ (END_DATE - current_date) / DT.days k).
  { apply Z.div_pos; unfold DT.days, DT.usec_per_day; lia. }
  lia.
Qed.

Lemma fuel_suffices_step k fuel current_date step :
  0 < k → k ≤ step → current_date < END_DATE →
  fuel_suffices END_DATE k (S fuel) current_date →
  fuel_suffices END_DATE k fuel (current_date + DT.days step).
Proof.
  intros Hk Hstep Hlt [_ Hfuel]. specialize (Hfuel Hlt).
  assert (0 < DT.days k) as Hd by (unfold DT.days, DT.usec_per_day; lia).
  assert (DT.days k ≤ DT.days step) as Hle
    by (unfold DT.days, DT.usec_per_day; lia).
  assert (0 ≤ (END_DATE - current_date) / DT.days k) by (apply Z.div_pos; lia).
  split; [lia|]. intros Hlt'.
  assert ((END_DATE - (current_date + DT.days step)) / DT.days k
          ≤ (END_DATE - current_date) / DT.days k - 1); [|lia].
  transitivity ((END_DATE - current_date - DT.days k) / DT.days k).
  - apply Z.div_le_mono; lia.
  - replace (END_DATE - current_date - DT.days k)
      with (END_DATE - current_date + (-1) * DT.days k) by lia.
    rewrite Z.div_add by lia. lia.
Qed.

Lemma returns_fill_loop h home_beds home_caregivers old fuel :
  home_caregivers ≠ [] →
  ∀ current_date new (d : occupancy) w
    (Q : list Client.t * occupancy → World → Prop),
  fuel_suffices END_DATE 7 fuel current_date →
  Inj (=) (=) (urandom w) →
  ledger_inv h w old new (flat d) →
  (∀ new' d' w', ledger_inv h w' old new' (flat d') → later w w' →
                 Q (old ++ new', d') w') →
  returns (fill_loop END_DATE fuel h current_date home_beds home_caregivers
             (old ++ new) d) w Q.
Proof.
  intros Hcg. induction fuel as [|fuel IH];
    intros current_date new d w Q Hfuel Hinj Hinv HQ.
  { destruct Hfuel as [? _]. lia. }
  csimpl. case_decide as Hlt.
  - apply returns_bind, returns_admit_gradual; try done.
    intros new1 d1 w1 Hinv1 Hl1.
    apply returns_bind.
    apply (returns_hazard_discharges h current_date d1 [] old new1 w1); [done|].
    intros d2 new2 w2 Hinv2 Hl2.
    apply returns_bind, returns_randint; [done|]. intros step Hstep.
    apply IH.
    + apply fuel_suffices_step; [lia | lia | done | done].
    + apply (inj_later w); [solve_later | done].
    + apply (ledger_inv_later h w2); [solve_later | done].
    + intros new' d' w' Hinv' Hl'. apply HQ; [done | solve_later].
  - apply returns_ret, HQ; [done | solve_later].
Qed.

Lemma ledger_inv_start h w old :
  NoDup (Client.id <$> old) → minted_before w old → ledger_inv h w old [] [].
Proof.
  intros Hnd Hminted. split.
  - by rewrite app_nil_r.
  - by rewrite app_nil_r.
  - constructor.
  - by intros ?? ?%elem_of_nil.
  - by intros ? ?%elem_of_nil.
  - constructor.
Qed.

Lemma returns_phase3_home beds_by_home caregivers_by_home home home_beds
    home_caregivers old w (Q : list Client.t * occupancy → World → Prop) :
  beds_by_home !! Home.id home = Some home_beds →
  caregivers_by_home !! Home.id home = Some home_caregivers →
  home_caregivers ≠ [] →
  Inj (=) (=) (urandom w) →
  NoDup (Client.id <$> old) → minted_before w old →
  (∀ new d w', ledger_inv (Home.id home) w' old new (flat d) → later w w' →
               Q (old ++ new, d) w') →
  returns (phase3_home END_DATE beds_by_home caregivers_by_home home old) w Q.
Proof.
  intros Hbeds Hcgs Hcg Hinj Hnd Hminted HQ. unfold phase3_home. cbv zeta.
  rewrite Hbeds, Hcgs.
  apply returns_bind, returns_ret. apply returns_bind, returns_ret.
  apply returns_bind, returns_randint; [done|]. intros initial_clients _.
  apply returns_bind.
  rewrite <- (app_nil_r old) at 1.
  apply returns_admit_initial; try done.
  - rewrite flat_empty_occupancy. apply ledger_inv_start; [done|].
    apply (minted_before_later w); [solve_later | done].
  - intros new1 d1 w1 Hinv1 Hl1.
    apply returns_fill_loop; try done.
    + apply fuel_suffices_iterations. lia.
    + apply (inj_later w); [solve_later | done].
    + intros new' d' w' Hinv' Hl'. apply HQ; [done | solve_later].
Qed.

End Admission.

Section Phase3.

Import Generate.

Variable END_DATE : Z.

Lemma elem_of_flat (d : occupancy) bed iv :
  (bed, iv) ∈ flat d ↔ ∃ occ, (bed, occ) ∈ d ∧ iv ∈ occ.
Proof.
  unfold flat. rewrite list_elem_of_bind. split.
  - intros ([k occ] & Hin & Hd). simpl in Hin.
    apply list_elem_of_fmap in Hin as (iv' & [= -> ->] & Hiv). by exists occ.
  - intros (occ & Hd & Hiv). exists (bed, occ). split; [|done]. simpl.
    by apply (list_elem_of_fmap_2 (λ iv, (bed, iv))).
Qed.

Lemma returns_phase3_loop beds_by_home caregivers_by_home homes :
  (∀ home, home ∈ homes → is_Some (beds_by_home !! Home.id home)) →
  (∀ home, home ∈ homes →
     ∃ cs, caregivers_by_home !! Home.id home = Some cs ∧ cs ≠ []) →
  ∀ old w (Q : list Client.t * list occupancy → World → Prop),
  Inj (=) (=) (urandom w) →
  NoDup (Client.id <$> old) → minted_before w old →
  (∀ clients ledgers w', phase3_post old homes clients ledgers w' → later w w' →
                         Q (clients, ledgers) w') →
  returns (phase3_loop END_DATE beds_by_home caregivers_by_home homes old) w Q.
Proof.
  induction homes as [|home rest IH]; intros Hbeds Hcgs old w Q Hinj Hnd Hminted HQ;
    csimpl.
  - apply returns_ret, HQ; [|solve_later]. exists [].
    rewrite app_nil_r. repeat split; try done; try constructor.
    by intros ? ?%elem_of_nil.
  - destruct (Hbeds home) as [home_beds Hb]; [apply list_elem_of_here|].
    destruct (Hcgs home) as (home_caregivers & Hc & Hne); [apply list_elem_of_here|].
    apply returns_bind.
    apply (returns_phase3_home END_DATE beds_by_home caregivers_by_home home
             home_beds home_caregivers); try done.
    intros new1 d1 w1 Hinv1 Hl1. apply returns_bind.
    destruct Hinv1 as [Hnd1 Hminted1 Hflags1 Htracked1 Hcovered1 _].
    apply IH; try done.
    + intros h Hh. apply Hbeds. by apply list_elem_of_further.
    + intros h Hh. apply Hcgs. by apply list_elem_of_further.
    + apply (inj_later w); [solve_later | done].
    + intros clients ledgers w' (new2 & -> & Hnd2 & Hminted2 & Hflags2 & Htracked2
                                 & Hcovered2) Hl'.
      apply returns_ret, HQ; [|solve_later].
      exists (new1 ++ new2). rewrite app_assoc.
      split; [done|]. split; [done|]. split; [done|].
      split; [by apply Forall_app|]. split.
      * constructor.
        -- intros bed iv Hin. destruct (Htracked1 bed iv Hin) as (c & Hc1 & ?).
           exists c. split; [|done]. apply elem_of_app. by left.
        -- eapply Forall2_impl; [exact Htracked2|]. cbv beta.
           intros h ledger H bed iv Hin. destruct (H bed iv Hin) as (c & Hc2 & ?).
           exists c. split; [|done]. apply elem_of_app. by right.
      * intros c [Hc1|Hc2]%elem_of_app.
        -- destruct (Hcovered1 c Hc1) as (bed & iv & Hin & Hid).
           by exists 0%nat, d1, bed, iv.
        -- destruct (Hcovered2 c Hc2) as (k & ledger & bed & iv & Hk & Hin & Hid).
           by exists (S k), ledger, bed, iv.
Qed.

End Phase3.

Section ActiveFlag.

Import Generate.

(** In a finished Phase 3, an interval that carries the identifier of a
    client is the interval of that client. *)
Lemma interval_of_client homes clients ledgers w ledger bed iv c :
  phase3_post [] homes clients ledgers w →
  ledger ∈ ledgers → (bed, iv) ∈ flat ledger → c ∈ clients → iv.2 = Client.id c →
  Client.bedId c = bed ∧ coherent c iv.
Proof.
  intros (new & -> & Hnd & _ & _ & Htracked & _) Hledger Hin Hc Hid.
  apply list_elem_of_lookup in Hledger as [k Hk].
  destruct (Forall2_lookup_r _ _ _ _ _ Htracked Hk) as (home & _ & Hhome).
  destruct (Hhome bed iv Hin) as (c' & Hc' & _ & Hbed & Hcoh).
  assert (c' = c) as ->; [|done].
  apply (client_by_id new); try done. destruct Hcoh as [<- _]. done.
Qed.

(** C7: when Phase 3 has run, with every home having its beds and at least
    one caregiver and [uuid4] never returning an identifier twice, every
    client has [isActive] true exactly when [dischargeDate] is absent; the
    occupancy list of the client's bed, in the ledger of some home, holds
    an interval opened at the client's admission under the client's
    identifier; and for every interval under that identifier, in whatever
    ledger, [isActive] is false exactly when the interval is closed, its end
    being an instant of the day [dischargeDate]. *)
Theorem client_active_flag_matches_occupancy END_DATE beds_by_home
    caregivers_by_home homes w :
  (∀ home, home ∈ homes → is_Some (beds_by_home !! Home.id home)) →
  (∀ home, home ∈ homes →
     ∃ cs, caregivers_by_home !! Home.id home = Some cs ∧ cs ≠ []) →
  Inj (=) (=) (urandom w) →
  returns (phase3 END_DATE beds_by_home caregivers_by_home homes) w
    (λ '(clients, ledgers) _,
       ∀ c, c ∈ clients →
         (Client.isActive c = true ↔ Client.dischargeDate c = None)
         ∧ (∃ ledger occ end_,
              ledger ∈ ledgers ∧ (Client.bedId c, occ) ∈ ledger
              ∧ (Client.createdAt c, end_, Client.id c) ∈ occ)
         ∧ (∀ ledger bed occ start end_,
              ledger ∈ ledgers → (bed, occ) ∈ ledger →
              (start, end_, Client.id c) ∈ occ →
              bed = Client.bedId c ∧ start = Client.createdAt c
              ∧ (Client.isActive c = false
                 ↔ ∃ e, end_ = Some e
                        ∧ Client.dischargeDate c = Some (DT.date e)))).
Proof.
  intros Hbeds Hcgs Hinj. unfold phase3.
  apply returns_phase3_loop; try done; [constructor | by intros ? ?%elem_of_nil |].
  intros clients ledgers w' Hpost _ c Hc.
  pose proof Hpost as (new & Hnew & _ & _ & Hflags & _ & Hcovered).
  simpl in Hnew. subst new.
  split; [by apply (proj1 (Forall_forall _ _) Hflags)|]. split.
  - destruct (Hcovered c Hc) as (k & ledger & bed & [[s e] i] & Hk & Hin & Hid).
    simpl in Hid. subst i.
    assert (ledger ∈ ledgers) as Hledger by (by eapply list_elem_of_lookup_2).
    destruct (interval_of_client homes clients ledgers w' ledger bed
                (s, e, Client.id c) c) as (<- & _ & Hs & _); try done.
    simpl in Hs. subst s.
    apply elem_of_flat in Hin as (occ & Hocc & Hiv). by exists ledger, occ, e.
  - intros ledger bed occ start end_ Hledger Hocc Hiv.
    destruct (interval_of_client homes clients ledgers w' ledger bed
                (start, end_, Client.id c) c) as (<- & _ & Hs & Hopen & Hclosed);
      try done.
    { apply elem_of_flat. by exists occ. }
    simpl in Hs, Hopen, Hclosed. split; [done|]. split; [done|]. split.
    + intros Hfalse. destruct end_ as [e|].
      * exists e. split; [done|]. by apply Hclosed.
      * destruct Hopen as [Hopen _]. rewrite Hopen in Hfalse; done.
    + intros (e & -> & _). destruct (Client.isActive c); [|done].
      destruct Hopen as [_ Hopen]. by specialize (Hopen eq_refl).
Qed.

Lemma client_active_flag_matches_occupancy_witness :
  (∀ home, home ∈ [Scenario.home] →
     is_Some (Scenario.beds_by_home !! Home.id home))
  ∧ (∀ home, home ∈ [Scenario.home] →
       ∃ cs, Scenario.caregivers_by_home !! Home.id home = Some cs ∧ cs ≠ [])
  ∧ Inj (=) (=) (urandom Scenario.scheduled_discharge)
  ∧ returns (phase3 Scenario.END_DATE Scenario.beds_by_home
               Scenario.caregivers_by_home [Scenario.home])
      Scenario.scheduled_discharge
      (λ '(clients, ledgers) _,
         ∀ c, c ∈ clients →
           (Client.isActive c = true ↔ Client.dischargeDate c = None)
           ∧ (∃ ledger occ end_,
                ledger ∈ ledgers ∧ (Client.bedId c, occ) ∈ ledger
                ∧ (Client.createdAt c, end_, Client.id c) ∈ occ)
           ∧ (∀ ledger bed occ start end_,
                ledger ∈ ledgers → (bed, occ) ∈ ledger →
                (start, end_, Client.id c) ∈ occ →
                bed = Client.bedId c ∧ start = Client.createdAt c
                ∧ (Client.isActive c = false
                   ↔ ∃ e, end_ = Some e
                          ∧ Client.dischargeDate c = Some (DT.date e)))).
Proof.
  assert (∀ home, home ∈ [Scenario.home] →
            is_Some (Scenario.beds_by_home !! Home.id home)) as H1.
  { intros home ->%list_elem_of_singleton. by exists Scenario.beds. }
  assert (∀ home, home ∈ [Scenario.home] →
            ∃ cs, Scenario.caregivers_by_home !! Home.id home = Some cs ∧ cs ≠ [])
    as H2.
  { intros home ->%list_elem_of_singleton. by exists Scenario.caregivers. }
  assert (Inj (=) (=) (urandom Scenario.scheduled_discharge)) as H3.
  { intros i j Hij. simpl in Hij. lia. }
  split; [exact H1|]. split; [exact H2|]. split; [exact H3|].
  exact (client_active_flag_matches_occupancy Scenario.END_DATE
           Scenario.beds_by_home Scenario.caregivers_by_home [Scenario.home]
           Scenario.scheduled_discharge H1 H2 H3).
Defined.

End ActiveFlag.

(** ** The simulation horizon: clients *)

Section HorizonClients.

Import Generate.

Variable END_DATE : Z.
Variable ids : list Z.

Lemma days_le a b : a ≤ b → DT.days a ≤ DT.days b.
Proof. unfold DT.days, DT.usec_per_day. lia. Qed.

Lemma horizon_discharge_first client_id current_date clients w
    (Q : list Client.t → World → Prop) :
  in_horizon END_DATE current_date →
  Forall (generated_client END_DATE ids) clients →
  (∀ clients' w', Forall (generated_client END_DATE ids) clients' → Q clients' w') →
  returns (discharge_first client_id current_date clients) w Q.
Proof.
  intros Hnow Hall HQ. apply returns_discharge_first.
  intros clients' w' Hrel _ _. apply HQ.
  destruct Hrel as [[_ ->]|(A & c & B & reason & -> & _ & _ & ->)]; [done|].
  apply Forall_app in Hall as [HA [Hc HB]%Forall_cons].
  apply Forall_app. split; [done|]. constructor; [|done].
  destruct Hc as (Hhome & Hcreated & Hadmission & _).
  split; [done|]. split; [done|]. split; [done|]. simpl.
  intros d [= <-]. by exists current_date.
Qed.

Lemma horizon_hazard_bed current_date occ :
  in_horizon END_DATE current_date →
  ∀ clients w (Q : list interval * list Client.t → World → Prop),
  Forall (generated_client END_DATE ids) clients →
  (∀ occ' clients' w', Forall (generated_client END_DATE ids) clients' →
                       Q (occ', clients') w') →
  returns (hazard_bed current_date occ clients) w Q.
Proof.
  intros Hnow. induction occ as [|[[start end_] client_id] rest IH];
    intros clients w Q Hall HQ; csimpl.
  - by apply returns_ret, HQ.
  - apply returns_bind.
    assert (∀ e clients1 w1, Forall (generated_client END_DATE ids) clients1 →
      returns
        ('(rest0, clients) ← hazard_bed current_date rest clients1;
         mret ((start, e, client_id) :: rest0, clients)) w1 Q) as Hnext.
    { intros e clients1 w1 Hall1. apply returns_bind, IH; [done|].
      intros occ' clients' w' Hall'. by apply returns_ret, HQ. }
    destruct end_ as [e|].
    + apply returns_ret. by apply Hnext.
    + case_decide.
      * apply returns_bind, returns_random. intros u.
        destruct (negb (Qle_bool u 0.98)).
        -- apply returns_bind, horizon_discharge_first; try done.
           intros clients' w' Hall'. apply returns_ret. by apply Hnext.
        -- apply returns_ret. by apply Hnext.
      * apply returns_ret. by apply Hnext.
Qed.

Lemma horizon_hazard_discharges current_date (d : occupancy) :
  in_horizon END_DATE current_date →
  ∀ clients w (Q : occupancy * list Client.t → World → Prop),
  Forall (generated_client END_DATE ids) clients →
  (∀ d' clients' w', Forall (generated_client END_DATE ids) clients' →
                     Q (d', clients') w') →
  returns (hazard_discharges current_date d clients) w Q.
Proof.
  intros Hnow. induction d as [|[bed occ] rest IH]; intros clients w Q Hall HQ; csimpl.
  - by apply returns_ret, HQ.
  - apply returns_bind, horizon_hazard_bed; try done.
    intros occ' clients' w' Hall'. apply returns_bind, IH; [done|].
    intros d' clients'' w'' Hall''. by apply returns_ret, HQ.
Qed.

Lemma horizon_admit_initial n h home_open home_caregivers :
  home_caregivers ≠ [] → h ∈ ids →
  Config.START_DATE END_DATE ≤ home_open → home_open + DT.days 30 < END_DATE →
  ∀ clients (d : occupancy) w (Q : list Client.t * occupancy → World → Prop),
  Forall (generated_client END_DATE ids) clients →
  (∀ clients' d' w', Forall (generated_client END_DATE ids) clients' →
                     Q (clients', d') w') →
  returns (admit_initial END_DATE n h home_open home_caregivers clients d) w Q.
Proof.
  intros Hcg Hid Hlo Hhi.
  induction n as [|n IH]; intros clients d w Q Hall HQ; csimpl.
  - by apply returns_ret, HQ.
  - apply returns_bind, returns_randint; [done|]. intros offset Hoffset.
    apply returns_bind.
    destruct (find_available_bed END_DATE d (home_open + DT.days offset)) as [bed|].
    + apply returns_bind, returns_choice; [done|]. intros caregiver _.
      apply returns_bind, returns_client_generate.
      intros c w' _ Hh _ Hs Ha [_ Hd] _ _.
      apply returns_ret. apply IH; [|done].
      apply Forall_app. split; [done|]. constructor; [|done].
      pose proof (days_le 0 offset) as H0. pose proof (days_le offset 30) as H30.
      split; [by rewrite Hh|]. split; [|split].
      * rewrite Hs. unfold in_horizon. change (DT.days 0) with 0 in H0. lia.
      * by rewrite Ha, Hs.
      * by rewrite Hd.
    + apply returns_ret. by apply IH.
Qed.

Lemma horizon_admit_gradual h current_date home_beds home_caregivers clients
    (d : occupancy) w (Q : list Client.t * occupancy → World → Prop) :
  home_caregivers ≠ [] → h ∈ ids →
  in_horizon END_DATE current_date →
  Forall (generated_client END_DATE ids) clients →
  (∀ clients' d' w', Forall (generated_client END_DATE ids) clients' →
                     Q (clients', d') w') →
  returns (admit_gradual END_DATE h current_date home_beds home_caregivers
             clients d) w Q.
Proof.
  intros Hcg Hid Hnow Hall HQ. unfold admit_gradual. cbv zeta.
  apply returns_bind.
  apply (returns_mono _ _ (λ _ _, True)).
  { case_decide.
    - apply returns_bind, returns_random. intros u. by apply returns_ret.
    - by apply returns_ret. }
  intros [|] w1 _.
  - destruct (find_available_bed END_DATE d current_date) as [bed|].
    + apply returns_bind, returns_choice; [done|]. intros caregiver _.
      apply returns_bind, returns_randint; [done|]. intros stay Hstay.
      apply returns_bind.
      apply (returns_mono _ _
               (λ b _, b = true → current_date + DT.days stay < END_DATE)).
      { case_decide.
        - apply returns_bind, returns_random. intros u. by apply returns_ret.
        - by apply returns_ret. }
      intros is_discharged w2 Hlate.
      apply returns_bind, returns_client_generate.
      intros c w' _ Hh _ Hs Ha Hflag _ _.
      apply returns_ret, HQ.
      apply Forall_app. split; [done|]. constructor; [|done].
      split; [by rewrite Hh|]. split; [by rewrite Hs|]. split; [by rewrite Ha, Hs|].
      destruct is_discharged.
      * destruct Hflag as [_ ->]. intros ? [= <-].
        exists (current_date + DT.days stay). split; [|done].
        pose proof (days_le 0 stay) as H0. change (DT.days 0) with 0 in H0.
        destruct Hnow. split; [lia | by apply Hlate].
      * destruct Hflag as [_ ->]. done.
    + by apply returns_ret, HQ.
  - by apply returns_ret, HQ.
Qed.

Lemma horizon_fill_loop h home_beds home_caregivers fuel :
  home_caregivers ≠ [] → h ∈ ids →
  ∀ current_date clients (d : occupancy) w
    (Q : list Client.t * occupancy → World → Prop),
  fuel_suffices END_DATE 7 fuel current_date →
  Config.START_DATE END_DATE ≤ current_date →
  Forall (generated_client END_DATE ids) clients →
  (∀ clients' d' w', Forall (generated_client END_DATE ids) clients' →
                     Q (clients', d') w') →
  returns (fill_loop END_DATE fuel h current_date home_beds home_caregivers
             clients d) w Q.
Proof.
  intros Hcg Hid. induction fuel as [|fuel IH];
    intros current_date clients d w Q Hfuel Hlo Hall HQ.
  { destruct Hfuel as [? _]. lia. }
  csimpl. case_decide as Hlt.
  - apply returns_bind, horizon_admit_gradual; try done.
    intros clients1 d1 w1 Hall1.
    apply returns_bind, horizon_hazard_discharges; try done.
    intros d2 clients2 w2 Hall2.
    apply returns_bind, returns_randint; [done|]. intros step Hstep.
    apply IH; try done.
    + apply fuel_suffices_step; [lia | lia | done | done].
    + pose proof (days_le 0 step) as H0. change (DT.days 0) with 0 in H0. lia.
  - by apply returns_ret, HQ.
Qed.

Lemma horizon_phase3_loop beds_by_home caregivers_by_home homes :
  (∀ home, home ∈ homes → is_Some (beds_by_home !! Home.id home)) →
  (∀ home, home ∈ homes →
     ∃ cs, caregivers_by_home !! Home.id home = Some cs ∧ cs ≠ []) →
  Forall (opens_in_horizon END_DATE) homes →
  Forall (λ home, Home.id home ∈ ids) homes →
  ∀ clients w (Q : list Client.t * list occupancy → World → Prop),
  Forall (generated_client END_DATE ids) clients →
  (∀ clients' ledgers w', Forall (generated_client END_DATE ids) clients' →
                          Q (clients', ledgers) w') →
  returns (phase3_loop END_DATE beds_by_home caregivers_by_home homes clients) w Q.
Proof.
  induction homes as [|home rest IH];
    intros Hbeds Hcgs Hopen Hids clients w Q Hall HQ; csimpl.
  - by apply returns_ret, HQ.
  - destruct (Hbeds home) as [home_beds Hb]; [apply list_elem_of_here|].
    destruct (Hcgs home) as (home_caregivers & Hc & Hne); [apply list_elem_of_here|].
    apply Forall_cons in Hopen as [[Hlo Hhi] Hopen].
    apply Forall_cons in Hids as [Hid Hids].
    apply returns_bind. unfold phase3_home. cbv zeta. rewrite Hb, Hc.
    apply returns_bind, returns_ret. apply returns_bind, returns_ret.
    apply returns_bind, returns_randint; [done|]. intros initial_clients _.
    apply returns_bind, horizon_admit_initial; try done.
    intros clients1 d1 w1 Hall1.
    apply horizon_fill_loop; try done.
    + apply fuel_suffices_iterations. lia.
    + pose proof (days_le 0 45) as H0. change (DT.days 0) with 0 in H0. lia.
    + intros clients2 d2 w2 Hall2. apply returns_bind, IH; try done.
      * intros x Hx. apply Hbeds. by apply list_elem_of_further.
      * intros x Hx. apply Hcgs. by apply list_elem_of_further.
      * intros clients3 ledgers w3 Hall3. by apply returns_ret, HQ.
Qed.

End HorizonClients.

Section ClientsHorizon.

Import Generate.

(** X1: the six homes of Phase 1 open in increasing order, at least 60 days
    apart, the first 14 days after [START_DATE] and the last at least 130
    days before [END_DATE]. *)
Theorem home_open_dates_spread END_DATE w :
  returns (home_open_dates END_DATE) w
    (λ dates _,
       length dates = 6%nat
       ∧ dates !! 0%nat = Some (Config.START_DATE END_DATE + DT.days 14)
       ∧ (∀ i a b, dates !! i = Some a → dates !! S i = Some b →
                   a + DT.days 60 ≤ b)
       ∧ Forall (λ d, Config.START_DATE END_DATE + DT.days 14 ≤ d
                      ∧ d + DT.days 130 ≤ END_DATE) dates).
Proof.
  unfold home_open_dates. cbv zeta.
  apply returns_bind, returns_randint; [done|]. intros d2 H2.
  apply returns_bind, returns_randint; [done|]. intros d3 H3.
  apply returns_bind, returns_randint; [done|]. intros d4 H4.
  apply returns_bind, returns_randint; [done|]. intros d5 H5.
  apply returns_bind, returns_randint; [done|]. intros d6 H6.
  apply returns_ret. split; [done|]. split; [done|].
  unfold Config.START_DATE, DT.days, DT.usec_per_day. split.
  - intros [|[|[|[|[|[|i]]]]]] a b; simpl; intros [= <-]; intros [= <-]; lia.
  - repeat constructor; lia.
Qed.

(** X2: every client of Phase 3 belongs to one of the homes, is created at
    its admission, at an instant of the horizon [[START_DATE, END_DATE)],
    and its discharge date, when present, is the date of an instant of the
    horizon: when every home opens in the horizon, at least 30 days
    before its end, and has its beds and a caregiver. *)
Theorem phase3_clients_within_horizon END_DATE beds_by_home caregivers_by_home
    homes w :
  (∀ home, home ∈ homes → is_Some (beds_by_home !! Home.id home)) →
  (∀ home, home ∈ homes →
     ∃ cs, caregivers_by_home !! Home.id home = Some cs ∧ cs ≠ []) →
  Forall (opens_in_horizon END_DATE) homes →
  returns (phase3 END_DATE beds_by_home caregivers_by_home homes) w
    (λ '(clients, _) _,
       Forall (generated_client END_DATE (Home.id <$> homes)) clients).
Proof.
  intros Hbeds Hcgs Hopen. unfold phase3.
  apply (horizon_phase3_loop END_DATE (Home.id <$> homes)); try done.
  apply Forall_forall. intros home Hhome. by apply list_elem_of_fmap_2.
Qed.

Lemma phase3_clients_within_horizon_witness :
  (∀ home, home ∈ [Scenario.home] →
     is_Some (Scenario.beds_by_home !! Home.id home))
  ∧ (∀ home, home ∈ [Scenario.home] →
       ∃ cs, Scenario.caregivers_by_home !! Home.id home = Some cs ∧ cs ≠ [])
  ∧ Forall (opens_in_horizon Scenario.END_DATE) [Scenario.home]
  ∧ returns (phase3 Scenario.END_DATE Scenario.beds_by_home
               Scenario.caregivers_by_home [Scenario.home])
      Scenario.two_initial_clients
      (λ '(clients, _) _,
         Forall (generated_client Scenario.END_DATE
                   (Home.id <$> [Scenario.home])) clients).
Proof.
  assert (∀ home, home ∈ [Scenario.home] →
            is_Some (Scenario.beds_by_home !! Home.id home)) as H1.
  { intros home ->%list_elem_of_singleton. by exists Scenario.beds. }
  assert (∀ home, home ∈ [Scenario.home] →
            ∃ cs, Scenario.caregivers_by_home !! Home.id home = Some cs ∧ cs ≠ [])
    as H2.
  { intros home ->%list_elem_of_singleton. by exists Scenario.caregivers. }
  assert (Forall (opens_in_horizon Scenario.END_DATE) [Scenario.home]) as H3.
  { constructor; [|done]. by vm_compute. }
  split; [exact H1|]. split; [exact H2|]. split; [exact H3|].
  exact (phase3_clients_within_horizon Scenario.END_DATE Scenario.beds_by_home
           Scenario.caregivers_by_home [Scenario.home]
           Scenario.two_initial_clients H1 H2 H3).
Defined.

End ClientsHorizon.

(** ** Phase 5: activities *)

Section ActivitiesSpec.

Import Generate.

Variable END_DATE : Z.

Lemma returns_participant_records activity_id created_at participants :
  ∀ w (Q : list Participant.t → World → Prop),
  (∀ records w',
      Forall (λ p, Participant.activityId p = activity_id
                   ∧ Participant.createdAt p = created_at) records →
      Participant.clientId <$> records = participants → Q records w') →
  returns (ActivityGenerator.participant_records activity_id created_at
             participants) w Q.
Proof.
  induction participants as [|cid rest IH]; intros w Q HQ; csimpl.
  - by apply returns_ret, HQ.
  - apply returns_bind, returns_uuid4. apply returns_bind, IH.
    intros records w' Hall Hids. apply returns_ret, HQ.
    + by constructor.
    + csimpl. by rewrite Hids.
Qed.

Lemma returns_activity_generate home_id caregiver_id activity_date client_ids w
    (Q : Activity.t → World → Prop) :
  client_ids ≠ [] →
  (∀ a w',
      Activity.homeId a = home_id →
      Activity.createdById a = caregiver_id →
      Activity.createdAt a = activity_date →
      Activity.date a = DT.date activity_date →
      Activity.updatedAt a = None →
      Forall (λ p, Participant.activityId p = Activity.id a
                   ∧ Participant.createdAt p = activity_date)
             (Activity.participants a) →
      Participant.clientId <$> Activity.participants a ⊆+ client_ids →
      (1 ≤ length (Activity.participants a) ≤ 6)%nat →
      (if Activity.isGroupActivity a
       then (2 ≤ length (Activity.participants a))%nat
            ∨ length (Activity.participants a) = length client_ids
       else length (Activity.participants a) = 1%nat) →
      Q a w') →
  returns (ActivityGenerator.generate home_id caregiver_id activity_date
             client_ids) w Q.
Proof.
  intros Hne HQ. unfold ActivityGenerator.generate.
  assert (1 ≤ length client_ids)%nat as Hlen.
  { destruct client_ids; [done | simpl; lia]. }
  apply returns_bind, returns_choice; [done|]. intros activity_info _.
  apply returns_bind.
  apply (returns_mono _ _
    (λ participants _,
       participants ⊆+ client_ids
       ∧ (1 ≤ length participants ≤ 6)%nat
       ∧ (if ActivityInfo.group activity_info
          then (2 ≤ length participants)%nat
               ∨ length participants = length client_ids
          else length participants = 1%nat))).
  { destruct (ActivityInfo.group activity_info).
    - apply returns_bind, returns_randint; [done|]. intros n Hn.
      apply returns_sample; [lia|]. intros l Hl Hsub.
      split; [done|]. split; lia.
    - apply returns_bind, returns_choice; [done|]. intros c Hc.
      apply returns_ret. split; [by apply singleton_submseteq_l|].
      split; [simpl; lia | done]. }
  intros participants w1 (Hsub & Hcount & Hgroup).
  apply returns_bind, returns_randint; [done|]. intros start_hour _.
  apply returns_bind, returns_choice; [done|]. intros duration_minutes _.
  apply returns_bind, returns_uuid4.
  apply returns_bind, returns_participant_records.
  intros records w' Hall Hids.
  assert (length records = length participants) as Hrecords
    by (by rewrite <- Hids, length_fmap).
  apply returns_ret, HQ; simpl; try done.
  - by rewrite Hids.
  - by rewrite Hrecords.
  - by rewrite Hrecords.
Qed.

Lemma returns_week_activities n clients home_id current_date home_caregivers :
  home_caregivers ≠ [] →
  active_client_ids clients home_id current_date ≠ [] →
  ∀ w (Q : list Activity.t → World → Prop),
  (∀ activities w',
      Forall (activity_of_week END_DATE clients home_id current_date) activities →
      Q activities w') →
  returns (week_activities END_DATE n home_id current_date home_caregivers
             (active_client_ids clients home_id current_date)) w Q.
Proof.
  intros Hcg Hactive. induction n as [|n IH]; intros w Q HQ; csimpl.
  - by apply returns_ret, HQ.
  - apply returns_bind, returns_randint; [done|]. intros offset Hoffset.
    apply returns_bind.
    apply (returns_mono _ _
      (λ made _, Forall (activity_of_week END_DATE clients home_id current_date)
                        made)).
    { case_decide as Hlt.
      - apply returns_bind, returns_choice; [done|]. intros caregiver _.
        apply returns_bind, returns_activity_generate; [done|].
        intros a w' Hhome _ Hcreated Hdate Hupdated Hrecords Hsub Hcount Hgroup.
        apply returns_ret. constructor; [|done].
        unfold activity_of_week. rewrite Hcreated.
        split; [done|]. split.
        { unfold DT.days, DT.usec_per_day. lia. }
        split; [done|]. split; [done|]. split; [done|]. split; [done|].
        split; [done|]. split; [done|]. done.
      - by apply returns_ret. }
    intros made w1 Hmade. apply returns_bind, IH.
    intros more w2 Hmore. apply returns_ret, HQ. by apply Forall_app.
Qed.

Lemma returns_activity_loop home_id home_caregivers clients first fuel :
  home_caregivers ≠ [] →
  ∀ current_date w (Q : list Activity.t → World → Prop),
  fuel_suffices END_DATE 7 fuel current_date →
  first ≤ current_date →
  (∀ activities w',
      Forall (λ a, ∃ week_start,
                first ≤ week_start
                ∧ activity_of_week END_DATE clients home_id week_start a)
             activities →
      Q activities w') →
  returns (activity_loop END_DATE fuel home_id current_date home_caregivers
             clients) w Q.
Proof.
  intros Hcg. induction fuel as [|fuel IH]; intros current_date w Q Hfuel Hlo HQ.
  { destruct Hfuel as [? _]. lia. }
  cbn [activity_loop]. case_decide as Hlt; [|by apply returns_ret, HQ].
  cbv zeta. apply returns_bind.
  apply (returns_mono _ _
    (λ made _, Forall (activity_of_week END_DATE clients home_id current_date)
                      made)).
  { destruct (active_client_ids clients home_id current_date) as [|x l] eqn:Hactive.
    - by apply returns_ret.
    - apply returns_bind, returns_randint; [done|]. intros k _.
      rewrite <- Hactive. apply returns_week_activities; [done | | done].
      by rewrite Hactive. }
  intros made w1 Hmade. apply returns_bind, IH.
  - apply fuel_suffices_step; [lia | lia | done | done].
  - unfold DT.days, DT.usec_per_day. lia.
  - intros more w2 Hmore. apply returns_ret, HQ. apply Forall_app. split; [|done].
    eapply Forall_impl; [exact Hmade|]. intros a Ha. by exists current_date.
Qed.

(** X3: every activity of Phase 5 belongs to a week of one of the homes, a
    week that starts 7, 14, ... days after the home opened: it is dated in
    that week and before [END_DATE], and its participants, 1 to 6 of them
    and exactly 1 when it is not a group activity, are taken without
    repetition from the clients that were active at that home when the week
    started. *)
Theorem phase5_activities_of_weeks caregivers_by_home clients homes w :
  (∀ home, home ∈ homes →
     ∃ cs, caregivers_by_home !! Home.id home = Some cs ∧ cs ≠ []) →
  returns (phase5 END_DATE caregivers_by_home clients homes) w
    (λ activities _,
       Forall (λ a, ∃ home week_start,
                 home ∈ homes
                 ∧ Home.createdAt home + DT.days 7 ≤ week_start
                 ∧ activity_of_week END_DATE clients (Home.id home) week_start a)
              activities).
Proof.
  revert w. induction homes as [|home rest IH]; intros w Hcgs; csimpl.
  - by apply returns_ret.
  - destruct (Hcgs home) as (home_caregivers & Hc & Hne); [apply list_elem_of_here|].
    apply returns_bind. unfold phase5_home. cbv zeta. rewrite Hc.
    apply returns_bind, returns_ret.
    apply (returns_activity_loop (Home.id home) home_caregivers clients
             (Home.createdAt home + DT.days 7)); [done | | lia |].
    { apply fuel_suffices_iterations. lia. }
    intros made w1 Hmade. apply returns_bind.
    eapply returns_mono.
    { apply IH. intros x Hx. apply Hcgs. by apply list_elem_of_further. }
    intros more w2 Hmore. apply returns_ret. apply Forall_app. split.
    + eapply Forall_impl; [exact Hmade|]. intros a (week_start & Hweek & Ha).
      exists home, week_start. split; [apply list_elem_of_here | done].
    + eapply Forall_impl; [exact Hmore|]. intros a (h & week_start & Hh & Ha).
      exists h, week_start. split; [by apply list_elem_of_further | done].
Qed.

End ActivitiesSpec.

Lemma phase5_activities_of_weeks_witness :
  (∀ home, home ∈ [Scenario.home] →
     ∃ cs, Scenario.caregivers_by_home !! Home.id home = Some cs ∧ cs ≠ [])
  ∧ returns (Generate.phase5 Scenario.END_DATE Scenario.caregivers_by_home
               [Scenario.resident] [Scenario.home]) Scenario.all_threes
      (λ activities _,
         Forall (λ a, ∃ home week_start,
                   home ∈ [Scenario.home]
                   ∧ Home.createdAt home + DT.days 7 ≤ week_start
                   ∧ activity_of_week Scenario.END_DATE [Scenario.resident]
                       (Home.id home) week_start a)
                activities).
Proof.
  assert (∀ home, home ∈ [Scenario.home] →
            ∃ cs, Scenario.caregivers_by_home !! Home.id home = Some cs ∧ cs ≠ [])
    as H.
  { intros home ->%list_elem_of_singleton. by exists Scenario.caregivers. }
  split; [exact H|].
  exact (phase5_activities_of_weeks Scenario.END_DATE Scenario.caregivers_by_home
           [Scenario.resident] [Scenario.home] Scenario.all_threes H).
Defined.

(** The run of Phase 5 on the home of the scenario with its resident, every
    draw being 3, makes 90 activities, each with the resident as its one
    participant. *)
Example phase5_run_has_activities :
  returns (Generate.phase5 Scenario.END_DATE Scenario.caregivers_by_home
             [Scenario.resident] [Scenario.home]) Scenario.all_threes
    (λ activities _,
       length activities = 90%nat
       ∧ Forall (λ a, Participant.clientId <$> Activity.participants a = [1000])
                activities).
Proof. vm_compute. split; [reflexivity|]. repeat constructor. Qed.

(** ** Phase 6: incidents *)

Section IncidentsSpec.

Import Generate.

Variable END_DATE : Z.

Lemma active_client_ids_spec clients home_id t cid :
  cid ∈ active_client_ids clients home_id t
  ↔ ∃ c, c ∈ clients ∧ Client.id c = cid ∧ Client.homeId c = home_id
         ∧ in_residence t c.
Proof.
  unfold active_client_ids, clients_by_home, in_residence, active_on.
  rewrite list_elem_of_fmap. split.
  - intros (c & -> & Hc). apply list_elem_of_filter in Hc as [Hactive Hc].
    apply list_elem_of_filter in Hc as [Hhome Hc].
    apply andb_prop in Hactive as [Hadm Hdis].
    apply bool_decide_eq_true in Hadm.
    exists c. repeat split; try done.
    intros d Hd. rewrite Hd in Hdis. apply bool_decide_eq_true in Hdis. lia.
  - intros (c & Hc & <- & Hhome & Hadm & Hdis). exists c. split; [done|].
    apply list_elem_of_filter. split.
    + apply andb_true_intro. split; [by apply bool_decide_eq_true|].
      destruct (Client.dischargeDate c) as [d|]; [|done].
      apply bool_decide_eq_true. specialize (Hdis d eq_refl). lia.
    + by apply list_elem_of_filter.
Qed.

Lemma returns_incident_loop home_id home_sequence home_caregivers clients
    admin_user_ids first fuel :
  home_caregivers ≠ [] →
  ∀ gen current_date w (Q : list Incident.t * IncidentGenerator.t → World → Prop),
  fuel_suffices END_DATE 10 fuel current_date →
  first ≤ current_date →
  (∀ incidents gen' w',
      Forall (λ inc, ∃ t, first ≤ t < END_DATE
                ∧ incident_people clients home_caregivers admin_user_ids
                                  home_id t inc
                ∧ incident_times inc) incidents →
      Q (incidents, gen') w') →
  returns (incident_loop END_DATE fuel gen home_id home_sequence current_date
             home_caregivers clients admin_user_ids) w Q.
Proof.
  intros Hcg. induction fuel as [|fuel IH]; intros gen current_date w Q Hfuel Hlo HQ.
  { destruct Hfuel as [? _]. lia. }
  cbn [incident_loop]. case_decide as Hlt; [|by apply returns_ret, HQ].
  cbv zeta. apply returns_bind.
  apply (returns_mono _ _
           (λ happens _, happens = true
                         → active_client_ids clients home_id current_date ≠ [])).
  { destruct (active_client_ids clients home_id current_date) as [|x l].
    - by apply returns_ret.
    - apply returns_bind, returns_random. intros u. by apply returns_ret. }
  intros happens w1 Hactive. apply returns_bind.
  apply (returns_mono _ _
    (λ r _, Forall (λ inc, ∃ t, first ≤ t < END_DATE
                     ∧ incident_people clients home_caregivers admin_user_ids
                                       home_id t inc
                     ∧ incident_times inc) r.1)).
  { destruct happens; [|by apply returns_ret].
    specialize (Hactive eq_refl).
    apply returns_bind, returns_random. intros u.
    apply returns_bind.
    apply (returns_mono _ _
      (λ client_id _, ∀ cid, client_id = Some cid →
                        cid ∈ active_client_ids clients home_id current_date)).
    { destruct (negb (Qle_bool u 0.1)); [|by apply returns_ret].
      apply returns_bind, returns_choice; [done|]. intros c Hc.
      apply returns_ret. by intros cid [= <-]. }
    intros client_id w2 Hclient.
    apply returns_bind, returns_choice; [done|]. intros reporter Hreporter.
    apply returns_bind, returns_generate.
    intros inc gen' w3 _ _ _ Hhome Hcid Hrep Hocc Hcreated _ Hstatus _ _ _
           Hphotos _.
    apply returns_ret. simpl. constructor; [|done].
    exists current_date. split; [lia|]. split.
    - split; [done|]. split; [done|]. split.
      { destruct (active_client_ids clients home_id current_date) as [|x l] eqn:E;
          [done|].
        assert (x ∈ active_client_ids clients home_id current_date) as Hx
          by (rewrite E; apply list_elem_of_here).
        apply active_client_ids_spec in Hx as (c & ? & _ & ? & ?). by exists c. }
      split.
      { intros cid Hcid'. rewrite Hcid in Hcid'.
        by apply active_client_ids_spec, Hclient. }
      split; [rewrite Hrep; by apply list_elem_of_fmap_2|].
      intros who Hwho. rewrite Hrep.
      destruct Hstatus as [(_ & _ & _ & _ & Hby)|[(_ & _ & _ & _ & _ & Hby)
                                                 |(_ & _ & _ & closer & Hby & Hin)]];
        rewrite Hby in Hwho; [done | done |]. injection Hwho as <-.
      by destruct admin_user_ids.
    - unfold incident_times. rewrite Hocc, Hcreated. split; [done|].
      split; [|split].
      + intros u' Hu.
        destruct Hstatus as [(_ & Hupd & _)|[(_ & _ & (hh & Hh & Hupd) & _)
                                            |(_ & (dd & Hd & _ & Hupd) & _)]];
          rewrite Hupd in Hu; [done| |]; injection Hu as <-.
        * unfold DT.hours, DT.days, DT.usec_per_hour, DT.usec_per_day. lia.
        * unfold DT.hours, DT.days, DT.usec_per_hour, DT.usec_per_day. lia.
      + intros t Ht.
        destruct Hstatus as [(_ & _ & Hcl & _)|[(_ & _ & _ & Hcl & _)
                                               |(_ & (dd & Hd & Hcl & _) & _)]];
          rewrite Hcl in Ht; [done|done|]; injection Ht as <-.
        unfold DT.days, DT.usec_per_day. lia.
      + eapply Forall_impl; [exact Hphotos|]. by intros p (_ & _ & Hp & _). }
  intros [made gen1] w2 Hmade. simpl in Hmade.
  apply returns_bind, returns_randint; [done|]. intros step Hstep.
  apply returns_bind, IH.
  - apply fuel_suffices_step; [lia | lia | done | done].
  - unfold DT.days, DT.usec_per_day. lia.
  - intros more gen2 w3 Hmore. apply returns_ret, HQ. by apply Forall_app.
Qed.

Lemma returns_phase6_loop caregivers_by_home clients admin_user_ids homes :
  (∀ home, home ∈ homes →
     ∃ cs, caregivers_by_home !! Home.id home = Some cs ∧ cs ≠ []) →
  ∀ gen home_index w (Q : list Incident.t * IncidentGenerator.t → World → Prop),
  (∀ incidents gen' w',
      Forall (λ inc, ∃ home cs t,
                home ∈ homes
                ∧ caregivers_by_home !! Home.id home = Some cs
                ∧ Home.createdAt home + DT.days 14 ≤ t < END_DATE
                ∧ incident_people clients cs admin_user_ids (Home.id home) t inc
                ∧ incident_times inc) incidents →
      Q (incidents, gen') w') →
  returns (phase6_loop END_DATE gen home_index caregivers_by_home clients
             admin_user_ids homes) w Q.
Proof.
  induction homes as [|home rest IH]; intros Hcgs gen home_index w Q HQ;
    cbn [phase6_loop]; cbv zeta.
  - by apply returns_ret, HQ.
  - destruct (Hcgs home) as (home_caregivers & Hc & Hne); [apply list_elem_of_here|].
    rewrite Hc. apply returns_bind, returns_ret.
    apply returns_bind, returns_randint; [done|]. intros offset Hoffset.
    apply returns_bind.
    apply (returns_incident_loop (Home.id home) (home_index + 1) home_caregivers
             clients admin_user_ids (Home.createdAt home + DT.days 14));
      [done | | |].
    { apply fuel_suffices_iterations. lia. }
    { unfold DT.days, DT.usec_per_day. lia. }
    intros made gen1 w1 Hmade. apply returns_bind, IH.
    + intros x Hx. apply Hcgs. by apply list_elem_of_further.
    + intros more gen2 w2 Hmore. apply returns_ret, HQ. apply Forall_app. split.
      * eapply Forall_impl; [exact Hmade|]. intros inc (t & Ht & Hp & Htimes).
        exists home, home_caregivers, t. split; [apply list_elem_of_here | done].
      * eapply Forall_impl; [exact Hmore|].
        intros inc (h & cs & t & Hh & Hrest). exists h, cs, t.
        split; [by apply list_elem_of_further | done].
Qed.

(** X4: every incident of Phase 6 occurs at one of the homes, 14 days or more
    after it opened and before [END_DATE], at an instant when a client is
    in residence there; the client it names, when it names one, is a
    client of that home in residence at that instant; its reporter is a
    caregiver of the home, and whoever closed it is one of the
    administrators (the reporter when there are none). *)
Theorem phase6_incidents_involve_residents caregivers_by_home clients
    admin_user_ids homes w :
  (∀ home, home ∈ homes →
     ∃ cs, caregivers_by_home !! Home.id home = Some cs ∧ cs ≠ []) →
  returns (phase6 END_DATE caregivers_by_home clients admin_user_ids homes) w
    (λ incidents _,
       Forall (λ inc, ∃ home cs t,
                 home ∈ homes
                 ∧ caregivers_by_home !! Home.id home = Some cs
                 ∧ Home.createdAt home + DT.days 14 ≤ t < END_DATE
                 ∧ incident_people clients cs admin_user_ids (Home.id home) t inc)
              incidents).
Proof.
  intros Hcgs. unfold phase6. apply returns_bind, returns_phase6_loop; [done|].
  intros incidents gen' w' Hall. apply returns_ret.
  eapply Forall_impl; [exact Hall|].
  intros inc (home & cs & t & ? & ? & ? & ? & _). by exists home, cs, t.
Qed.

(** X5: every incident of Phase 6 occurs before [END_DATE] and is created, with
    its photos, at the instant it occurs; its [updatedAt], when present,
    lies 1 hour to 7 days after that instant and its [closedAt], when
    present, 1 to 7 days after it: no timestamp of an incident is as late as
    7 days after [END_DATE] (the run [closed_incident_after_END_DATE] below
    has one that is later than [END_DATE]). *)
Theorem phase6_incident_timestamps caregivers_by_home clients admin_user_ids
    homes w :
  (∀ home, home ∈ homes →
     ∃ cs, caregivers_by_home !! Home.id home = Some cs ∧ cs ≠ []) →
  returns (phase6 END_DATE caregivers_by_home clients admin_user_ids homes) w
    (λ incidents _,
       Forall (λ inc, Incident.occurredAt inc < END_DATE
                      ∧ (∃ home, home ∈ homes
                           ∧ Incident.homeId inc = Home.id home
                           ∧ Home.createdAt home + DT.days 14
                             ≤ Incident.occurredAt inc)
                      ∧ incident_times inc
                      ∧ (∀ t, Incident.updatedAt inc = Some t
                              ∨ Incident.closedAt inc = Some t →
                              t < END_DATE + DT.days 7))
              incidents).
Proof.
  intros Hcgs. unfold phase6. apply returns_bind, returns_phase6_loop; [done|].
  intros incidents gen' w' Hall. apply returns_ret.
  eapply Forall_impl; [exact Hall|].
  intros inc (home & cs & t & Hhome & _ & Ht & (Hid & Hocc & _) & Htimes).
  rewrite Hocc. split; [lia|]. split; [by exists home; repeat split; try lia|].
  split; [done|].
  destruct Htimes as (_ & Hupd & Hclosed & _). rewrite Hocc in Hupd, Hclosed.
  intros x [Hx|Hx]; [apply Hupd in Hx | apply Hclosed in Hx]; lia.
Qed.

End IncidentsSpec.

Lemma phase6_incidents_involve_residents_witness :
  (∀ home, home ∈ [Scenario.home] →
     ∃ cs, Scenario.caregivers_by_home !! Home.id home = Some cs ∧ cs ≠ [])
  ∧ returns (Generate.phase6 Scenario.END_DATE Scenario.caregivers_by_home
               [Scenario.resident] [1] [Scenario.home]) Scenario.all_top
      (λ incidents _,
         Forall (λ inc, ∃ home cs t,
                   home ∈ [Scenario.home]
                   ∧ Scenario.caregivers_by_home !! Home.id home = Some cs
                   ∧ Home.createdAt home + DT.days 14 ≤ t < Scenario.END_DATE
                   ∧ incident_people [Scenario.resident] cs [1] (Home.id home) t inc)
                incidents).
Proof.
  assert (∀ home, home ∈ [Scenario.home] →
            ∃ cs, Scenario.caregivers_by_home !! Home.id home = Some cs ∧ cs ≠ [])
    as H.
  { intros home ->%list_elem_of_singleton. by exists Scenario.caregivers. }
  split; [exact H|].
  exact (phase6_incidents_involve_residents Scenario.END_DATE
           Scenario.caregivers_by_home [Scenario.resident] [1] [Scenario.home]
           Scenario.all_top H).
Defined.

(** The run of Phase 6 on the home of the scenario with its resident, every
    draw being the largest, makes five incidents, each naming the resident. *)
Example phase6_run_names_the_resident :
  returns (Generate.phase6 Scenario.END_DATE Scenario.caregivers_by_home
             [Scenario.resident] [1] [Scenario.home]) Scenario.all_top
    (λ incidents _,
       Incident.clientId <$> incidents
       = [Some 1000; Some 1000; Some 1000; Some 1000; Some 1000]).
Proof. by vm_compute. Qed.

Lemma phase6_incident_timestamps_witness :
  (∀ home, home ∈ [Scenario.home] →
     ∃ cs, Scenario.caregivers_by_home !! Home.id home = Some cs ∧ cs ≠ [])
  ∧ returns (Generate.phase6 Scenario.END_DATE Scenario.caregivers_by_home
               [Scenario.resident] [1] [Scenario.home]) Scenario.late_incident
      (λ incidents _,
         Forall (λ inc, Incident.occurredAt inc < Scenario.END_DATE
                        ∧ (∃ home, home ∈ [Scenario.home]
                             ∧ Incident.homeId inc = Home.id home
                             ∧ Home.createdAt home + DT.days 14
                               ≤ Incident.occurredAt inc)
                        ∧ incident_times inc
                        ∧ (∀ t, Incident.updatedAt inc = Some t
                                ∨ Incident.closedAt inc = Some t →
                                t < Scenario.END_DATE + DT.days 7))
                incidents).
Proof.
  assert (∀ home, home ∈ [Scenario.home] →
            ∃ cs, Scenario.caregivers_by_home !! Home.id home = Some cs ∧ cs ≠ [])
    as H.
  { intros home ->%list_elem_of_singleton. by exists Scenario.caregivers. }
  split; [exact H|].
  exact (phase6_incident_timestamps Scenario.END_DATE
           Scenario.caregivers_by_home [Scenario.resident] [1] [Scenario.home]
           Scenario.late_incident H).
Defined.

(** A run in which the bound is passed: the home of the scenario opens 130
    days before [END_DATE]; Phase 6 reaches the day before [END_DATE],
    where an incident occurs and is closed 7 days later, 6 days after
    [END_DATE]. *)
Example closed_incident_after_END_DATE :
  returns (Generate.phase6 Scenario.END_DATE Scenario.caregivers_by_home
             [Scenario.resident] [1] [Scenario.home])
    Scenario.late_incident
    (λ incidents _,
       ∃ inc, incidents = [inc]
              ∧ Incident.occurredAt inc = Scenario.END_DATE - DT.days 1
              ∧ Incident.closedAt inc = Some (Scenario.END_DATE + DT.days 6)
              ∧ Incident.updatedAt inc = Some (Scenario.END_DATE + DT.days 6)).
Proof. vm_compute. eexists. repeat split; reflexivity. Qed.

(** ** Phase 7: appointments *)

Section AppointmentSpec.

Import AppointmentGenerator.

Lemma dict_get_ind {A} (P : A → Prop) (d : list (string * A)) key default :
  Forall (λ kv, P kv.2) d → P default → P (dict_get d key default).
Proof.
  intros Hd Hdefault. induction Hd as [|[k v] d Hv Hd IH]; simpl; [done|].
  by case_decide.
Qed.

Lemma APPOINTMENT_TYPES_weights :
  ∃ total, last (accumulate 0 (snd <$> APPOINTMENT_TYPES)) = Some total
           ∧ Qle_bool total 0 = false.
Proof. eexists. split; by vm_compute. Qed.

Lemma APPOINTMENT_STATUSES_weights :
  ∃ total, last (accumulate 0 (snd <$> APPOINTMENT_STATUSES)) = Some total
           ∧ Qle_bool total 0 = false.
Proof. eexists. split; by vm_compute. Qed.

Lemma titles_nonempty appointment_type :
  dict_get TITLE_TEMPLATES appointment_type (dict_get TITLE_TEMPLATES "Other" [])
  ≠ [].
Proof. apply (dict_get_ind (λ l, l ≠ [])); [|done]. repeat constructor; done. Qed.

Lemma durations_in_range appointment_type :
  dict_get duration_ranges appointment_type [30; 45; 60] ≠ []
  ∧ Forall (λ m, 15 ≤ m ≤ 120)
           (dict_get duration_ranges appointment_type [30; 45; 60]).
Proof.
  apply (dict_get_ind (λ l, l ≠ [] ∧ Forall (λ m, 15 ≤ m ≤ 120) l)).
  - repeat constructor; done || lia.
  - repeat constructor; done || lia.
Qed.

Lemma notes_nonempty appointment_type :
  dict_get notes_by_type appointment_type ["No special instructions."%string] ≠ [].
Proof. apply (dict_get_ind (λ l, l ≠ [])); [|done]. repeat constructor; done. Qed.

(** The locations whose name holds one of [words] are entries of the table
    with an address and a telephone number. *)
Lemma named_entries words loc :
  loc ∈ named words →
  loc ∈ APPOINTMENT_LOCATIONS
  ∧ (is_Some (Location.address loc) ∧ is_Some (Location.phone loc)
     ∨ Location.name loc = "Home Visit"%string).
Proof.
  unfold named. intros [_ Hloc]%list_elem_of_filter. split; [done|].
  revert loc Hloc. apply Forall_forall.
  repeat (apply Forall_cons_2; [first [by left; split; eexists | by right]|]).
  apply Forall_nil_2.
Qed.

Lemma returns_for_type appointment_type type words otherwise w
    (Q : Location.t → World → Prop) :
  (appointment_type = type → ∀ loc, loc ∈ named words → Q loc (drawn 1 w)) →
  (appointment_type ≠ type ∨ named words = [] → returns otherwise w Q) →
  returns (for_type appointment_type type words otherwise) w Q.
Proof.
  intros HQ Hotherwise. unfold for_type. case_decide as Hty; [|by auto].
  destruct (named words) as [|loc found] eqn:E; [by auto|].
  apply returns_choice; [done|]. intros x Hx. by apply HQ.
Qed.

Lemma returns_get_location_for_type appointment_type w
    (Q : Location.t → World → Prop) :
  (∀ loc w', later w w' → location_allowed appointment_type loc → Q loc w') →
  returns (_get_location_for_type appointment_type) w Q.
Proof.
  intros HQ. unfold _get_location_for_type.
  apply returns_bind.
  apply (returns_mono _ _
    (λ (visit : bool) w1,
       later w w1
       ∧ (visit = true →
          appointment_type ∈ ["PhysicalTherapy"; "OccupationalTherapy";
                              "SpeechTherapy"]%string))).
  { case_decide.
    - apply returns_bind, returns_random. intros u. apply returns_ret.
      split; [solve_later | done].
    - apply returns_ret. split; [solve_later | done]. }
  intros [|] w1 [Hl1 Htherapy].
  { apply returns_ret, HQ; [done|]. left. split; [done | by apply Htherapy]. }
  assert (∀ words names loc,
    names = Location.name <$> named words →
    Location.name <$> named words ≠ ["Home Visit"%string] →
    location_names appointment_type = names →
    Forall (λ n, n ≠ "Home Visit"%string) names →
    loc ∈ named words → Q loc (drawn 1 w1)) as HQ1.
  { intros words names loc -> _ Hnames Hnohome Hloc.
    apply HQ; [solve_later|]. right.
    destruct (named_entries words loc Hloc) as [Hin Hfull].
    assert (Location.name loc ∈ Location.name <$> named words) as Hname
      by (by apply list_elem_of_fmap_2).
    split; [done|]. split; [by rewrite Hnames|].
    destruct Hfull as [[? ?]|Hhome]; [done|].
    exfalso. rewrite Hhome in Hname.
    by apply (proj1 (Forall_forall _ _) Hnohome) in Hname. }
  unfold location_names in HQ1.
  apply returns_for_type.
  { intros Hty loc. apply (HQ1 _ _ loc eq_refl); [done | | ].
    - rewrite Hty. by vm_compute.
    - repeat constructor; done. }
  intros [Hty1|Hempty]; [|by vm_compute in Hempty].
  apply returns_for_type.
  { intros Hty loc. apply (HQ1 _ _ loc eq_refl); [done | | ].
    - rewrite Hty. by vm_compute.
    - repeat constructor; done. }
  intros [Hty2|Hempty]; [|by vm_compute in Hempty].
  apply returns_for_type.
  { intros Hty loc. apply (HQ1 _ _ loc eq_refl); [done | | ].
    - rewrite Hty. by vm_compute.
    - repeat constructor; done. }
  intros [Hty3|Hempty]; [|by vm_compute in Hempty].
  apply returns_for_type.
  { intros Hty loc. apply (HQ1 _ _ loc eq_refl); [done | | ].
    - rewrite Hty. by vm_compute.
    - repeat constructor; done. }
  intros [Hty4|Hempty]; [|by vm_compute in Hempty].
  apply returns_for_type.
  { intros Hty loc. apply (HQ1 _ _ loc eq_refl); [done | | ].
    - rewrite Hty. by vm_compute.
    - repeat constructor; done. }
  intros [Hty5|Hempty]; [|by vm_compute in Hempty].
  apply returns_for_type.
  { intros Hty loc. apply (HQ1 _ _ loc eq_refl); [done | | ].
    - rewrite Hty. by vm_compute.
    - repeat constructor; done. }
  intros [Hty6|Hempty]; [|by vm_compute in Hempty].
  apply returns_for_type.
  { intros Hty loc. apply (HQ1 _ _ loc eq_refl); [done | | ].
    - rewrite Hty. by vm_compute.
    - repeat constructor; done. }
  intros [Hty7|Hempty]; [|by vm_compute in Hempty].
  destruct (named ["Medical"; "MultiCare"]%string) as [|loc0 found] eqn:E;
    [by vm_compute in E|].
  rewrite <- E.
  apply returns_choice; [by rewrite E|]. intros loc.
  apply (HQ1 _ _ loc eq_refl); [done | | ].
  - rewrite !decide_False by done. by vm_compute.
  - repeat constructor; done.
Qed.

Lemma returns_get_provider_name appointment_type w (Q : string → World → Prop) :
  (∀ name w', later w w' → Q name w') →
  returns (_get_provider_name appointment_type) w Q.
Proof.
  intros HQ. unfold _get_provider_name. cbv zeta.
  apply returns_bind.
  apply (returns_mono _ _ (λ _ w1, later w w1)).
  { destruct (dict_get specialties _ _) as [|s l].
    - apply returns_ret. solve_later.
    - apply returns_choice; [done|]. intros x _. solve_later. }
  intros suffix w1 Hl1.
  apply returns_bind, returns_faker. intros first.
  apply returns_bind, returns_faker. intros last.
  apply returns_ret, HQ. solve_later.
Qed.

Lemma returns_generate_notes appointment_type w (Q : option string → World → Prop) :
  (∀ notes w', later w w' → Q notes w') →
  returns (_generate_notes appointment_type) w Q.
Proof.
  intros HQ. unfold _generate_notes.
  apply returns_bind, returns_random. intros u.
  destruct (negb (Qle_bool u 0.5)).
  - apply returns_ret, HQ. solve_later.
  - apply returns_bind, returns_choice; [apply notes_nonempty|]. intros note _.
    apply returns_ret, HQ. solve_later.
Qed.

Lemma returns_appointment_generate client_id home_id created_by_id scheduled_at
    is_past w (Q : Appointment.t → World → Prop) :
  (∀ a w',
      Appointment.clientId a = client_id →
      Appointment.homeId a = home_id →
      Appointment.createdById a = created_by_id →
      Appointment.scheduledAt a = scheduled_at →
      appointment_times a →
      appointment_outcome is_past a →
      Appointment.location a
        ∈ "Home visit"%string :: location_names (Appointment.appointmentType a) →
      (Appointment.location a = "Home visit"%string →
       Appointment.appointmentType a
         ∈ ["PhysicalTherapy"; "OccupationalTherapy"; "SpeechTherapy"]%string) →
      later w w' →
      Q a w') →
  returns (generate client_id home_id created_by_id scheduled_at is_past) w Q.
Proof.
  intros HQ. unfold generate.
  apply returns_bind, returns_weighted_choice; [apply APPOINTMENT_TYPES_weights|].
  intros appointment_type _. cbv zeta.
  apply returns_bind, returns_choice; [apply titles_nonempty|]. intros title _.
  apply returns_bind, returns_get_location_for_type.
  intros location_info w1 Hl1 Hallowed.
  destruct (durations_in_range appointment_type) as [Hne Hrange].
  apply returns_bind, returns_choice; [done|]. intros duration Hduration.
  apply (proj1 (Forall_forall _ _) Hrange) in Hduration.
  apply returns_bind, returns_choice; [done|]. intros transport _.
  apply returns_bind.
  apply (returns_mono _ _ (λ _ w2, later w w2)).
  { destruct (truthy _); [apply returns_ret; solve_later|].
    apply returns_bind, returns_random. intros u.
    destruct (negb (Qle_bool u 0.3)).
    - apply returns_bind, returns_choice; [done|]. intros physician _.
      apply returns_ret. solve_later.
    - apply returns_ret. solve_later. }
  intros provider_phone w2 Hl2.
  apply returns_bind, returns_random. intros u.
  apply returns_bind.
  apply (returns_mono _ _ (λ _ w3, later w w3)).
  { destruct (negb (Qle_bool u 0.3)).
    - apply returns_bind, returns_get_provider_name. intros name w3 Hl3.
      apply returns_ret. solve_later.
    - apply returns_ret. solve_later. }
  intros provider_name w3 Hl3.
  apply returns_bind, returns_uuid4.
  apply returns_bind, returns_generate_notes. intros notes w4 Hl4.
  apply returns_bind, returns_randint; [done|]. intros created_offset Hoffset.
  assert (∀ loc, loc ∈ APPOINTMENT_LOCATIONS → is_Some (Location.address loc) →
            truthy (Location.address loc) = true) as Haddress.
  { apply (Forall_forall (λ loc, is_Some (Location.address loc) →
                                  truthy (Location.address loc) = true)).
    repeat (apply Forall_cons_2; [by intros [? [=]] || done|]).
    apply Forall_nil_2. }
  assert ((if truthy (Location.address location_info)
           then Location.name location_info else "Home visit"%string)
          ∈ "Home visit"%string :: location_names appointment_type
          ∧ ((if truthy (Location.address location_info)
              then Location.name location_info else "Home visit"%string)
             = "Home visit"%string →
             appointment_type ∈ ["PhysicalTherapy"; "OccupationalTherapy";
                                 "SpeechTherapy"]%string)) as [Hloc Hvisit].
  { destruct Hallowed as [[-> Hty]|(Hin & Hname & Haddr & _)].
    - simpl. split; [apply list_elem_of_here | done].
    - rewrite (Haddress _ Hin Haddr). split; [by apply list_elem_of_further|].
      intros Hhome. exfalso. rewrite Hhome in Hname. revert Hname.
      unfold location_names.
      repeat case_decide; intros Hname;
        repeat (apply elem_of_cons in Hname as [Hname|Hname]; [discriminate|]);
        by apply elem_of_nil in Hname. }
  set (location := if truthy (Location.address location_info)
                   then Location.name location_info else "Home visit"%string)
    in *.
  clearbody location.
  assert (∀ status completed_at completed_by outcome w5,
    later w w5 →
    (∀ t, completed_at = Some t → t = scheduled_at + DT.minutes duration) →
    appointment_outcome is_past
      (Appointment.mk (urandom w3 (urandom_pos w3)) client_id home_id
         appointment_type status title scheduled_at duration location
         provider_name provider_phone notes transport is_past created_by_id
         (scheduled_at - DT.days created_offset) completed_at completed_by
         outcome) →
    Q (Appointment.mk (urandom w3 (urandom_pos w3)) client_id home_id
         appointment_type status title scheduled_at duration location
         provider_name provider_phone notes transport is_past created_by_id
         (scheduled_at - DT.days created_offset) completed_at completed_by
         outcome) w5) as Hfin.
  { intros status completed_at completed_by outcome w5 Hl5 Hcompleted Houtcome.
    apply HQ; simpl; try done.
    split; [by exists created_offset|]. by split. }
  destruct is_past.
  - apply returns_bind, returns_weighted_choice;
      [apply APPOINTMENT_STATUSES_weights|].
    intros status Hstatus.
    assert (status ∈ ["Completed"; "Cancelled"; "NoShow"; "Rescheduled"]%string)
      as Hfour by exact Hstatus.
    destruct (decide (status = "Completed"%string)) as [->|Hnot].
    + apply returns_bind, returns_choice; [done|]. intros note _.
      apply returns_ret, Hfin; [solve_later | by intros t [= <-] |].
      split; [done|]. simpl. split; [done|]. split; [by split; eauto|].
      split; [done | by eauto].
    + assert (status ∈ ["Cancelled"; "NoShow"; "Rescheduled"]%string) as Hin.
      { apply elem_of_cons in Hfour as [?|?]; done. }
      rewrite decide_True by done.
      apply returns_bind, returns_choice.
      { repeat (apply elem_of_cons in Hin as [->|Hin]); [done..|].
        by apply elem_of_nil in Hin. }
      intros note _. apply returns_ret, Hfin; [solve_later | done |].
      split; [done|]. simpl. split; [done|].
      split; [split; [by intros [? ?] | done]|].
      rewrite decide_False by done. split; [done | by eauto].
  - apply returns_ret, Hfin; [solve_later | done | done].
Qed.

(** X6: [AppointmentGenerator.generate] returns, whatever the generators
    give: an appointment created 3 to 21 days before the instant it is
    scheduled at and lasting 15 to 120 minutes; one that is not past is
    [Scheduled], with no completion and no outcome; a past one is
    [Completed], [Cancelled], [NoShow] or [Rescheduled], always with an
    outcome note, and completed, by its creator and at the scheduled
    instant plus its duration, exactly when its status is [Completed]; its
    location is one of those of its type, a home visit being possible for
    the three therapies only. *)
Theorem appointment_fields_coherent client_id home_id created_by_id scheduled_at
    is_past w :
  returns (generate client_id home_id created_by_id scheduled_at is_past) w
    (λ a _,
       Appointment.clientId a = client_id
       ∧ Appointment.homeId a = home_id
       ∧ Appointment.createdById a = created_by_id
       ∧ Appointment.scheduledAt a = scheduled_at
       ∧ appointment_times a
       ∧ appointment_outcome is_past a
       ∧ Appointment.location a
           ∈ "Home visit"%string :: location_names (Appointment.appointmentType a)
       ∧ (Appointment.location a = "Home visit"%string →
          Appointment.appointmentType a
            ∈ ["PhysicalTherapy"; "OccupationalTherapy"; "SpeechTherapy"]%string)).
Proof. apply returns_appointment_generate. intros. done. Qed.

End AppointmentSpec.

Section Phase7Spec.

Import Generate.

Lemma of_date_days day k : DT.of_date day + DT.days k = DT.of_date (day + k).
Proof. unfold DT.of_date, DT.days. lia. Qed.

Lemma date_of_date day : DT.date (DT.of_date day) = day.
Proof. unfold DT.date, DT.of_date, DT.usec_per_day. by rewrite Z.div_mul. Qed.


(** An appointment time: the hour is one of 8..17 and the minute one of
    0, 15, 30, 45 of the day of [t]. *)
Lemma appointment_time_bounds t hour minute :
  8 ≤ hour ≤ 17 → minute ∈ [0; 15; 30; 45] →
  DT.of_date (DT.date t) + DT.hours 8 ≤ DT.replace_hms t hour minute
  ≤ DT.of_date (DT.date t) + DT.hours 17 + DT.minutes 45.
Proof.
  intros Hhour Hminute. unfold DT.replace_hms.
  assert (0 ≤ minute ≤ 45) as Hm.
  { repeat (apply elem_of_cons in Hminute as [->|Hminute]); [lia..|].
    by apply elem_of_nil in Hminute. }
  unfold DT.hours, DT.minutes, DT.usec_per_hour, DT.usec_per_minute. lia.
Qed.

Lemma returns_appointment_loop END_DATE (c : Client.t) home_caregivers first fuel :
  home_caregivers ≠ [] →
  ∀ day w (Q : list Appointment.t → World → Prop),
  fuel_suffices (discharge_or_end END_DATE c) 14 fuel (DT.of_date day) →
  first ≤ day →
  (∀ appointments w',
      Forall (λ a, (∃ i, Appointment.reminderSent a
                         = bool_decide (Appointment.scheduledAt a < clock w i))
                   ∧ appointment_times a
                   ∧ appointment_outcome (Appointment.reminderSent a) a
                   ∧ Appointment.clientId a = Client.id c
                   ∧ Appointment.homeId a = Client.homeId c
                   ∧ ∃ d, first ≤ d
                          ∧ DT.of_date d < discharge_or_end END_DATE c
                          ∧ DT.of_date d + DT.hours 8 ≤ Appointment.scheduledAt a
                            ≤ DT.of_date d + DT.hours 17 + DT.minutes 45)
             appointments →
      later w w' → Q appointments w') →
  returns (appointment_loop fuel (Client.id c) (Client.homeId c) (DT.of_date day)
             (discharge_or_end END_DATE c) home_caregivers) w Q.
Proof.
  intros Hcg. induction fuel as [|fuel IH]; intros day w Q Hfuel Hfirst HQ.
  { destruct Hfuel as [? _]. lia. }
  cbn [appointment_loop]. case_decide as Hlt;
    [|apply returns_ret, HQ; [done | solve_later]].
  apply returns_bind, returns_choice; [done|]. intros caregiver _.
  apply returns_bind, returns_randint; [done|]. intros hour Hhour.
  apply returns_bind, returns_choice; [done|]. intros minute Hminute.
  cbv zeta. apply returns_bind, returns_now.
  apply returns_bind, returns_appointment_generate.
  intros a w1 Hclient Hhome _ Hsched Htimes Houtcome _ _ Hl1.
  assert (Appointment.reminderSent a
          = bool_decide (Appointment.scheduledAt a < clock w (clock_pos w)))
    as Hpast.
  { destruct Houtcome as [-> _]. by rewrite Hsched. }
  pose proof Houtcome as [Hrem _]. rewrite <- Hrem in Houtcome. clear Hrem.
  apply returns_bind, returns_randint; [done|]. intros step Hstep.
  rewrite of_date_days.
  apply returns_bind, IH.
  - rewrite <- of_date_days. apply fuel_suffices_step; [lia | lia | done | done].
  - lia.
  - intros more w2 Hmore Hl2. apply returns_ret.
    assert (later w w1) as Hw1 by solve_later.
    apply HQ; [|solve_later].
    constructor.
    + split; [by eauto|]. split; [done|]. split; [done|].
      split; [done|]. split; [done|]. exists day. split; [done|]. split; [done|].
      rewrite Hsched.
      pose proof (appointment_time_bounds (DT.of_date day) hour minute Hhour
                    Hminute) as Hb.
      by rewrite date_of_date in Hb.
    + eapply Forall_impl; [exact Hmore|].
      intros x ([i Hi] & ? & ? & ? & ? & Hday).
      split; [|done].
      exists i. rewrite Hi. f_equal.
      assert (later w (drawn 1 w1)) as Hlw by solve_later.
      by rewrite (later_clock _ _ Hlw).
Qed.

(** X7: the first loop of Phase 7, every client's home having a caregiver:
    every appointment it makes is for one of the clients, on a day from
    the 7th after the admission to the day before the discharge (for a
    client without discharge date: to the last day that starts before
    [END_DATE]), between 08:00 and 17:45; it is marked past exactly when
    the instant it is scheduled at precedes the reading of the clock, and
    its status-dependent fields are those of [generate]. *)
Theorem past_appointments_in_residence END_DATE caregivers_by_home clients w :
  (∀ c, c ∈ clients →
     ∃ cs, caregivers_by_home !! Client.homeId c = Some cs ∧ cs ≠ []) →
  returns (past_appointments END_DATE caregivers_by_home clients) w
    (λ appointments _,
       Forall (λ a, (∃ i, Appointment.reminderSent a
                          = bool_decide (Appointment.scheduledAt a < clock w i))
                    ∧ appointment_times a
                    ∧ appointment_outcome (Appointment.reminderSent a) a
                    ∧ ∃ c, c ∈ clients ∧ past_appointment_of END_DATE c a)
              appointments).
Proof.
  intros Hstaffed.
  assert (∀ w0, later w w0 →
    returns (past_appointments END_DATE caregivers_by_home clients) w0
      (λ appointments w', later w w' ∧
         Forall (λ a, (∃ i, Appointment.reminderSent a
                            = bool_decide (Appointment.scheduledAt a < clock w i))
                      ∧ appointment_times a
                      ∧ appointment_outcome (Appointment.reminderSent a) a
                      ∧ ∃ c, c ∈ clients ∧ past_appointment_of END_DATE c a)
                appointments)) as H.
  { induction clients as [|c rest IH]; intros w0 Hl0; csimpl.
    - apply returns_ret. by split.
    - destruct (Hstaffed c) as (home_caregivers & Hc & Hne);
        [apply list_elem_of_here|].
      apply returns_bind. unfold client_appointments. cbv zeta. rewrite Hc.
      apply returns_bind, returns_ret.
      apply returns_bind, returns_randint; [done|]. intros offset Hoffset.
      rewrite of_date_days.
      apply (returns_appointment_loop END_DATE c home_caregivers
               (Client.admissionDate c + 7)); [done | | lia |].
      { rewrite <- of_date_days. apply fuel_suffices_iterations. lia. }
      intros made w1 Hmade Hl1.
      apply returns_bind.
      eapply returns_mono.
      { apply IH.
        - intros x Hx. apply Hstaffed. by apply list_elem_of_further.
        - solve_later. }
      intros more w2 [Hl2 Hmore]. apply returns_ret. split; [done|].
      apply Forall_app. split.
      + eapply Forall_impl; [exact Hmade|].
        intros a ([i Hi] & ? & ? & ? & ? & d & ? & ? & ?).
        split.
        { exists i. rewrite Hi. f_equal.
          assert (later w (drawn 1 w0)) as Hlw by solve_later.
          by rewrite (later_clock _ _ Hlw). }
        split; [done|]. split; [done|].
        exists c. split; [apply list_elem_of_here|].
        split; [done|]. split; [done|]. by exists d.
      + eapply Forall_impl; [exact Hmore|].
        intros a (? & ? & ? & x & Hx & ?).
        split; [done|]. split; [done|]. split; [done|].
        exists x. split; [by apply list_elem_of_further | done]. }
  eapply returns_mono; [apply H; reflexivity|]. by intros a w' [_ ?].
Qed.



End Phase7Spec.

Lemma past_appointments_in_residence_witness :
  (∀ c, c ∈ [Scenario.resident] →
     ∃ cs, Scenario.caregivers_by_home !! Client.homeId c = Some cs ∧ cs ≠ [])
  ∧ returns (Generate.past_appointments Scenario.END_DATE
               Scenario.caregivers_by_home [Scenario.resident])
      Scenario.all_threes
      (λ appointments _,
         Forall (λ a, (∃ i, Appointment.reminderSent a
                            = bool_decide (Appointment.scheduledAt a
                                           < clock Scenario.all_threes i))
                      ∧ appointment_times a
                      ∧ appointment_outcome (Appointment.reminderSent a) a
                      ∧ ∃ c, c ∈ [Scenario.resident]
                             ∧ past_appointment_of Scenario.END_DATE c a)
                appointments).
Proof.
  assert (∀ c, c ∈ [Scenario.resident] →
            ∃ cs, Scenario.caregivers_by_home !! Client.homeId c = Some cs
                  ∧ cs ≠ []) as H.
  { intros c ->%list_elem_of_singleton. by exists Scenario.caregivers. }
  split; [exact H|].
  exact (past_appointments_in_residence Scenario.END_DATE
           Scenario.caregivers_by_home [Scenario.resident] Scenario.all_threes H).
Defined.


(** The run of the second loop of Phase 7 for the resident of the scenario,
    every draw being the largest, makes one appointment, at 09:45 of the
    second day after the day of [END_DATE]. *)
Example upcoming_run_has_an_appointment :
  returns (Generate.upcoming_appointments Scenario.caregivers_by_home
             [Scenario.resident]) Scenario.all_top
    (λ appointments _,
       Appointment.scheduledAt <$> appointments
       = [DT.of_date (DT.date Scenario.END_DATE + 2) + DT.hours 9 + DT.minutes 45]).
Proof. by vm_compute. Qed.

(** ** Incident numbers: base 36 and the checksum *)

Section Base36More.

#[local] Arguments luhn_step : simpl never.
#[local] Arguments PyStr.index : simpl never.

Lemma base36_value_bound s :
  alnum36 s → 0 ≤ base36_value s < 36 ^ Z.of_nat (String.length s).
Proof.
  unfold alnum36, base36_value. rewrite <- chars_of_length.
  generalize (list_ascii_of_string s). clear s. intros l.
  induction l as [|c l IH] using rev_ind; intros Hl; [simpl; lia|].
  apply Forall_app in Hl as [Hl [[d Hd] _]%Forall_cons].
  rewrite fold_left_app, length_app. simpl. rewrite Hd. simpl.
  apply index_Some in Hd as [Hd _]. change (PyStr.len chars) with 36 in Hd.
  specialize (IH Hl).
  replace (Z.of_nat (length l + 1)) with (Z.of_nat (length l) + 1) by lia.
  rewrite Z.pow_add_r by lia. lia.
Qed.

Lemma to_base36_negative value : value < 0 → _to_base36 value = ""%string.
Proof.
  intros Hneg. unfold _to_base36. rewrite decide_False by lia.
  rewrite to_base36_loop_equation_1. by destruct (decide (value > 0)); [lia|].
Qed.

Lemma to_base36_digits value :
  0 ≤ value →
  alnum36 (_to_base36 value)
  ∧ base36_value (_to_base36 value) = value
  ∧ (1 ≤ String.length (_to_base36 value))%nat
  ∧ ∀ w, (0 < w)%nat →
         (String.length (_to_base36 value) ≤ w)%nat ↔ value < 36 ^ Z.of_nat w.
Proof.
  intros Hv.
  assert (alnum36 (_to_base36 value)
          ∧ base36_value (_to_base36 value) = value
          ∧ (1 ≤ String.length (_to_base36 value))%nat
          ∧ ∀ w, (0 < w)%nat → value < 36 ^ Z.of_nat w →
                 (String.length (_to_base36 value) ≤ w)%nat)
    as (Hal & Hval & Hlen & Hfit).
  { unfold _to_base36. case_decide as Hz.
    - subst value. split; [repeat constructor; by exists 0|].
      split; [done|]. split; [simpl; lia|]. intros w Hw _. simpl. lia.
    - destruct (to_base36_loop_spec value "") as (pre & Hrun & Hal & Hval & Hl).
      rewrite append_nil_r in Hrun. rewrite Hrun.
      split; [done|]. split; [by apply Hval|]. split; [|done].
      destruct pre; [|simpl; lia].
      specialize (Hval Hv). unfold base36_value in Hval. simpl in Hval. lia. }
  split; [done|]. split; [done|]. split; [done|].
  intros w Hw. split; [|by apply Hfit].
  intros Hle. pose proof (base36_value_bound _ Hal) as Hb. rewrite Hval in Hb.
  assert (36 ^ Z.of_nat (String.length (_to_base36 value)) ≤ 36 ^ Z.of_nat w);
    [|lia].
  apply Z.pow_le_mono_r; lia.
Qed.

(** X9: [_to_base36] writes a natural number in base 36 with the fewest
    digits: the numeral is over the alphabet [0-9A-Z], decodes to the
    number, has at least one digit, and has at most [w] digits exactly when
    the number is below [36^w]. *)
Theorem to_base36_round_trip value :
  0 ≤ value →
  alnum36 (_to_base36 value)
  ∧ base36_value (_to_base36 value) = value
  ∧ (1 ≤ String.length (_to_base36 value))%nat
  ∧ ∀ w, (0 < w)%nat →
         (String.length (_to_base36 value) ≤ w)%nat ↔ value < 36 ^ Z.of_nat w.
Proof. apply to_base36_digits. Qed.

Lemma to_base36_round_trip_witness :
  0 ≤ 46655
  ∧ alnum36 (_to_base36 46655)
  ∧ base36_value (_to_base36 46655) = 46655
  ∧ (1 ≤ String.length (_to_base36 46655))%nat
  ∧ ∀ w, (0 < w)%nat →
         (String.length (_to_base36 46655) ≤ w)%nat ↔ 46655 < 36 ^ Z.of_nat w.
Proof.
  assert (0 ≤ 46655) as H by lia.
  split; [exact H|]. exact (to_base36_round_trip 46655 H).
Defined.

Lemma upper_length s : String.length (PyStr.upper s) = String.length s.
Proof. induction s; simpl; congruence. Qed.

(** The width of a zero-padded field: the wider of the field and the
    numeral. *)
Lemma field_length v (w : nat) :
  (0 < w)%nat →
  String.length (PyStr.upper (PyStr.zfill (_to_base36 v) (Z.of_nat w)))
  = (w `max` String.length (_to_base36 v))%nat
  ∧ ((String.length (_to_base36 v) ≤ w)%nat ↔ v < 36 ^ Z.of_nat w).
Proof.
  intros Hw.
  assert (alnum36 (_to_base36 v)
          ∧ ((String.length (_to_base36 v) ≤ w)%nat ↔ v < 36 ^ Z.of_nat w))
    as [Hal Hfit].
  { destruct (decide (0 ≤ v)) as [Hv|Hv].
    - destruct (to_base36_digits v Hv) as (? & _ & _ & Hd). split; [done|].
      by apply Hd.
    - rewrite to_base36_negative by lia. split; [constructor|].
      simpl. split; [|lia]. intros _.
      assert (0 < 36 ^ Z.of_nat w) by (apply Z.pow_pos_nonneg; lia). lia. }
  split; [|done].
  rewrite upper_length, zfill_alnum36 by done.
  rewrite length_app_string, zeros_length. unfold PyStr.len. lia.
Qed.

(** X10: [_generate_incident_number] raises nothing, whatever the home
    sequence and the incident count: the number has 10 characters exactly
    when the home sequence is below [36^2] and the count below [36^4], and
    more than 10 otherwise (a field that overflows is written in full). *)
Theorem incident_number_overflow_widens self home_id incident_type
    incident_count :
  ∃ number,
    IncidentGenerator._generate_incident_number self home_id incident_type
      incident_count = Some number
    ∧ (10 ≤ String.length number)%nat
    ∧ (String.length number = 10%nat
       ↔ default 1 (IncidentGenerator.home_sequence_map self !! home_id) < 36 ^ 2
         ∧ incident_count < 36 ^ 4).
Proof.
  destruct (incident_number_shape self home_id incident_type incident_count)
    as (chk & Hnum & _ & _).
  cbv zeta in Hnum. eexists. split; [exact Hnum|].
  rewrite !length_app_string.
  destruct (type_code_shape incident_type) as [_ ->].
  destruct (field_length
              (default 1 (IncidentGenerator.home_sequence_map self !! home_id)) 2)
    as [Hl2 Hf2]; [lia|].
  destruct (field_length incident_count 4) as [Hl4 Hf4]; [lia|].
  change (Z.of_nat 2) with 2 in *. change (Z.of_nat 4) with 4 in *.
  rewrite Hl2, Hl4. simpl String.length.
  split; [lia|]. rewrite <- Hf2, <- Hf4. lia.
Qed.

End Base36More.

Section ChecksumMore.

#[local] Arguments luhn_step : simpl never.
#[local] Arguments PyStr.index : simpl never.

Lemma luhn_loop_defined l st :
  is_Some (luhn_loop l st)
  ↔ Forall (λ c, is_Some (PyStr.index chars (PyStr.upper_char c))) l.
Proof.
  revert st; induction l as [|c l IH]; intros [s f]; simpl.
  - split; [constructor | by eauto].
  - rewrite luhn_step_eq, Forall_cons.
    destruct (PyStr.index chars (PyStr.upper_char c)) as [d|]; simpl.
    + rewrite IH. split; [by split; eauto | by intros [_ ?]].
    + split; [by intros [? ?] | by intros [[? ?] _]].
Qed.

Lemma upper_in_alphabet (c : ascii) :
  bool_decide (is_Some (PyStr.index chars (PyStr.upper_char c))) = ascii_alnum c.
Proof. destruct c as [[] [] [] [] [] [] [] []]; by vm_compute. Qed.

(** X11: on a text of characters with code points 0 to 255,
    [_calculate_luhn_mod36_checksum] returns a check character exactly
    when every character is one of [0-9], [A-Z], [a-z]; any other such
    character makes [chars.index] raise.  The character returned is one of
    the alphabet [0-9A-Z], and the checksum of the empty text is [0]. *)
Theorem checksum_defined_on_alphanumerics input_str :
  (is_Some (_calculate_luhn_mod36_checksum input_str)
   ↔ Forall (λ c, ascii_alnum c = true) (list_ascii_of_string input_str))
  ∧ (∀ chk, _calculate_luhn_mod36_checksum input_str = Some chk →
            is_Some (PyStr.index chars chk))
  ∧ _calculate_luhn_mod36_checksum "" = Some "0"%char.
Proof.
  split; [|split; [|done]].
  - unfold _calculate_luhn_mod36_checksum.
    rewrite <- Forall_reverse.
    assert (∀ l, Forall (λ c, ascii_alnum c = true) l
                 ↔ Forall (λ c, is_Some (PyStr.index chars (PyStr.upper_char c))) l)
      as Halnum.
    { intros l. apply Forall_iff. intros c.
      rewrite <- upper_in_alphabet. apply bool_decide_eq_true. }
    rewrite Halnum, <- (luhn_loop_defined _ (0, 2)).
    destruct (luhn_loop _ _) as [st|]; simpl; [|by split; intros [? ?]].
    assert (0 ≤ (36 - st.1 `mod` 36) `mod` 36 < 36) as Hr
      by (apply Z.mod_pos_bound; lia).
    destruct (at_index_chars _ Hr) as (c & -> & _). split; eauto.
  - intros chk. unfold _calculate_luhn_mod36_checksum.
    destruct (luhn_loop _ _) as [st|]; simpl; [|done].
    assert (0 ≤ (36 - st.1 `mod` 36) `mod` 36 < 36) as Hr
      by (apply Z.mod_pos_bound; lia).
    destruct (at_index_chars _ Hr) as (c & Hc & Hidx & _).
    rewrite Hc. intros [= <-]. eauto.
Qed.

Lemma swap_unseen_table :
  forallb (λ x, forallb (λ y,
     bool_decide (swap_unseen x y
                  = bool_decide (x = y ∨ (x = 0 ∧ y = 35) ∨ (x = 35 ∧ y = 0))))
     (seqZ 0 36)) (seqZ 0 36) = true.
Proof. by vm_compute. Qed.

Lemma swap_unseen_spec x y :
  0 ≤ x < 36 → 0 ≤ y < 36 →
  (addend 1 x + addend 2 y) mod 36 = (addend 1 y + addend 2 x) mod 36
  ↔ x = y ∨ (x = 0 ∧ y = 35) ∨ (x = 35 ∧ y = 0).
Proof.
  intros Hx Hy. pose proof swap_unseen_table as Htable.
  rewrite forallb_forall in Htable.
  assert (In x (seqZ 0 36)) as Hinx.
  { apply list_elem_of_In, elem_of_seqZ. lia. }
  specialize (Htable x Hinx). rewrite forallb_forall in Htable.
  assert (In y (seqZ 0 36)) as Hiny.
  { apply list_elem_of_In, elem_of_seqZ. lia. }
  specialize (Htable y Hiny). apply bool_decide_eq_true in Htable.
  unfold swap_unseen in Htable.
  rewrite <- (bool_decide_eq_true (_ = _)), Htable.
  apply bool_decide_eq_true.
Qed.

(** X12: the Luhn mod-36 checksum and transposition errors: swapping two
    adjacent characters of a text whose checksum is defined leaves the check
    character unchanged exactly when the two stand for the same symbol, or
    are the symbols [0] and [Z]; every other adjacent transposition changes
    the check character. *)
Theorem checksum_detects_adjacent_transposition (P1 P2 : list ascii)
    (a b chk : ascii) (da db : Z) :
  _calculate_luhn_mod36_checksum (string_of_list_ascii (P1 ++ a :: b :: P2))
    = Some chk →
  PyStr.index chars (PyStr.upper_char a) = Some da →
  PyStr.index chars (PyStr.upper_char b) = Some db →
  _calculate_luhn_mod36_checksum (string_of_list_ascii (P1 ++ b :: a :: P2))
    = Some chk
  ↔ da = db ∨ (da = 0 ∧ db = 35) ∨ (da = 35 ∧ db = 0).
Proof.
  unfold _calculate_luhn_mod36_checksum.
  rewrite !list_ascii_of_string_of_list_ascii, !reverse_app, !reverse_cons,
    <- !app_assoc.
  simpl. rewrite !luhn_loop_app.
  destruct (luhn_loop (reverse P2) (0, 2)) as [[s1 f1]|] eqn:E1; simpl; [|done].
  assert (f1 = 1 ∨ f1 = 2) as Hf1 by (eapply luhn_loop_factor; [|exact E1]; auto).
  intros Hchk Ha Hb. revert Hchk.
  rewrite !luhn_step_eq, Ha, Hb. simpl. rewrite !luhn_step_eq, Ha, Hb. simpl.
  rewrite (luhn_loop_shift (reverse P1) (s1 + addend f1 db + addend (flip f1) da)),
          (luhn_loop_shift (reverse P1) (s1 + addend f1 da + addend (flip f1) db)).
  destruct (luhn_loop (reverse P1) (0, flip (flip f1))) as [[s2 f2]|]; simpl; [|done].
  intros Hchk.
  apply index_Some in Ha as [Hda _], Hb as [Hdb _].
  change (PyStr.len chars) with 36 in *.
  assert ((s1 + addend f1 da + addend (flip f1) db + s2) mod 36
          = (s1 + addend f1 db + addend (flip f1) da + s2) mod 36
          ↔ da = db ∨ (da = 0 ∧ db = 35) ∨ (da = 35 ∧ db = 0)) as Hsum.
  { rewrite <- (swap_unseen_spec da db Hda Hdb).
    assert (∀ u v, (s1 + u + s2) mod 36 = (s1 + v + s2) mod 36
                   ↔ u mod 36 = v mod 36) as Hcancel.
    { intros u v. split; intros H.
      - replace u with ((s1 + u + s2) - (s1 + s2)) by lia.
        replace v with ((s1 + v + s2) - (s1 + s2)) by lia.
        by rewrite Zminus_mod, H, <- Zminus_mod.
      - replace (s1 + u + s2) with (u + (s1 + s2)) by lia.
        replace (s1 + v + s2) with (v + (s1 + s2)) by lia.
        by rewrite Zplus_mod, H, <- Zplus_mod. }
    replace (s1 + addend f1 da + addend (flip f1) db + s2)
      with (s1 + (addend f1 da + addend (flip f1) db) + s2) by lia.
    replace (s1 + addend f1 db + addend (flip f1) da + s2)
      with (s1 + (addend f1 db + addend (flip f1) da) + s2) by lia.
    rewrite Hcancel.
    destruct Hf1 as [-> | ->]; unfold flip; simpl.
    - done.
    - split; intros H.
      + replace (addend 1 da + addend 2 db) with (addend 2 db + addend 1 da) by lia.
        replace (addend 1 db + addend 2 da) with (addend 2 da + addend 1 db) by lia.
        done.
      + replace (addend 2 da + addend 1 db) with (addend 1 db + addend 2 da) by lia.
        replace (addend 2 db + addend 1 da) with (addend 1 da + addend 2 db) by lia.
        done. }
  rewrite <- Hsum. split.
  - intros Hchk'. eapply check_code_point_inj; eauto.
  - intros Hmod. by rewrite Hmod.
Qed.

Lemma checksum_detects_adjacent_transposition_witness :
  let P1 := list_ascii_of_string "FIR01" in
  let P2 := list_ascii_of_string "03" in
  _calculate_luhn_mod36_checksum
    (string_of_list_ascii (P1 ++ "0"%char :: "Z"%char :: P2)) = Some "Y"%char
  ∧ PyStr.index chars (PyStr.upper_char "0") = Some 0
  ∧ PyStr.index chars (PyStr.upper_char "Z") = Some 35
  ∧ (_calculate_luhn_mod36_checksum
       (string_of_list_ascii (P1 ++ "Z"%char :: "0"%char :: P2)) = Some "Y"%char
     ↔ 0 = 35 ∨ (0 = 0 ∧ 35 = 35) ∨ (0 = 35 ∧ 35 = 0)).
Proof.
  intros P1 P2.
  assert (_calculate_luhn_mod36_checksum
            (string_of_list_ascii (P1 ++ "0"%char :: "Z"%char :: P2))
          = Some "Y"%char) as H1 by reflexivity.
  assert (PyStr.index chars (PyStr.upper_char "0") = Some 0) as H2 by reflexivity.
  assert (PyStr.index chars (PyStr.upper_char "Z") = Some 35) as H3 by reflexivity.
  split; [exact H1|]. split; [exact H2|]. split; [exact H3|].
  exact (checksum_detects_adjacent_transposition P1 P2 "0" "Z" "Y" 0 35 H1 H2 H3).
Defined.

End ChecksumMore.

(** ** Bed allocation and the keys of the occupancy dictionary *)

Section Allocation.

Import Generate.

Variable END_DATE : Z.

Lemma covers_covering date iv :
  covers END_DATE date iv = true ↔ covering END_DATE date iv.
Proof.
  destruct iv as [[start end_] client_id]. unfold covers, covering. simpl.
  rewrite andb_true_iff, !bool_decide_eq_true. done.
Qed.

(** X13: [find_available_bed] is a first-fit search: it returns the first bed,
    in the order of the dictionary, none of whose intervals covers [date]
    (a bed without intervals is such a bed; so is a bed whose intervals all
    start after [date]); it returns [None] exactly when every bed has an
    interval that covers [date]. *)
Theorem find_available_bed_first_fit (bed_occupancy : occupancy) (date : Z) :
  match find_available_bed END_DATE bed_occupancy date with
  | Some bed_id =>
      ∃ before occ after,
        bed_occupancy = before ++ (bed_id, occ) :: after
        ∧ Forall (λ iv, ¬ covering END_DATE date iv) occ
        ∧ Forall (λ kv, Exists (covering END_DATE date) kv.2) before
  | None => Forall (λ kv, Exists (covering END_DATE date) kv.2) bed_occupancy
  end.
Proof.
  induction bed_occupancy as [|[bed occ] rest IH]; csimpl; [done|].
  destruct (forallb (λ iv, negb (covers END_DATE date iv)) occ) eqn:Hfree.
  - exists [], occ, rest. split; [done|]. split; [|done].
    apply Forall_forall. intros iv Hiv.
    rewrite forallb_forall in Hfree.
    specialize (Hfree iv (proj1 (list_elem_of_In _ _) Hiv)).
    rewrite <- covers_covering. by destruct (covers END_DATE date iv).
  - assert (Exists (covering END_DATE date) occ) as Hbusy.
    { apply not_true_iff_false in Hfree.
      destruct (decide (Exists (λ iv, covers END_DATE date iv = true) occ))
        as [Hex|Hnone].
      - eapply Exists_impl; [exact Hex|]. intros iv. apply covers_covering.
      - exfalso. apply Hfree. apply forallb_forall. intros iv Hiv.
        apply list_elem_of_In in Hiv.
        destruct (covers END_DATE date iv) eqn:Hc; [|done].
        exfalso. apply Hnone. apply Exists_exists. by exists iv. }
    destruct (find_available_bed END_DATE rest date) as [bed_id|].
    + destruct IH as (before & occ' & after & -> & Hocc & Hbefore).
      exists ((bed, occ) :: before), occ', after. split; [done|]. split; [done|].
      by constructor.
    + by constructor.
Qed.

Lemma dict_set_keys k v (d : occupancy) : (dict_set k v d).*1 ⊆ k :: d.*1.
Proof.
  induction d as [|[k' v'] d IH]; csimpl; [set_solver|].
  case_decide; csimpl; set_solver.
Qed.

Lemma empty_occupancy_keys (home_beds : list Bed.t) :
  (empty_occupancy home_beds).*1 ⊆ Bed.id <$> home_beds.
Proof.
  unfold empty_occupancy.
  assert (∀ d : occupancy,
            (fold_left (λ d bed, dict_set (Bed.id bed) [] d) home_beds d).*1
            ⊆ d.*1 ++ (Bed.id <$> home_beds)) as H.
  { induction home_beds as [|bed rest IH]; intros d; csimpl.
    - by rewrite app_nil_r.
    - etransitivity; [apply IH|].
      pose proof (dict_set_keys (Bed.id bed) [] d). set_solver. }
  specialize (H []). by simpl in H.
Qed.

End Allocation.

Section Keys.

Import Generate.

Variable END_DATE : Z.

Lemma keys_hazard_bed current_date occ :
  ∀ clients w (Q : list interval * list Client.t → World → Prop),
  (∀ r w', Q r w') → returns (hazard_bed current_date occ clients) w Q.
Proof.
  induction occ as [|[[start end_] client_id] rest IH]; intros clients w Q HQ;
    csimpl.
  - by apply returns_ret.
  - apply returns_bind.
    apply (returns_mono _ _ (λ _ _, True)).
    { destruct end_; [by apply returns_ret|].
      case_decide; [|by apply returns_ret].
      apply returns_bind, returns_random. intros u.
      destruct (negb _); [|by apply returns_ret].
      apply returns_bind, returns_discharge_first. intros. by apply returns_ret. }
    intros [iv clients1] w1 _. apply returns_bind, IH.
    intros [rest1 clients2] w2. by apply returns_ret.
Qed.

Lemma keys_hazard_discharges current_date (d : occupancy) :
  ∀ clients w (Q : occupancy * list Client.t → World → Prop),
  (∀ d' clients' w', d'.*1 = d.*1 → Q (d', clients') w') →
  returns (hazard_discharges current_date d clients) w Q.
Proof.
  induction d as [|[bed occ] rest IH]; intros clients w Q HQ; csimpl.
  - by apply returns_ret, HQ.
  - apply returns_bind, keys_hazard_bed. intros [occ' clients1] w1.
    apply returns_bind, IH. intros d' clients2 w2 Hkeys.
    apply returns_ret, HQ. csimpl. by rewrite Hkeys.
Qed.

Lemma keys_admit_initial n h home_open home_caregivers :
  home_caregivers ≠ [] →
  ∀ clients (d : occupancy) w (Q : list Client.t * occupancy → World → Prop),
  (∀ clients' d' w', d'.*1 = d.*1 → Q (clients', d') w') →
  returns (admit_initial END_DATE n h home_open home_caregivers clients d) w Q.
Proof.
  intros Hcg. induction n as [|n IH]; intros clients d w Q HQ; csimpl.
  - by apply returns_ret, HQ.
  - apply returns_bind, returns_randint; [done|]. intros offset _.
    apply returns_bind.
    destruct (find_available_bed END_DATE d (home_open + DT.days offset)) as [bed|].
    + apply returns_bind, returns_choice; [done|]. intros caregiver _.
      apply returns_bind, returns_client_generate. intros c w' _ _ _ _ _ _ _ _.
      apply returns_ret. apply IH. intros clients' d' w'' Hkeys.
      apply HQ. by rewrite Hkeys, occupancy_append_keys.
    + apply returns_ret. by apply IH.
Qed.

Lemma keys_admit_gradual h current_date home_beds home_caregivers clients
    (d : occupancy) w (Q : list Client.t * occupancy → World → Prop) :
  home_caregivers ≠ [] →
  (∀ clients' d' w', d'.*1 = d.*1 → Q (clients', d') w') →
  returns (admit_gradual END_DATE h current_date home_beds home_caregivers
             clients d) w Q.
Proof.
  intros Hcg HQ. unfold admit_gradual. cbv zeta.
  apply returns_bind.
  apply (returns_mono _ _ (λ _ _, True)).
  { case_decide.
    - apply returns_bind, returns_random. intros u. by apply returns_ret.
    - by apply returns_ret. }
  intros [|] w1 _; [|by apply returns_ret, HQ].
  destruct (find_available_bed END_DATE d current_date) as [bed|];
    [|by apply returns_ret, HQ].
  apply returns_bind, returns_choice; [done|]. intros caregiver _.
  apply returns_bind, returns_randint; [done|]. intros stay _.
  apply returns_bind.
  apply (returns_mono _ _ (λ _ _, True)).
  { case_decide.
    - apply returns_bind, returns_random. intros u. by apply returns_ret.
    - by apply returns_ret. }
  intros is_discharged w2 _.
  apply returns_bind, returns_client_generate. intros c w' _ _ _ _ _ _ _ _.
  apply returns_ret, HQ. apply occupancy_append_keys.
Qed.

Lemma keys_fill_loop h home_beds home_caregivers fuel :
  home_caregivers ≠ [] →
  ∀ current_date clients (d : occupancy) w
    (Q : list Client.t * occupancy → World → Prop),
  fuel_suffices END_DATE 7 fuel current_date →
  (∀ clients' d' w', d'.*1 = d.*1 → Q (clients', d') w') →
  returns (fill_loop END_DATE fuel h current_date home_beds home_caregivers
             clients d) w Q.
Proof.
  intros Hcg. induction fuel as [|fuel IH];
    intros current_date clients d w Q Hfuel HQ.
  { destruct Hfuel as [? _]. lia. }
  csimpl. case_decide as Hlt; [|by apply returns_ret, HQ].
  apply returns_bind, keys_admit_gradual; [done|].
  intros clients1 d1 w1 Hk1.
  apply returns_bind, keys_hazard_discharges. intros d2 clients2 w2 Hk2.
  apply returns_bind, returns_randint; [done|]. intros step Hstep.
  apply IH.
  - apply fuel_suffices_step; [lia | lia | done | done].
  - intros clients' d' w' Hk. apply HQ. congruence.
Qed.

Lemma keys_phase3_loop beds_by_home caregivers_by_home homes :
  (∀ home, home ∈ homes → is_Some (beds_by_home !! Home.id home)) →
  (∀ home, home ∈ homes →
     ∃ cs, caregivers_by_home !! Home.id home = Some cs ∧ cs ≠ []) →
  ∀ clients w,
  returns (phase3_loop END_DATE beds_by_home caregivers_by_home homes clients) w
    (λ '(_, ledgers) _,
       Forall2 (λ home (ledger : occupancy),
                  ∃ beds, beds_by_home !! Home.id home = Some beds
                          ∧ ledger.*1 ⊆ Bed.id <$> beds) homes ledgers).
Proof.
  induction homes as [|home rest IH]; intros Hbeds Hcgs clients w; csimpl.
  - apply returns_ret. constructor.
  - destruct (Hbeds home) as [home_beds Hb]; [apply list_elem_of_here|].
    destruct (Hcgs home) as (home_caregivers & Hc & Hne); [apply list_elem_of_here|].
    apply returns_bind. unfold phase3_home. cbv zeta. rewrite Hb, Hc.
    apply returns_bind, returns_ret. apply returns_bind, returns_ret.
    apply returns_bind, returns_randint; [done|]. intros initial_clients _.
    apply returns_bind, keys_admit_initial; [done|].
    intros clients1 d1 w1 Hk1.
    apply keys_fill_loop; [done | apply fuel_suffices_iterations; lia |].
    intros clients2 d2 w2 Hk2. apply returns_bind.
    eapply returns_mono.
    { apply IH.
      - intros x Hx. apply Hbeds. by apply list_elem_of_further.
      - intros x Hx. apply Hcgs. by apply list_elem_of_further. }
    intros [clients3 ledgers] w3 Hall. apply returns_ret. constructor; [|done].
    exists home_beds. split; [done|]. rewrite Hk2, Hk1. apply empty_occupancy_keys.
Qed.

(** X14: Phase 3, every home having its beds and a caregiver and [uuid4] never
    returning an identifier twice: the identifiers of the clients are
    pairwise distinct, and every client refers to one of the homes and to
    one of the beds of that home. *)
Theorem phase3_clients_refer_to_beds beds_by_home caregivers_by_home homes w :
  (∀ home, home ∈ homes → is_Some (beds_by_home !! Home.id home)) →
  (∀ home, home ∈ homes →
     ∃ cs, caregivers_by_home !! Home.id home = Some cs ∧ cs ≠ []) →
  Inj (=) (=) (urandom w) →
  returns (phase3 END_DATE beds_by_home caregivers_by_home homes) w
    (λ '(clients, _) _,
       NoDup (Client.id <$> clients)
       ∧ ∀ c, c ∈ clients →
           ∃ home beds bed,
             home ∈ homes ∧ Client.homeId c = Home.id home
             ∧ beds_by_home !! Home.id home = Some beds
             ∧ bed ∈ beds ∧ Client.bedId c = Bed.id bed).
Proof.
  intros Hbeds Hcgs Hinj. unfold phase3.
  eapply returns_mono.
  { apply returns_conj.
    - apply (returns_phase3_loop END_DATE beds_by_home caregivers_by_home homes
               Hbeds Hcgs [] w (λ r w', phase3_post [] homes r.1 r.2 w'));
        [done | constructor | by intros ? ?%elem_of_nil |].
      by intros clients ledgers w' Hpost _.
    - by apply keys_phase3_loop. }
  intros [clients ledgers] w' [Hpost Hkeys]. simpl in Hpost.
  pose proof Hpost as (new & Hnew & Hnd & _ & _ & Htracked & Hcovered).
  simpl in Hnew. subst new. split; [done|].
  intros c Hc.
  destruct (Hcovered c Hc) as (k & ledger & bed_id & iv & Hk & Hin & Hid).
  destruct (Forall2_lookup_r _ _ _ _ _ Htracked Hk) as (home & Hhome & Htr).
  destruct (Forall2_lookup_lr _ _ _ _ _ _ Hkeys Hhome Hk) as (beds & Hbedsk & Hsub).
  destruct (Htr bed_id iv Hin) as (c' & Hc' & Hh' & Hb' & Hcoh).
  assert (c' = c) as ->.
  { apply (client_by_id clients); try done. destruct Hcoh as [<- _]. done. }
  assert (bed_id ∈ ledger.*1) as Hkey.
  { apply elem_of_flat in Hin as (occ & Hocc & _).
    by apply (list_elem_of_fmap_2 fst _ (bed_id, occ)). }
  apply Hsub, list_elem_of_fmap in Hkey as (bed & Hbed & Hbedin).
  exists home, beds, bed. split; [by eapply list_elem_of_lookup_2|].
  split; [done|]. split; [done|]. split; [done|]. congruence.
Qed.

End Keys.

Lemma phase3_clients_refer_to_beds_witness :
  (∀ home, home ∈ [Scenario.home] →
     is_Some (Scenario.beds_by_home !! Home.id home))
  ∧ (∀ home, home ∈ [Scenario.home] →
       ∃ cs, Scenario.caregivers_by_home !! Home.id home = Some cs ∧ cs ≠ [])
  ∧ Inj (=) (=) (urandom Scenario.two_initial_clients)
  ∧ returns (Generate.phase3 Scenario.END_DATE Scenario.beds_by_home
               Scenario.caregivers_by_home [Scenario.home])
      Scenario.two_initial_clients
      (λ '(clients, _) _,
         NoDup (Client.id <$> clients)
         ∧ ∀ c, c ∈ clients →
             ∃ home beds bed,
               home ∈ [Scenario.home] ∧ Client.homeId c = Home.id home
               ∧ Scenario.beds_by_home !! Home.id home = Some beds
               ∧ bed ∈ beds ∧ Client.bedId c = Bed.id bed).
Proof.
  assert (∀ home, home ∈ [Scenario.home] →
            is_Some (Scenario.beds_by_home !! Home.id home)) as H1.
  { intros home ->%list_elem_of_singleton. by exists Scenario.beds. }
  assert (∀ home, home ∈ [Scenario.home] →
            ∃ cs, Scenario.caregivers_by_home !! Home.id home = Some cs ∧ cs ≠ [])
    as H2.
  { intros home ->%list_elem_of_singleton. by exists Scenario.caregivers. }
  assert (Inj (=) (=) (urandom Scenario.two_initial_clients)) as H3.
  { intros i j Hij. simpl in Hij. lia. }
  split; [exact H1|]. split; [exact H2|]. split; [exact H3|].
  exact (phase3_clients_refer_to_beds Scenario.END_DATE Scenario.beds_by_home
           Scenario.caregivers_by_home [Scenario.home]
           Scenario.two_initial_clients H1 H2 H3).
Defined.

(** ** [HomeGenerator] *)

Section Homes.

Import HomeGenerator.

Lemma returns_beds_loop home n :
  ∀ i w (Q : list Bed.t → World → Prop),
  (∀ beds w',
      Bed.label <$> beds
        = (λ k, "Room " +:+ pretty (k + 1)) <$> seqZ i (Z.of_nat n) →
      Bed.id <$> beds = (λ k, urandom w (urandom_pos w + k)%nat) <$> seq 0 n →
      Forall (λ bed, Bed.homeId bed = Home.id home
                     ∧ Bed.createdAt bed = Home.createdAt home
                     ∧ Bed.status bed = "Available"%string
                     ∧ Bed.isActive bed = true) beds →
      later w w' →
      Q beds w') →
  returns (beds_loop home i n) w Q.
Proof.
  induction n as [|n IH]; intros i w Q HQ; csimpl.
  - apply returns_ret. by apply HQ.
  - apply returns_bind, returns_uuid4. apply returns_bind, IH.
    intros beds w' Hlabels Hids Hall Hl. apply returns_ret.
    apply HQ; [| | by constructor | solve_later].
    + csimpl. rewrite Hlabels.
      replace (Z.of_nat (S n)) with (Z.succ (Z.of_nat n)) by lia.
      rewrite (seqZ_cons i) by lia. csimpl. do 3 f_equal; lia.
    + csimpl. rewrite Hids. f_equal; [f_equal; lia|].
      rewrite <- fmap_S_seq, <- list_fmap_compose.
      apply list_fmap_ext. intros _ k _. simpl. f_equal. lia.
Qed.

(** X15: [generate_beds] makes one bed for each unit of the capacity of the
    home (none when the capacity is not positive): the beds are labelled
    [Room 1], [Room 2], ... in order, so no two have the same label; each
    carries the identifier and the creation instant of the home and is
    [Available]; their identifiers are the next values of [uuid4]. *)
Theorem beds_labelled_in_order home w :
  returns (generate_beds home) w
    (λ beds w',
       length beds = Z.to_nat (Home.capacity home)
       ∧ Bed.label <$> beds
         = (λ k, "Room " +:+ pretty (k + 1))
             <$> seqZ 0 (Z.of_nat (Z.to_nat (Home.capacity home)))
       ∧ NoDup (Bed.label <$> beds)
       ∧ Bed.id <$> beds
         = (λ k, urandom w (urandom_pos w + k)%nat)
             <$> seq 0 (Z.to_nat (Home.capacity home))
       ∧ Forall (λ bed, Bed.homeId bed = Home.id home
                        ∧ Bed.createdAt bed = Home.createdAt home
                        ∧ Bed.status bed = "Available"%string
                        ∧ Bed.isActive bed = true) beds).
Proof.
  unfold generate_beds. apply returns_beds_loop. intros beds w' Hlabels Hids Hall _.
  split; [|split; [done|split; [|done]]].
  - rewrite <- (length_fmap Bed.id), Hids, length_fmap. apply length_seq.
  - rewrite Hlabels. apply NoDup_fmap_2; [|apply NoDup_seqZ].
    intros a b Hab.
    assert (pretty (a + 1) = pretty (b + 1)) as Hp.
    { apply chars_of_inj. apply (f_equal list_ascii_of_string) in Hab.
      rewrite !chars_of_app in Hab. by apply app_inv_head in Hab. }
    apply pretty_Z_inj in Hp. lia.
Qed.

Lemma returns_or_loops_bind {A B} (m : M A) (f : A → M B) w
    (Q : B → World → Prop) :
  returns_or_loops m w (λ a w', returns_or_loops (f a) w' Q) →
  returns_or_loops (m ≫= f) w Q.
Proof. unfold returns_or_loops, mbind, M_bind. by destruct (m w). Qed.

Lemma returns_returns_or_loops {A} (m : M A) w (Q : A → World → Prop) :
  returns m w Q → returns_or_loops m w Q.
Proof. unfold returns, returns_or_loops. by destruct (m w). Qed.

Lemma unique_name_spec fuel used :
  ∀ w (Q : string → World → Prop),
  (∀ prefix suffix w',
      prefix ∈ HOME_NAME_PREFIXES → suffix ∈ HOME_NAME_SUFFIXES →
      prefix +:+ " " +:+ suffix ∉ used → later w w' →
      Q (prefix +:+ " " +:+ suffix) w') →
  returns_or_loops (unique_name fuel used) w Q.
Proof.
  induction fuel as [|fuel IH]; intros w Q HQ; [done|].
  cbn [unique_name].
  apply returns_or_loops_bind, returns_returns_or_loops, returns_choice; [done|].
  intros prefix Hprefix.
  apply returns_or_loops_bind, returns_returns_or_loops, returns_choice; [done|].
  intros suffix Hsuffix. cbv zeta.
  case_decide as Hfresh.
  - apply returns_returns_or_loops, returns_ret, HQ; try done. solve_later.
  - apply IH. intros p s w' Hp Hs Hf Hl. apply HQ; try done. solve_later.
Qed.

(** X16: [HomeGenerator.generate] never gives a name twice: whenever it
    returns, the name of the home is a prefix and a suffix of the two
    tables, was not among the names used so far, and is recorded as used;
    the capacity is 4, 5 or 6 and the home is created at [open_date] by
    [created_by_id].  It raises no exception: the only other outcome is
    that its loop goes on drawing names. *)
Theorem home_names_never_repeat fuel self open_date created_by_id w :
  returns_or_loops (generate fuel self open_date created_by_id) w
    (λ '(home, self') _,
       Home.name home ∉ used_names self
       ∧ (∃ prefix suffix, prefix ∈ HOME_NAME_PREFIXES
                           ∧ suffix ∈ HOME_NAME_SUFFIXES
                           ∧ Home.name home = prefix +:+ " " +:+ suffix)
       ∧ used_names self' = {[Home.name home]} ∪ used_names self
       ∧ Home.capacity home ∈ [4; 5; 6]
       ∧ Home.isActive home = true
       ∧ Home.createdAt home = open_date
       ∧ Home.createdById home = created_by_id).
Proof.
  unfold generate.
  apply returns_or_loops_bind, unique_name_spec.
  intros prefix suffix w1 Hprefix Hsuffix Hfresh _. cbv zeta.
  apply returns_returns_or_loops.
  apply returns_bind, returns_choice; [done|]. intros location _.
  apply returns_bind, returns_choice; [done|]. intros capacity Hcapacity.
  apply returns_bind, returns_uuid4.
  apply returns_bind, returns_faker. intros address.
  apply returns_bind, returns_randint; [done|]. intros zip_suffix _.
  apply returns_bind, returns_faker. intros phone.
  apply returns_ret. simpl. split; [done|]. split; [by eauto|]. done.
Qed.

Lemma every_home_name_used prefix suffix :
  prefix ∈ HOME_NAME_PREFIXES → suffix ∈ HOME_NAME_SUFFIXES →
  prefix +:+ " " +:+ suffix ∈ Scenario.every_home_name.
Proof.
  intros Hp Hs. unfold Scenario.every_home_name.
  apply elem_of_list_to_set, list_elem_of_bind. exists prefix. split; [|done].
  apply list_elem_of_bind. exists suffix. split; [|done]. apply list_elem_of_here.
Qed.

(** X17: when every name that can be built from the two tables (15 prefixes
    and 5 suffixes) is in use, [HomeGenerator.generate] never returns: its
    loop draws names for ever, whatever the generators give. *)
Theorem home_names_run_out fuel self open_date created_by_id w :
  (∀ prefix suffix,
     prefix ∈ HOME_NAME_PREFIXES → suffix ∈ HOME_NAME_SUFFIXES →
     prefix +:+ " " +:+ suffix ∈ used_names self) →
  generate fuel self open_date created_by_id w = Raise OutOfFuel.
Proof.
  intros Hused.
  unfold generate. unfold mbind, M_bind at 1.
  pose proof (unique_name_spec fuel (used_names self) w (λ _ _, False)) as Hname.
  unfold returns_or_loops in Hname.
  destruct (unique_name fuel (used_names self) w) as [name w1|e].
  - exfalso. apply Hname. intros prefix suffix w' Hp Hs Hfresh _.
    apply Hfresh. by apply Hused.
  - f_equal. apply Hname. intros prefix suffix w' Hp Hs Hfresh _.
    apply Hfresh. by apply Hused.
Qed.

End Homes.

Lemma home_names_run_out_witness :
  (∀ prefix suffix,
     prefix ∈ HOME_NAME_PREFIXES → suffix ∈ HOME_NAME_SUFFIXES →
     prefix +:+ " " +:+ suffix ∈ HomeGenerator.used_names Scenario.exhausted)
  ∧ HomeGenerator.generate 1000 Scenario.exhausted Scenario.home_open (Some 1)
      Scenario.all_threes = Raise OutOfFuel.
Proof.
  assert (∀ prefix suffix,
     prefix ∈ HOME_NAME_PREFIXES → suffix ∈ HOME_NAME_SUFFIXES →
     prefix +:+ " " +:+ suffix ∈ HomeGenerator.used_names Scenario.exhausted)
    as H by exact every_home_name_used.
  split; [exact H|].
  exact (home_names_run_out 1000 Scenario.exhausted Scenario.home_open (Some 1)
           Scenario.all_threes H).
Defined.

(** * User accounts and the staffing of the homes *)

Section Addresses.

Lemma append_length (s t : string) :
  String.length (s +:+ t) = (String.length s + String.length t)%nat.
Proof. induction s as [|c s IH]; [done|].
  change (S (String.length (s +:+ t)) = S (String.length s + String.length t)).
  by rewrite IH.
Qed.

Lemma append_inj_r (s1 s2 t : string) : s1 +:+ t = s2 +:+ t → s1 = s2.
Proof.
  revert s2; induction s1 as [|c s1 IH]; intros [|c' s2] H.
  - done.
  - apply (f_equal String.length) in H. rewrite !append_length in H.
    simpl in H. lia.
  - apply (f_equal String.length) in H. rewrite !append_length in H.
    simpl in H. lia.
  - change (String c (s1 +:+ t) = String c' (s2 +:+ t)) in H.
    injection H as -> H. f_equal. by apply IH.
Qed.

Lemma pretty_N_go_length (x : N) (s : string) :
  (String.length s ≤ String.length (pretty_N_go x s))%nat.
Proof.
  revert s. induction (N.lt_wf_0 x) as [x _ IH]; intros s.
  destruct (decide (x = 0)%N) as [->|Hx].
  - by rewrite pretty_N_go_0.
  - rewrite pretty_N_go_step by lia.
    etransitivity; [|apply IH; apply N.div_lt; lia]. simpl. lia.
Qed.

Lemma pretty_N_nonempty (x : N) : (0 < String.length (pretty x))%nat.
Proof.
  unfold pretty, pretty_N. case_decide; [simpl; lia|].
  rewrite pretty_N_go_step by lia.
  pose proof (pretty_N_go_length (x `div` 10)
                (String (pretty_N_char (x `mod` 10)) "")) as Hlen.
  simpl in *. lia.
Qed.

Lemma pretty_Z_nonempty (x : Z) : pretty x ≠ EmptyString.
Proof.
  intros H. apply (f_equal String.length) in H. revert H.
  unfold pretty, pretty_Z. destruct x as [|p|p].
  - done.
  - pose proof (pretty_N_nonempty (Npos p)) as Hlen.
    unfold pretty at 1, pretty_positive. simpl. lia.
  - rewrite append_length.
    pose proof (pretty_N_nonempty (Npos p)) as Hlen. simpl. lia.
Qed.

(** The addresses [_unique_email] tries are pairwise different. *)
Lemma address_inj first last : Inj (=) (=) (UserGenerator.address first last).
Proof.
  intros c1 c2 H. unfold UserGenerator.address in H.
  do 3 apply (inj (String.append _)) in H. apply append_inj_r in H.
  destruct c1 as [k1|], c2 as [k2|]; simpl in H.
  - f_equal. by apply (inj pretty).
  - by apply pretty_Z_nonempty in H.
  - symmetry in H. by apply pretty_Z_nonempty in H.
  - done.
Qed.

End Addresses.

Section Staff.

Variable END_DATE : Z.
Variable admin_id : Z.

(** The loop of [_unique_email] ends before it has tried more addresses
    than the set [seen] of taken ones among them holds. *)
Lemma unique_email_loop_finds (fuel : nat) (used seen : gset string)
    (first last email : string) (counter : Z) :
  (size seen < fuel)%nat →
  (email ∈ used → email ∈ seen) →
  (∀ k, counter ≤ k → UserGenerator.address first last (Some k) ∈ used →
        UserGenerator.address first last (Some k) ∈ seen) →
  (∀ k, counter ≤ k → email ≠ UserGenerator.address first last (Some k)) →
  ∃ e, UserGenerator.unique_email_loop fuel used first last email counter = Some e
       ∧ e ∉ used
       ∧ (email ∉ used → e = email)
       ∧ (e = email ∨ ∃ k, counter ≤ k ∧ e = UserGenerator.address first last (Some k)).
Proof.
  revert seen email counter.
  induction fuel as [|fuel IH]; intros seen email counter Hsize Hemail Hlater Hne;
    [lia|].
  simpl. case_decide as Hin; cycle 1.
  { exists email. repeat split; auto. }
  destruct (IH (seen ∖ {[email]}) (UserGenerator.address first last (Some counter))
               (counter + 1)) as (e & He & Hfresh & _ & Hshape).
  - assert (size seen = size (seen ∖ {[email]}) + 1)%nat as Hsz; [|lia].
    rewrite <- (size_singleton (C:=gset string) email), <- size_union
      by set_solver.
    f_equal. apply set_eq. intros x. rewrite elem_of_union, elem_of_difference.
    rewrite elem_of_singleton. destruct (decide (x = email)) as [->|]; naive_solver.
  - intros Hused. apply elem_of_difference. split; [apply Hlater; [lia|done]|].
    rewrite elem_of_singleton. intros Heq. by apply (Hne counter); [lia|].
  - intros k Hk Hused. apply elem_of_difference. split; [apply Hlater; [lia|done]|].
    rewrite elem_of_singleton. intros Heq. by apply (Hne k); [lia|].
  - intros k Hk Heq. apply address_inj in Heq. injection Heq. lia.
  - exists e. split; [done|]. split; [done|]. split; [done|]. right.
    destruct Hshape as [->|(k & Hk & ->)]; [exists counter|exists k]; split; (lia || done).
Qed.

Lemma returns_unique_email (fuel : nat) (self : UserGenerator.t)
    (first last : string) w (Q : string * UserGenerator.t → World → Prop) :
  (size (UserGenerator.used_emails self) < fuel)%nat →
  (∀ c, let email := UserGenerator.address first last c in
        email ∉ UserGenerator.used_emails self →
        (UserGenerator.address first last None ∉ UserGenerator.used_emails self
         → c = None) →
        Q (email, UserGenerator.mk ({[email]} ∪ UserGenerator.used_emails self)) w) →
  returns (UserGenerator._unique_email fuel self first last) w Q.
Proof.
  intros Hfuel HQ. unfold UserGenerator._unique_email.
  destruct (unique_email_loop_finds fuel (UserGenerator.used_emails self)
              (UserGenerator.used_emails self) first last
              (UserGenerator.address first last None) 1)
    as (e & -> & Hfresh & Hbase & Hshape); [done|done|done| |].
  { intros k _ Heq. by apply address_inj in Heq. }
  apply returns_ret. destruct Hshape as [->|(k & _ & ->)].
  - by apply (HQ None).
  - apply (HQ (Some k)); [done|]. intros Hnone. specialize (Hbase Hnone).
    by apply address_inj in Hbase.
Qed.

Lemma returns_generate_caregiver (fuel : nat) (self : UserGenerator.t)
    (created_at home_id : Z) (assigned_by_id : option Z) w
    (Q : Caregiver.t * UserGenerator.t → World → Prop) :
  (size (UserGenerator.used_emails self) < fuel)%nat →
  (∀ first last c user_id assignment_id w',
     later w w' →
     let email := UserGenerator.address first last c in
     email ∉ UserGenerator.used_emails self →
     Q (Caregiver.mk
          (User.mk user_id email first last true true true ["Caregiver"%string]
                   created_at)
          [Assignment.mk assignment_id user_id home_id created_at assigned_by_id true],
        UserGenerator.mk ({[email]} ∪ UserGenerator.used_emails self)) w') →
  returns (UserGenerator.generate_caregiver fuel self created_at [home_id]
                                            assigned_by_id) w Q.
Proof.
  intros Hfuel HQ. unfold UserGenerator.generate_caregiver.
  apply returns_bind, returns_faker. intros first.
  apply returns_bind, returns_faker. intros last.
  apply returns_bind, returns_unique_email; [done|]. intros c email Hfresh _.
  apply returns_bind, returns_uuid4. cbn [UserGenerator.assignments_loop].
  apply returns_bind, returns_bind, returns_uuid4.
  apply returns_bind, returns_ret, returns_ret, returns_ret.
  apply HQ; [solve_later|done].
Qed.

Lemma returns_hire_loop (n fuel : nat) :
  ∀ gen home so_far cs0 w (Q : Generate.staff * UserGenerator.t → World → Prop),
  (size (UserGenerator.used_emails gen) + n < fuel)%nat →
  Generate.caregivers_by_home so_far !! Home.id home = Some cs0 →
  (∀ new gen' w',
     later w w' → length new = n →
     Forall (hired_for END_DATE admin_id home) new →
     NoDup ((λ c, User.email (Caregiver.user c)) <$> new) →
     (∀ c, c ∈ new → User.email (Caregiver.user c) ∉ UserGenerator.used_emails gen) →
     UserGenerator.used_emails gen'
     = list_to_set ((λ c, User.email (Caregiver.user c)) <$> new)
       ∪ UserGenerator.used_emails gen →
     Q (Generate.mkStaff
          (Generate.users so_far ++ new)
          (Generate.caregiverHomeAssignments so_far
             ++ mjoin (Caregiver.homeAssignments <$> new))
          (<[Home.id home := cs0 ++ new]> (Generate.caregivers_by_home so_far)),
        gen') w') →
  returns (Generate.hire_loop END_DATE n fuel gen home admin_id so_far) w Q.
Proof.
  induction n as [|n IH]; intros gen home so_far cs0 w Q Hfuel Hentry HQ.
  - apply returns_ret. specialize (HQ [] gen w). revert HQ. csimpl.
    rewrite !app_nil_r, insert_id by done. destruct so_far. simpl.
    intros HQ. apply HQ; [done|done|done|apply NoDup_nil_2| |].
    + intros c Hc. by apply elem_of_nil in Hc.
    + by rewrite (left_id_L ∅ (∪)).
  - cbn [Generate.hire_loop]. apply returns_bind, returns_randint; [lia|].
    intros hire_offset Hoffset.
    apply returns_bind, returns_generate_caregiver; [lia|].
    intros first last c user_id assignment_id w1 Hw1 email Hfresh.
    rewrite Hentry. apply returns_bind, returns_ret.
    set (caregiver := Caregiver.mk _ _).
    eapply IH with (cs0 := cs0 ++ [caregiver]).
    + simpl. rewrite size_union, size_singleton by set_solver. lia.
    + simpl. apply lookup_insert_eq.
    + intros new gen' w' Hw' Hlen Hhired Hdistinct Hnew Hgen'. simpl in *.
      specialize (HQ (caregiver :: new) gen' w'). revert HQ. csimpl.
      rewrite insert_insert_eq, <- !app_assoc. simpl. intros HQ. apply HQ.
      * etransitivity; [|exact Hw']. solve_later.
      * by rewrite Hlen.
      * apply Forall_cons_2; [|done]. unfold hired_for. simpl.
        split; [done|]. split; [done|]. split; [by exists hire_offset|].
        eexists. split; [done|]. by simpl.
      * apply NoDup_cons_2; [|done]. intros Hin.
        apply list_elem_of_fmap in Hin as (c' & Heq & Hc').
        apply (Hnew c' Hc'). rewrite <- Heq. set_solver.
      * intros c' Hc'. apply elem_of_cons in Hc' as [->|Hc']; [done|].
        specialize (Hnew c' Hc'). set_solver.
      * rewrite Hgen'. set_solver.
Qed.

Lemma staffed_home_grows (homes homes' : list Home.t) (s s' : Generate.staff)
    (home_id : Z) :
  homes ⊆ homes' → Generate.users s ⊆ Generate.users s' →
  Generate.caregivers_by_home s' !! home_id
  = Generate.caregivers_by_home s !! home_id →
  staffed_home END_DATE admin_id homes s home_id →
  staffed_home END_DATE admin_id homes' s' home_id.
Proof.
  intros Hhomes Husers Hentry (cs & Hcs & Hlen & Hall).
  exists cs. split; [by rewrite Hentry|]. split; [done|].
  eapply Forall_impl; [exact Hall|]. intros c (Hc & home & Hhome & Hid & Hhired).
  split; [by apply Husers|]. exists home. split; [by apply Hhomes|done].
Qed.

Lemma returns_hire_caregivers (fuel : nat) (used : gset string)
    (homes : list Home.t) :
  ∀ finished gen so_far w (Q : Generate.staff * UserGenerator.t → World → Prop),
  (size (UserGenerator.used_emails gen) + 3 * length homes < fuel)%nat →
  staffed END_DATE admin_id used finished so_far gen →
  (∀ s gen' w', later w w' →
     staffed END_DATE admin_id used (finished ++ homes) s gen' → Q (s, gen') w') →
  returns (Generate.hire_caregivers END_DATE fuel gen homes admin_id so_far) w Q.
Proof.
  induction homes as [|home rest IH]; intros finished gen so_far w Q Hfuel Hinv HQ.
  - apply returns_ret, HQ; [done|]. by rewrite app_nil_r.
  - cbn [Generate.hire_caregivers]. simpl in Hfuel.
    apply returns_bind, returns_randint; [lia|]. intros num Hnum.
    apply returns_bind.
    apply (returns_hire_loop _ _ _ _ _ []); [lia|apply lookup_insert_eq|].
    intros new gen' w1 Hw1 Hlen Hhired Hdistinct Hnew Hgen'. simpl.
    rewrite insert_insert_eq.
    destruct Hinv as [Husers Hassignments Hhomes Hnodup Hfresh Hrecorded].
    assert (list_to_set ((λ c, User.email (Caregiver.user c)) <$> new)
            ## UserGenerator.used_emails gen) as Hdisjoint.
    { intros e He Hgen. apply elem_of_list_to_set in He.
      apply list_elem_of_fmap in He as (c & -> & Hc). by apply (Hnew c). }
    apply (IH (finished ++ [home])).
    + rewrite Hgen', size_union, size_list_to_set, length_fmap by done. lia.
    + split; simpl.
      * apply Forall_app. split.
        -- eapply Forall_impl; [exact Husers|]. intros c (h & Hh & Hc).
           exists h. split; [|done]. apply elem_of_app. by left.
        -- eapply Forall_impl; [exact Hhired|]. intros c Hc.
           exists home. split; [|done]. apply elem_of_app. right.
           apply list_elem_of_here.
      * by rewrite Hassignments, fmap_app, join_app.
      * intros home' Hhome'.
        destruct (decide (Home.id home' = Home.id home)) as [Hid|Hid].
        -- exists new. rewrite Hid. split; [apply lookup_insert_eq|].
           split; [lia|]. apply Forall_forall. intros c Hc. split.
           ++ apply elem_of_app. by right.
           ++ exists home. split; [|split; [done|]].
              ** apply elem_of_app. right. apply list_elem_of_here.
              ** by apply (proj1 (Forall_forall _ _) Hhired).
        -- apply elem_of_app in Hhome' as [Hhome'|Hhome'].
           ++ eapply staffed_home_grows; [| | |exact (Hhomes home' Hhome')]; simpl.
              ** intros h Hh. apply elem_of_app. by left.
              ** intros c Hc. apply elem_of_app. by left.
              ** by rewrite lookup_insert_ne.
           ++ apply list_elem_of_singleton in Hhome'. by subst.
      * unfold emails. simpl. rewrite fmap_app. apply NoDup_app.
        split; [done|]. split; [|done]. intros e He Hin.
        apply (Hdisjoint e); [by apply elem_of_list_to_set|].
        rewrite Hrecorded. apply elem_of_union. left.
        by apply elem_of_list_to_set.
      * unfold emails. simpl. rewrite fmap_app. intros e He.
        apply elem_of_app in He as [He|He]; [by apply Hfresh|].
        intros Hused. apply (Hdisjoint e); [by apply elem_of_list_to_set|].
        rewrite Hrecorded. apply elem_of_union. by right.
      * unfold emails. simpl. rewrite Hgen', Hrecorded, fmap_app.
        rewrite list_to_set_app_L. set_solver.
    + intros s gen'' w' Hw' Hstaffed. apply HQ.
      * etransitivity; [|exact Hw']. etransitivity; [|exact Hw1]. solve_later.
      * by rewrite <- app_assoc in Hstaffed.
Qed.

End Staff.

(** X18: [_unique_email] returns an address that was not taken and records
    it: the plain address [first.last@lenkcare.example.com] when that one is
    free, otherwise one with a counter after the last name.  The loop ends
    within as many rounds as there are addresses taken. *)
Theorem unique_email_is_fresh (fuel : nat) (self : UserGenerator.t)
    (first last : string) (w : World) :
  (size (UserGenerator.used_emails self) < fuel)%nat →
  returns (UserGenerator._unique_email fuel self first last) w
    (λ '(email, self') w',
       w' = w
       ∧ email ∉ UserGenerator.used_emails self
       ∧ UserGenerator.used_emails self' = {[email]} ∪ UserGenerator.used_emails self
       ∧ (∃ counter, email = UserGenerator.address first last counter)
       ∧ (UserGenerator.address first last None ∉ UserGenerator.used_emails self
          → email = UserGenerator.address first last None)).
Proof.
  intros Hfuel. apply returns_unique_email; [done|].
  intros c email Hfresh Hbase. split; [done|]. split; [done|]. split; [done|].
  split; [by exists c|]. intros Hfree. unfold email. by rewrite (Hbase Hfree).
Qed.

Lemma unique_email_is_fresh_witness :
  (size (UserGenerator.used_emails
           (UserGenerator.mk {["ann.lee@lenkcare.example.com"%string]})) < 2)%nat
  ∧ returns (UserGenerator._unique_email 2
               (UserGenerator.mk {["ann.lee@lenkcare.example.com"%string]})
               "Ann" "Lee") Scenario.all_threes
      (λ '(email, self') w',
         w' = Scenario.all_threes
         ∧ email ∉ ({["ann.lee@lenkcare.example.com"%string]} : gset string)
         ∧ UserGenerator.used_emails self'
           = {[email]} ∪ {["ann.lee@lenkcare.example.com"%string]}
         ∧ (∃ counter, email = UserGenerator.address "Ann" "Lee" counter)
         ∧ (UserGenerator.address "Ann" "Lee" None
              ∉ ({["ann.lee@lenkcare.example.com"%string]} : gset string)
            → email = UserGenerator.address "Ann" "Lee" None)).
Proof.
  assert (size (UserGenerator.used_emails
                  (UserGenerator.mk {["ann.lee@lenkcare.example.com"%string]})) < 2)%nat
    as Hfuel
    by (cbn [UserGenerator.used_emails]; rewrite size_singleton; lia).
  split; [exact Hfuel|].
  exact (unique_email_is_fresh 2 _ "Ann" "Lee" Scenario.all_threes Hfuel).
Defined.

(** X19: the first loop of Phase 2 gives every home two or three caregivers
    of its own.  Each caregiver it creates is hired within 14 days of the
    opening of a home, but not before [START_DATE], and has exactly one
    home assignment, to that home and dated like the hire; the list of
    assignments holds these, in the order of the users. *)
Theorem phase2_every_home_staffed (END_DATE admin_id : Z) (fuel : nat)
    (gen : UserGenerator.t) (homes : list Home.t) (w : World) :
  (size (UserGenerator.used_emails gen) + 3 * length homes < fuel)%nat →
  returns (Generate.hire_caregivers END_DATE fuel gen homes admin_id
             (Generate.mkStaff [] [] ∅)) w
    (λ '(s, _) _,
       (∀ home, home ∈ homes →
          staffed_home END_DATE admin_id homes s (Home.id home))
       ∧ Forall (λ c, ∃ home, home ∈ homes ∧ hired_for END_DATE admin_id home c)
                (Generate.users s)
       ∧ Generate.caregiverHomeAssignments s
         = mjoin (Caregiver.homeAssignments <$> Generate.users s)).
Proof.
  intros Hfuel.
  apply (returns_hire_caregivers END_DATE admin_id fuel
           (UserGenerator.used_emails gen) homes []); [done| |].
  - split; simpl; try done.
    + intros home Hhome. by apply elem_of_nil in Hhome.
    + apply NoDup_nil_2.
    + intros e He. by apply elem_of_nil in He.
    + by rewrite (left_id_L ∅ (∪)).
  - intros s gen' w' _ [Husers Hassignments Hhomes _ _ _]. by simpl in *.
Qed.

Lemma phase2_every_home_staffed_witness :
  (size (UserGenerator.used_emails UserGenerator.__init__)
   + 3 * length [Scenario.home] < 10)%nat
  ∧ returns (Generate.hire_caregivers Scenario.END_DATE 10 UserGenerator.__init__
               [Scenario.home] 1 (Generate.mkStaff [] [] ∅)) Scenario.all_threes
      (λ '(s, _) _,
         (∀ home, home ∈ [Scenario.home] →
            staffed_home Scenario.END_DATE 1 [Scenario.home] s (Home.id home))
         ∧ Forall (λ c, ∃ home, home ∈ [Scenario.home]
                                ∧ hired_for Scenario.END_DATE 1 home c)
                  (Generate.users s)
         ∧ Generate.caregiverHomeAssignments s
           = mjoin (Caregiver.homeAssignments <$> Generate.users s)).
Proof.
  assert (size (UserGenerator.used_emails UserGenerator.__init__)
          + 3 * length [Scenario.home] < 10)%nat
    as Hfuel
    by (cbn [UserGenerator.used_emails UserGenerator.__init__ length];
        rewrite size_empty; lia).
  split; [exact Hfuel|].
  exact (phase2_every_home_staffed Scenario.END_DATE 1 10 UserGenerator.__init__
           [Scenario.home] Scenario.all_threes Hfuel).
Defined.

(** X20: no two caregivers of Phase 2 share an e-mail address, none of them
    gets an address that was taken before the loop, and the generator has
    recorded every address it gave out. *)
Theorem caregiver_emails_never_repeat (END_DATE admin_id : Z) (fuel : nat)
    (gen : UserGenerator.t) (homes : list Home.t) (w : World) :
  (size (UserGenerator.used_emails gen) + 3 * length homes < fuel)%nat →
  returns (Generate.hire_caregivers END_DATE fuel gen homes admin_id
             (Generate.mkStaff [] [] ∅)) w
    (λ '(s, gen') _,
       NoDup (emails s)
       ∧ (∀ e, e ∈ emails s → e ∉ UserGenerator.used_emails gen)
       ∧ UserGenerator.used_emails gen'
         = list_to_set (emails s) ∪ UserGenerator.used_emails gen).
Proof.
  intros Hfuel.
  apply (returns_hire_caregivers END_DATE admin_id fuel
           (UserGenerator.used_emails gen) homes []); [done| |].
  - split; simpl; try done.
    + intros home Hhome. by apply elem_of_nil in Hhome.
    + apply NoDup_nil_2.
    + intros e He. by apply elem_of_nil in He.
    + by rewrite (left_id_L ∅ (∪)).
  - by intros s gen' w' _ [_ _ _ Hdistinct Hfresh Hrecorded].
Qed.

Lemma caregiver_emails_never_repeat_witness :
  (size (UserGenerator.used_emails UserGenerator.__init__)
   + 3 * length [Scenario.home; Scenario.home] < 10)%nat
  ∧ returns (Generate.hire_caregivers Scenario.END_DATE 10 UserGenerator.__init__
               [Scenario.home; Scenario.home] 1 (Generate.mkStaff [] [] ∅))
      Scenario.all_threes
      (λ '(s, gen') _,
         NoDup (emails s)
         ∧ (∀ e, e ∈ emails s
                 → e ∉ UserGenerator.used_emails UserGenerator.__init__)
         ∧ UserGenerator.used_emails gen'
           = list_to_set (emails s)
             ∪ UserGenerator.used_emails UserGenerator.__init__).
Proof.
  assert (size (UserGenerator.used_emails UserGenerator.__init__)
          + 3 * length [Scenario.home; Scenario.home] < 10)%nat
    as Hfuel
    by (cbn [UserGenerator.used_emails UserGenerator.__init__ length];
        rewrite size_empty; lia).
  split; [exact Hfuel|].
  exact (caregiver_emails_never_repeat Scenario.END_DATE 1 10 UserGenerator.__init__
           [Scenario.home; Scenario.home] Scenario.all_threes Hfuel).
Defined.

(** * The date helpers of [config.py] *)

Section DateHelpers.

Lemma returns_working_hour (base_date : Z) w (Q : Z → World → Prop) :
  (∀ t w', DT.date t = DT.date base_date → working_hours t → Q t w') →
  returns (random_working_hour_time base_date) w Q.
Proof.
  intros HQ. unfold random_working_hour_time.
  apply returns_bind, returns_randint; [lia|]. intros hour Hhour.
  apply returns_bind, returns_randint; [lia|]. intros minute Hminute.
  apply returns_ret.
  assert (DT.date (DT.replace_hms base_date hour minute) = DT.date base_date)
    as Hday.
  { unfold DT.replace_hms, DT.of_date, DT.date at 1.
    rewrite <- Z.add_assoc, Z.div_add_l by done.
    rewrite Z.div_small; [lia|].
    unfold DT.hours, DT.minutes, DT.usec_per_hour, DT.usec_per_minute,
      DT.usec_per_day. lia. }
  apply HQ; [done|]. unfold working_hours. rewrite Hday. split.
  - unfold DT.replace_hms, DT.hours, DT.minutes, DT.usec_per_hour,
      DT.usec_per_minute. lia.
  - unfold DT.replace_hms, DT.of_date, DT.hours, DT.minutes, DT.usec_per_day,
      DT.usec_per_hour, DT.usec_per_minute.
    replace (DT.date base_date * 86400000000 + hour * 3600000000
             + minute * 60000000)
      with ((DT.date base_date * 1440 + hour * 60 + minute) * 60000000) by lia.
    apply Z.mod_mul. done.
Qed.

End DateHelpers.

(** X21: [random_working_hour_time] keeps the day of [base_date] and returns
    a whole minute between 06:00 and 22:59 of it: the last hour drawn is
    22, with any minute, so the time can lie after 10 PM. *)
Theorem working_hour_time_same_day (base_date : Z) (w : World) :
  returns (random_working_hour_time base_date) w
    (λ t _, DT.date t = DT.date base_date ∧ working_hours t)
  ∧ ∃ w', returns (random_working_hour_time base_date) w'
            (λ t _, t = DT.of_date (DT.date base_date) + DT.hours 22 + DT.minutes 59).
Proof.
  split; [by apply returns_working_hour|].
  exists (world_of [16; 59] [] [] 0).
  unfold random_working_hour_time, DT.replace_hms.
  generalize (DT.of_date (DT.date base_date)). intros day.
  apply returns_bind. unfold returns. by cbn -[Z.add DT.hours DT.minutes].
Qed.

(** X22: for [start <= end], [random_date_between] returns an instant from
    [start] on that can lie after [end], by up to a day: the seconds drawn
    are added to a whole number of days that may already reach [end]. *)
Theorem random_date_between_range (start end_ : Z) :
  start ≤ end_ →
  (∀ w, returns (random_date_between start end_) w
          (λ t _, start ≤ t ≤ end_ + DT.days 1))
  ∧ ∃ w, returns (random_date_between start end_) w (λ t _, end_ < t).
Proof.
  intros Hle. unfold random_date_between, DT.delta_days. cbv zeta.
  assert (0 < DT.usec_per_day) as Hday by done.
  pose proof (Z.div_pos (end_ - start) _ ltac:(lia) Hday) as Hpos.
  pose proof (Z.mul_div_le (end_ - start) _ Hday) as Hlow.
  pose proof (Z.mul_succ_div_gt (end_ - start) _ Hday) as Hhigh.
  set (delta_days := (end_ - start) `div` DT.usec_per_day) in *.
  split.
  - intros w. apply returns_bind, returns_randint; [lia|].
    intros random_days Hdays.
    apply returns_bind, returns_randint; [lia|]. intros random_seconds Hseconds.
    apply returns_ret. unfold DT.days, DT.seconds, DT.usec_per_second in *.
    unfold DT.usec_per_day in *. nia.
  - exists (world_of [delta_days; 86400] [] [] 0).
    unfold returns, mbind, M_bind, randint.
    destruct (decide (delta_days < 0)) as [|_]; [lia|].
    destruct (decide (86400 < 0)) as [|_]; [lia|]. simpl.
    rewrite Z.mod_small by lia. rewrite Z.mod_small by lia.
    unfold DT.days, DT.seconds, DT.usec_per_second in *.
    unfold DT.usec_per_day in *. lia.
Qed.

Lemma random_date_between_range_witness :
  0 ≤ DT.hours 30
  ∧ (∀ w, returns (random_date_between 0 (DT.hours 30)) w
            (λ t _, 0 ≤ t ≤ DT.hours 30 + DT.days 1))
  ∧ ∃ w, returns (random_date_between 0 (DT.hours 30)) w (λ t _, DT.hours 30 < t).
Proof.
  assert (0 ≤ DT.hours 30) as Hle by done.
  split; [exact Hle|]. exact (random_date_between_range 0 (DT.hours 30) Hle).
Defined.

(** X23: [random_date_between] raises [ValueError] when [end] is before
    [start], whatever the generator would have drawn. *)
Theorem random_date_between_rejects_reversed (start end_ : Z) (w : World) :
  end_ < start → random_date_between start end_ w = Raise ValueError.
Proof.
  intros Hlt. unfold random_date_between, DT.delta_days. cbv zeta.
  assert ((end_ - start) `div` DT.usec_per_day < 0) as Hneg.
  { apply Z.div_lt_upper_bound; [done|lia]. }
  unfold mbind, M_bind, randint. by destruct (decide _) as [_|]; [|lia].
Qed.

Lemma random_date_between_rejects_reversed_witness :
  0 < DT.days 1
  ∧ random_date_between (DT.days 1) 0 Scenario.all_threes = Raise ValueError.
Proof.
  assert (0 < DT.days 1) as Hlt by done.
  split; [exact Hlt|].
  exact (random_date_between_rejects_reversed (DT.days 1) 0 Scenario.all_threes Hlt).
Defined.

(** * The care logs of Phase 4 *)

Section CareLogGenerators.

Lemma positive_total {A} (choices : list (A * Q)) total :
  last (accumulate 0 (snd <$> choices)) = Some total →
  Qle_bool total 0 = false →
  ∃ total, last (accumulate 0 (snd <$> choices)) = Some total
           ∧ Qle_bool total 0 = false.
Proof. eauto. Qed.

Lemma returns_adl_note w (Q : option string → World → Prop) :
  (∀ note w', (∀ text, note = Some text → text ∈ ADLLogGenerator.note_texts) →
              Q note w') →
  returns ADLLogGenerator._generate_note w Q.
Proof.
  intros HQ. unfold ADLLogGenerator._generate_note.
  apply returns_bind, returns_random. intros u.
  destruct (negb (Qle_bool u 0.7)).
  - apply returns_bind, returns_choice; [done|]. intros text Htext.
    apply returns_ret, HQ. by intros ? [= <-].
  - apply returns_ret, HQ. by intros ? [=].
Qed.

Lemma returns_adl_generate (client_id caregiver_id timestamp : Z)
    (independence_level : string) w (Q : ADLLog.t → World → Prop) :
  (∀ l w',
     ADLLog.clientId l = client_id → ADLLog.caregiverId l = caregiver_id →
     ADLLog.timestamp l = timestamp → ADLLog.createdAt l = timestamp →
     Forall (λ level, level ∈ ADLLogGenerator._get_levels independence_level)
            (adl_levels l) →
     (∀ text, ADLLog.notes l = Some text → text ∈ ADLLogGenerator.note_texts) →
     Q l w') →
  returns (ADLLogGenerator.generate client_id caregiver_id timestamp
                                    independence_level) w Q.
Proof.
  intros HQ. unfold ADLLogGenerator.generate. cbv zeta.
  assert (ADLLogGenerator._get_levels independence_level ≠ []) as Hne.
  { unfold ADLLogGenerator._get_levels. by repeat case_decide. }
  apply returns_bind, returns_uuid4.
  apply returns_bind, returns_choice; [done|]. intros bathing Hbathing.
  apply returns_bind, returns_choice; [done|]. intros dressing Hdressing.
  apply returns_bind, returns_choice; [done|]. intros toileting Htoileting.
  apply returns_bind, returns_choice; [done|]. intros transferring Htransferring.
  apply returns_bind, returns_choice; [done|]. intros continence Hcontinence.
  apply returns_bind, returns_choice; [done|]. intros feeding Hfeeding.
  apply returns_bind, returns_adl_note. intros note w' Hnote.
  apply returns_ret, HQ; try done.
  unfold adl_levels. simpl.
  repeat (apply Forall_cons_2; [done|]). apply Forall_nil_2.
Qed.

Lemma returns_vitals_generate (client_id caregiver_id timestamp : Z)
    (has_hypertension has_diabetes : bool) w (Q : VitalsLog.t → World → Prop) :
  (∀ l w',
     VitalsLog.clientId l = client_id → VitalsLog.caregiverId l = caregiver_id →
     VitalsLog.timestamp l = timestamp → VitalsLog.createdAt l = timestamp →
     (if has_hypertension then 125 ≤ VitalsLog.systolicBP l ≤ 160
      else 105 ≤ VitalsLog.systolicBP l ≤ 140) →
     70 ≤ VitalsLog.diastolicBP l ≤ 95 →
     60 ≤ VitalsLog.pulse l ≤ 90 →
     92 ≤ VitalsLog.oxygenSaturation l ≤ 100 →
     (0 <= VitalsLog.temperature_draw l)%Q ∧ (VitalsLog.temperature_draw l < 1)%Q →
     VitalsLog.notes l
     = (if decide (150 < VitalsLog.systolicBP l)
        then Some "Elevated BP noted, will monitor."%string else None) →
     Q l w') →
  returns (VitalsLogGenerator.generate client_id caregiver_id timestamp
                                       has_hypertension has_diabetes) w Q.
Proof.
  intros HQ. unfold VitalsLogGenerator.generate. cbv zeta.
  apply returns_bind, returns_randint; [lia|]. intros r1 Hr1.
  apply returns_bind, returns_randint; [lia|]. intros r2 Hr2.
  apply returns_bind, returns_randint; [lia|]. intros r3 Hr3.
  unfold random. apply returns_bind, returns_bind, returns_randbelow; [done|].
  intros k Hk. apply returns_ret.
  apply returns_bind, returns_randint; [lia|]. intros r4 Hr4.
  apply returns_bind, returns_uuid4. apply returns_ret, HQ; simpl; try done.
  - destruct has_hypertension; lia.
  - lia.
  - lia.
  - lia.
  - unfold Qle, Qlt. simpl. lia.
  - unfold VitalsLogGenerator._generate_note.
    destruct (decide (100 `min` (88 `max` (97 + r4)) < 92)) as [|_]; [lia|].
    destruct has_hypertension; repeat case_decide; try done; lia.
Qed.

Lemma medication_times_parse (scheduled_time_str : string) :
  scheduled_time_str ∈ MEDICATION_TIMES →
  ∃ hour, 6 ≤ hour ≤ 22
    ∧ PyStr.int_of_digits <$> PyStr.split ":" scheduled_time_str
      = [Some hour; Some 0].
Proof.
  intros Hin. unfold MEDICATION_TIMES in Hin.
  repeat (apply elem_of_cons in Hin as [->|Hin]);
    [..|by apply elem_of_nil in Hin];
    (eexists; split; [|vm_compute; reflexivity]; lia).
Qed.

Lemma medication_times_scheduled (timestamp : Z) (scheduled_time_str : string) :
  scheduled_time_str ∈ MEDICATION_TIMES →
  ∃ hour, 6 ≤ hour ≤ 22
    ∧ MedicationLogGenerator.scheduled_datetime timestamp scheduled_time_str
      = mret (DT.of_date (DT.date timestamp) + DT.hours hour).
Proof.
  intros Hin.
  destruct (medication_times_parse scheduled_time_str Hin) as (hour & Hhour & Hparse).
  exists hour. split; [done|].
  unfold MedicationLogGenerator.scheduled_datetime. rewrite Hparse.
  case_decide; [|lia]. f_equal. unfold DT.replace_hms, DT.minutes. lia.
Qed.

Lemma returns_medication_generate (client_id caregiver_id timestamp : Z)
    (medication : Medication.t) w (Q : MedicationLog.t → World → Prop) :
  (∀ l w',
     MedicationLog.clientId l = client_id →
     MedicationLog.caregiverId l = caregiver_id →
     MedicationLog.timestamp l = timestamp →
     MedicationLog.createdAt l = timestamp →
     MedicationLog.medicationName l = Medication.name medication →
     MedicationLog.dosage l = Medication.dosage medication →
     MedicationLog.route l = Medication.route medication →
     MedicationLog.status l ∈ fst <$> MedicationLogGenerator.status_weights →
     (∃ hour, 6 ≤ hour ≤ 22
              ∧ MedicationLog.scheduledTime l
                = DT.of_date (DT.date timestamp) + DT.hours hour) →
     MedicationLog.notes l
     = (if decide (MedicationLog.status l ≠ "Administered"%string)
        then Some (MedicationLogGenerator._generate_note (MedicationLog.status l))
        else None) →
     Q l w') →
  returns (MedicationLogGenerator.generate client_id caregiver_id timestamp
                                           medication) w Q.
Proof.
  intros HQ. unfold MedicationLogGenerator.generate.
  apply returns_bind, returns_weighted_choice.
  { eapply positive_total; by vm_compute. }
  intros status Hstatus.
  apply returns_bind, returns_choice; [done|]. intros text Htext.
  destruct (medication_times_scheduled timestamp text Htext) as (hour & Hhour & ->).
  apply returns_bind, returns_ret.
  apply returns_bind, returns_uuid4. apply returns_ret, HQ; simpl; try done.
  by exists hour.
Qed.

Lemma returns_rom_generate (client_id caregiver_id timestamp : Z) w
    (Q : ROMLog.t → World → Prop) :
  (∀ l w',
     ROMLog.clientId l = client_id → ROMLog.caregiverId l = caregiver_id →
     ROMLog.timestamp l = timestamp → ROMLog.createdAt l = timestamp →
     Q l w') →
  returns (ROMLogGenerator.generate client_id caregiver_id timestamp) w Q.
Proof.
  intros HQ. unfold ROMLogGenerator.generate.
  apply returns_bind, returns_choice; [done|]. intros exercise _.
  apply returns_bind, returns_choice; [done|]. intros duration _.
  apply returns_bind, returns_choice; [done|]. intros reps _.
  apply returns_bind, returns_uuid4.
  unfold ROMLogGenerator._generate_note.
  apply returns_bind, returns_bind, returns_random. intros u.
  destruct (negb (Qle_bool u 0.8)).
  - apply returns_bind, returns_choice; [done|]. intros note _.
    apply returns_ret, returns_ret. by apply HQ.
  - apply returns_ret, returns_ret. by apply HQ.
Qed.

Lemma returns_behavior_generate (client_id caregiver_id timestamp : Z) w
    (Q : BehaviorNote.t → World → Prop) :
  (∀ l w',
     BehaviorNote.clientId l = client_id → BehaviorNote.caregiverId l = caregiver_id →
     BehaviorNote.timestamp l = timestamp → BehaviorNote.createdAt l = timestamp →
     Q l w') →
  returns (BehaviorNoteGenerator.generate client_id caregiver_id timestamp) w Q.
Proof.
  intros HQ. unfold BehaviorNoteGenerator.generate.
  apply returns_bind, returns_choice; [done|]. intros observation _.
  apply returns_bind, returns_weighted_choice.
  { eapply positive_total; by vm_compute. }
  intros severity _.
  apply returns_bind, returns_uuid4. apply returns_ret. by apply HQ.
Qed.

End CareLogGenerators.

Section CareLogsSpec.

Import Generate.

Variable END_DATE : Z.

Lemma Forall_entries_app (P : entry → Prop) (a b : care_logs) :
  Forall P (entries a) → Forall P (entries b) → Forall P (entries (logs_app a b)).
Proof.
  unfold entries, logs_app. simpl. rewrite !fmap_app, !Forall_app. tauto.
Qed.

Lemma returns_adl_loop (n : nat) (client_id caregiver_id current_date : Z)
    (base_independence : string) :
  ∀ w (Q : list ADLLog.t → World → Prop),
  (∀ ls w',
     Forall (day_entry client_id caregiver_id current_date)
       ((λ l, mkEntry (ADLLog.clientId l) (ADLLog.caregiverId l)
                      (ADLLog.timestamp l) (ADLLog.createdAt l)) <$> ls) →
     Q ls w') →
  returns (adl_loop n client_id caregiver_id current_date base_independence) w Q.
Proof.
  induction n as [|n IH]; intros w Q HQ; cbn [adl_loop].
  - apply returns_ret, HQ. apply Forall_nil_2.
  - apply returns_bind, returns_working_hour. intros t w1 Hday Hhours.
    apply returns_bind, returns_adl_generate.
    intros l w2 Hclient Hcaregiver Htime Hcreated _ _.
    apply returns_bind, IH. intros ls w3 Hls. apply returns_ret, HQ.
    csimpl. apply Forall_cons_2; [|done].
    unfold day_entry. simpl. rewrite Hclient, Hcaregiver, Htime, Hcreated. done.
Qed.

Lemma returns_vitals_loop (n : nat) (client_id caregiver_id current_date : Z)
    (has_hypertension has_diabetes : bool) :
  ∀ w (Q : list VitalsLog.t → World → Prop),
  (∀ ls w',
     Forall (day_entry client_id caregiver_id current_date)
       ((λ l, mkEntry (VitalsLog.clientId l) (VitalsLog.caregiverId l)
                      (VitalsLog.timestamp l) (VitalsLog.createdAt l)) <$> ls) →
     Q ls w') →
  returns (vitals_loop n client_id caregiver_id current_date has_hypertension
                       has_diabetes) w Q.
Proof.
  induction n as [|n IH]; intros w Q HQ; cbn [vitals_loop].
  - apply returns_ret, HQ. apply Forall_nil_2.
  - apply returns_bind, returns_working_hour. intros t w1 Hday Hhours.
    apply returns_bind, returns_vitals_generate.
    intros l w2 Hclient Hcaregiver Htime Hcreated _ _ _ _ _ _.
    apply returns_bind, IH. intros ls w3 Hls. apply returns_ret, HQ.
    csimpl. apply Forall_cons_2; [|done].
    unfold day_entry. simpl. rewrite Hclient, Hcaregiver, Htime, Hcreated. done.
Qed.

Lemma returns_medication_loop (meds : list Medication.t)
    (client_id caregiver_id current_date : Z) :
  ∀ w (Q : list MedicationLog.t → World → Prop),
  (∀ ls w',
     Forall (day_entry client_id caregiver_id current_date)
       ((λ l, mkEntry (MedicationLog.clientId l) (MedicationLog.caregiverId l)
                      (MedicationLog.timestamp l) (MedicationLog.createdAt l))
          <$> ls) →
     Q ls w') →
  returns (medication_loop meds client_id caregiver_id current_date) w Q.
Proof.
  induction meds as [|med rest IH]; intros w Q HQ; cbn [medication_loop].
  - apply returns_ret, HQ. apply Forall_nil_2.
  - apply returns_bind, returns_random. intros u.
    destruct (negb (Qle_bool u 0.02)).
    + apply returns_bind, returns_bind, returns_working_hour.
      intros t w1 Hday Hhours.
      apply returns_bind, returns_medication_generate.
      intros l w2 Hclient Hcaregiver Htime Hcreated _ _ _ _ _ _.
      apply returns_ret.
      apply returns_bind, IH. intros ls w3 Hls. apply returns_ret, HQ.
      csimpl. apply Forall_cons_2; [|done].
      unfold day_entry. simpl. rewrite Hclient, Hcaregiver, Htime, Hcreated. done.
    + apply returns_bind, returns_ret.
      apply returns_bind, IH. intros ls w3 Hls. by apply returns_ret, HQ.
Qed.

Lemma returns_day_logs (client : Client.t) (home_caregivers : list User.t)
    (base_independence : string) (has_hypertension has_diabetes has_dementia : bool)
    (current_date : Z) w (Q : care_logs → World → Prop) :
  home_caregivers ≠ [] →
  (∀ logs w' caregiver,
     caregiver ∈ home_caregivers →
     Forall (day_entry (Client.id client) (User.id caregiver) current_date)
            (entries logs) →
     Q logs w') →
  returns (day_logs client home_caregivers base_independence has_hypertension
                    has_diabetes has_dementia current_date) w Q.
Proof.
  intros Hne HQ. unfold day_logs. cbv zeta.
  apply returns_bind, returns_choice; [done|]. intros caregiver Hcaregiver.
  apply returns_bind, returns_random. intros u1.
  apply returns_bind.
  apply (returns_mono _ _
           (λ ls _, Forall (day_entry (Client.id client) (User.id caregiver)
                                      current_date)
                      ((λ l, mkEntry (ADLLog.clientId l) (ADLLog.caregiverId l)
                                     (ADLLog.timestamp l) (ADLLog.createdAt l))
                         <$> ls))).
  { destruct (negb (Qle_bool u1 0.1)).
    - apply returns_bind, returns_randint; [lia|]. intros n _.
      by apply returns_adl_loop.
    - apply returns_ret, Forall_nil_2. }
  intros adls w1 Hadls.
  apply returns_bind, returns_random. intros u2.
  apply returns_bind.
  apply (returns_mono _ _
           (λ ls _, Forall (day_entry (Client.id client) (User.id caregiver)
                                      current_date)
                      ((λ l, mkEntry (VitalsLog.clientId l) (VitalsLog.caregiverId l)
                                     (VitalsLog.timestamp l) (VitalsLog.createdAt l))
                         <$> ls))).
  { destruct (negb (Qle_bool u2 0.15)).
    - apply returns_bind, returns_randint; [lia|]. intros n _.
      by apply returns_vitals_loop.
    - apply returns_ret, Forall_nil_2. }
  intros vitals w2 Hvitals.
  apply returns_bind, returns_medication_loop. intros med_logs w3 Hmeds.
  apply returns_bind, returns_random. intros u3.
  apply returns_bind.
  apply (returns_mono _ _
           (λ ls _, Forall (day_entry (Client.id client) (User.id caregiver)
                                      current_date)
                      ((λ l, mkEntry (ROMLog.clientId l) (ROMLog.caregiverId l)
                                     (ROMLog.timestamp l) (ROMLog.createdAt l))
                         <$> ls))).
  { destruct (negb (Qle_bool u3 0.6)).
    - apply returns_bind, returns_working_hour. intros t w4 Hday Hhours.
      apply returns_bind, returns_rom_generate.
      intros l w5 Hclient Hc Htime Hcreated. apply returns_ret.
      csimpl. apply Forall_cons_2; [|apply Forall_nil_2].
      unfold day_entry. simpl. rewrite Hclient, Hc, Htime, Hcreated. done.
    - apply returns_ret, Forall_nil_2. }
  intros roms w4 Hroms.
  apply returns_bind, returns_random. intros u4.
  apply returns_bind.
  apply (returns_mono _ _
           (λ ls _, Forall (day_entry (Client.id client) (User.id caregiver)
                                      current_date)
                      ((λ l, mkEntry (BehaviorNote.clientId l)
                                     (BehaviorNote.caregiverId l)
                                     (BehaviorNote.timestamp l)
                                     (BehaviorNote.createdAt l))
                         <$> ls))).
  { destruct (negb (Qle_bool _ u4)).
    - apply returns_bind, returns_working_hour. intros t w5 Hday Hhours.
      apply returns_bind, returns_behavior_generate.
      intros l w6 Hclient Hc Htime Hcreated. apply returns_ret.
      csimpl. apply Forall_cons_2; [|apply Forall_nil_2].
      unfold day_entry. simpl. rewrite Hclient, Hc, Htime, Hcreated. done.
    - apply returns_ret, Forall_nil_2. }
  intros notes w5 Hnotes.
  apply returns_ret, (HQ _ _ caregiver); [done|].
  unfold entries. simpl. rewrite !Forall_app. tauto.
Qed.

Lemma returns_care_loop (c : Client.t) (home_caregivers : list User.t)
    (base_independence : string) (has_hypertension has_diabetes has_dementia : bool)
    (discharge : Z) (fuel : nat) :
  home_caregivers ≠ [] →
  ∀ day w (Q : care_logs → World → Prop),
  fuel_suffices discharge 1 fuel (DT.of_date day) →
  (∀ logs w',
     Forall (λ e, ∃ d caregiver,
               day ≤ d ∧ DT.of_date d < discharge
               ∧ caregiver ∈ home_caregivers
               ∧ day_entry (Client.id c) (User.id caregiver) (DT.of_date d) e)
            (entries logs) →
     (∃ on_duty : Z → Z,
        Forall (λ e, entry_caregiver e = on_duty (DT.date (entry_timestamp e)))
               (entries logs)) →
     Q logs w') →
  returns (care_loop fuel c home_caregivers base_independence has_hypertension
                     has_diabetes has_dementia (DT.of_date day) discharge) w Q.
Proof.
  intros Hne. induction fuel as [|fuel IH]; intros day w Q Hfuel HQ.
  { destruct Hfuel as [? _]. lia. }
  cbn [care_loop]. case_decide as Hlt; cycle 1.
  { apply returns_ret, HQ; [apply Forall_nil_2|].
    exists (λ _, 0). apply Forall_nil_2. }
  apply returns_bind, returns_day_logs; [done|].
  intros today w1 caregiver Hcaregiver Htoday.
  rewrite of_date_days. apply returns_bind, IH.
  { rewrite <- of_date_days. apply fuel_suffices_step; [lia|lia|done|done]. }
  intros more w2 Hmore [on_duty Hduty]. apply returns_ret, HQ.
  - apply Forall_entries_app.
    + eapply Forall_impl; [exact Htoday|]. intros e He.
      exists day, caregiver. split; [lia|]. by split.
    + eapply Forall_impl; [exact Hmore|].
      intros e (d & cg & Hd & Hrest). exists d, cg. split; [lia|done].
  - exists (λ d, if decide (d = day) then User.id caregiver else on_duty d).
    apply Forall_entries_app.
    + eapply Forall_impl; [exact Htoday|]. intros e (_ & He & _ & Hday & _).
      rewrite date_of_date in Hday. rewrite Hday. by rewrite decide_True.
    + apply Forall_forall. intros e He.
      pose proof (proj1 (Forall_forall _ _) Hmore e He)
        as (d & cg & Hd & _ & _ & _ & _ & _ & Hday & _).
      rewrite date_of_date in Hday. rewrite Hday.
      rewrite decide_False by lia. rewrite <- Hday.
      by apply (proj1 (Forall_forall _ _) Hduty e He).
Qed.

Lemma returns_client_care_logs (caregivers_by_home : gmap Z (list User.t))
    (c : Client.t) (home_caregivers : list User.t) w
    (Q : care_logs → World → Prop) :
  caregivers_by_home !! Client.homeId c = Some home_caregivers →
  home_caregivers ≠ [] →
  (∀ logs w',
     Forall (care_entry_of END_DATE caregivers_by_home c) (entries logs) →
     (∃ on_duty : Z → Z,
        Forall (λ e, entry_caregiver e = on_duty (DT.date (entry_timestamp e)))
               (entries logs)) →
     Q logs w') →
  returns (client_care_logs END_DATE caregivers_by_home c) w Q.
Proof.
  intros Hhome Hne HQ. unfold client_care_logs. cbv zeta. rewrite Hhome.
  apply returns_bind, returns_ret.
  apply returns_bind, returns_choice; [done|]. intros base_independence _.
  apply returns_care_loop; [done| |].
  { apply fuel_suffices_iterations. lia. }
  intros logs w' Hlogs Hduty. apply HQ; [|done].
  eapply Forall_impl; [exact Hlogs|].
  intros e (d & cg & Hd & Hlt & Hcg & Hclient & Hcaregiver & Hcreated & Hday & Hhours).
  rewrite date_of_date in Hday.
  split; [done|]. split; [by exists home_caregivers, cg|]. split; [done|].
  rewrite Hday. split; [|by split].
  unfold DT.of_date, DT.usec_per_day. lia.
Qed.

(** X24: every care log of Phase 4, of any of the five kinds, belongs to one
    of the clients; it is written by a caregiver of that client's home and
    created at its own timestamp, which lies between 06:00 and 22:59 of a
    day that starts on or after the admission and before the discharge
    (before [END_DATE], for a client without discharge date). *)
Theorem phase4_logs_in_residence (caregivers_by_home : gmap Z (list User.t))
    (clients : list Client.t) (w : World) :
  (∀ c, c ∈ clients →
     ∃ cs, caregivers_by_home !! Client.homeId c = Some cs ∧ cs ≠ []) →
  returns (phase4 END_DATE caregivers_by_home clients) w
    (λ logs _,
       Forall (λ e, ∃ c, c ∈ clients
                         ∧ care_entry_of END_DATE caregivers_by_home c e)
              (entries logs)).
Proof.
  revert w. induction clients as [|c rest IH]; intros w Hstaffed;
    cbn [phase4].
  - apply returns_ret, Forall_nil_2.
  - destruct (Hstaffed c) as (cs & Hcs & Hne); [apply list_elem_of_here|].
    apply returns_bind, (returns_client_care_logs _ _ cs); [done|done|].
    intros made w1 Hmade _. apply returns_bind.
    eapply returns_mono.
    { apply IH. intros x Hx. apply Hstaffed. by apply list_elem_of_further. }
    intros more w2 Hmore. apply returns_ret, Forall_entries_app.
    + eapply Forall_impl; [exact Hmade|]. intros e He.
      exists c. split; [apply list_elem_of_here|done].
    + eapply Forall_impl; [exact Hmore|]. intros e (x & Hx & He).
      exists x. split; [by apply list_elem_of_further|done].
Qed.

(** X25: the care logs that Phase 4 writes for one client on one day, of
    whatever kind, all name the same caregiver. *)
Theorem one_caregiver_per_client_day (caregivers_by_home : gmap Z (list User.t))
    (c : Client.t) (w : World) :
  (∃ cs, caregivers_by_home !! Client.homeId c = Some cs ∧ cs ≠ []) →
  returns (client_care_logs END_DATE caregivers_by_home c) w
    (λ logs _,
       ∀ e1 e2, e1 ∈ entries logs → e2 ∈ entries logs →
         DT.date (entry_timestamp e1) = DT.date (entry_timestamp e2) →
         entry_caregiver e1 = entry_caregiver e2).
Proof.
  intros (cs & Hcs & Hne).
  apply (returns_client_care_logs _ _ cs); [done|done|].
  intros logs w' _ [on_duty Hduty] e1 e2 He1 He2 Hday.
  rewrite (proj1 (Forall_forall _ _) Hduty e1 He1).
  rewrite (proj1 (Forall_forall _ _) Hduty e2 He2). by rewrite Hday.
Qed.

End CareLogsSpec.

Lemma phase4_logs_in_residence_witness :
  (∀ c, c ∈ [Scenario.resident] →
     ∃ cs, Scenario.caregivers_by_home !! Client.homeId c = Some cs ∧ cs ≠ [])
  ∧ returns (Generate.phase4 Scenario.END_DATE Scenario.caregivers_by_home
               [Scenario.resident]) Scenario.all_threes
      (λ logs _,
         Forall (λ e, ∃ c, c ∈ [Scenario.resident]
                           ∧ care_entry_of Scenario.END_DATE
                               Scenario.caregivers_by_home c e)
                (entries logs)).
Proof.
  assert (∀ c, c ∈ [Scenario.resident] →
            ∃ cs, Scenario.caregivers_by_home !! Client.homeId c = Some cs ∧ cs ≠ [])
    as Hstaffed.
  { intros c Hc. apply list_elem_of_singleton in Hc as ->.
    exists Scenario.caregivers. by split. }
  split; [exact Hstaffed|].
  exact (phase4_logs_in_residence Scenario.END_DATE Scenario.caregivers_by_home
           [Scenario.resident] Scenario.all_threes Hstaffed).
Defined.

Lemma one_caregiver_per_client_day_witness :
  (∃ cs, Scenario.caregivers_by_home !! Client.homeId Scenario.resident = Some cs
         ∧ cs ≠ [])
  ∧ returns (Generate.client_care_logs Scenario.END_DATE Scenario.caregivers_by_home
               Scenario.resident) Scenario.all_top
      (λ logs _,
         ∀ e1 e2, e1 ∈ entries logs → e2 ∈ entries logs →
           DT.date (entry_timestamp e1) = DT.date (entry_timestamp e2) →
           entry_caregiver e1 = entry_caregiver e2).
Proof.
  assert (∃ cs, Scenario.caregivers_by_home !! Client.homeId Scenario.resident
                = Some cs ∧ cs ≠ []) as Hstaffed.
  { exists Scenario.caregivers. by split. }
  split; [exact Hstaffed|].
  exact (one_caregiver_per_client_day Scenario.END_DATE Scenario.caregivers_by_home
           Scenario.resident Scenario.all_top Hstaffed).
Defined.

(** The run of Phase 4 for the resident of the scenario, every draw being
    the largest, writes two ADL logs, two vitals logs and one ROM log on
    each of the 126 days from the admission on: five logs a day, the first
    two ADL logs both on day 605. *)
Example care_logs_run_has_five_logs_a_day :
  returns (Generate.client_care_logs Scenario.END_DATE Scenario.caregivers_by_home
             Scenario.resident) Scenario.all_top
    (λ logs _,
       length (Generate.adlLogs logs) = 252%nat
       ∧ length (Generate.vitalsLogs logs) = 252%nat
       ∧ length (Generate.romLogs logs) = 126%nat
       ∧ (λ l, DT.date (ADLLog.timestamp l)) <$> take 2 (Generate.adlLogs logs)
         = [605; 605]).
Proof. by vm_compute. Qed.

(** X26: the six levels of an ADL log stay next to the baseline it is
    generated for: with the baseline Independent none of them is Dependent,
    and with a baseline that is neither Independent nor PartialAssist
    (Dependent, or any other text) none of them is Independent.  The note
    is absent or one of five fixed texts, and [createdAt] is the timestamp. *)
Theorem adl_levels_follow_baseline (client_id caregiver_id timestamp : Z)
    (independence_level : string) (w : World) :
  returns (ADLLogGenerator.generate client_id caregiver_id timestamp
                                    independence_level) w
    (λ l _,
       Forall (λ level, level ∈ ["Independent"; "PartialAssist"; "Dependent"]%string)
              (adl_levels l)
       ∧ (independence_level = "Independent"%string →
          "Dependent"%string ∉ adl_levels l)
       ∧ (independence_level ≠ "Independent"%string →
          independence_level ≠ "PartialAssist"%string →
          "Independent"%string ∉ adl_levels l)
       ∧ (∀ text, ADLLog.notes l = Some text → text ∈ ADLLogGenerator.note_texts)
       ∧ ADLLog.createdAt l = ADLLog.timestamp l).
Proof.
  apply returns_adl_generate.
  intros l w' _ _ Htime Hcreated Hlevels Hnote.
  split; [|split; [|split; [|split]]]; [| | |done|by rewrite Htime].
  - eapply Forall_impl; [exact Hlevels|]. intros level.
    unfold ADLLogGenerator._get_levels.
    repeat case_decide; intros Hin;
      repeat (apply elem_of_cons in Hin as [->|Hin]);
      try (by apply elem_of_nil in Hin);
      repeat (first [apply list_elem_of_here | apply list_elem_of_further]).
  - intros -> Hin.
    apply (proj1 (Forall_forall _ _) Hlevels) in Hin.
    unfold ADLLogGenerator._get_levels in Hin. rewrite decide_True in Hin by done.
    repeat (apply elem_of_cons in Hin as [Hin|Hin]; [done|]).
    by apply elem_of_nil in Hin.
  - intros Hne1 Hne2 Hin.
    apply (proj1 (Forall_forall _ _) Hlevels) in Hin.
    unfold ADLLogGenerator._get_levels in Hin.
    rewrite !decide_False in Hin by done.
    repeat (apply elem_of_cons in Hin as [Hin|Hin]; [done|]).
    by apply elem_of_nil in Hin.
Qed.

(** X27: a vitals log has its systolic pressure within 15 below and 20
    above the base (140 with hypertension, 120 without), the diastolic in
    70..95, the pulse in 60..90 and the oxygen saturation in 92..100, so
    the clamp to 88..100 never changes a value and the note on low oxygen
    is never written: the note is the one on elevated pressure when the
    systolic exceeds 150, and absent otherwise, hence always absent for a
    client without hypertension. *)
Theorem vitals_within_ranges (client_id caregiver_id timestamp : Z)
    (has_hypertension has_diabetes : bool) (w : World) :
  returns (VitalsLogGenerator.generate client_id caregiver_id timestamp
                                       has_hypertension has_diabetes) w
    (λ l _,
       (if has_hypertension then 125 ≤ VitalsLog.systolicBP l ≤ 160
        else 105 ≤ VitalsLog.systolicBP l ≤ 140)
       ∧ 70 ≤ VitalsLog.diastolicBP l ≤ 95
       ∧ 60 ≤ VitalsLog.pulse l ≤ 90
       ∧ 92 ≤ VitalsLog.oxygenSaturation l ≤ 100
       ∧ VitalsLog.notes l
         = (if decide (150 < VitalsLog.systolicBP l)
            then Some "Elevated BP noted, will monitor."%string else None)
       ∧ (has_hypertension = false → VitalsLog.notes l = None)).
Proof.
  apply returns_vitals_generate.
  intros l w' _ _ _ _ Hsystolic Hdiastolic Hpulse Ho2 _ Hnotes.
  split; [done|]. split; [done|]. split; [done|]. split; [done|].
  split; [done|]. intros ->. rewrite Hnotes. case_decide; [lia|done].
Qed.

(** X28: a medication log copies name, dosage and route of the medication;
    its status is one of the five of the table; it has a note exactly when
    the status is not Administered, and the note is then not empty; its
    scheduled time is a full hour from 06:00 to 22:00 of the day of the
    timestamp. *)
Theorem medication_log_consistent (client_id caregiver_id timestamp : Z)
    (medication : Medication.t) (w : World) :
  returns (MedicationLogGenerator.generate client_id caregiver_id timestamp
                                           medication) w
    (λ l _,
       MedicationLog.medicationName l = Medication.name medication
       ∧ MedicationLog.dosage l = Medication.dosage medication
       ∧ MedicationLog.route l = Medication.route medication
       ∧ MedicationLog.status l
           ∈ ["Administered"; "Refused"; "GivenLate"; "GivenEarly"; "Held"]%string
       ∧ (MedicationLog.notes l = None
          ↔ MedicationLog.status l = "Administered"%string)
       ∧ (∀ note, MedicationLog.notes l = Some note → note ≠ EmptyString)
       ∧ ∃ hour, 6 ≤ hour ≤ 22
                 ∧ MedicationLog.scheduledTime l
                   = DT.of_date (DT.date timestamp) + DT.hours hour).
Proof.
  apply returns_medication_generate.
  intros l w' _ _ _ _ Hname Hdosage Hroute Hstatus Hscheduled Hnotes.
  split; [done|]. split; [done|]. split; [done|]. split; [exact Hstatus|].
  split; [|split; [|done]].
  - rewrite Hnotes. case_decide as Hne; split; done.
  - intros note. rewrite Hnotes. case_decide as Hne; [|done]. intros [= <-].
    cbn in Hstatus.
    repeat (apply elem_of_cons in Hstatus as [Hstatus|Hstatus];
            [rewrite Hstatus in *; try done; by vm_compute|]).
    by apply elem_of_nil in Hstatus.
Qed.

(** * The homes and beds of Phase 1 *)

Section HousingSpec.

Import Generate.

Variable admin_id : Z.

Lemma home_generate_spec (fuel : nat) (self : HomeGenerator.t) (open_date : Z)
    (created_by_id : option Z) w
    (Q : Home.t * HomeGenerator.t → World → Prop) :
  (∀ home self' w',
     Home.name home ∉ HomeGenerator.used_names self →
     HomeGenerator.used_names self'
     = {[Home.name home]} ∪ HomeGenerator.used_names self →
     Home.capacity home ∈ [4; 5; 6] →
     Home.createdAt home = open_date →
     Home.createdById home = created_by_id →
     Q (home, self') w') →
  returns_or_loops (HomeGenerator.generate fuel self open_date created_by_id) w Q.
Proof.
  intros HQ. unfold HomeGenerator.generate.
  apply returns_or_loops_bind, unique_name_spec.
  intros prefix suffix w1 Hprefix Hsuffix Hfresh _. cbv zeta.
  apply returns_returns_or_loops.
  apply returns_bind, returns_choice; [done|]. intros location _.
  apply returns_bind, returns_choice; [done|]. intros capacity Hcapacity.
  apply returns_bind, returns_uuid4.
  apply returns_bind, returns_faker. intros address.
  apply returns_bind, returns_randint; [done|]. intros zip_suffix _.
  apply returns_bind, returns_faker. intros phone.
  apply returns_ret. by apply HQ.
Qed.

Lemma total_capacity_snoc (hs : list Home.t) (home : Home.t) :
  total_capacity (hs ++ [home])
  = total_capacity hs + Z.of_nat (Z.to_nat (Home.capacity home)).
Proof.
  unfold total_capacity. induction hs as [|h hs IH]; simpl; [lia|].
  rewrite IH. lia.
Qed.

Lemma returns_homes_loop (fuel : nat) (used : gset string) (open_dates : list Z) :
  ∀ finished gen so_far w (Q : housing * HomeGenerator.t → World → Prop),
  housed admin_id used finished so_far gen →
  (∀ h gen' w', housed admin_id used (finished ++ open_dates) h gen' →
                Q (h, gen') w') →
  returns_or_loops (homes_loop fuel gen open_dates admin_id so_far) w Q.
Proof.
  induction open_dates as [|open_date rest IH];
    intros finished gen so_far w Q Hinv HQ; cbn [homes_loop].
  - apply returns_returns_or_loops, returns_ret, HQ. by rewrite app_nil_r.
  - apply returns_or_loops_bind, home_generate_spec.
    intros home gen' w1 Hfresh Hgen' Hcapacity Hcreated Hby.
    apply returns_or_loops_bind, returns_returns_or_loops.
    unfold HomeGenerator.generate_beds. apply returns_beds_loop.
    intros home_beds w2 _ Hids Hbeds _.
    assert (length home_beds = Z.to_nat (Home.capacity home)) as Hlen.
    { by rewrite <- (length_fmap Bed.id), Hids, length_fmap, length_seq. }
    destruct Hinv as [Hdates Hadmin Hnames Hnew Hrecorded Hentries Htotal].
    apply (IH (finished ++ [open_date])).
    + split; simpl.
      * by rewrite fmap_app, Hdates, <- Hcreated.
      * apply Forall_app. split; [done|]. by apply Forall_singleton.
      * rewrite fmap_app. apply NoDup_app. split; [done|].
        split; [|apply NoDup_singleton].
        intros name Hold Hin. apply list_elem_of_singleton in Hin as ->.
        apply Hfresh. rewrite Hrecorded. apply elem_of_union. left.
        by apply elem_of_list_to_set.
      * rewrite fmap_app. intros name Hin.
        apply elem_of_app in Hin as [Hin|Hin]; [by apply Hnew|].
        apply list_elem_of_singleton in Hin as ->. intros Hused.
        apply Hfresh. rewrite Hrecorded. apply elem_of_union. by right.
      * rewrite Hgen', Hrecorded, fmap_app, list_to_set_app_L. set_solver.
      * intros home' Hhome'.
        destruct (decide (Home.id home' = Home.id home)) as [Hid|Hid].
        -- exists home_beds. rewrite Hid. split; [apply lookup_insert_eq|].
           split.
           { rewrite Hlen.
             repeat (apply elem_of_cons in Hcapacity as [->|Hcapacity]); [lia..|].
             by apply elem_of_nil in Hcapacity. }
           split.
           { eapply Forall_impl; [exact Hbeds|]. by intros bed [? _]. }
           intros bed Hbed. apply elem_of_app. by right.
        -- apply elem_of_app in Hhome' as [Hhome'|Hhome'].
           ++ destruct (Hentries home' Hhome') as (bs & Hbs & Hn & Hall & Hsub).
              exists bs. split; [by rewrite lookup_insert_ne|].
              split; [done|]. split; [done|].
              intros bed Hbed. apply elem_of_app. left. by apply Hsub.
           ++ apply list_elem_of_singleton in Hhome'. by subst.
      * rewrite length_app, total_capacity_snoc, <- Htotal, Hlen. lia.
    + intros h gen'' w' Hhoused. apply HQ.
      by rewrite <- app_assoc in Hhoused.
Qed.

(** X29: when the loop of Phase 1 returns, it has made one home for each
    opening date, in order, created by the admin; no two homes have the
    same name, and no name was in use before; every home has an entry in
    [beds_by_home] with 4 to 6 beds that carry its identifier, and the
    list of all beds is as long as the capacities of the homes add up to.
    The loop raises no exception: its only other outcome is that a call of
    [HomeGenerator.generate] goes on drawing names. *)
Theorem phase1_homes_have_beds (fuel : nat) (gen : HomeGenerator.t)
    (open_dates : list Z) (w : World) :
  returns_or_loops (homes_loop fuel gen open_dates admin_id (mkHousing [] ∅ [])) w
    (λ '(h, gen') _,
       housed admin_id (HomeGenerator.used_names gen) open_dates h gen').
Proof.
  apply (returns_homes_loop fuel (HomeGenerator.used_names gen) open_dates []).
  - split; simpl; try done.
    + apply NoDup_nil_2.
    + intros name Hname. by apply elem_of_nil in Hname.
    + by rewrite (left_id_L ∅ (∪)).
    + intros home Hhome. by apply elem_of_nil in Hhome.
  - by intros h gen' w' Hhoused.
Qed.

End HousingSpec.

(** A run of the loop of Phase 1 that returns: the two homes it builds
    have 5 and 4 beds and different names. *)
Example two_homes_are_built :
  returns
    (Generate.homes_loop 5
       (HomeGenerator.__init__ (Config.START_DATE Scenario.END_DATE)
                               Scenario.END_DATE)
       [Scenario.home_open; Scenario.home_open + DT.days 30] 1
       (Generate.mkHousing [] ∅ []))
    Scenario.two_homes
    (λ '(h, _) _,
       Home.name <$> Generate.homes h
       = ["Sunrise Adult Family Home"; "Golden Residential Care"]%string
       ∧ Home.capacity <$> Generate.homes h = [5; 4]
       ∧ length (Generate.beds h) = 9%nat).
Proof. vm_compute. repeat split; reflexivity. Qed.

(** X30: Phase 1 hands Phase 3 what it needs.  When it returns, the admin
    and the sysadmin have their roles, different e-mail addresses and are
    created at [START_DATE]; there are six homes, each created by the
    admin, opening in the horizon at least 30 days before [END_DATE], and
    each with an entry in [beds_by_home].  It raises no exception: its only
    other outcome is that a call of [HomeGenerator.generate] goes on
    drawing names. *)
Theorem phase1_prepares_phase3 (END_DATE : Z) (fuel : nat)
    (user_gen : UserGenerator.t) (home_gen : HomeGenerator.t) (w : World) :
  (size (UserGenerator.used_emails user_gen) + 1 < fuel)%nat →
  returns_or_loops (Generate.phase1 END_DATE fuel user_gen home_gen) w
    (λ '(admin_user, sysadmin_user, admin_user_ids, built, _, _) _,
       User.roles admin_user = ["Admin"%string]
       ∧ User.roles sysadmin_user = ["Sysadmin"%string]
       ∧ User.email admin_user ≠ User.email sysadmin_user
       ∧ User.createdAt admin_user = Config.START_DATE END_DATE
       ∧ User.createdAt sysadmin_user = Config.START_DATE END_DATE
       ∧ admin_user_ids = [User.id admin_user]
       ∧ length (Generate.homes built) = 6%nat
       ∧ Forall (λ home, opens_in_horizon END_DATE home
                         ∧ Home.createdById home = Some (User.id admin_user)
                         ∧ is_Some (Generate.beds_by_home built !! Home.id home))
                (Generate.homes built)).
Proof.
  intros Hfuel. unfold Generate.phase1.
  apply returns_or_loops_bind, returns_returns_or_loops.
  unfold UserGenerator.generate_admin, UserGenerator.generate_with_role.
  apply returns_bind, returns_faker. intros first1.
  apply returns_bind, returns_faker. intros last1.
  apply returns_bind, returns_unique_email; [lia|]. intros c1 email1 Hfresh1 _.
  apply returns_bind, returns_uuid4. apply returns_ret.
  apply returns_or_loops_bind, returns_returns_or_loops.
  unfold UserGenerator.generate_sysadmin, UserGenerator.generate_with_role.
  apply returns_bind, returns_faker. intros first2.
  apply returns_bind, returns_faker. intros last2.
  apply returns_bind, returns_unique_email.
  { simpl. rewrite size_union, size_singleton by set_solver. lia. }
  intros c2 email2 Hfresh2 _.
  apply returns_bind, returns_uuid4. apply returns_ret. cbv zeta.
  apply returns_or_loops_bind, returns_returns_or_loops.
  unfold Generate.home_open_dates. cbv zeta.
  apply returns_bind, returns_randint; [done|]. intros d2 H2.
  apply returns_bind, returns_randint; [done|]. intros d3 H3.
  apply returns_bind, returns_randint; [done|]. intros d4 H4.
  apply returns_bind, returns_randint; [done|]. intros d5 H5.
  apply returns_bind, returns_randint; [done|]. intros d6 H6.
  apply returns_ret.
  apply returns_or_loops_bind.
  apply (returns_homes_loop _ fuel (HomeGenerator.used_names home_gen) _ []).
  { split; simpl; try done.
    + apply NoDup_nil_2.
    + intros name Hname. by apply elem_of_nil in Hname.
    + by rewrite (left_id_L ∅ (∪)).
    + intros home Hhome. by apply elem_of_nil in Hhome. }
  intros built home_gen' w' [Hdates Hadmin _ _ _ Hentries _].
  apply returns_returns_or_loops, returns_ret. simpl in *.
  split; [done|]. split; [done|]. split.
  { intros Heq. apply Hfresh2. simpl. rewrite <- Heq. set_solver. }
  split; [done|]. split; [done|]. split; [done|]. split.
  { by rewrite <- (length_fmap Home.createdAt), Hdates. }
  apply Forall_forall. intros home Hhome. split; [|split].
  - assert (Home.createdAt home ∈ Home.createdAt <$> Generate.homes built) as Hin
      by (by apply list_elem_of_fmap_2).
    rewrite Hdates in Hin. unfold opens_in_horizon.
    unfold Config.START_DATE, DT.days, DT.usec_per_day in *.
    repeat (apply elem_of_cons in Hin as [->|Hin]); [lia..|].
    by apply elem_of_nil in Hin.
  - by apply (proj1 (Forall_forall _ _) Hadmin).
  - destruct (Hentries home Hhome) as (bs & -> & _). by eexists.
Qed.

(** A run of Phase 1 that returns: the second address has a counter,
    since Faker gives the sysadmin the name of the admin; the six homes
    open 14, 90, 190, 320, 450 and 580 days after [START_DATE] and have 30
    beds in all. *)
Example phase1_builds_six_homes :
  returns
    (Generate.phase1 Scenario.END_DATE 5 UserGenerator.__init__
       (HomeGenerator.__init__ (Config.START_DATE Scenario.END_DATE)
                               Scenario.END_DATE))
    Scenario.six_homes
    (λ '(admin_user, sysadmin_user, _, built, _, _) _,
       User.email admin_user = "text.text@lenkcare.example.com"%string
       ∧ User.email sysadmin_user = "text.text1@lenkcare.example.com"%string
       ∧ Home.name <$> Generate.homes built
         = ["Sunrise Adult Family Home"; "Golden Care Home";
            "Peaceful Residential Care"; "Caring Home Care";
            "Harmony Family Home"; "Comfort Adult Family Home"]%string
       ∧ Home.createdAt <$> Generate.homes built
         = (λ d, Config.START_DATE Scenario.END_DATE + DT.days d)
             <$> [14; 90; 190; 320; 450; 580]
       ∧ length (Generate.beds built) = 30%nat).
Proof. vm_compute. repeat split; reflexivity. Qed.

Lemma phase1_prepares_phase3_witness :
  (size (UserGenerator.used_emails UserGenerator.__init__) + 1 < 5)%nat
  ∧ returns_or_loops
      (Generate.phase1 Scenario.END_DATE 5 UserGenerator.__init__
         (HomeGenerator.__init__ (Config.START_DATE Scenario.END_DATE)
                                 Scenario.END_DATE))
      Scenario.six_homes
      (λ '(admin_user, sysadmin_user, admin_user_ids, built, _, _) _,
         User.roles admin_user = ["Admin"%string]
         ∧ User.roles sysadmin_user = ["Sysadmin"%string]
         ∧ User.email admin_user ≠ User.email sysadmin_user
         ∧ User.createdAt admin_user = Config.START_DATE Scenario.END_DATE
         ∧ User.createdAt sysadmin_user = Config.START_DATE Scenario.END_DATE
         ∧ admin_user_ids = [User.id admin_user]
         ∧ length (Generate.homes built) = 6%nat
         ∧ Forall (λ home, opens_in_horizon Scenario.END_DATE home
                           ∧ Home.createdById home = Some (User.id admin_user)
                           ∧ is_Some (Generate.beds_by_home built !! Home.id home))
                  (Generate.homes built)).
Proof.
  assert (size (UserGenerator.used_emails UserGenerator.__init__) + 1 < 5)%nat
    as Hfuel
    by (cbn [UserGenerator.used_emails UserGenerator.__init__];
        rewrite size_empty; lia).
  split; [exact Hfuel|].
  exact (phase1_prepares_phase3 Scenario.END_DATE 5 UserGenerator.__init__
           (HomeGenerator.__init__ (Config.START_DATE Scenario.END_DATE)
                                   Scenario.END_DATE)
           Scenario.six_homes Hfuel).
Defined.

(** * Timestamps and the simulation horizon *)

Section Horizon.

Import Generate.

Variable END_DATE : Z.







End Horizon.


(** The runs [timestamps_within_horizon_witness] is about: Phase 3 admits 4
    clients; for the resident of the scenario Phase 4 writes 630 care logs
    and Phases 5 and 6 make 90 activities and 5 incidents. *)
Example horizon_runs_are_populated :
  returns (Generate.phase3 Scenario.END_DATE Scenario.beds_by_home
             Scenario.caregivers_by_home [Scenario.home]) Scenario.all_top
    (λ '(admitted, _) _, length admitted = 4%nat)
  ∧ returns (Generate.phase4 Scenario.END_DATE Scenario.caregivers_by_home
               [Scenario.resident]) Scenario.all_top
      (λ logs _, length (entries logs) = 630%nat)
  ∧ returns (Generate.phase5 Scenario.END_DATE Scenario.caregivers_by_home
               [Scenario.resident] [Scenario.home]) Scenario.all_top
      (λ activities _, length activities = 90%nat)
  ∧ returns (Generate.phase6 Scenario.END_DATE Scenario.caregivers_by_home
               [Scenario.resident] [1] [Scenario.home]) Scenario.all_top
      (λ incidents _, length incidents = 5%nat).
Proof.
  split; [by vm_compute|]. split; [by vm_compute|]. split; by vm_compute.
Qed.

